(* ===== verification/_CoqProject ===== *)
-Q . S2P
Prelude.v
Bitmap.v
Interfaces.v
Pmm.v
Heap.v
Vmm.v
Boot.v
KernelHeap.v
CString.v
Kfs.v
KfsProofs.v
KfsFiles.v
KfsCheck.v
KfsDirs.v
KfsTheorems.v
Blk.v
Vfs.v
VfsProofs.v
VfsKfs.v
Thread.v
ThreadProofs.v
ThreadTheorems.v
Process.v
ProcessProofs.v
ProcessTheorems.v
Vt.v
VtProofs.v
Tty.v
TtyProofs.v
TtyTheorems.v
UserSpace.v
Elf.v
ElfProofs.v
ElfTheorems.v
UserMem.v
Brk.v
UserAlloc.v
SysWait.v
SysFile.v
SysFileProofs.v
SysFileTheorems.v
Tarfs.v
TarfsProofs.v
TarfsTheorems.v
Multiboot.v
