(* ===== verification/Prelude.v ===== *)
(** * Kryos: a machine-checked model of the kernel

    Kryos is a small x86_64 operating system in C (src/).  This library translates its
    memory managers, its file systems, its threads and processes, its terminals, its
    program loader and most of its system calls into Rocq functions, one definition per
    function or loop of the source, and proves them correct.

    ** The program and its model

    The parts of the kernel are layered, and so are the files:

    - physical memory (src/kernel/memory/pmm.c): [Bitmap], [Pmm].  The state is the
      bitmap with its counters; [pmm_init], [pmm_mark_region], [pmm_alloc_page] and
      [pmm_free_page] are the functions of the source.
    - virtual memory (src/kernel/memory/vmm.c): [Vmm].  The state is the memory of the
      page tables as words, the frame allocator, CR3 and the list of [invlpg]
      instructions; [vmm_map_page], [vmm_unmap_page], [vmm_get_phys],
      [vmm_create_address_space], [vmm_destroy_address_space] and the checks of user
      ranges walk and change the tables as the code does.  [Boot] has the page tables
      that the boot code builds (src/arch/x86_64/boot/boot.asm, the start of
      src/kernel/init/main.c).
    - kernel heap (src/kernel/memory/heap.c): [Heap], over any source of pages;
      [KernelHeap] puts it on top of [Vmm] and [Pmm].
    - strings (src/kernel/lib/string.c): [CString].
    - the KFS file system (src/kernel/fs/kfs.c, src/include/kfs.h): [Kfs] has the
      functions on a disk of sectors, [KfsProofs], [KfsFiles], [KfsCheck] and [KfsDirs]
      the invariants and lemmas, [KfsTheorems] the theorems.
    - block devices as files (src/kernel/fs/blk.c): [Blk].
    - the file system switch (src/kernel/fs/vfs.c): [Vfs], over any system of vnodes;
      [VfsProofs] has the path resolution, [VfsKfs] mounts KFS under it.
    - threads and the scheduler (src/kernel/thread/thread.c,
      src/arch/x86_64/thread/switch.S): [Thread], [ThreadProofs], [ThreadTheorems].
      The state ([tasks]) is shared with the processes: threads and processes at
      their addresses, the ring of threads, the wait queues, the registers and the
      stacks of the threads.
    - processes (src/kernel/process/process.c): [Process], [ProcessProofs],
      [ProcessTheorems].
    - virtual terminals (src/kernel/fs/vt.c, src/kernel/drivers/vga.c): [Vt],
      [VtProofs]; terminals (src/kernel/fs/tty.c): [Tty], [TtyProofs], [TtyTheorems].
    - the program loader (src/kernel/process/elf.c) and the start code of programs
      (src/user/libkryos/startup.S): [Elf], [ElfProofs], [ElfTheorems]; [UserSpace]
      puts it on top of [Vmm] and [Pmm].
    - the tar file system (src/kernel/fs/tarfs.c): [Tarfs], [TarfsProofs],
      [TarfsTheorems].  The archive is the list of its bytes.
    - system calls (src/kernel/syscall/syscall.c): [Brk] has brk on the address space of
      the loader, [SysWait] exit, getpid and waitpid on the state of the threads and
      processes, [SysFile] the calls on files on the descriptor table, the file objects,
      the file systems and user memory; [SysFileProofs] and [SysFileTheorems] have the
      proofs of the latter.  [UserMem] shows that page tables and frames are a user
      memory.
    - the boot information (src/kernel/init/multiboot.c): [Multiboot], on the bytes the
      boot loader leaves in memory; it sets up the state of [Pmm].
    - the allocator of user programs (src/user/libkryos/alloc.c): [UserAlloc], over any
      data segment that grows; sys_brk is one.

    [Interfaces] has the contracts between them as type classes: [FrameSource] (what
    pmm.c promises), [PageBacking] (what the heap needs), [BlockDevice] (a disk driver),
    [KernelAlloc] and [ObjectHeap] (kmalloc and kfree as the file systems and the
    threads see them; either may refuse a request, and a [RefusalLog] notes that it
    did), [AddressSpaces], [UserPages] and [UserMemory] (what vmm.c
    promises to processes, to the loader and to the system calls).  A client is verified
    against the class; the instances [pmm_frames_laws], [vmm_backing], [vmm_pages_laws],
    [vmm_user_memory_laws], [heap_memory] and others discharge it.  [FrameSource] tells
    frames in use ([fs_used]) from those it has handed out ([fs_held]); the tables of
    the boot code are only the former.  The vnode systems of [Vfs] are
    instantiated by KFS in [VfsKfs], the data segments of [UserAlloc] by [Brk].

    This file has what all share: machine integers, the outcomes of C code, arrays, and
    the tactics.  A w-bit integer is a [Z] and each wrap-around is written out ([u64],
    [+64], [s32]).  Code that can fail to return normally has type [outcome]: [Ok], or
    [Stop] with a failed assertion ([Panic] and its line), an access outside an object
    ([BadAccess]), a division by 0 ([DivideError]), or [NoFuel].

    ** What the theorems show

    - Memory: the frame allocator never hands out a frame twice and its contract is
      the one its clients use; the heap keeps its blocks tiled and coalesced, its
      payloads disjoint, aligned and mapped, over any run of calls; the page tables of
      the boot code are well formed; mapping and unmapping change exactly one
      translation of one address space, with the permissions through all levels of the
      tables; the checks of user ranges agree with the page tables.
    - Files: the theorems follow the answers of the kernel heap, so that a call fails
      for want of memory only where a request was refused.  The KFS operations keep the
      disk consistent and read, write, truncate, look up and create what a file or a
      directory as a list says; what is written through the file system switch is what
      is read back; path resolution is the walk over the components of the path.
    - Threads: along any sequence of operations the ring and the queues stay well
      formed, and the CPU goes only to a ready thread; the scheduler refines round robin;
      a ready thread runs when its turn comes; a switch there and back restores a
      thread.  Processes: the tree of processes along creation, exit and destruction.
    - Terminals: the line discipline refines a queue of edited lines, no wakeup is
      lost (a blocked thread is in a wait queue, and a terminal with a queue holds no
      complete line), no byte sequence writes outside a screen.
    - Programs: the loader returns on every file, accepts exactly the valid ones,
      builds the reference image, never maps a page writable and executable, and hands
      the arguments to main.
    - System calls: what a program writes to a new file reaches the disk and comes back
      through read; the descriptor table stays well formed along any sequence of calls;
      paths are copied exactly; the status of an exit reaches the waiting parent; brk
      changes exactly the pages between the old and the new end.
    - Archives: mounting is safe for every sequence of bytes, and mounting an archive
      gives back the files in it.
    - Start: from well-formed boot information the kernel frees exactly the frames that
      are available and hold nothing the boot left there.
    - User programs: what malloc returns lies in the data segment and overlaps nothing
      the program holds, over any run of malloc and free.

    ** Bounds and fuel

    Loops whose length is in the source have that length ([for_each], [load_segments],
    [map_stack]).  Other loops take fuel, and theorems show that it is enough: the
    bitmap scan has the number of bytes, the heap walks the number of blocks of the
    list and two turns of the allocation loop (an expansion makes room for the second),
    the ring walks the number of threads, the page loops of the loader the number of
    pages ([page_count]), the file loops the number of bytes left, the loop over an
    archive the number of its blocks.  The theorems that these functions return [Ok]
    therefore say that the loops end.  Assumptions on sizes are those of the machine:
    frames below 2^52 (2^30 for page tables, which the kernel reaches through its direct
    map), files below 2^31 bytes for the loader, data segments of user
    programs below 2^46.  The code does not check sizes near 2^64, which wrap around:
    [sys_brk_wraps], [malloc_wraps], [kmalloc_huge_request_wraps].

    ** Not modelled

    Interrupt masking ([irq_save]) has no effect on the sequential models; preemption
    appears as explicit scheduler calls between operations.  The allocator, the address
    spaces and the disk are parameters with laws where their code belongs to another
    component or to the hardware.  [AddressSpaces], which processes use, is
    instantiated by a small concrete machine and not by [Vmm].
    Of the system calls, spawn and execve (which combine the loader, a new process and
    the registers of the caller), the dispatch by number and the entry code in assembly
    are not modelled.  Boot code other than its page
    tables, descriptor tables, interrupt controllers, the ATA, PS/2 and serial drivers are port I/O
    and processor state; printing is output for people; the tests, the rest of the user programs and the host
    scripts are not part of the kernel. *)

From Stdlib Require Export ZArith Lia Bool.
From stdpp Require Export base option list gmap numbers.

#[global] Open Scope Z_scope.

Declare Scope kernel_scope.
Delimit Scope kernel_scope with kernel.
#[global] Open Scope kernel_scope.

(** ** Machine integers

    A w-bit unsigned C integer is a [Z]; the wrap-around of C arithmetic is
    written out with these truncations. *)
Definition u8 (z : Z) : Z := z mod 2 ^ 8.
Definition u16 (z : Z) : Z := z mod 2 ^ 16.
Definition u32 (z : Z) : Z := z mod 2 ^ 32.
Definition u64 (z : Z) : Z := z mod 2 ^ 64.

(** The value of a w-bit pattern read as a two's complement signed integer. *)
Definition s32 (z : Z) : Z := let r := u32 z in if r <? 2 ^ 31 then r else r - 2 ^ 32.
Definition s64 (z : Z) : Z := let r := u64 z in if r <? 2 ^ 63 then r else r - 2 ^ 64.

Notation "a '+64' b" := (u64 (a + b)) (at level 50, left associativity) : kernel_scope.
Notation "a '-64' b" := (u64 (a - b)) (at level 50, left associativity) : kernel_scope.
Notation "a '*64' b" := (u64 (a * b)) (at level 40, left associativity) : kernel_scope.

(** [(x & mask) != 0], the C test of a flag word. *)
Definition has (x mask : Z) : bool := negb (Z.land x mask =? 0).

(** ** Outcomes

    A kernel function either returns or stops the machine: [Panic n] is a
    [panic] or a failed [KASSERT] at source line [n], [BadAccess] an access
    outside the object the pointer was made for, [NoFuel] a loop bound that was
    too small (ruled out by a theorem wherever it can be produced). *)
Inductive stop : Set :=
| Panic (line : Z)
| BadAccess
| DivideError
| NoFuel.

Inductive outcome (A : Type) : Type :=
| Ok (a : A)
| Stop (s : stop).
Arguments Ok {A} a.
Arguments Stop {A} s.

Definition obind {A B : Type} (m : outcome A) (k : A -> outcome B) : outcome B :=
  match m with
  | Ok a => k a
  | Stop s => Stop s
  end.

Notation "'let*' x ':=' m 'in' k" := (obind m (fun x => k))
  (at level 10, x pattern, m at level 100, k at level 200) : kernel_scope.

(** [KASSERT(b)] at source line [n]. *)
Definition kassert (b : bool) (n : Z) : outcome unit := if b then Ok tt else Stop (Panic n).

Definition of_opt {A : Type} (o : option A) : outcome A :=
  match o with
  | Some a => Ok a
  | None => Stop BadAccess
  end.

(** ** Arrays indexed by a machine integer *)
Definition znth {A : Type} (l : list A) (i : Z) : option A :=
  if 0 <=? i then l !! Z.to_nat i else None.

Definition zset {A : Type} (l : list A) (i : Z) (x : A) : list A :=
  if 0 <=? i then <[Z.to_nat i := x]> l else l.

Definition zlen {A : Type} (l : list A) : Z := Z.of_nat (length l).

(** How many [i < n] satisfy [f]. *)
Fixpoint countZ (f : Z -> bool) (n : nat) : Z :=
  match n with
  | O => 0
  | S m => countZ f m + (if f (Z.of_nat m) then 1 else 0)
  end.

(** The least [i < n] with [f i], if any. *)
Fixpoint firstZ (f : Z -> bool) (start : Z) (n : nat) : option Z :=
  match n with
  | O => None
  | S m => if f start then Some start else firstZ f (start + 1) m
  end.

(** ** Tactics *)

(** Splits on the boolean test of the first [if] or the scrutinee of the first
    [match] of the goal, remembering the equation. *)
Ltac split_if :=
  match goal with
  | |- context [ if ?b then _ else _ ] => let E := fresh "E" in destruct b eqn:E
  | |- context [ match ?x with _ => _ end ] => let E := fresh "E" in destruct x eqn:E
  end.

Ltac split_if_in H :=
  match type of H with
  | context [ if ?b then _ else _ ] => let E := fresh "E" in destruct b eqn:E
  | context [ match ?x with _ => _ end ] => let E := fresh "E" in destruct x eqn:E
  end.

(** Reflects the boolean comparisons of the context into [Prop]. *)
Ltac reflect_bools :=
  repeat match goal with
  | H : (_ && _) = true |- _ => apply andb_true_iff in H; destruct H
  | H : (_ || _) = false |- _ => apply orb_false_iff in H; destruct H
  | H : negb _ = true |- _ => apply negb_true_iff in H
  | H : negb _ = false |- _ => apply negb_false_iff in H
  | H : (_ <? _) = true |- _ => apply Z.ltb_lt in H
  | H : (_ <? _) = false |- _ => apply Z.ltb_ge in H
  | H : (_ <=? _) = true |- _ => apply Z.leb_le in H
  | H : (_ <=? _) = false |- _ => apply Z.leb_gt in H
  | H : (_ >? _) = true |- _ => rewrite Z.gtb_ltb in H; apply Z.ltb_lt in H
  | H : (_ >? _) = false |- _ => rewrite Z.gtb_ltb in H; apply Z.ltb_ge in H
  | H : (_ >=? _) = true |- _ => rewrite Z.geb_leb in H; apply Z.leb_le in H
  | H : (_ >=? _) = false |- _ => rewrite Z.geb_leb in H; apply Z.leb_gt in H
  | H : (_ =? _) = true |- _ => apply Z.eqb_eq in H
  | H : (_ =? _) = false |- _ => apply Z.eqb_neq in H
  end.

(** Decides an arithmetic goal with division and remainder by constants. *)
Ltac dlia := Z.div_mod_to_equations; lia.

Create HintDb kernel discriminated.
Create Rewrite HintDb zarr.

(** ** Arithmetic lemmas *)
Section Words.

Lemma u64_id z : 0 <= z < 2 ^ 64 -> u64 z = z.
Proof. intros H; unfold u64; apply Z.mod_small, H. Qed.

Lemma u64_range z : 0 <= u64 z < 2 ^ 64.
Proof. unfold u64; apply Z.mod_pos_bound; lia. Qed.

Lemma u32_id z : 0 <= z < 2 ^ 32 -> u32 z = z.
Proof. intros H; unfold u32; apply Z.mod_small, H. Qed.

Lemma u32_range z : 0 <= u32 z < 2 ^ 32.
Proof. unfold u32; apply Z.mod_pos_bound; lia. Qed.

Lemma u8_id z : 0 <= z < 2 ^ 8 -> u8 z = z.
Proof. intros H; unfold u8; apply Z.mod_small, H. Qed.

Lemma u8_range z : 0 <= u8 z < 2 ^ 8.
Proof. unfold u8; apply Z.mod_pos_bound; lia. Qed.

(** Clearing the low [n] bits of a 64-bit word rounds down to a multiple. *)
Lemma land_not_low x n :
  0 <= n <= 64 -> 0 <= x < 2 ^ 64 ->
  Z.land x (u64 (Z.lnot (2 ^ n - 1))) = x - x mod 2 ^ n.
Proof.
  intros Hn Hx.
  assert (Hs : x - x mod 2 ^ n = Z.shiftl (Z.shiftr x n) n).
  { rewrite Z.shiftl_mul_pow2, Z.shiftr_div_pow2 by lia.
    pose proof (Z.div_mod x (2 ^ n)). lia. }
  rewrite Hs. unfold u64. rewrite <- Z.land_ones by lia.
  replace (2 ^ n - 1) with (Z.ones n) by (rewrite Z.ones_equiv; lia).
  apply Z.bits_inj'; intros i Hi.
  rewrite !Z.land_spec, Z.lnot_spec, Z.shiftl_spec by lia.
  destruct (Z.ltb_spec i n).
  - rewrite Z.ones_spec_low, andb_false_r by lia.
    now rewrite Z.testbit_neg_r by lia.
  - rewrite Z.ones_spec_high, Z.shiftr_spec by lia.
    replace (i - n + n) with i by lia. cbn.
    destruct (Z.ltb_spec i 64).
    + now rewrite Z.ones_spec_low, andb_true_r by lia.
    + rewrite <- (Z.mod_small x (2 ^ 64)) by lia.
      now rewrite Z.mod_pow2_bits_high by lia.
Qed.

End Words.

#[export] Hint Resolve u64_range u32_range u8_range : kernel.

(** ** Array lemmas *)
Section Arrays.
Context {A : Type}.
Implicit Types (l : list A) (x y : A).

Lemma znth_Some l i x : znth l i = Some x -> 0 <= i < zlen l.
Proof.
  unfold znth, zlen. intros H. split_if_in H; [|discriminate].
  apply lookup_lt_Some in H. reflect_bools. lia.
Qed.

Lemma znth_is_Some l i : 0 <= i < zlen l -> exists x, znth l i = Some x.
Proof.
  unfold znth, zlen. intros H. destruct (Z.leb_spec 0 i); [|lia].
  apply lookup_lt_is_Some_2. lia.
Qed.

Lemma znth_None l i : ~ (0 <= i < zlen l) -> znth l i = None.
Proof.
  intros H. destruct (znth l i) as [x|] eqn:E; [|reflexivity].
  apply znth_Some in E. lia.
Qed.

Lemma zlen_zset l i x : zlen (zset l i x) = zlen l.
Proof. unfold zset, zlen. split_if; [|reflexivity]. now rewrite length_insert. Qed.

Lemma znth_zset_eq l i x : 0 <= i < zlen l -> znth (zset l i x) i = Some x.
Proof.
  unfold znth, zset, zlen. intros H. destruct (Z.leb_spec 0 i); [|lia].
  apply list_lookup_insert_eq. lia.
Qed.

Lemma znth_zset_ne l i j x : i <> j -> znth (zset l i x) j = znth l j.
Proof.
  unfold znth, zset. intros H.
  destruct (Z.leb_spec 0 i), (Z.leb_spec 0 j); try reflexivity.
  apply list_lookup_insert_ne. lia.
Qed.

Lemma zset_zset l i x y : zset (zset l i x) i y = zset l i y.
Proof. unfold zset. split_if; [|reflexivity]. apply list_insert_insert_eq. Qed.

Lemma zset_id l i x : znth l i = Some x -> zset l i x = l.
Proof. unfold znth, zset. split_if; [|discriminate]. apply list_insert_id. Qed.

Lemma znth_zset l i j x :
  znth (zset l i x) j = if (i =? j) && (0 <=? i) && (i <? zlen l) then Some x else znth l j.
Proof.
  destruct (Z.eqb_spec i j) as [->|Hne]; cbn; [|now apply znth_zset_ne].
  destruct (Z.leb_spec 0 j); cbn.
  - destruct (Z.ltb_spec j (zlen l)); [now apply znth_zset_eq|].
    rewrite !znth_None; rewrite ?zlen_zset; auto; lia.
  - rewrite !znth_None; rewrite ?zlen_zset; auto; lia.
Qed.

Lemma znth_ext l l' :
  zlen l = zlen l' -> (forall i, 0 <= i < zlen l -> znth l i = znth l' i) -> l = l'.
Proof.
  intros Hlen H. apply list_eq. intros i.
  destruct (decide (Z.of_nat i < zlen l)) as [Hi|Hi].
  - specialize (H (Z.of_nat i)). unfold znth in H.
    replace (0 <=? Z.of_nat i) with true in H by (symmetry; apply Z.leb_le; lia).
    rewrite !Nat2Z.id in H. apply H. lia.
  - unfold zlen in *. rewrite !lookup_ge_None_2 by lia. reflexivity.
Qed.

Lemma znth_replicate n x i : 0 <= i < Z.of_nat n -> znth (replicate n x) i = Some x.
Proof.
  intros H. unfold znth. destruct (Z.leb_spec 0 i); [|lia].
  apply lookup_replicate_2. lia.
Qed.

Lemma zlen_replicate n x : zlen (replicate n x) = Z.of_nat n.
Proof. unfold zlen. now rewrite length_replicate. Qed.

Lemma Forall_zset (P : A -> Prop) l i x : Forall P l -> P x -> Forall P (zset l i x).
Proof. intros Hl Hx. unfold zset. split_if; [|done]. now apply Forall_insert. Qed.

Lemma Forall_znth (P : A -> Prop) l i x : Forall P l -> znth l i = Some x -> P x.
Proof.
  intros Hl Hx. unfold znth in Hx. split_if_in Hx; [|discriminate].
  eapply Forall_lookup_1; eauto.
Qed.

End Arrays.

#[export] Hint Rewrite @zlen_zset @zlen_replicate : zarr.

(** ** Counting and searching *)
Section Counting.
Implicit Types f g : Z -> bool.

Lemma countZ_bounds f n : 0 <= countZ f n <= Z.of_nat n.
Proof. induction n; cbn [countZ]; [lia|]. split_if; lia. Qed.

Lemma countZ_ext f g n :
  (forall i, 0 <= i < Z.of_nat n -> f i = g i) -> countZ f n = countZ g n.
Proof.
  induction n; intros H; cbn [countZ]; [reflexivity|].
  rewrite IHn by (intros; apply H; lia). rewrite H by lia. reflexivity.
Qed.

Lemma countZ_flip f g n k :
  0 <= k < Z.of_nat n -> f k = false -> g k = true ->
  (forall i, i <> k -> f i = g i) -> countZ g n = countZ f n + 1.
Proof.
  intros Hk Hf Hg Hext. induction n; cbn [countZ]; [lia|].
  destruct (Z.eq_dec k (Z.of_nat n)) as [->|Hne].
  - rewrite Hf, Hg, (countZ_ext f g) by (intros; apply Hext; lia). lia.
  - rewrite IHn by lia. rewrite (Hext (Z.of_nat n)) by lia. lia.
Qed.

Lemma countZ_all f n : (forall i, 0 <= i < Z.of_nat n -> f i = true) -> countZ f n = Z.of_nat n.
Proof.
  induction n; intros H; cbn [countZ]; [lia|].
  rewrite H by lia. rewrite IHn by (intros; apply H; lia). lia.
Qed.

Lemma countZ_full f n :
  countZ f n = Z.of_nat n -> forall i, 0 <= i < Z.of_nat n -> f i = true.
Proof.
  induction n; cbn [countZ]; intros H i Hi; [lia|].
  pose proof (countZ_bounds f n).
  destruct (f (Z.of_nat n)) eqn:E; [|lia].
  destruct (Z.eq_dec i (Z.of_nat n)) as [->|]; [exact E|]. apply IHn; lia.
Qed.

Lemma firstZ_Some f s n i :
  firstZ f s n = Some i ->
  s <= i < s + Z.of_nat n /\ f i = true /\ forall j, s <= j < i -> f j = false.
Proof.
  revert s; induction n; intros s H; cbn [firstZ] in H; [discriminate|].
  destruct (f s) eqn:E.
  - injection H as <-. split; [lia|]. split; [exact E|]. intros; lia.
  - apply IHn in H as (Hi & Hf & Hj). split; [lia|]. split; [exact Hf|].
    intros j Hj'. destruct (Z.eq_dec j s) as [->|]; [exact E|]. apply Hj; lia.
Qed.

Lemma firstZ_None f s n :
  firstZ f s n = None -> forall j, s <= j < s + Z.of_nat n -> f j = false.
Proof.
  revert s; induction n; intros s H j Hj; cbn [firstZ] in H; [lia|].
  destruct (f s) eqn:E; [discriminate|].
  destruct (Z.eq_dec j s) as [->|]; [exact E|]. apply (IHn _ H); lia.
Qed.

Lemma firstZ_unique f s n i :
  s <= i < s + Z.of_nat n -> f i = true -> (forall j, s <= j < i -> f j = false) ->
  firstZ f s n = Some i.
Proof.
  intros Hi Hf Hj. destruct (firstZ f s n) as [k|] eqn:E.
  - apply firstZ_Some in E as (Hk & Hfk & Hjk).
    destruct (Z.lt_trichotomy i k) as [|[->|]]; [|reflexivity|].
    + rewrite Hjk in Hf by lia. discriminate.
    + rewrite Hj in Hfk by lia. discriminate.
  - rewrite (firstZ_None _ _ _ E) in Hf by lia. discriminate.
Qed.

Lemma firstZ_app f s a b :
  firstZ f s (a + b) =
  match firstZ f s a with Some i => Some i | None => firstZ f (s + Z.of_nat a) b end.
Proof.
  revert s; induction a; intros s; cbn [firstZ Nat.add].
  - now rewrite Z.add_0_r.
  - destruct (f s); [reflexivity|]. rewrite IHa.
    replace (s + 1 + Z.of_nat a) with (s + Z.of_nat (S a)) by lia. reflexivity.
Qed.

Lemma firstZ_shift f d s n :
  firstZ f (d + s) n = option_map (Z.add d) (firstZ (fun i => f (d + i)) s n).
Proof.
  revert s; induction n; intros s; cbn [firstZ]; [reflexivity|].
  destruct (f (d + s)); [reflexivity|].
  replace (d + s + 1) with (d + (s + 1)) by lia. apply IHn.
Qed.

Lemma firstZ_ext f g s n :
  (forall i, s <= i < s + Z.of_nat n -> f i = g i) -> firstZ f s n = firstZ g s n.
Proof.
  revert s; induction n; intros s H; cbn [firstZ]; [reflexivity|].
  rewrite H by lia. destruct (g s); [reflexivity|]. apply IHn. intros; apply H; lia.
Qed.

End Counting.

(** ** Step relations *)
Lemma rtc_invariant {A : Type} (R : relation A) (P : A -> Prop) :
  (forall x y, R x y -> P x -> P y) -> forall x y, rtc R x y -> P x -> P y.
Proof. intros Hstep x y H. induction H; eauto. Qed.

(** ** Concatenations *)
Section Concat.
Context {A B : Type}.
Implicit Types (f : A -> list B) (l : list A).

Lemma elem_of_concat_map f l x : x ∈ concat (f <$> l) <-> exists i, i ∈ l /\ x ∈ f i.
Proof.
  induction l as [|a l IH]; cbn [fmap list_fmap concat].
  - rewrite elem_of_nil. split; [done|]. intros (i & Hi & _). now apply elem_of_nil in Hi.
  - rewrite elem_of_app. setoid_rewrite elem_of_cons. split.
    + intros [Hx|Hx]; [eauto|]. apply IH in Hx as (i & Hi & Hx). eauto.
    + intros (i & [->|Hi] & Hx); [auto|]. right. apply IH. eauto.
Qed.

Lemma NoDup_concat_map f l :
  NoDup l -> (forall i, i ∈ l -> NoDup (f i)) ->
  (forall i j x, i ∈ l -> j ∈ l -> x ∈ f i -> x ∈ f j -> i = j) -> NoDup (concat (f <$> l)).
Proof.
  induction 1 as [|a l Ha ND IH]; intros Hf Hd; cbn [fmap list_fmap concat]; [constructor|].
  apply list.NoDup_app. split; [apply Hf; left|]. split.
  - intros x Hx (i & Hi & Hx')%elem_of_concat_map. apply Ha.
    rewrite (Hd a i x); [exact Hi|left|now right|exact Hx|exact Hx'].
  - apply IH; [intros i Hi; apply Hf; now right|].
    intros i j x Hi Hj. apply Hd; now right.
Qed.

End Concat.

Lemma zlen_nonneg {A : Type} (l : list A) : 0 <= zlen l.
Proof. unfold zlen. lia. Qed.

(** Rewriting with this equation leaves the binds behind it folded. *)
Lemma obind_Ok {X Y : Type} (x : X) (k : X -> outcome Y) : obind (Ok x) k = k x.
Proof. reflexivity. Qed.
