(* ===== verification/Bitmap.v ===== *)
(** * Byte-array bitmaps

    Both the physical memory manager (src/kernel/memory/pmm.c) and the file
    system (src/kernel/fs/kfs.c) keep one bit per resource in a [uint8_t]
    array: resource [i] is bit [i % 8] of byte [i / 8].  This file holds the
    three bit operations those components use on such an array, as they are
    written in C (shift, mask, complement at [int] width), and the lemmas that
    relate them to the set of positions that are on. *)

From S2P Require Import Prelude.

(** [bitmap[i / 8] & (1 << (i % 8))] as a truth value; [None] when the byte is
    outside the array. *)
Definition bm_test (bm : list Z) (i : Z) : option bool :=
  match znth bm (i / 8) with
  | Some b => Some (has b (Z.shiftl 1 (i mod 8)))
  | None => None
  end.

(** [bitmap[i / 8] |= (1 << (i % 8))]. *)
Definition bm_set (bm : list Z) (i : Z) : option (list Z) :=
  match znth bm (i / 8) with
  | Some b => Some (zset bm (i / 8) (u8 (Z.lor b (Z.shiftl 1 (i mod 8)))))
  | None => None
  end.

(** [bitmap[i / 8] &= ~(1 << (i % 8))]. *)
Definition bm_clear (bm : list Z) (i : Z) : option (list Z) :=
  match znth bm (i / 8) with
  | Some b => Some (zset bm (i / 8) (u8 (Z.land b (Z.lnot (Z.shiftl 1 (i mod 8))))))
  | None => None
  end.

(** Position [i] of the bitmap, as a set of positions sees it. *)
Definition bm_bit (bm : list Z) (i : Z) : bool :=
  match znth bm (i / 8) with
  | Some b => Z.testbit b (i mod 8)
  | None => false
  end.

Definition byte (b : Z) : Prop := 0 <= b < 2 ^ 8.

Lemma has_bit b k : 0 <= k -> has b (Z.shiftl 1 k) = Z.testbit b k.
Proof.
  intros Hk. unfold has. rewrite Z.shiftl_1_l.
  destruct (Z.testbit b k) eqn:E.
  - apply negb_true_iff, Z.eqb_neq. intros H.
    assert (Hb : Z.testbit (Z.land b (2 ^ k)) k = false) by (rewrite H; apply Z.bits_0).
    rewrite Z.land_spec, E, Z.pow2_bits_true in Hb by lia. discriminate.
  - apply negb_false_iff, Z.eqb_eq. apply Z.bits_inj'; intros i Hi.
    rewrite Z.land_spec, Z.bits_0, Z.pow2_bits_eqb by lia.
    destruct (Z.eqb_spec k i) as [<-|]; [now rewrite E|apply andb_false_r].
Qed.

Lemma byte_testbit_high b k : byte b -> 8 <= k -> Z.testbit b k = false.
Proof.
  intros Hb Hk. rewrite <- (Z.mod_small b (2 ^ 8)) by exact Hb.
  apply Z.mod_pow2_bits_high; lia.
Qed.

Lemma u8_testbit b k : 0 <= k < 8 -> Z.testbit (u8 b) k = Z.testbit b k.
Proof. intros Hk. unfold u8. apply Z.mod_pow2_bits_low; lia. Qed.

Section Bits.
Variable bm : list Z.
Variable n : Z.
Hypothesis Hlen : 8 * zlen bm = n.

Lemma bm_test_spec i : 0 <= i < n -> bm_test bm i = Some (bm_bit bm i).
Proof.
  intros Hi. unfold bm_test, bm_bit.
  destruct (znth_is_Some bm (i / 8)) as [b ->]; [dlia|].
  rewrite has_bit by dlia. reflexivity.
Qed.

Lemma bm_test_oob i : ~ (0 <= i < n) -> bm_test bm i = None.
Proof. intros Hi. unfold bm_test. rewrite znth_None by dlia. reflexivity. Qed.

Lemma bm_test_Some i b : bm_test bm i = Some b -> 0 <= i < n /\ b = bm_bit bm i.
Proof.
  intros H. unfold bm_test, bm_bit in *.
  destruct (znth bm (i / 8)) as [x|] eqn:E; [|discriminate].
  injection H as <-. apply znth_Some in E. split; [dlia|]. apply has_bit; dlia.
Qed.

Lemma bm_set_spec i :
  0 <= i < n ->
  exists bm', bm_set bm i = Some bm' /\ zlen bm' = zlen bm /\
    (forall j, bm_bit bm' j = if j =? i then true else bm_bit bm j) /\
    (Forall byte bm -> Forall byte bm').
Proof.
  intros Hi. unfold bm_set, bm_bit.
  destruct (znth_is_Some bm (i / 8)) as [b Hb]; [dlia|]. rewrite Hb.
  eexists; split; [reflexivity|]. split; [apply zlen_zset|]. split.
  - intros j. destruct (Z.eqb_spec j i) as [->|Hne].
    + rewrite znth_zset_eq by dlia.
      rewrite u8_testbit, Z.lor_spec, Z.shiftl_1_l, Z.pow2_bits_true by dlia.
      apply orb_true_r.
    + destruct (Z.eq_dec (j / 8) (i / 8)) as [Hq|Hq].
      * rewrite Hq, znth_zset_eq, Hb by dlia.
        rewrite u8_testbit, Z.lor_spec, Z.shiftl_1_l, Z.pow2_bits_false by dlia.
        apply orb_false_r.
      * rewrite znth_zset_ne by lia. reflexivity.
  - intros HF. apply Forall_zset; [exact HF|]. apply u8_range.
Qed.

Lemma bm_clear_spec i :
  0 <= i < n ->
  exists bm', bm_clear bm i = Some bm' /\ zlen bm' = zlen bm /\
    (forall j, bm_bit bm' j = if j =? i then false else bm_bit bm j) /\
    (Forall byte bm -> Forall byte bm').
Proof.
  intros Hi. unfold bm_clear, bm_bit.
  destruct (znth_is_Some bm (i / 8)) as [b Hb]; [dlia|]. rewrite Hb.
  eexists; split; [reflexivity|]. split; [apply zlen_zset|]. split.
  - intros j. destruct (Z.eqb_spec j i) as [->|Hne].
    + rewrite znth_zset_eq by dlia.
      rewrite u8_testbit, Z.land_spec, Z.lnot_spec, Z.shiftl_1_l, Z.pow2_bits_true by dlia.
      apply andb_false_r.
    + destruct (Z.eq_dec (j / 8) (i / 8)) as [Hq|Hq].
      * rewrite Hq, znth_zset_eq, Hb by dlia.
        rewrite u8_testbit, Z.land_spec, Z.lnot_spec, Z.shiftl_1_l, Z.pow2_bits_false by dlia.
        apply andb_true_r.
      * rewrite znth_zset_ne by lia. reflexivity.
  - intros HF. apply Forall_zset; [exact HF|]. apply u8_range.
Qed.

End Bits.

(** Two byte arrays of one length with the same bits are the same array. *)
Lemma bm_ext bm bm' :
  zlen bm = zlen bm' -> Forall byte bm -> Forall byte bm' ->
  (forall i, 0 <= i < 8 * zlen bm -> bm_bit bm i = bm_bit bm' i) -> bm = bm'.
Proof.
  intros Hlen HF HF' Hbit. apply znth_ext; [exact Hlen|]. intros i Hi.
  destruct (znth_is_Some bm i) as [b Hb]; [lia|].
  destruct (znth_is_Some bm' i) as [b' Hb']; [lia|].
  rewrite Hb, Hb'. f_equal. apply Z.bits_inj'; intros k Hk.
  destruct (Z.ltb_spec k 8).
  - specialize (Hbit (8 * i + k)). unfold bm_bit in Hbit.
    replace ((8 * i + k) / 8) with i in Hbit by dlia.
    replace ((8 * i + k) mod 8) with k in Hbit by dlia.
    rewrite Hb, Hb' in Hbit. apply Hbit; lia.
  - rewrite (byte_testbit_high b), (byte_testbit_high b'); try reflexivity; try lia.
    + exact (Forall_znth _ _ _ _ HF' Hb').
    + exact (Forall_znth _ _ _ _ HF Hb).
Qed.

(** A byte is not [0xFF] exactly when one of its bits is off. *)
Lemma byte_not_full b :
  byte b -> b <> 255 -> exists k, 0 <= k < 8 /\ Z.testbit b k = false.
Proof.
  intros Hb Hne. destruct (firstZ (fun k => negb (Z.testbit b k)) 0 8) as [k|] eqn:E.
  - apply firstZ_Some in E as (Hk & Hf & _). exists k. split; [lia|].
    now apply negb_true_iff.
  - exfalso. apply Hne. change 255 with (Z.ones 8). apply Z.bits_inj'; intros k Hk.
    destruct (Z.ltb_spec k 8).
    + rewrite Z.ones_spec_low by lia.
      pose proof (firstZ_None _ _ _ E k ltac:(lia)) as Hf. now apply negb_false_iff in Hf.
    + rewrite Z.ones_spec_high by lia. now apply byte_testbit_high.
Qed.

Lemma full_byte_bit k : 0 <= k < 8 -> Z.testbit 255 k = true.
Proof. intros Hk. change 255 with (Z.ones 8). apply Z.ones_spec_low; lia. Qed.
