(* ===== verification/Interfaces.v ===== *)
(** * Interfaces between components

    Contracts that one kernel component offers to another.  A client's theorems
    are proved against the class; the component that implements it gives the
    instance. *)

From S2P Require Import Prelude.

(** ** Constants of the interfaces (src/include/pmm.h, src/kernel/memory/vmm.h) *)
Definition PMM_PAGE_SIZE : Z := 4096.

Definition VMM_FLAG_NONE : Z := 0.
Definition VMM_FLAG_WRITABLE : Z := 1.
Definition VMM_FLAG_USER : Z := 2.
Definition VMM_FLAG_NO_EXECUTE : Z := 4.

(** ** Page frames

    What the virtual memory manager, the kernel heap and the system calls rely
    on from the physical memory manager (src/include/pmm.h): [pmm_alloc_page]
    returns [0] or a page-aligned frame that nobody holds, [pmm_free_page] takes
    back a frame that is held. *)
Class FrameSource (S : Type) : Type := {
  fs_alloc : S -> outcome (Z * S);
  fs_free : Z -> S -> outcome S;
  (** the states in which the contract holds *)
  fs_ok : S -> Prop;
  (** frame [p] has been handed out and not given back *)
  fs_held : S -> Z -> Prop;
  (** frame [p] is not available: it is held, or it was reserved from the start (the
      kernel image with its page tables, the bitmap) and is never handed out *)
  fs_used : S -> Z -> Prop;
  (** frames are below this address *)
  fs_limit : S -> Z;
  (** the number of frames that are left *)
  fs_room : S -> Z
}.

Class FrameSourceLaws (S : Type) `{FrameSource S} : Prop := {
  fs_used_range s p : fs_ok s -> fs_used s p -> p mod 4096 = 0 /\ 0 < p < fs_limit s;
  fs_held_used s p : fs_ok s -> fs_held s p -> fs_used s p;
  fs_limit_range s : fs_ok s -> 0 <= fs_limit s <= 2 ^ 52;
  fs_alloc_law s : fs_ok s ->
    exists p s', fs_alloc s = Ok (p, s') /\ fs_ok s' /\ fs_limit s' = fs_limit s /\
      ((p = 0 /\ s' = s) \/
       (p <> 0 /\ ~ fs_used s p /\ forall q, (fs_held s' q <-> q = p \/ fs_held s q) /\ (fs_used s' q <-> q = p \/ fs_used s q)));
  fs_free_law s p : fs_ok s -> fs_held s p ->
    exists s', fs_free p s = Ok s' /\ fs_ok s' /\ fs_limit s' = fs_limit s /\
      forall q, (fs_held s' q <-> q <> p /\ fs_held s q) /\ (fs_used s' q <-> q <> p /\ fs_used s q);
  fs_room_alloc s p s' : fs_ok s -> fs_alloc s = Ok (p, s') -> if p =? 0 then fs_room s = 0 else fs_room s' = fs_room s - 1;
  fs_room_free s p s' : fs_ok s -> fs_held s p -> fs_free p s = Ok s' -> fs_room s' = fs_room s + 1
}.

Lemma fs_held_range {S} `{FrameSourceLaws S} (s : S) p : fs_ok s -> fs_held s p -> p mod 4096 = 0 /\ 0 < p < fs_limit s.
Proof. intros Hok Hh. exact (fs_used_range s p Hok (fs_held_used s p Hok Hh)). Qed.

(** The frames in use stay in use, and those held stay held. *)
Definition keeps {S} `{FrameSource S} (f f' : S) : Prop :=
  forall q, fs_used f q -> fs_used f' q /\ (fs_held f' q <-> fs_held f q).

Lemma keeps_refl {S} `{FrameSource S} (f : S) : keeps f f.
Proof. intros q Hq. tauto. Qed.

Lemma keeps_trans {S} `{FrameSource S} (f g h : S) : keeps f g -> keeps g h -> keeps f h.
Proof. intros H1 H2 q Hq. destruct (H1 q Hq) as [Hg E1], (H2 q Hg) as [Hh E2]. split; [exact Hh|]. now rewrite E2. Qed.

Lemma keeps_held {S} `{FrameSourceLaws S} (f f' : S) q : fs_ok f -> keeps f f' -> fs_held f q -> fs_held f' q.
Proof. intros Hok K Hh. apply K; [now apply fs_held_used|exact Hh]. Qed.

(** ** Backing pages for the kernel heap

    What the heap relies on when it grows (src/kernel/memory/heap.c,
    [expand_heap]): a frame allocator and a mapper for the kernel address space.
    The contract says that the three calls return, that a successful mapping
    makes the page accessible and a failed one leaves the frame with the caller,
    who may then give it back, and that none of this takes away a page that was
    accessible. *)
Class PageBacking (M : Type) : Type := {
  pb_alloc : M -> outcome (Z * M);
  pb_free : Z -> M -> outcome M;
  (** [vmm_map_page(&kernel_process->as, virt, phys, flags)] *)
  pb_map : Z -> Z -> Z -> M -> outcome (bool * M);
  pb_ok : M -> Prop;
  (** the page at this address can be accessed *)
  pb_mapped : M -> Z -> Prop
}.

Definition pb_keeps {M} `{PageBacking M} (m m' : M) : Prop := forall v, pb_mapped m v -> pb_mapped m' v.

Class PageBackingLaws (M : Type) `{PageBacking M} : Prop := {
  pb_alloc_law m : pb_ok m ->
    exists p m1, pb_alloc m = Ok (p, m1) /\
      (p = 0 -> pb_ok m1 /\ pb_keeps m m1) /\
      (p <> 0 -> forall virt flags, exists b m2, pb_map virt p flags m1 = Ok (b, m2) /\
         (b = true -> pb_ok m2 /\ pb_keeps m m2 /\ pb_mapped m2 virt) /\
         (b = false -> exists m3, pb_free p m2 = Ok m3 /\ pb_ok m3 /\ pb_keeps m m3))
}.

(** ** Block devices (src/include/blk.h)

    [read_sectors(dev, lba, count, buf)] and [write_sectors(dev, lba, 1, buf)] of
    a driver: the code it returns, negative on failure, and the bytes left in
    [buf] or the device afterwards. *)
Definition BLK_SECTOR_SIZE : Z := 512.

Class BlockDevice (D : Type) : Type := {
  bd_read : Z -> Z -> D -> Z * list Z;
  bd_write : Z -> list Z -> D -> Z * D;
  (** sector [i] as it is stored, for the sectors the device has *)
  bd_sector : D -> Z -> list Z;
  bd_count : D -> Z
}.

(** A device that works: accesses inside it succeed and sectors are storage. *)
Class BlockDeviceLaws (D : Type) `{BlockDevice D} : Prop := {
  bd_sector_len d i : 0 <= i < bd_count d ->
    length (bd_sector d i) = 512%nat /\ Forall (fun b => 0 <= b < 2 ^ 8) (bd_sector d i);
  bd_read_law d lba n : 0 <= lba -> 0 <= n -> lba + n <= bd_count d ->
    bd_read lba n d = (0, concat (bd_sector d <$> seqZ lba n));
  bd_write_law d lba b : 0 <= lba < bd_count d -> length b = 512%nat -> Forall (fun b => 0 <= b < 2 ^ 8) b ->
    exists d', bd_write lba b d = (0, d') /\ bd_count d' = bd_count d /\
      forall i, bd_sector d' i = if i =? lba then b else bd_sector d i
}.

(** ** Kernel memory for the file systems (src/include/heap.h)

    What the file systems see of [kmalloc] and [kfree]: a pointer or 0; a request
    of 0 bytes gives 0. *)
Class KernelAlloc (A : Type) : Type := {
  ka_alloc : Z -> A -> Z * A;
  ka_free : Z -> A -> A
}.

Class KernelAllocLaws (A : Type) `{KernelAlloc A} : Prop := {
  ka_alloc_zero a : ka_alloc 0 a = (0, a)
}.

(** An allocator that notes refusals: [ka_refused] tells whether a request of at
    least one byte was ever answered with 0. *)
Class RefusalLog (A : Type) : Type := { ka_refused : A -> bool }.

Class RefusalLogLaws (A : Type) `{KernelAlloc A} `{RefusalLog A} : Prop := {
  ka_refused_alloc n a : ka_refused (snd (ka_alloc n a)) = ka_refused a || ((0 <? n) && (fst (ka_alloc n a) =? 0));
  ka_refused_free p a : ka_refused (ka_free p a) = ka_refused a
}.

Lemma ka_refused_null {A} `{RefusalLogLaws A} n a : 0 < n -> fst (ka_alloc n a) = 0 -> ka_refused (snd (ka_alloc n a)) = true.
Proof. intros Hn E. rewrite ka_refused_alloc, E, (proj2 (Z.ltb_lt 0 n) Hn). apply orb_true_r. Qed.

(** Every allocator can be extended by such a note. *)
Definition logged (A : Type) : Type := (A * bool)%type.

#[export] Instance logged_alloc {A} `{KernelAlloc A} : KernelAlloc (logged A) := {
  ka_alloc n a := let '(p, h) := ka_alloc n (fst a) in (p, (h, snd a || ((0 <? n) && (p =? 0))));
  ka_free p a := (ka_free p (fst a), snd a)
}.

#[export] Instance logged_log {A} : RefusalLog (logged A) := { ka_refused := snd }.

#[export] Instance logged_log_laws {A} `{KernelAlloc A} : RefusalLogLaws (logged A).
Proof. constructor; [|reflexivity]. intros n [a b]. cbn. now destruct (ka_alloc n a). Qed.

#[export] Instance logged_laws {A} `{KernelAllocLaws A} : KernelAllocLaws (logged A).
Proof. constructor. intros [a b]. cbn. rewrite ka_alloc_zero. cbn. now rewrite orb_false_r. Qed.

(** ** Kernel objects (src/include/heap.h)

    What threads and processes rely on from [kmalloc] and [kfree]: an allocation
    returns 0 or a pointer to an object that nobody holds, and an object that is
    held can be given back once.  The static objects of the kernel image lie outside
    the heap. *)
Class ObjectHeap (A : Type) : Type := {
  oh_alloc : Z -> A -> outcome (Z * A);
  oh_free : Z -> A -> outcome A;
  oh_ok : A -> Prop;
  oh_held : A -> Z -> Prop;
  oh_static : Z -> Prop
}.
Arguments oh_static A {_}.

Class ObjectHeapLaws (A : Type) `{ObjectHeap A} : Prop := {
  oh_held_nonnull a p : oh_ok a -> oh_held a p -> p <> 0 /\ ~ oh_static A p;
  oh_alloc_law a n : oh_ok a -> 0 < n <= 2 ^ 44 ->
    exists p a', oh_alloc n a = Ok (p, a') /\ oh_ok a' /\
      ((p = 0 /\ forall q, oh_held a' q <-> oh_held a q) \/
       (0 < p /\ p + n < 2 ^ 64 /\ ~ oh_held a p /\ forall q, oh_held a' q <-> q = p \/ oh_held a q));
  oh_free_law a p : oh_ok a -> oh_held a p ->
    exists a', oh_free p a = Ok a' /\ oh_ok a' /\ forall q, oh_held a' q <-> q <> p /\ oh_held a q
}.

(** ** Address spaces (src/kernel/memory/vmm.h)

    What processes need of the virtual memory manager: the root of the active page
    tables, a new address space (0 on failure), and the destruction of one that
    lives. *)
Class AddressSpaces (A : Type) : Type := {
  as_current : A -> Z;
  as_create : A -> outcome (Z * A);
  as_destroy : Z -> A -> outcome A;
  as_live : A -> Z -> Prop
}.

Class AddressSpaceLaws (A : Type) `{ObjectHeap A} `{AddressSpaces A} : Prop := {
  as_create_law a : oh_ok a ->
    exists r a', as_create a = Ok (r, a') /\ oh_ok a' /\ (forall q, oh_held a' q <-> oh_held a q) /\
      ((r = 0 /\ forall q, as_live a' q <-> as_live a q) \/
       (r <> 0 /\ ~ as_live a r /\ forall q, as_live a' q <-> q = r \/ as_live a q));
  as_destroy_law a r : oh_ok a -> as_live a r ->
    exists a', as_destroy r a = Ok a' /\ oh_ok a' /\ (forall q, oh_held a' q <-> oh_held a q) /\
      forall q, as_live a' q <-> q <> r /\ as_live a q;
  as_alloc_law a n p a' q : oh_alloc n a = Ok (p, a') -> as_live a' q <-> as_live a q;
  as_free_law a p a' q : oh_free p a = Ok a' -> as_live a' q <-> as_live a q
}.

(** ** The user half of an address space (src/kernel/memory/vmm.h, src/include/pmm.h)

    What the program loader and the [brk] system call need to build an address space
    page by page: [vmm_get_phys], [vmm_map_page] and [vmm_unmap_page] on it, and
    the page frames.  [up_perm a va f] says that [va] is mapped with the flags [f],
    and [up_inv a D] that the address space is well formed and that the frames of
    [D] are held by the caller and hold data. *)
Class UserPages (A : Type) : Type := {
  up_phys : A -> Z -> option Z;
  up_alloc : A -> outcome (Z * A);
  up_free : Z -> A -> outcome A;
  up_map : Z -> Z -> Z -> A -> outcome (bool * A);
  up_unmap : Z -> A -> outcome (bool * A);
  up_perm : A -> Z -> Z -> Prop;
  up_inv : A -> gset Z -> Prop;
  (** the number of page frames that are left *)
  up_room : A -> Z
}.

Definition user_page (va : Z) : Prop := 0 <= va < 2 ^ 47 /\ va mod 4096 = 0.

(** Two states with the same mapping of a page. *)
Definition same_mapping {A} `{UserPages A} (a a' : A) (va : Z) : Prop :=
  up_phys a' va = up_phys a va /\ forall f, up_perm a' va f <-> up_perm a va f.

Class UserPagesLaws (A : Type) `{UserPages A} : Prop := {
  up_frame a D p : up_inv a D -> p ∈ D -> p mod 4096 = 0 /\ 0 < p < 2 ^ 52;
  up_alloc_law a D : up_inv a D ->
    exists p a', up_alloc a = Ok (p, a') /\ (forall va, same_mapping a a' va) /\
      ((p = 0 /\ up_inv a' D /\ up_room a' = 0) \/ (p <> 0 /\ (p ∉ D) /\ up_inv a' ({[p]} ∪ D)));
  up_free_law a D p : up_inv a D -> p ∈ D ->
    exists a', up_free p a = Ok a' /\ (forall va, same_mapping a a' va) /\ up_inv a' (D ∖ {[p]}) /\ up_room a' = up_room a + 1;
  up_map_law a D va p f : up_inv a D -> p ∈ D -> user_page va ->
    exists b a', up_map va p f a = Ok (b, a') /\ up_inv a' D /\
      (forall va', user_page va' -> va' <> va -> same_mapping a a' va') /\
      (if b then up_phys a va = None /\ up_phys a' va = Some p /\ up_perm a' va f
       else same_mapping a a' va /\ (up_phys a va <> None \/ up_room a' = 0));
  up_unmap_law a D va : up_inv a D -> user_page va ->
    exists b a', up_unmap va a = Ok (b, a') /\ up_inv a' D /\
      (forall va', user_page va' -> va' <> va -> same_mapping a a' va') /\ up_phys a' va = None
}.

(** ** User memory (src/kernel/memory/vmm.c)

    What the system calls need of the memory of the process that calls: the tests
    [user_range_readable] and [user_range_writable], and loads and stores of bytes at
    user addresses. *)
Class UserMemory (M : Type) : Type := {
  user_readable : Z -> Z -> M -> bool;
  user_writable : Z -> Z -> M -> bool;
  user_load : Z -> M -> outcome Z;
  user_store : Z -> Z -> M -> outcome M;
  um_ok : M -> Prop
}.

(** Accepted ranges lie in the lower half, with all their parts; an
    accepted load or store happens; a store changes the byte it names. *)
Class UserMemoryLaws (M : Type) `{UserMemory M} : Prop := {
  um_low addr len m : um_ok m -> 0 <= addr < 2 ^ 64 -> 0 < len < 2 ^ 64 -> user_readable addr len m = true -> addr + len <= 2 ^ 47;
  um_bytes addr len m i n : um_ok m -> 0 <= addr < 2 ^ 64 -> 0 < len < 2 ^ 64 -> user_readable addr len m = true -> 0 <= i -> 0 < n -> i + n <= len ->
    user_readable (addr + i) n m = true;
  um_writable addr len m i n : um_ok m -> 0 <= addr < 2 ^ 64 -> 0 < len < 2 ^ 64 -> user_writable addr len m = true -> 0 <= i -> 0 < n -> i + n <= len ->
    user_writable (addr + i) n m = true;
  um_write_read addr len m : um_ok m -> 0 <= addr < 2 ^ 64 -> 0 <= len < 2 ^ 64 -> user_writable addr len m = true -> user_readable addr len m = true;
  um_load addr m : um_ok m -> 0 <= addr < 2 ^ 64 -> user_readable addr 1 m = true -> exists c, user_load addr m = Ok c /\ 0 <= c < 2 ^ 8;
  um_store addr c m : um_ok m -> 0 <= addr < 2 ^ 64 -> user_writable addr 1 m = true -> 0 <= c < 2 ^ 8 ->
    exists m', user_store addr c m = Ok m' /\ um_ok m' /\ user_load addr m' = Ok c /\
      (forall a, 0 <= a < 2 ^ 47 -> a <> addr -> user_load a m' = user_load a m) /\
      (forall a n, user_readable a n m' = user_readable a n m) /\ (forall a n, user_writable a n m' = user_writable a n m)
}.
