(* ===== verification/Pmm.v ===== *)
(** * Physical memory manager (src/kernel/memory/pmm.c)

    One bit per 4 KiB frame, [1] = used or reserved.  The record [pmm] holds the
    file's static variables; every function of the file is a definition on it.
    An access outside the bitmap array is [Stop BadAccess] and a [panic] is
    [Stop (Panic line)].

    The invariant [pmm_wf] is what the allocator relies on; [free_frame] is the
    abstract view (the set of free frames), against which the operations are
    specified. *)

From S2P Require Import Prelude Bitmap Interfaces.


Record pmm : Type := mkPmm {
  bitmap : list Z;
  total_frames : Z;
  used_frames : Z;
  max_physical_address : Z;
  bitmap_phys_addr : Z;
  bitmap_size : Z
}.

Definition set_bitmap (st : pmm) (bm : list Z) (used : Z) : pmm :=
  {| bitmap := bm; total_frames := total_frames st; used_frames := used;
     max_physical_address := max_physical_address st;
     bitmap_phys_addr := bitmap_phys_addr st; bitmap_size := bitmap_size st |}.

Definition align_up (val alignment : Z) : Z :=
  Z.land (val +64 alignment -64 1) (u64 (Z.lnot (alignment -64 1))).

Definition align_down (val alignment : Z) : Z :=
  Z.land val (u64 (Z.lnot (alignment -64 1))).

Definition pmm_init (bitmap_start_phys max_phys_addr : Z) : pmm :=
  let total := max_phys_addr / PMM_PAGE_SIZE in
  let size := total / 8 in
  let size := if total mod 8 =? 0 then size else size +64 1 in
  {| bitmap := replicate (Z.to_nat size) 255;
     total_frames := total;
     used_frames := total;
     max_physical_address := max_phys_addr;
     bitmap_phys_addr := align_up bitmap_start_phys PMM_PAGE_SIZE;
     bitmap_size := size |}.

(** One iteration of the loop of [pmm_mark_region]. *)
Definition mark_frame (frame : Z) (free : bool) (st : pmm) : outcome pmm :=
  let* cur := of_opt (bm_test (bitmap st) frame) in
  let is_currently_free := negb cur in
  if free then
    if negb is_currently_free then
      let* bm := of_opt (bm_clear (bitmap st) frame) in
      Ok (set_bitmap st bm (used_frames st -64 1))
    else Ok st
  else
    if is_currently_free then
      let* bm := of_opt (bm_set (bitmap st) frame) in
      Ok (set_bitmap st bm (used_frames st +64 1))
    else Ok st.

Fixpoint mark_loop (fuel : nat) (addr end_addr : Z) (free : bool) (st : pmm) : outcome pmm :=
  if addr <? end_addr then
    match fuel with
    | O => Stop NoFuel
    | S k =>
      let* st := mark_frame (Z.shiftr addr 12) free st in
      mark_loop k (addr +64 PMM_PAGE_SIZE) end_addr free st
    end
  else Ok st.

(** [for (addr = start; addr < end; addr += PMM_PAGE_SIZE)] runs at most
    [(end - start) / PMM_PAGE_SIZE + 1] times. *)
Definition pmm_mark_region (phys_addr length : Z) (free : bool) (st : pmm) : outcome pmm :=
  let start_addr := align_down phys_addr PMM_PAGE_SIZE in
  let end_addr := align_up (phys_addr +64 length) PMM_PAGE_SIZE in
  let end_addr := if max_physical_address st <? end_addr then max_physical_address st else end_addr in
  mark_loop (Z.to_nat ((end_addr - start_addr) / PMM_PAGE_SIZE + 1)) start_addr end_addr free st.

Definition pmm_reserve_boot_regions (st : pmm) : outcome pmm :=
  pmm_mark_region 0 (bitmap_phys_addr st +64 bitmap_size st) false st.

(** The inner loop of [pmm_alloc_page]: the first clear bit of a byte. *)
Fixpoint scan_bits (n : nat) (bit b : Z) : option Z :=
  match n with
  | O => None
  | S k => if negb (has b (Z.shiftl 1 bit)) then Some bit else scan_bits k (bit + 1) b
  end.

(** The outer loop: the first frame whose bit is clear, in array order. *)
Fixpoint scan_bytes (n : nat) (byte : Z) (bm : list Z) : outcome (option Z) :=
  match n with
  | O => Ok None
  | S k =>
    let* b := of_opt (znth bm byte) in
    if negb (b =? 255) then
      match scan_bits 8 0 b with
      | Some bit => Ok (Some (byte *64 8 +64 bit))
      | None => scan_bytes k (byte +64 1) bm
      end
    else scan_bytes k (byte +64 1) bm
  end.

Definition pmm_alloc_page (st : pmm) : outcome (Z * pmm) :=
  let* r := scan_bytes (Z.to_nat (bitmap_size st)) 0 (bitmap st) in
  match r with
  | None => Ok (0, st)
  | Some frame =>
    if total_frames st <=? frame then Ok (0, st)
    else
      let* bm := of_opt (bm_set (bitmap st) frame) in
      Ok (frame *64 PMM_PAGE_SIZE, set_bitmap st bm (used_frames st +64 1))
  end.

Definition pmm_free_page (phys_addr : Z) (st : pmm) : outcome pmm :=
  if negb (phys_addr mod PMM_PAGE_SIZE =? 0) then Stop (Panic 124)
  else if max_physical_address st <=? phys_addr then Stop (Panic 128)
  else
    let frame := phys_addr / PMM_PAGE_SIZE in
    let* cur := of_opt (bm_test (bitmap st) frame) in
    if negb cur then Stop (Panic 136)
    else
      let first_usable_phys := bitmap_phys_addr st +64 bitmap_size st in
      if phys_addr <? first_usable_phys then Stop (Panic 145)
      else
        let* bm := of_opt (bm_clear (bitmap st) frame) in
        Ok (set_bitmap st bm (used_frames st -64 1)).

Definition pmm_total_frames (st : pmm) : Z := total_frames st.
Definition pmm_free_frames (st : pmm) : Z := total_frames st -64 used_frames st.
Definition pmm_used_frames (st : pmm) : Z := used_frames st.

(** ** Specification *)

(** The abstract state: frame [f] exists and is free. *)
Definition free_frame (st : pmm) (f : Z) : bool :=
  (0 <=? f) && (f <? total_frames st) && negb (bm_bit (bitmap st) f).

Record pmm_wf (st : pmm) : Prop := {
  wf_max : 0 <= max_physical_address st <= 2 ^ 52;
  wf_max_aligned : max_physical_address st mod PMM_PAGE_SIZE = 0;
  wf_total : total_frames st = max_physical_address st / PMM_PAGE_SIZE;
  wf_size : bitmap_size st = (total_frames st + 7) / 8;
  wf_len : zlen (bitmap st) = bitmap_size st;
  wf_bytes : Forall byte (bitmap st);
  wf_base : 0 <= bitmap_phys_addr st < 2 ^ 52;
  (** the padding bits of the last byte are never handed out *)
  wf_padding : forall f, total_frames st <= f < 8 * bitmap_size st -> bm_bit (bitmap st) f = true;
  wf_used : used_frames st = countZ (bm_bit (bitmap st)) (Z.to_nat (total_frames st))
}.

(** The frame [pmm_alloc_page] takes: the least free frame. *)
Definition first_free (st : pmm) : option Z :=
  firstZ (free_frame st) 0 (Z.to_nat (total_frames st)).

(** The frames, but for frame 0, that [pmm_alloc_page] cannot hand out. *)
Definition taken (st : pmm) (p : Z) : Prop :=
  p mod PMM_PAGE_SIZE = 0 /\ 0 < p < max_physical_address st /\ free_frame st (p / PMM_PAGE_SIZE) = false.

(** What [pmm_free_page] accepts: an allocated frame above the boot area. *)
Definition freeable (st : pmm) (p : Z) : Prop :=
  p mod PMM_PAGE_SIZE = 0 /\ 0 <= p < max_physical_address st /\
  bitmap_phys_addr st + bitmap_size st <= p /\ free_frame st (p / PMM_PAGE_SIZE) = false.

(** Everything below the end of the bitmap is reserved: the low megabyte, the
    kernel image, the boot structures and the bitmap itself. *)
Definition boot_reserved (st : pmm) : Prop :=
  0 < bitmap_phys_addr st + bitmap_size st /\
  forall f, PMM_PAGE_SIZE * f < bitmap_phys_addr st + bitmap_size st -> free_frame st f = false.

(** A client that holds the frames [O] allocates, or frees a frame it holds. *)
Inductive client_step : pmm * gset Z -> pmm * gset Z -> Prop :=
| client_alloc st O p st' :
    pmm_alloc_page st = Ok (p, st') -> p <> 0 -> client_step (st, O) (st', {[p]} ∪ O)
| client_oom st O st' :
    pmm_alloc_page st = Ok (0, st') -> client_step (st, O) (st', O)
| client_free st O p st' :
    p ∈ O -> pmm_free_page p st = Ok st' -> client_step (st, O) (st', O ∖ {[p]}).

(** The static layout is the same in two states. *)
Definition same_layout (st st' : pmm) : Prop :=
  total_frames st' = total_frames st /\
  max_physical_address st' = max_physical_address st /\
  bitmap_phys_addr st' = bitmap_phys_addr st /\ bitmap_size st' = bitmap_size st.

(** ** Alignment *)
Lemma align_down_spec v : 0 <= v < 2 ^ 64 -> align_down v PMM_PAGE_SIZE = v / 4096 * 4096.
Proof.
  intros Hv. unfold align_down, PMM_PAGE_SIZE.
  change (u64 (Z.lnot (4096 -64 1))) with (u64 (Z.lnot (2 ^ 12 - 1))).
  rewrite land_not_low by lia. dlia.
Qed.

Lemma align_up_spec v :
  0 <= v <= 2 ^ 64 - 4096 -> align_up v PMM_PAGE_SIZE = (v + 4095) / 4096 * 4096.
Proof.
  intros Hv. unfold align_up, PMM_PAGE_SIZE.
  change (u64 (Z.lnot (4096 -64 1))) with (u64 (Z.lnot (2 ^ 12 - 1))).
  replace (v +64 4096 -64 1) with (v + 4095).
  - rewrite land_not_low by lia. dlia.
  - unfold u64. rewrite Zminus_mod_idemp_l, Z.mod_small by lia. lia.
Qed.

(** ** One frame changes state *)
Section Frames.
Variable st : pmm.
Hypothesis WF : pmm_wf st.

Lemma wf_len8 : 8 * zlen (bitmap st) = 8 * bitmap_size st.
Proof. now rewrite (wf_len _ WF). Qed.

Lemma wf_bounds :
  0 <= total_frames st <= 8 * bitmap_size st /\ 8 * bitmap_size st < total_frames st + 8 /\
  total_frames st <= 2 ^ 40 /\ max_physical_address st = 4096 * total_frames st.
Proof.
  destruct WF as [Hm Ha Ht Hs _ _ _ _ _]. unfold PMM_PAGE_SIZE in *. rewrite Hs, Ht. dlia.
Qed.

Lemma used_bounds : 0 <= used_frames st <= total_frames st.
Proof.
  rewrite (wf_used _ WF). pose proof wf_bounds.
  pose proof (countZ_bounds (bm_bit (bitmap st)) (Z.to_nat (total_frames st))). lia.
Qed.

Lemma mark_used f :
  0 <= f < total_frames st -> bm_bit (bitmap st) f = false ->
  exists bm, bm_set (bitmap st) f = Some bm /\
    let st' := set_bitmap st bm (used_frames st +64 1) in
    pmm_wf st' /\ used_frames st' = used_frames st + 1 /\
    (forall j, bm_bit (bitmap st') j = if j =? f then true else bm_bit (bitmap st) j).
Proof.
  intros Hf Hb. pose proof wf_bounds as Hbd. pose proof used_bounds as Hu.
  destruct (bm_set_spec _ _ wf_len8 f) as (bm & Hset & Hl & Hbit & HF); [lia|].
  exists bm. split; [exact Hset|]. cbn zeta.
  assert (Hcnt : countZ (bm_bit bm) (Z.to_nat (total_frames st)) = used_frames st + 1).
  { rewrite (wf_used _ WF). apply (countZ_flip _ _ _ f); try lia.
    - exact Hb.
    - rewrite Hbit, Z.eqb_refl. reflexivity.
    - intros i Hi. rewrite Hbit. destruct (Z.eqb_spec i f); [lia|reflexivity]. }
  assert (Hw : used_frames st +64 1 = used_frames st + 1) by (apply u64_id; lia).
  destruct WF as [W1 W2 W3 W4 W5 W6 W7 W8 W9].
  split; [|split; [exact Hw|exact Hbit]]. constructor; cbn; auto; try lia.
  intros g Hg. rewrite Hbit. destruct (Z.eqb_spec g f); [reflexivity|]. now apply W8.
Qed.

Lemma mark_free f :
  0 <= f < total_frames st -> bm_bit (bitmap st) f = true ->
  exists bm, bm_clear (bitmap st) f = Some bm /\
    let st' := set_bitmap st bm (used_frames st -64 1) in
    pmm_wf st' /\ used_frames st' = used_frames st - 1 /\
    (forall j, bm_bit (bitmap st') j = if j =? f then false else bm_bit (bitmap st) j).
Proof.
  intros Hf Hb. pose proof wf_bounds as Hbd. pose proof used_bounds as Hu.
  destruct (bm_clear_spec _ _ wf_len8 f) as (bm & Hset & Hl & Hbit & HF); [lia|].
  exists bm. split; [exact Hset|]. cbn zeta.
  assert (Hcnt : used_frames st = countZ (bm_bit bm) (Z.to_nat (total_frames st)) + 1).
  { rewrite (wf_used _ WF). apply (countZ_flip _ _ _ f); try lia.
    - rewrite Hbit, Z.eqb_refl. reflexivity.
    - exact Hb.
    - intros i Hi. rewrite Hbit. destruct (Z.eqb_spec i f); [lia|reflexivity]. }
  pose proof (countZ_bounds (bm_bit bm) (Z.to_nat (total_frames st))).
  assert (Hw : used_frames st -64 1 = used_frames st - 1) by (apply u64_id; lia).
  destruct WF as [W1 W2 W3 W4 W5 W6 W7 W8 W9].
  split; [|split; [exact Hw|exact Hbit]]. constructor; cbn; auto; try lia.
  intros g Hg. rewrite Hbit. destruct (Z.eqb_spec g f); [lia|]. now apply W8.
Qed.

Lemma bm_test_frame f :
  0 <= f < total_frames st -> bm_test (bitmap st) f = Some (bm_bit (bitmap st) f).
Proof. intros Hf. apply (bm_test_spec _ _ wf_len8). pose proof wf_bounds. lia. Qed.

Lemma mark_frame_spec f free :
  0 <= f < total_frames st ->
  exists st', mark_frame f free st = Ok st' /\ pmm_wf st' /\ same_layout st st' /\
    (forall g, free_frame st' g = if g =? f then free else free_frame st g).
Proof.
  intros Hf. unfold mark_frame. rewrite bm_test_frame by exact Hf. cbn [of_opt obind].
  assert (Hff : forall st', total_frames st' = total_frames st ->
    (forall j, bm_bit (bitmap st') j = if j =? f then negb free else bm_bit (bitmap st) j) ->
    forall g, free_frame st' g = if g =? f then free else free_frame st g).
  { intros st' Ht Hbit g. unfold free_frame. rewrite Ht, Hbit.
    destruct (Z.eqb_spec g f) as [->|]; [|reflexivity].
    rewrite negb_involutive. destruct (Z.leb_spec 0 f), (Z.ltb_spec f (total_frames st)); reflexivity || lia. }
  assert (Hsame : bm_bit (bitmap st) f = negb free ->
    forall j, bm_bit (bitmap st) j = if j =? f then negb free else bm_bit (bitmap st) j).
  { intros He j. destruct (Z.eqb_spec j f) as [->|]; [exact He|reflexivity]. }
  destruct free, (bm_bit (bitmap st) f) eqn:Hb; cbn [negb].
  - destruct (mark_free f Hf Hb) as (bm & -> & Hwf & _ & Hbit). cbn [of_opt obind].
    eexists; split; [reflexivity|]. split; [exact Hwf|]. split; [now repeat split|]. now apply Hff.
  - exists st. split; [reflexivity|]. split; [exact WF|]. split; [now repeat split|]. auto.
  - exists st. split; [reflexivity|]. split; [exact WF|]. split; [now repeat split|]. auto.
  - destruct (mark_used f Hf Hb) as (bm & -> & Hwf & _ & Hbit). cbn [of_opt obind].
    eexists; split; [reflexivity|]. split; [exact Hwf|]. split; [now repeat split|]. now apply Hff.
Qed.

End Frames.

Lemma same_layout_trans a b c : same_layout a b -> same_layout b c -> same_layout a c.
Proof. unfold same_layout. intros (-> & -> & -> & ->) (-> & -> & -> & ->). auto. Qed.

(** ** The region loop *)
Lemma mark_loop_spec fuel a e free st :
  pmm_wf st -> 0 <= a -> e <= total_frames st -> e - a < Z.of_nat fuel ->
  exists st', mark_loop fuel (4096 * a) (4096 * e) free st = Ok st' /\
    pmm_wf st' /\ same_layout st st' /\
    (forall g, free_frame st' g = if (a <=? g) && (g <? e) then free else free_frame st g).
Proof.
  revert a st; induction fuel; intros a st WF Ha He Hfuel; cbn [mark_loop].
  - destruct (Z.ltb_spec (4096 * a) (4096 * e)); [lia|].
    exists st. split; [reflexivity|]. split; [exact WF|]. split; [now repeat split|].
    intros g. destruct (Z.leb_spec a g), (Z.ltb_spec g e); cbn; reflexivity || lia.
  - destruct (Z.ltb_spec (4096 * a) (4096 * e)).
    + assert (Hs : Z.shiftr (4096 * a) 12 = a)
        by (rewrite Z.shiftr_div_pow2 by lia; change (2 ^ 12) with 4096; dlia).
      rewrite Hs. pose proof (wf_bounds _ WF).
      destruct (mark_frame_spec st WF a free) as (st1 & -> & WF1 & Hl1 & Hf1); [lia|].
      cbn [obind].
      replace (4096 * a +64 PMM_PAGE_SIZE) with (4096 * (a + 1))
        by (unfold PMM_PAGE_SIZE; rewrite u64_id; lia).
      pose proof Hl1 as (Ht1 & _).
      destruct (IHfuel (a + 1) st1 WF1) as (st2 & -> & WF2 & Hl2 & Hf2); try lia.
      exists st2. split; [reflexivity|]. split; [exact WF2|].
      split; [eapply same_layout_trans; eauto|].
      intros g. rewrite Hf2, Hf1.
      destruct (Z.leb_spec (a + 1) g), (Z.leb_spec a g), (Z.ltb_spec g e), (Z.eqb_spec g a);
        cbn; reflexivity || lia.
    + exists st. split; [reflexivity|]. split; [exact WF|]. split; [now repeat split|].
      intros g. destruct (Z.leb_spec a g), (Z.ltb_spec g e); cbn; reflexivity || lia.
Qed.

(** ** The allocation scan *)
Lemma scan_bits_first n bit b :
  0 <= bit -> scan_bits n bit b = firstZ (fun k => negb (Z.testbit b k)) bit n.
Proof.
  revert bit; induction n; intros bit Hbit; cbn [scan_bits firstZ]; [reflexivity|].
  rewrite has_bit by exact Hbit. split_if; [reflexivity|]. apply IHn; lia.
Qed.

Lemma first_in_byte bm i b :
  znth bm i = Some b ->
  firstZ (fun f => negb (bm_bit bm f)) (8 * i) 8 =
  option_map (Z.add (8 * i)) (firstZ (fun k => negb (Z.testbit b k)) 0 8).
Proof.
  intros Hb. replace (8 * i) with (8 * i + 0) at 1 by lia. rewrite firstZ_shift. f_equal.
  apply firstZ_ext. intros k Hk. unfold bm_bit.
  replace ((8 * i + k) / 8) with i by dlia. replace ((8 * i + k) mod 8) with k by dlia.
  now rewrite Hb.
Qed.

Lemma scan_bytes_first n i bm :
  0 <= i -> i + Z.of_nat n = zlen bm -> zlen bm <= 2 ^ 40 -> Forall byte bm ->
  scan_bytes n i bm = Ok (firstZ (fun f => negb (bm_bit bm f)) (8 * i) (8 * n)).
Proof.
  revert i; induction n; intros i Hi Hlen Hmax HF; [reflexivity|].
  cbn [scan_bytes]. destruct (znth_is_Some bm i) as [b Hb]; [lia|].
  rewrite Hb. cbn [of_opt obind].
  replace (8 * S n)%nat with (8 + 8 * n)%nat by lia. rewrite firstZ_app, (first_in_byte _ _ _ Hb).
  replace (8 * i + Z.of_nat 8) with (8 * (i + 1)) by lia.
  rewrite (u64_id (i + 1)), IHn by (assumption || lia). rewrite scan_bits_first by lia.
  destruct (Z.eqb_spec b 255) as [->|Hne]; cbn [negb].
  - reflexivity.
  - destruct (firstZ (fun k => negb (Z.testbit b k)) 0 8) as [k|] eqn:E.
    + apply firstZ_Some in E as (Hk & _). cbn [option_map].
      rewrite !u64_id; rewrite ?u64_id; try lia. do 2 f_equal. lia.
    + destruct (byte_not_full b (Forall_znth _ _ _ _ HF Hb) Hne) as (k & Hk & Hbit).
      pose proof (firstZ_None _ _ _ E k ltac:(lia)) as Hf. cbn in Hf.
      rewrite Hbit in Hf. discriminate.
Qed.

Lemma free_frame_range st f : free_frame st f = true -> 0 <= f < total_frames st.
Proof. unfold free_frame. intros H. reflect_bools. lia. Qed.

Lemma scan_first_free st :
  pmm_wf st ->
  scan_bytes (Z.to_nat (bitmap_size st)) 0 (bitmap st) = Ok (first_free st).
Proof.
  intros WF. pose proof (wf_bounds _ WF) as Hb.
  rewrite scan_bytes_first; [|lia|rewrite (wf_len _ WF); lia|rewrite (wf_len _ WF); lia|apply WF].
  f_equal. change (8 * 0) with 0.
  replace (8 * Z.to_nat (bitmap_size st))%nat
    with (Z.to_nat (total_frames st) + Z.to_nat (8 * bitmap_size st - total_frames st))%nat by lia.
  unfold first_free. rewrite firstZ_app.
  rewrite (firstZ_ext _ (free_frame st)).
  - destruct (firstZ (free_frame st) 0 (Z.to_nat (total_frames st))) as [i|] eqn:E; [reflexivity|].
    match goal with |- ?x = None => destruct x as [i|] eqn:E' end; [|reflexivity].
    apply firstZ_Some in E' as (Hi & Hf & _).
    rewrite (wf_padding _ WF i) in Hf by lia. discriminate.
  - intros i Hi. unfold free_frame.
    destruct (Z.leb_spec 0 i), (Z.ltb_spec i (total_frames st)); reflexivity || lia.
Qed.

(** ** What each operation does *)

(** In a well-formed state [pmm_alloc_page] never faults; when a
    frame is free it takes the least free frame, marks exactly that frame used,
    counts it and returns its address, and when no frame is free it returns 0
    and changes nothing. *)
Lemma alloc_page_spec st :
  pmm_wf st ->
  match first_free st with
  | None => pmm_alloc_page st = Ok (0, st)
  | Some f =>
    free_frame st f = true /\
    exists st', pmm_alloc_page st = Ok (4096 * f, st') /\ pmm_wf st' /\ same_layout st st' /\
      used_frames st' = used_frames st + 1 /\
      (forall g, free_frame st' g = if g =? f then false else free_frame st g)
  end.
Proof.
  intros WF. unfold pmm_alloc_page. rewrite (scan_first_free _ WF). cbn [obind].
  destruct (first_free st) as [f|] eqn:E; [|reflexivity].
  apply firstZ_Some in E as (_ & Hfree & _). split; [exact Hfree|].
  pose proof (free_frame_range _ _ Hfree) as Hf. pose proof (wf_bounds _ WF).
  destruct (Z.leb_spec (total_frames st) f); [lia|].
  assert (Hbit : bm_bit (bitmap st) f = false)
    by (unfold free_frame in Hfree; reflect_bools; assumption).
  destruct (mark_used st WF f Hf Hbit) as (bm & -> & Hwf & Hused & Hbits). cbn [of_opt obind].
  eexists; split; [unfold PMM_PAGE_SIZE; rewrite u64_id by lia; do 2 f_equal; lia|].
  split; [exact Hwf|]. split; [now repeat split|]. split; [exact Hused|].
  intros g. unfold free_frame at 1. rewrite Hbits. cbn [total_frames set_bitmap].
  destruct (Z.eqb_spec g f); [cbn; apply andb_false_r|reflexivity].
Qed.

(** [pmm_free_page] returns exactly on the frames that are in
    use, page-aligned, in range and above the boot area; it then frees that
    frame and no other, and freeing the same address again panics. *)
Lemma free_page_spec st p :
  pmm_wf st -> 0 <= p ->
  (freeable st p <-> exists st', pmm_free_page p st = Ok st') /\
  (forall st', pmm_free_page p st = Ok st' ->
    pmm_wf st' /\ same_layout st st' /\ used_frames st' = used_frames st - 1 /\
    (forall g, free_frame st' g = if g =? p / 4096 then true else free_frame st g) /\
    pmm_free_page p st' = Stop (Panic 136)).
Proof.
  intros WF Hp. pose proof (wf_bounds _ WF) as Hb. pose proof (wf_base _ WF) as Hbase.
  unfold pmm_free_page, freeable, PMM_PAGE_SIZE.
  destruct (Z.eqb_spec (p mod 4096) 0) as [Hal|Hal]; cbn [negb].
  2:{ split; [split; [lia|intros [? ?]; discriminate]|discriminate]. }
  destruct (Z.leb_spec (max_physical_address st) p).
  { split; [split; [lia|intros [? ?]; discriminate]|discriminate]. }
  assert (Hf : 0 <= p / 4096 < total_frames st) by dlia.
  rewrite (bm_test_frame _ WF) by exact Hf. cbn [of_opt obind].
  assert (Hfree : free_frame st (p / 4096) = negb (bm_bit (bitmap st) (p / 4096))).
  { unfold free_frame. destruct (Z.leb_spec 0 (p / 4096)), (Z.ltb_spec (p / 4096) (total_frames st)); reflexivity || lia. }
  rewrite Hfree. destruct (bm_bit (bitmap st) (p / 4096)) eqn:Hbit; cbn [negb].
  2:{ split; [split; [intros (_ & _ & _ & ?); discriminate|intros [? ?]; discriminate]|discriminate]. }
  rewrite u64_id by lia. destruct (Z.ltb_spec p (bitmap_phys_addr st + bitmap_size st)).
  { split; [split; [lia|intros [? ?]; discriminate]|discriminate]. }
  destruct (mark_free st WF _ Hf Hbit) as (bm & -> & Hwf & Hused & Hbits). cbn [of_opt obind].
  split; [split; [eauto|intros _; repeat split; auto; lia]|].
  intros st' [= <-]. split; [exact Hwf|]. split; [now repeat split|]. split; [exact Hused|].
  cbn [bitmap set_bitmap max_physical_address bitmap_phys_addr bitmap_size] in *. split.
  - intros g. unfold free_frame at 1. cbn [bitmap set_bitmap total_frames]. rewrite Hbits.
    destruct (Z.eqb_spec g (p / 4096)) as [->|]; [|reflexivity].
    destruct (Z.leb_spec 0 (p / 4096)), (Z.ltb_spec (p / 4096) (total_frames st)); reflexivity || lia.
  - destruct (Z.leb_spec (max_physical_address st) p); [lia|].
    pose proof (bm_test_frame _ Hwf (p / 4096) Hf) as Htest. cbn [bitmap set_bitmap] in Htest.
    rewrite Htest, Hbits, Z.eqb_refl. reflexivity.
Qed.

(** [pmm_mark_region] on a region that does not wrap around the address
    space gives every existing frame that meets the region the requested state,
    leaves every other frame alone, keeps the invariant (the counter included)
    and never writes outside the bitmap. *)
Lemma mark_region_spec st phys len free :
  pmm_wf st -> 0 <= phys -> 0 <= len -> phys + len <= 2 ^ 64 - 4096 ->
  exists st', pmm_mark_region phys len free st = Ok st' /\ pmm_wf st' /\ same_layout st st' /\
    (forall g, free_frame st' g =
       if (phys / 4096 <=? g) && (g <? (phys + len + 4095) / 4096) && (g <? total_frames st)
       then free else free_frame st g).
Proof.
  intros WF Hp Hl Hw. pose proof (wf_bounds _ WF) as Hb.
  unfold pmm_mark_region. rewrite align_down_spec, (u64_id (phys + len)), align_up_spec by lia.
  unfold PMM_PAGE_SIZE.
  set (a := phys / 4096). set (e := Z.min ((phys + len + 4095) / 4096) (total_frames st)).
  replace (if max_physical_address st <? (phys + len + 4095) / 4096 * 4096
           then max_physical_address st else (phys + len + 4095) / 4096 * 4096) with (4096 * e).
  2:{ subst e. split_if; reflect_bools; lia. }
  replace (a * 4096) with (4096 * a) by lia.
  destruct (mark_loop_spec (Z.to_nat ((4096 * e - 4096 * a) / 4096 + 1)) a e free st WF)
    as (st' & -> & WF' & Hlay & Hf); subst a e; try dlia.
  exists st'. split; [reflexivity|]. split; [exact WF'|]. split; [exact Hlay|].
  intros g. rewrite Hf.
  replace (g <? Z.min ((phys + len + 4095) / 4096) (total_frames st))
    with ((g <? (phys + len + 4095) / 4096) && (g <? total_frames st)).
  - rewrite andb_assoc. reflexivity.
  - apply Bool.eq_iff_eq_true. rewrite andb_true_iff, !Z.ltb_lt. lia.
Qed.

(** A well-formed bitmap is determined by its layout and its free frames. *)
Lemma pmm_ext st st' :
  pmm_wf st -> pmm_wf st' -> same_layout st st' ->
  (forall g, free_frame st' g = free_frame st g) -> st' = st.
Proof.
  intros WF WF' (Ht & Hm & Hba & Hbs) Hf.
  assert (Hbit : forall i, 0 <= i < 8 * bitmap_size st ->
    bm_bit (bitmap st') i = bm_bit (bitmap st) i).
  { intros i Hi. destruct (Z.ltb_spec i (total_frames st)).
    - specialize (Hf i). unfold free_frame in Hf. rewrite Ht in Hf.
      destruct (Z.leb_spec 0 i), (Z.ltb_spec i (total_frames st)); try lia.
      cbn in Hf. now destruct (bm_bit (bitmap st') i), (bm_bit (bitmap st) i).
    - rewrite (wf_padding _ WF), (wf_padding _ WF'); [reflexivity|lia|lia]. }
  assert (Hbm : bitmap st' = bitmap st).
  { apply bm_ext; try apply WF; try apply WF'.
    - rewrite (wf_len _ WF), (wf_len _ WF'). lia.
    - rewrite (wf_len _ WF'), Hbs. exact Hbit. }
  assert (Hu : used_frames st' = used_frames st)
    by (rewrite (wf_used _ WF), (wf_used _ WF'), Ht, Hbm; reflexivity).
  destruct st, st'; cbn in *. congruence.
Qed.

Lemma init_wf start max :
  0 <= start < 2 ^ 51 -> 0 <= max <= 2 ^ 52 -> max mod 4096 = 0 ->
  pmm_wf (pmm_init start max) /\ (forall f, free_frame (pmm_init start max) f = false).
Proof.
  intros Hs Hm Ha.
  set (total := max / 4096).
  assert (Ht : 0 <= total <= 2 ^ 40) by (subst total; dlia).
  assert (Hsize : bitmap_size (pmm_init start max) = (total + 7) / 8).
  { unfold pmm_init, PMM_PAGE_SIZE; cbn [bitmap_size]. fold total.
    split_if; reflect_bools; [dlia|]. rewrite u64_id by dlia. dlia. }
  assert (Hbm : bitmap (pmm_init start max) = replicate (Z.to_nat (bitmap_size (pmm_init start max))) 255)
    by reflexivity.
  assert (Hbit : forall i, 0 <= i < 8 * bitmap_size (pmm_init start max) ->
                 bm_bit (bitmap (pmm_init start max)) i = true).
  { intros i Hi. unfold bm_bit. rewrite Hbm, znth_replicate by dlia.
    apply full_byte_bit. dlia. }
  split.
  - constructor; auto; try rewrite Hbm.
    + rewrite zlen_replicate, Hsize. dlia.
    + apply Forall_replicate. unfold byte; lia.
    + cbn [pmm_init bitmap_phys_addr]. rewrite align_up_spec by lia. dlia.
    + intros f Hf. apply Hbit. change (total_frames (pmm_init start max)) with total in Hf. lia.
    + cbn [used_frames total_frames pmm_init]. fold (PMM_PAGE_SIZE).
      change (max / PMM_PAGE_SIZE) with total. rewrite countZ_all; [lia|].
      intros i Hi. rewrite <- Hbm. apply Hbit. rewrite Hsize. dlia.
  - intros f. unfold free_frame. cbn [total_frames pmm_init].
    change (max / PMM_PAGE_SIZE) with total.
    destruct (Z.leb_spec 0 f), (Z.ltb_spec f total); try reflexivity.
    rewrite Hbit; [reflexivity|]. rewrite Hsize. dlia.
Qed.

(** ** The contract offered to the rest of the kernel *)
#[export] Instance pmm_frames : FrameSource pmm := {
  fs_alloc := pmm_alloc_page;
  fs_free := pmm_free_page;
  fs_ok st := pmm_wf st /\ boot_reserved st;
  fs_held := freeable;
  fs_used := taken;
  fs_limit := max_physical_address;
  fs_room st := total_frames st - used_frames st
}.

Lemma boot_reserved_step st st' f :
  boot_reserved st -> same_layout st st' ->
  (forall g, free_frame st' g = true -> free_frame st g = true \/ 4096 * g = f) ->
  bitmap_phys_addr st + bitmap_size st <= f \/ (forall g, 4096 * g <> f) -> boot_reserved st'.
Proof.
  intros [Hpos Hres] (_ & _ & Hba & Hbs) Hstep Hf. unfold boot_reserved. rewrite Hba, Hbs.
  split; [exact Hpos|]. intros g Hg. destruct (free_frame st' g) eqn:E; [|reflexivity].
  apply Hstep in E as [E|E]; [rewrite (Hres g Hg) in E; discriminate|].
  unfold PMM_PAGE_SIZE in Hg. destruct Hf as [Hf|Hf]; [lia|]. now apply Hf in E.
Qed.

Lemma alloc_ok st p st' :
  fs_ok st -> pmm_alloc_page st = Ok (p, st') ->
  (p = 0 /\ st' = st) \/
  (p <> 0 /\ free_frame st (p / 4096) = true /\ freeable st' p /\ fs_ok st' /\
   same_layout st st' /\ used_frames st' = used_frames st + 1 /\
   (forall g, free_frame st' g = if g =? p / 4096 then false else free_frame st g)).
Proof.
  intros [WF [Hpos Hres]] H. pose proof (alloc_page_spec st WF) as A. rewrite H in A.
  destruct (first_free st) as [f|]; [|left; injection A as -> ->; auto].
  destruct A as (Hfree & s' & Heq & WF' & Hlay & Hused & Hff). injection Heq as -> ->.
  pose proof (free_frame_range _ _ Hfree) as Hr. pose proof (wf_bounds _ WF) as Hb.
  replace (4096 * f / 4096) with f by dlia.
  assert (Hge : bitmap_phys_addr st + bitmap_size st <= 4096 * f).
  { destruct (Z.lt_ge_cases (4096 * f) (bitmap_phys_addr st + bitmap_size st)) as [Hlt|]; [|lia].
    rewrite (Hres f) in Hfree by (unfold PMM_PAGE_SIZE; lia). discriminate. }
  right. split; [lia|]. split; [exact Hfree|].
  pose proof Hlay as (Ht & Hm & Hba & Hbs). split; [|split; [|auto]].
  - unfold freeable, PMM_PAGE_SIZE. rewrite Hm, Hba, Hbs.
    replace (4096 * f / 4096) with f by dlia. rewrite Hff, Z.eqb_refl.
    split; [dlia|]. split; [lia|]. split; [lia|reflexivity].
  - split; [exact WF'|]. apply (boot_reserved_step st _ (4096 * f)); auto; [now split|].
    intros g Hg. rewrite Hff in Hg. destruct (Z.eqb_spec g f); [discriminate|auto].
Qed.

Lemma free_ok st p :
  fs_ok st -> freeable st p ->
  exists st', pmm_free_page p st = Ok st' /\ fs_ok st' /\ same_layout st st' /\
    used_frames st' = used_frames st - 1 /\
    (forall g, free_frame st' g = if g =? p / 4096 then true else free_frame st g).
Proof.
  intros [WF BR] Hp. pose proof Hp as (Hal & Hr & Hge & _).
  destruct (free_page_spec st p WF ltac:(lia)) as [[Hok _] Heff].
  destruct (Hok Hp) as [st' H]. exists st'. split; [exact H|].
  destruct (Heff st' H) as (WF' & Hlay & Hused & Hff & _).
  split; [|auto]. split; [exact WF'|].
  apply (boot_reserved_step st _ p); auto.
  intros g Hg. rewrite Hff in Hg. unfold PMM_PAGE_SIZE in *.
  destruct (Z.eqb_spec g (p / 4096)); [right; dlia|auto].
Qed.

Lemma no_room st : fs_ok st -> pmm_alloc_page st = Ok (0, st) -> total_frames st - used_frames st = 0.
Proof.
  intros [WF _] H. pose proof (wf_bounds _ WF) as Hb. pose proof (alloc_page_spec st WF) as A. destruct (first_free st) as [f|] eqn:E.
  - destruct A as (_ & s' & H' & _ & _ & Hu & _). rewrite H in H'. injection H' as _ <-. lia.
  - rewrite (wf_used _ WF), countZ_all; [lia|]. intros i Hi. pose proof (firstZ_None _ _ _ E i Hi) as Hf. unfold free_frame in Hf.
    destruct (Z.leb_spec 0 i), (Z.ltb_spec i (total_frames st)); try lia. cbn [andb] in Hf. now apply negb_false_iff in Hf.
Qed.

Lemma freed_frame_positive st p : fs_ok st -> freeable st p -> 0 < p.
Proof. intros [WF [Hpos _]] (_ & _ & Hge & _). lia. Qed.

#[export] Instance pmm_frames_laws : FrameSourceLaws pmm.
Proof.
  constructor.
  - intros st p _ (Hal & Hr & _). cbn. unfold PMM_PAGE_SIZE in *. lia.
  - intros st p [WF [Hpos _]] (Hal & Hr & Hge & Hf). repeat split; [exact Hal|lia|lia|exact Hf].
  - intros st [WF _]. exact (wf_max _ WF).
  - intros st Hok. pose proof (alloc_page_spec st (proj1 Hok)) as A.
    assert (HA : exists p st', pmm_alloc_page st = Ok (p, st')).
    { destruct (first_free st); [destruct A as (_ & s' & -> & _); eauto|eauto]. }
    destruct HA as (p & st' & H). exists p, st'. split; [exact H|].
    destruct (alloc_ok _ _ _ Hok H)
      as [[-> ->]|(Hp & Hfree & Hheld & Hok' & Hlay & _ & Hff)].
    + split; [exact Hok|]. split; [reflexivity|]. now left.
    + pose proof Hlay as (_ & Hm & Hba & Hbs).
      split; [exact Hok'|]. split; [exact Hm|]. right. split; [exact Hp|].
      split; [intros (_ & _ & Hu); unfold PMM_PAGE_SIZE in Hu; congruence|].
      intros q. pose proof (freed_frame_positive _ _ Hok' Hheld) as Hpos. cbn. unfold freeable, taken, PMM_PAGE_SIZE in *. rewrite Hm, Hba, Hbs, Hff in *.
      split; (destruct (Z.eqb_spec (q / 4096) (p / 4096));
        [split; [intros (? & ?); left; dlia|intros [->|Hq]; [split; [|split]; tauto|intuition congruence]]
        |split; [intros Hq; right; exact Hq|intros [->|Hq]; [congruence|exact Hq]]]).
  - intros st p Hok Hp. destruct (free_ok st p Hok Hp) as (st' & H & Hok' & Hlay & _ & Hff).
    exists st'. split; [exact H|]. split; [exact Hok'|].
    pose proof Hlay as (_ & Hm & Hba & Hbs). split; [exact Hm|].
    intros q. cbn in *. unfold freeable, taken, PMM_PAGE_SIZE in *. rewrite Hm, Hba, Hbs, Hff.
    split; (destruct (Z.eqb_spec (q / 4096) (p / 4096)) as [He|Hne];
      [split; [intuition discriminate|intros (Hne & Hal & _); exfalso; apply Hne; dlia]
      |split; [intros Hq; split; [intros ->; congruence|exact Hq]|tauto]]).
  - intros st p st' Hok H. destruct (alloc_ok st p st' Hok H) as [[-> ->]|(Hp & _ & _ & _ & Hlay & Hu & _)].
    + cbn. now apply no_room.
    + destruct (Z.eqb_spec p 0); [done|]. destruct Hlay as (Ht & _). cbn. lia.
  - intros st p st' Hok Hp H. destruct (free_ok st p Hok Hp) as (s1 & H1 & _ & (Ht & _) & Hu & _). cbn in *. rewrite H in H1. injection H1 as <-. lia.
Qed.

(** ** A concrete allocator: 16 frames, the boot area is frames 0 and 1. *)
Definition pmm16 : pmm :=
  {| bitmap := [3; 0]; total_frames := 16; used_frames := 2;
     max_physical_address := 65536; bitmap_phys_addr := 4096; bitmap_size := 2 |}.

Lemma pmm16_ok : fs_ok pmm16.
Proof.
  split.
  - constructor; try reflexivity; cbn; try lia.
    repeat constructor; unfold byte; lia.
  - split; [reflexivity|]. intros f Hf. unfold PMM_PAGE_SIZE in Hf. cbn in Hf.
    destruct (Z.ltb_spec f 0) as [H0|H0].
    + unfold free_frame. destruct (Z.leb_spec 0 f); [lia|reflexivity].
    + assert (f = 0 \/ f = 1) as [-> | ->] by lia; reflexivity.
Qed.

(** What a client's holdings satisfy at every step. *)
Definition client_inv (st0 : pmm) (c : pmm * gset Z) : Prop :=
  fs_ok (fst c) /\ (forall p, p ∈ snd c -> freeable (fst c) p) /\
  used_frames (fst c) = used_frames st0 + Z.of_nat (size (snd c)).

Lemma client_inv_step st0 c c' : client_step c c' -> client_inv st0 c -> client_inv st0 c'.
Proof.
  intros Hstep (Hok & Hheld & Hused). destruct Hstep as [st O p st' H Hp|st O st' H|st O p st' Hin H];
    cbn [fst snd] in *.
  - pose proof (fs_alloc_law st Hok) as (p1 & s1 & H1 & Hok1 & _ & Hcase).
    cbn in H1. rewrite H in H1. injection H1 as <- <-.
    destruct Hcase as [[? _]|(_ & Hnew & Hiff)]; [congruence|].
    destruct (alloc_ok _ _ _ Hok H) as [[? _]|(_ & _ & _ & _ & _ & Hu & _)]; [congruence|].
    split; [exact Hok1|]. cbn [fst snd]. split.
    + intros q Hq. apply Hiff. apply elem_of_union in Hq as [Hq|Hq]; [left; now apply elem_of_singleton in Hq|right; apply Hheld, Hq].
    + rewrite size_union by (intros q; rewrite elem_of_singleton; intros -> Hq; apply Hnew, (fs_held_used _ _ Hok), Hheld, Hq).
      rewrite size_singleton. lia.
  - destruct (alloc_ok _ _ _ Hok H) as [[_ ->]|(? & _)]; [|congruence].
    split; [exact Hok|]. split; assumption.
  - destruct (free_ok st p Hok (Hheld _ Hin)) as (s1 & H1 & Hok1 & _ & Hu & _).
    rewrite H in H1. injection H1 as <-.
    pose proof (fs_free_law st p Hok (Hheld _ Hin)) as (s2 & H2 & _ & _ & Hiff).
    cbn in H2. rewrite H in H2. injection H2 as <-.
    split; [exact Hok1|]. cbn [fst snd]. split.
    + intros q [Hq Hn]%elem_of_difference. apply Hiff.
      split; [intros ->; now apply Hn, elem_of_singleton|apply Hheld, Hq].
    + pose proof (proj2 (singleton_subseteq_l p O) Hin) as Hsub.
      pose proof (subseteq_size _ _ Hsub) as Hs. rewrite size_difference by exact Hsub.
      rewrite size_singleton in *. lia.
Qed.

(** ** Properties *)

(** C31: allocation. In a well-formed state [pmm_alloc_page] never faults; when a
    frame is free it takes the least free frame, marks exactly that frame used,
    counts it and returns its address, and when no frame is free it returns 0
    and changes nothing. *)
Theorem pmm_alloc_page_correct st :
  pmm_wf st ->
  match first_free st with
  | None => pmm_alloc_page st = Ok (0, st)
  | Some f =>
    free_frame st f = true /\
    exists st', pmm_alloc_page st = Ok (4096 * f, st') /\ pmm_wf st' /\ same_layout st st' /\
      used_frames st' = used_frames st + 1 /\
      (forall g, free_frame st' g = if g =? f then false else free_frame st g)
  end.
Proof. apply alloc_page_spec. Qed.

Lemma pmm_alloc_page_correct_witness :
  first_free pmm16 = Some 2 /\ exists st', pmm_alloc_page pmm16 = Ok (8192, st').
Proof.
  split; [reflexivity|].
  destruct (pmm_alloc_page_correct pmm16 (proj1 pmm16_ok)) as (_ & st' & H & _). eauto.
Defined.

(** C32: deallocation. [pmm_free_page] returns exactly on the frames that are in
    use, page-aligned, in range and above the boot area; it then frees that
    frame and no other, and freeing the same address again panics. *)
Theorem pmm_free_page_correct st p :
  pmm_wf st -> 0 <= p ->
  (freeable st p <-> exists st', pmm_free_page p st = Ok st') /\
  (forall st', pmm_free_page p st = Ok st' ->
    pmm_wf st' /\ same_layout st st' /\ used_frames st' = used_frames st - 1 /\
    (forall g, free_frame st' g = if g =? p / 4096 then true else free_frame st g) /\
    pmm_free_page p st' = Stop (Panic 136)).
Proof. apply free_page_spec. Qed.

Lemma pmm_free_page_correct_witness :
  ~ (exists st', pmm_free_page 8192 pmm16 = Ok st').
Proof.
  intros H. apply (pmm_free_page_correct pmm16 8192 (proj1 pmm16_ok) ltac:(lia)) in H.
  destruct H as (_ & _ & _ & H). discriminate H.
Defined.

(** [pmm_mark_region] on a region that does not wrap around the address
    space gives every existing frame that meets the region the requested state,
    leaves every other frame alone, keeps the invariant (the counter included)
    and never writes outside the bitmap. *)
Theorem pmm_mark_region_correct st phys len free :
  pmm_wf st -> 0 <= phys -> 0 <= len -> phys + len <= 2 ^ 64 - 4096 ->
  exists st', pmm_mark_region phys len free st = Ok st' /\ pmm_wf st' /\ same_layout st st' /\
    (forall g, free_frame st' g =
       if (phys / 4096 <=? g) && (g <? (phys + len + 4095) / 4096) && (g <? total_frames st)
       then free else free_frame st g).
Proof. apply mark_region_spec. Qed.

Lemma pmm_mark_region_correct_witness :
  exists st', pmm_mark_region 10000 5000 false pmm16 = Ok st' /\
    free_frame st' 2 = false /\ free_frame st' 3 = false /\ free_frame st' 4 = true.
Proof.
  destruct (pmm_mark_region_correct pmm16 10000 5000 false (proj1 pmm16_ok)
              ltac:(lia) ltac:(lia) ltac:(lia)) as (st' & H & _ & _ & Hf).
  exists st'. rewrite !Hf. repeat split; exact H || reflexivity.
Defined.

(** the allocator forgets an allocation that is given back: allocating a
    frame and freeing it restores the state bit for bit. *)
Theorem pmm_alloc_free_roundtrip st p st' :
  fs_ok st -> pmm_alloc_page st = Ok (p, st') -> p <> 0 -> pmm_free_page p st' = Ok st.
Proof.
  intros Hok H Hp.
  destruct (alloc_ok _ _ _ Hok H) as [[? _]|(_ & Hfree & Hheld & Hok' & Hlay & _ & Hff)]; [congruence|].
  destruct (free_ok st' p Hok' Hheld) as (st2 & -> & [WF2 _] & Hlay2 & _ & Hff2).
  f_equal. apply pmm_ext; [apply Hok|exact WF2|eapply same_layout_trans; eauto|].
  intros g. rewrite Hff2, Hff. destruct (Z.eqb_spec g (p / 4096)) as [->|]; auto.
Qed.

Lemma pmm_alloc_free_roundtrip_witness :
  exists st', pmm_alloc_page pmm16 = Ok (8192, st') /\ pmm_free_page 8192 st' = Ok pmm16.
Proof.
  eexists. split; [reflexivity|].
  apply (pmm_alloc_free_roundtrip pmm16 8192 _ pmm16_ok eq_refl). lia.
Defined.

(** C33: exact accounting and safety for every client that frees only what it
    holds: along any sequence of allocations and frees the used-frame counter is
    the initial one plus the number of frames held, no free panics, and no frame
    is handed out twice. *)
Theorem pmm_client_safe st0 st O :
  fs_ok st0 -> rtc client_step (st0, ∅) (st, O) ->
  used_frames st = used_frames st0 + Z.of_nat (size O) /\
  (forall p, p ∈ O -> exists st', pmm_free_page p st = Ok st') /\
  (exists p st', pmm_alloc_page st = Ok (p, st') /\ p ∉ O).
Proof.
  intros Hok Hrtc.
  assert (Hinv : client_inv st0 (st, O)).
  { apply (rtc_invariant client_step (client_inv st0) (client_inv_step st0) _ _ Hrtc).
    split; [exact Hok|]. cbn [fst snd]. rewrite size_empty. split; [|lia].
    intros p Hp. now apply elem_of_empty in Hp. }
  destruct Hinv as (Hok' & Hheld & Hused). cbn [fst snd] in *. split; [exact Hused|]. split.
  - intros p Hp. destruct (free_ok st p Hok' (Hheld p Hp)) as (st' & H & _). eauto.
  - destruct (fs_alloc_law st Hok') as (p & st' & H & _ & _ & Hcase). exists p, st'.
    split; [exact H|]. intros Hin. pose proof (fs_held_range _ _ Hok' (Hheld p Hin)) as [_ Hr].
    destruct Hcase as [[-> _]|(_ & Hn & _)]; [lia|]. apply Hn, (fs_held_used _ _ Hok'), Hheld, Hin.
Qed.

Lemma pmm_client_safe_witness :
  exists st, rtc client_step (pmm16, ∅) (st, {[8192]} ∪ ∅) /\ used_frames st = 3.
Proof.
  eexists. assert (H : rtc client_step (pmm16, ∅) (set_bitmap pmm16 [7; 0] 3, {[8192]} ∪ ∅)).
  { apply rtc_once. apply client_alloc; [reflexivity|lia]. }
  split; [exact H|].
  destruct (pmm_client_safe pmm16 _ _ pmm16_ok H) as [Hu _]. rewrite Hu. reflexivity.
Defined.

(** the allocator relies on a page-aligned memory limit. When [max_phys_addr]
    ends inside a page and the whole frames fill their bitmap bytes, marking the
    tail of memory accesses the byte after the bitmap. *)
Theorem pmm_unaligned_limit_overrun start k r free :
  0 <= start < 2 ^ 51 -> 0 < k < 2 ^ 30 -> 0 < r < 4096 ->
  pmm_mark_region (32768 * k) r free (pmm_init start (32768 * k + r)) = Stop BadAccess.
Proof.
  intros Hs Hk Hr. unfold pmm_mark_region.
  rewrite align_down_spec, (u64_id (32768 * k + r)), align_up_spec by lia.
  set (st := pmm_init start (32768 * k + r)).
  assert (Hmax : max_physical_address st = 32768 * k + r) by reflexivity. rewrite Hmax.
  replace (32768 * k / 4096 * 4096) with (32768 * k) by dlia.
  destruct (Z.ltb_spec (32768 * k + r) ((32768 * k + r + 4095) / 4096 * 4096)); [|dlia].
  unfold PMM_PAGE_SIZE.
  replace (Z.to_nat ((32768 * k + r - 32768 * k) / 4096 + 1)) with 1%nat by dlia.
  cbn [mark_loop]. destruct (Z.ltb_spec (32768 * k) (32768 * k + r)); [|lia].
  replace (Z.shiftr (32768 * k) 12) with (8 * k)
    by (rewrite Z.shiftr_div_pow2 by lia; change (2 ^ 12) with 4096; dlia).
  assert (Hlen : 8 * zlen (bitmap st) = 8 * k).
  { unfold st, pmm_init, PMM_PAGE_SIZE. cbn [bitmap]. rewrite zlen_replicate.
    replace ((32768 * k + r) / 4096) with (8 * k) by dlia.
    replace (8 * k mod 8) with 0 by dlia. cbn [Z.eqb]. dlia. }
  unfold mark_frame. rewrite (bm_test_oob _ _ Hlen) by lia. reflexivity.
Qed.

Lemma pmm_unaligned_limit_overrun_witness :
  pmm_mark_region 32768 1024 true (pmm_init 4096 33792) = Stop BadAccess.
Proof. apply (pmm_unaligned_limit_overrun 4096 1 1024 true); lia. Defined.
