(* ===== verification/Heap.v ===== *)
(** * Kernel heap (src/kernel/memory/heap.c)

    The heap is a doubly linked list of block headers that tile the committed
    range [heap_start, heap_committed_end).  The record [kheap] holds the file's
    static variables and the headers that live in heap memory, by address; the
    null pointer is [0].  A header is read where the code dereferences a
    [struct heap_block *]; an address at which no header was ever written is
    [Stop BadAccess].  A failed [KASSERT] is [Stop (Panic line)].  Interrupt
    masking ([irq_save]) has no effect on the sequential behaviour and is left
    out.

    [heap_wf] describes a heap by the sequence of its blocks; the operations are
    specified on that sequence and on the list [live] of the payloads that
    clients hold. *)

From S2P Require Import Prelude Interfaces.

Definition HEAP_MAGIC : Z := 0xC001BEEFDEADBEEF.
Definition HEAP_FREE : Z := 0.
Definition HEAP_USED : Z := 0xFFFFFFFFFFFFFFFF.
Definition KERNEL_HEAP_BASE : Z := 0xFFFFC00000000000.
Definition KERNEL_HEAP_MAX : Z := 0xFFFFC00040000000.
Definition PAGE : Z := 4096.

(** [sizeof(struct heap_block)]. *)
Definition HDR : Z := 48.

Record heap_block : Type := mkBlock {
  hb_magic : Z;
  hb_size : Z;
  hb_state : Z;
  hb_next : Z;
  hb_prev : Z
}.

Record kheap : Type := mkHeap {
  heap_start : Z;
  heap_committed_end : Z;
  heap_reserved_end : Z;
  hp_head : Z;
  hp_blocks : gmap Z heap_block
}.

Record kheap_stats : Type := mkStats {
  virtual_reserved : Z;
  virtual_committed : Z;
  allocated_bytes : Z;
  free_bytes : Z;
  block_count : Z;
  free_block_count : Z
}.

(** Reading and writing a header, and the single-field assignments the code makes. *)
Definition load (h : kheap) (a : Z) : outcome heap_block := of_opt (hp_blocks h !! a).

Definition store (h : kheap) (a : Z) (b : heap_block) : kheap :=
  mkHeap (heap_start h) (heap_committed_end h) (heap_reserved_end h) (hp_head h)
         (<[a := b]> (hp_blocks h)).

Definition with_size (b : heap_block) (v : Z) : heap_block :=
  mkBlock (hb_magic b) v (hb_state b) (hb_next b) (hb_prev b).
Definition with_state (b : heap_block) (v : Z) : heap_block :=
  mkBlock (hb_magic b) (hb_size b) v (hb_next b) (hb_prev b).
Definition with_next (b : heap_block) (v : Z) : heap_block :=
  mkBlock (hb_magic b) (hb_size b) (hb_state b) v (hb_prev b).
Definition with_prev (b : heap_block) (v : Z) : heap_block :=
  mkBlock (hb_magic b) (hb_size b) (hb_state b) (hb_next b) v.

(** [p->f = v] for a pointer [p]. *)
Definition update (h : kheap) (a : Z) (f : heap_block -> heap_block) : outcome kheap :=
  let* b := load h a in Ok (store h a (f b)).

(** [if (n) n->prev = p;] *)
Definition relink (h : kheap) (n p : Z) : outcome kheap :=
  if negb (n =? 0) then update h n (fun x => with_prev x p) else Ok h.

Definition set_end (h : kheap) (e : Z) : kheap :=
  mkHeap (heap_start h) e (heap_reserved_end h) (hp_head h) (hp_blocks h).
Definition set_head (h : kheap) (p : Z) : kheap :=
  mkHeap (heap_start h) (heap_committed_end h) (heap_reserved_end h) p (hp_blocks h).

Definition align_up (val alignment : Z) : Z :=
  Z.land (val +64 alignment -64 1) (u64 (Z.lnot (alignment -64 1))).

Definition kheap_init (virtual_base : Z) (memory : gmap Z heap_block) : kheap :=
  mkHeap virtual_base virtual_base KERNEL_HEAP_MAX 0 memory.

Section Operations.
Context {M : Type} `{PageBacking M}.

(** The allocate-and-map loop of [expand_heap]: [n] pages still to commit. *)
Fixpoint expand_loop (n : nat) (h : kheap) (m : M) : outcome (bool * kheap * M) :=
  match n with
  | O => Ok (true, h, m)
  | S k =>
    let* (phys, m) := pb_alloc m in
    if phys =? 0 then Ok (false, h, m)
    else
      let* (mapped, m) := pb_map (heap_committed_end h) phys VMM_FLAG_WRITABLE m in
      if negb mapped then
        let* m := pb_free phys m in Ok (false, h, m)
      else expand_loop k (set_end h (heap_committed_end h +64 PAGE)) m
  end.

Definition expand_heap (bytes : Z) (h : kheap) (m : M) : outcome (bool * kheap * M) :=
  let pages_needed := align_up bytes PAGE / PAGE in
  if heap_reserved_end h <? heap_committed_end h +64 (pages_needed *64 PAGE) then Ok (false, h, m)
  else expand_loop (Z.to_nat pages_needed) h m.

(** The first-fit walk of [kmalloc]: the block found, or none together with the
    last block of the list. *)
Fixpoint find_fit (fuel : nat) (h : kheap) (curr tail aligned_size : Z) : outcome (option Z * Z) :=
  if curr =? 0 then Ok (None, tail)
  else
    match fuel with
    | O => Stop NoFuel
    | S k =>
      let* b := load h curr in
      if (hb_state b =? HEAP_FREE) && (aligned_size <=? hb_size b) then Ok (Some curr, tail)
      else find_fit k h (hb_next b) curr aligned_size
    end.

(** The body of the walk on the block that fits: split when the rest can hold a
    header and 16 bytes, mark used, return the payload. *)
Definition take_block (h : kheap) (curr aligned_size : Z) : outcome (Z * kheap) :=
  let block_extent := HDR +64 aligned_size in
  let* b := load h curr in
  let remaining := hb_size b -64 aligned_size in
  let* h :=
    if HDR + 16 <=? remaining then
      let new_block := curr +64 block_extent in
      let h := store h new_block
                 (mkBlock HEAP_MAGIC (remaining -64 HDR) HEAP_FREE (hb_next b) curr) in
      let* h := relink h (hb_next b) new_block in
      update h curr (fun cb => with_size (with_next cb new_block) aligned_size)
    else Ok h in
  let* h := update h curr (fun cb => with_state cb HEAP_USED) in
  Ok (curr +64 HDR, h).

(** Adding the newly committed range to the list. *)
Definition add_range (h : kheap) (prev_end tail : Z) : outcome kheap :=
  if prev_end <? heap_committed_end h then
    let* tail_free := if tail =? 0 then Ok false
                      else let* t := load h tail in Ok (hb_state t =? HEAP_FREE) in
    if tail_free then
      update h tail (fun t => with_size t (hb_size t +64 (heap_committed_end h -64 prev_end)))
    else
      let h := store h prev_end
                 (mkBlock HEAP_MAGIC (heap_committed_end h -64 prev_end -64 HDR) HEAP_FREE 0 tail) in
      if negb (tail =? 0) then update h tail (fun t => with_next t prev_end)
      else Ok (set_head h prev_end)
  else Ok h.

(** Headers in memory bound the length of the list walk. *)
Definition walk_fuel (h : kheap) : nat := S (size (hp_blocks h)).

Fixpoint kmalloc_loop (fuel : nat) (aligned_size : Z) (h : kheap) (m : M) : outcome (Z * kheap * M) :=
  match fuel with
  | O => Stop NoFuel
  | S k =>
    let* (found, tail) := find_fit (walk_fuel h) h (hp_head h) 0 aligned_size in
    match found with
    | Some curr => let* (p, h) := take_block h curr aligned_size in Ok (p, h, m)
    | None =>
      let prev_end := heap_committed_end h in
      let* (expanded, h, m) := expand_heap (HDR +64 aligned_size) h m in
      let* h := add_range h prev_end tail in
      if negb expanded then Ok (0, h, m) else kmalloc_loop k aligned_size h m
    end
  end.

(** [while (true)]: after a successful expansion the second walk finds a block,
    so two rounds are enough. *)
Definition kmalloc (sz : Z) (h : kheap) (m : M) : outcome (Z * kheap * M) :=
  if sz =? 0 then Ok (0, h, m) else kmalloc_loop 2 (align_up sz 16) h m.

End Operations.

(** Merging block [a] with its successor or predecessor when that is free. *)
Definition coalesce_next (h : kheap) (a : Z) : outcome kheap :=
  let* b := load h a in
  if hb_next b =? 0 then Ok h
  else
    let* n := load h (hb_next b) in
    if hb_state n =? HEAP_FREE then
      let* h := update h a (fun x => with_next (with_size x (hb_size x +64 (HDR +64 hb_size n))) (hb_next n)) in
      relink h (hb_next n) a
    else Ok h.

Definition coalesce_prev (h : kheap) (a : Z) : outcome kheap :=
  let* b := load h a in
  if hb_prev b =? 0 then Ok h
  else
    let* p := load h (hb_prev b) in
    if hb_state p =? HEAP_FREE then
      let* h := update h (hb_prev b) (fun x => with_next (with_size x (hb_size x +64 (HDR +64 hb_size b))) (hb_next b)) in
      relink h (hb_next b) (hb_prev b)
    else Ok h.

Definition kfree (ptr : Z) (h : kheap) : outcome kheap :=
  if ptr =? 0 then Ok h
  else
    let* _ := kassert ((heap_start h +64 HDR <=? ptr) && (ptr <? heap_committed_end h)) 138 in
    let* _ := kassert (ptr mod 16 =? 0) 139 in
    let block := ptr -64 HDR in
    let* b := load h block in
    let* _ := kassert (hb_magic b =? HEAP_MAGIC) 142 in
    let* _ := kassert (hb_state b =? HEAP_USED) 143 in
    let* h := update h block (fun x => with_state x HEAP_FREE) in
    let* h := coalesce_next h block in
    coalesce_prev h block.

(** One iteration of the walk of [kheap_verify]: its assertions on the block at
    [curr], and the block's extent. *)
Definition verify_block (h : kheap) (curr : Z) (b : heap_block) : outcome Z :=
  let* _ := kassert ((heap_start h <=? curr) && (curr <? heap_committed_end h)) 174 in
  let extent := HDR +64 hb_size b in
  let* _ := kassert (curr +64 extent <=? heap_committed_end h) 177 in
  let* _ := kassert ((curr +64 HDR) mod 16 =? 0) 180 in
  let* _ := kassert (hb_size b mod 16 =? 0) 181 in
  let* _ := kassert (extent mod 16 =? 0) 182 in
  let* _ :=
    if negb (hb_next b =? 0) then
      let* n := load h (hb_next b) in
      let* _ := kassert (hb_prev n =? curr) 185 in
      kassert (curr +64 extent =? hb_next b) 186
    else kassert (curr +64 extent =? heap_committed_end h) 188 in
  let* _ :=
    if negb (hb_prev b =? 0) then
      let* p := load h (hb_prev b) in kassert (hb_next p =? curr) 192
    else kassert (curr =? hp_head h) 194 in
  let* _ :=
    if (hb_state b =? HEAP_FREE) && negb (hb_next b =? 0) then
      let* n := load h (hb_next b) in kassert (hb_state n =? HEAP_USED) 198
    else Ok tt in
  Ok extent.

Fixpoint verify_loop (fuel : nat) (h : kheap) (curr total_extent : Z) : outcome unit :=
  if curr =? 0 then kassert (total_extent =? heap_committed_end h -64 heap_start h) 205
  else
    match fuel with
    | O => Stop NoFuel
    | S k =>
      let* b := load h curr in
      let* extent := verify_block h curr b in
      verify_loop k h (hb_next b) (total_extent +64 extent)
    end.

Definition kheap_verify (h : kheap) : outcome unit :=
  if hp_head h =? 0 then Ok tt else verify_loop (walk_fuel h) h (hp_head h) 0.

Fixpoint stats_loop (fuel : nat) (h : kheap) (curr : Z) (s : kheap_stats) : outcome kheap_stats :=
  if curr =? 0 then Ok s
  else
    match fuel with
    | O => Stop NoFuel
    | S k =>
      let* b := load h curr in
      let s := if hb_state b =? HEAP_FREE
               then mkStats (virtual_reserved s) (virtual_committed s) (allocated_bytes s)
                      (free_bytes s +64 hb_size b) (block_count s +64 1) (free_block_count s +64 1)
               else mkStats (virtual_reserved s) (virtual_committed s) (allocated_bytes s +64 hb_size b)
                      (free_bytes s) (block_count s +64 1) (free_block_count s) in
      stats_loop k h (hb_next b) s
    end.

Definition kheap_get_stats (h : kheap) : outcome kheap_stats :=
  stats_loop (walk_fuel h) h (hp_head h)
    (mkStats (heap_reserved_end h -64 heap_start h) (heap_committed_end h -64 heap_start h) 0 0 0 0).

(** ** Specification *)

(** A block as a client sees it: its capacity and whether it is free. *)
Record chunk : Type := mkChunk { ck_size : Z; ck_free : bool }.

Definition extent (c : chunk) : Z := HDR + ck_size c.

Definition chunk_ok (c : chunk) : Prop := 16 <= ck_size c /\ ck_size c mod 16 = 0.

Definition header (c : chunk) (n p : Z) : heap_block :=
  mkBlock HEAP_MAGIC (ck_size c) (if ck_free c then HEAP_FREE else HEAP_USED) n p.

Fixpoint extents (l : list chunk) : Z :=
  match l with
  | [] => 0
  | c :: r => extent c + extents r
  end.

(** The headers of the blocks [l], laid out from address [a]: the first one's
    [prev] is [p], the last one's [next] is [n], the others point to their
    neighbours. *)
Fixpoint seg (bs : gmap Z heap_block) (p a : Z) (l : list chunk) (n : Z) : Prop :=
  match l with
  | [] => True
  | c :: r =>
    bs !! a = Some (header c (match r with [] => n | _ => a + extent c end) p) /\
    seg bs a (a + extent c) r n
  end.

(** The address of the last header of such a list, [p] when there is none. *)
Fixpoint last_addr (p a : Z) (l : list chunk) : Z :=
  match l with
  | [] => p
  | c :: r => last_addr a (a + extent c) r
  end.

Definition hd_free (l : list chunk) : bool :=
  match l with [] => false | c :: _ => ck_free c end.

Fixpoint last_free (l : list chunk) : bool :=
  match l with [] => false | [c] => ck_free c | _ :: r => last_free r end.

Fixpoint no_adj (l : list chunk) : Prop :=
  match l with
  | [] => True
  | c :: r => ~ (ck_free c = true /\ hd_free r = true) /\ no_adj r
  end.

(** The layout: the list covers the committed range exactly. *)
Record heap_lay (h : kheap) (cs : list chunk) : Prop := {
  hw_start : 0 < heap_start h;
  hw_align : heap_start h mod 16 = 0;
  hw_end : heap_committed_end h = heap_start h + extents cs;
  hw_limit : heap_committed_end h <= heap_reserved_end h <= 2 ^ 64 - 2 ^ 45;
  hw_head : hp_head h = match cs with [] => 0 | _ => heap_start h end;
  hw_chunks : Forall chunk_ok cs;
  hw_seg : seg (hp_blocks h) 0 (heap_start h) cs 0
}.

(** The invariant between calls: moreover no two free blocks are neighbours. *)
Record heap_wf (h : kheap) (cs : list chunk) : Prop := {
  hw_lay :> heap_lay h cs;
  hw_no_adj : no_adj cs
}.

(** The payloads clients hold, with their capacities, in address order. *)
Fixpoint live (a : Z) (l : list chunk) : list (Z * Z) :=
  match l with
  | [] => []
  | c :: r => (if ck_free c then [] else [(a + HDR, ck_size c)]) ++ live (a + extent c) r
  end.

(** The first free block of capacity at least [k], with what is before and after it. *)
Fixpoint first_fit (k : Z) (l : list chunk) : option (list chunk * chunk * list chunk) :=
  match l with
  | [] => None
  | c :: r =>
    if ck_free c && (k <=? ck_size c) then Some ([], c, r)
    else match first_fit k r with
         | Some (l1, d, l2) => Some (c :: l1, d, l2)
         | None => None
         end
  end.

(** ** Lists of blocks *)
Section Segments.
Implicit Types (bs : gmap Z heap_block) (l : list chunk).

Lemma extents_app l1 l2 : extents (l1 ++ l2) = extents l1 + extents l2.
Proof. induction l1; cbn; lia. Qed.

Lemma extents_nonneg l : Forall chunk_ok l -> 0 <= extents l.
Proof.
  induction 1 as [|c r [Hc _] _ IH]; cbn; [lia|]. unfold extent, HDR. lia.
Qed.

Lemma extents_pos l : Forall chunk_ok l -> l <> [] -> 64 <= extents l.
Proof.
  intros [|c r [Hc _] Hr] Hn; [done|]. cbn. unfold extent, HDR.
  pose proof (extents_nonneg _ Hr). lia.
Qed.

Lemma extents_mod16 l : Forall chunk_ok l -> extents l mod 16 = 0.
Proof.
  induction 1 as [|c r [_ Hc] _ IH]; cbn; [reflexivity|]. unfold extent, HDR. dlia.
Qed.

Lemma last_addr_app p a l1 l2 :
  last_addr p a (l1 ++ l2) = last_addr (last_addr p a l1) (a + extents l1) l2.
Proof.
  revert p a; induction l1 as [|c r IH]; intros p a; cbn; [now rewrite Z.add_0_r|].
  rewrite IH. f_equal; lia.
Qed.

Lemma seg_app bs p a l1 l2 n :
  seg bs p a (l1 ++ l2) n <->
  seg bs p a l1 (match l2 with [] => n | _ => a + extents l1 end) /\
  seg bs (last_addr p a l1) (a + extents l1) l2 n.
Proof.
  revert p a; induction l1 as [|c r IH]; intros p a; cbn.
  - rewrite Z.add_0_r. tauto.
  - rewrite IH, Z.add_assoc.
    assert (Hn : match r ++ l2 with [] => n | _ => a + extent c end =
                 match r with [] => match l2 with [] => n | _ => a + extent c + extents r end
                         | _ => a + extent c end).
    { destruct r; cbn; [|reflexivity]. rewrite Z.add_0_r. reflexivity. }
    rewrite Hn. tauto.
Qed.

Lemma seg_frame bs bs' p a l n :
  Forall chunk_ok l -> (forall x, a <= x < a + extents l -> bs' !! x = bs !! x) ->
  seg bs p a l n -> seg bs' p a l n.
Proof.
  intros HF; revert p a; induction HF as [|c r [Hc _] Hr IH]; intros p a Heq; cbn; [done|].
  intros [Ha Hs]. pose proof (extents_nonneg _ Hr). cbn in Heq. unfold extent, HDR in *.
  split; [rewrite Heq by lia; exact Ha|]. apply IH; [|exact Hs]. intros; apply Heq; lia.
Qed.

Lemma seg_insert bs p a l n x b :
  Forall chunk_ok l -> ~ (a <= x < a + extents l) ->
  seg bs p a l n -> seg (<[x := b]> bs) p a l n.
Proof.
  intros HF Hx. apply seg_frame; [exact HF|]. intros y Hy. apply lookup_insert_ne. lia.
Qed.

Lemma seg_length bs p a l n : Forall chunk_ok l -> seg bs p a l n -> (length l <= size bs)%nat.
Proof.
  intros HF; revert bs p a; induction HF as [|c r [Hc _] Hr IH]; intros bs p a; cbn; [lia|].
  intros [Ha Hs]. specialize (IH (delete a bs) a (a + extent c)).
  rewrite map_size_delete_Some in IH by eauto.
  assert (Hlen : (length r <= pred (size bs))%nat).
  { apply IH. eapply seg_frame; [exact Hr| |exact Hs]. intros x Hx.
    apply lookup_delete_ne. unfold extent, HDR in *. lia. }
  assert (size bs <> 0%nat) by (apply map_size_non_empty_iff; intros ->; now rewrite lookup_empty in Ha).
  lia.
Qed.

(** Giving the first block another predecessor. *)
Lemma seg_set_prev bs p p' a l n :
  Forall chunk_ok l -> l <> [] -> seg bs p a l n ->
  exists b, bs !! a = Some b /\ seg (<[a := with_prev b p']> bs) p' a l n.
Proof.
  intros HF Hn Hs. destruct HF as [|c r [Hc _] Hr]; [done|]. destruct Hs as [Ha Hs].
  eexists; split; [exact Ha|]. cbn. rewrite lookup_insert_eq. split; [reflexivity|].
  apply seg_insert; [exact Hr| |exact Hs]. unfold extent, HDR. lia.
Qed.

(** Giving the last block another successor. *)
Lemma seg_set_next bs p a l c n n' :
  Forall chunk_ok (l ++ [c]) -> seg bs p a (l ++ [c]) n ->
  exists b, bs !! (a + extents l) = Some b /\ hb_next b = n /\
    seg (<[a + extents l := with_next b n']> bs) p a (l ++ [c]) n'.
Proof.
  intros HF Hs. apply Forall_app in HF as [HF1 HF2]. apply seg_app in Hs as [H1 [H2 _]].
  eexists; split; [exact H2|]. split; [reflexivity|]. apply seg_app. split.
  - apply seg_insert; [exact HF1|lia|exact H1].
  - cbn. rewrite lookup_insert_eq. done.
Qed.

Lemma last_addr_snoc p a l c : last_addr p a (l ++ [c]) = a + extents l.
Proof. rewrite last_addr_app. reflexivity. Qed.

Lemma live_app a l1 l2 : live a (l1 ++ l2) = live a l1 ++ live (a + extents l1) l2.
Proof.
  revert a; induction l1 as [|c r IH]; intros a; cbn [live app extents].
  - now rewrite Z.add_0_r.
  - rewrite IH, <- app_assoc, Z.add_assoc. reflexivity.
Qed.

Lemma no_adj_app l1 l2 :
  no_adj (l1 ++ l2) <-> no_adj l1 /\ no_adj l2 /\ ~ (last_free l1 = true /\ hd_free l2 = true).
Proof.
  induction l1 as [|c r IH]; cbn [app no_adj].
  - cbn. intuition congruence.
  - rewrite IH. destruct r as [|d r]; cbn [app hd_free last_free].
    + cbn. intuition congruence.
    + cbn [last_free] in *. tauto.
Qed.

Lemma first_fit_Some k l l1 c l2 :
  first_fit k l = Some (l1, c, l2) ->
  l = l1 ++ c :: l2 /\ ck_free c = true /\ k <= ck_size c.
Proof.
  revert l1; induction l as [|d r IH]; intros l1; cbn; [discriminate|].
  destruct (ck_free d && (k <=? ck_size d)) eqn:E.
  - intros [= <- <- <-]. reflect_bools. auto.
  - destruct (first_fit k r) as [[[x y] z]|] eqn:E'; [|discriminate].
    intros [= <- <- <-]. destruct (IH _ eq_refl) as (-> & ? & ?). auto.
Qed.

Lemma first_fit_None k l l1 c l2 :
  first_fit k l = None -> l = l1 ++ c :: l2 -> ck_free c = true -> ck_size c < k.
Proof.
  revert l1; induction l as [|d r IH]; intros l1; cbn; [destruct l1; discriminate|].
  destruct (ck_free d && (k <=? ck_size d)) eqn:E; [discriminate|].
  destruct (first_fit k r) as [[[x y] z]|] eqn:E'; [discriminate|].
  intros _ Hl Hf. destruct l1 as [|e l1]; cbn in Hl; injection Hl as -> ->.
  - rewrite Hf in E. cbn in E. reflect_bools. lia.
  - eapply IH; eauto.
Qed.

End Segments.

Lemma align_up16 v : 0 <= v <= 2 ^ 64 - 16 -> align_up v 16 = (v + 15) / 16 * 16.
Proof.
  intros Hv. unfold align_up. change (u64 (Z.lnot (16 -64 1))) with (u64 (Z.lnot (2 ^ 4 - 1))).
  replace (v +64 16 -64 1) with (v + 15).
  - rewrite land_not_low by lia. dlia.
  - unfold u64. rewrite Zminus_mod_idemp_l, Z.mod_small by lia. lia.
Qed.

Lemma align_up_page v : 0 <= v <= 2 ^ 64 - 4096 -> align_up v PAGE = (v + 4095) / 4096 * 4096.
Proof.
  intros Hv. unfold align_up, PAGE.
  change (u64 (Z.lnot (4096 -64 1))) with (u64 (Z.lnot (2 ^ 12 - 1))).
  replace (v +64 4096 -64 1) with (v + 4095).
  - rewrite land_not_low by lia. dlia.
  - unfold u64. rewrite Zminus_mod_idemp_l, Z.mod_small by lia. lia.
Qed.

(** ** The walk *)
Lemma load_insert_eq h a b : load (store h a b) a = Ok b.
Proof. unfold load, store; cbn. now rewrite lookup_insert_eq. Qed.

Lemma load_lookup h a b : hp_blocks h !! a = Some b -> load h a = Ok b.
Proof. unfold load. now intros ->. Qed.

Lemma update_lookup h a b f : hp_blocks h !! a = Some b -> update h a f = Ok (store h a (f b)).
Proof. intros Hb. unfold update. now rewrite (load_lookup _ _ _ Hb). Qed.

Lemma find_fit_spec h l fuel p a k :
  Forall chunk_ok l -> 0 < a -> seg (hp_blocks h) p a l 0 -> (length l < fuel)%nat ->
  find_fit fuel h (match l with [] => 0 | _ => a end) p k =
  Ok (match first_fit k l with
      | Some (l1, _, _) => (Some (a + extents l1), last_addr p a l1)
      | None => (None, last_addr p a l)
      end).
Proof.
  intros HF; revert fuel p a; induction HF as [|c r [Hc _] Hr IH];
    intros fuel p a Ha Hs Hfuel; destruct fuel as [|fuel]; try (cbn in Hfuel; lia); [reflexivity|].
  destruct Hs as [Hb Hs]. cbn [find_fit first_fit].
  destruct (Z.eqb_spec a 0); [lia|]. rewrite (load_lookup _ _ _ Hb). cbn [obind].
  assert (Hst : (hb_state (header c match r with [] => 0 | _ => a + extent c end p) =? HEAP_FREE) = ck_free c)
    by (cbn; now destruct (ck_free c)).
  rewrite Hst. cbn [hb_size header].
  destruct (ck_free c && (k <=? ck_size c)); [now rewrite Z.add_0_r|].
  cbn [hb_next header]. rewrite IH; [|unfold extent, HDR; lia|exact Hs|cbn in Hfuel; lia].
  destruct (first_fit k r) as [[[l1 d] l2]|]; [|reflexivity].
  cbn [extents last_addr]. now rewrite Z.add_assoc.
Qed.

(** ** Using the block that fits *)

(** What the chosen block becomes. *)
Definition taken (c : chunk) (k : Z) : list chunk :=
  if HDR + 16 <=? ck_size c - k
  then [mkChunk k false; mkChunk (ck_size c - k - HDR) true]
  else [mkChunk (ck_size c) false].

Lemma extents_taken c k : extents (taken c k) = extent c.
Proof. unfold taken. split_if; cbn; unfold extent; cbn; lia. Qed.

Lemma heap_bounds h l1 c l2 :
  heap_lay h (l1 ++ c :: l2) ->
  0 < heap_start h /\ 0 <= extents l1 /\ 0 <= extents l2 /\ 16 <= ck_size c /\ ck_size c mod 16 = 0 /\
  heap_start h + extents l1 + extent c + extents l2 <= 2 ^ 64 - 2 ^ 45.
Proof.
  intros [H1 _ H3 H4 _ H6 _]. apply Forall_app in H6 as [Hl1 Hcl]. apply Forall_cons_iff in Hcl as [[Hc Hc'] Hl2].
  rewrite extents_app in H3. cbn in H3.
  pose proof (extents_nonneg _ Hl1). pose proof (extents_nonneg _ Hl2). repeat split; lia.
Qed.

(** The same heap with the headers of block [c] replaced by those of [ds]: the
    common part of the proofs about taking, freeing and merging blocks. *)
Lemma heap_lay_replace h h' l1 cs ds l2 :
  heap_lay h (l1 ++ cs ++ l2) -> cs <> [] -> ds <> [] ->
  heap_start h' = heap_start h -> heap_committed_end h' = heap_committed_end h ->
  heap_reserved_end h' = heap_reserved_end h -> hp_head h' = hp_head h ->
  extents ds = extents cs -> Forall chunk_ok ds ->
  (forall x, heap_start h <= x < heap_start h + extents l1 -> hp_blocks h' !! x = hp_blocks h !! x) ->
  seg (hp_blocks h') (last_addr 0 (heap_start h) l1) (heap_start h + extents l1) (ds ++ l2) 0 ->
  heap_lay h' (l1 ++ ds ++ l2).
Proof.
  intros [W1 W2 W3 W4 W5 W6 W8] Hcs Hds E1 E2 E3 E4 Hext HF Hfr Hseg.
  apply Forall_app in W6 as [F1 F2]. apply Forall_app in F2 as [F2 F3].
  constructor; rewrite ?E1, ?E2, ?E3, ?E4; auto.
  - rewrite W3, !extents_app. lia.
  - rewrite W5. destruct l1, cs, ds; cbn; done.
  - repeat apply Forall_app_2; auto.
  - apply seg_app in W8 as [S1 _]. apply seg_app. split; [|exact Hseg].
    eapply seg_frame; [exact F1|exact Hfr|].
    destruct cs; [done|]. destruct ds; [done|]. exact S1.
Qed.

Lemma taken_ok c k : chunk_ok c -> 16 <= k <= ck_size c -> k mod 16 = 0 -> Forall chunk_ok (taken c k).
Proof.
  intros [Hc Hm] Hk Hkm. unfold taken, HDR. split_if; reflect_bools.
  - repeat constructor; cbn; try lia; dlia.
  - repeat constructor; cbn; auto.
Qed.

Lemma taken_adj l1 c l2 k :
  ck_free c = true -> no_adj (l1 ++ c :: l2) -> no_adj (l1 ++ taken c k ++ l2).
Proof.
  intros Hf Hn. apply no_adj_app in Hn as (N1 & N2 & N3). cbn in N2.
  apply no_adj_app. unfold taken. split_if; cbn; rewrite Hf in *; intuition congruence.
Qed.

Lemma relink_spec h p p' e l :
  Forall chunk_ok l -> 0 < e -> seg (hp_blocks h) p e l 0 ->
  exists h', relink h (match l with [] => 0 | _ => e end) p' = Ok h' /\
    (forall x, x <> e -> hp_blocks h' !! x = hp_blocks h !! x) /\
    seg (hp_blocks h') p' e l 0 /\ heap_start h' = heap_start h /\
    heap_committed_end h' = heap_committed_end h /\
    heap_reserved_end h' = heap_reserved_end h /\ hp_head h' = hp_head h.
Proof.
  intros F He Hs. unfold relink. destruct l as [|d r]; [exists h; cbn; auto 10|].
  destruct (Z.eqb_spec e 0); [lia|]. cbn [negb].
  destruct (seg_set_prev _ _ p' _ _ _ F ltac:(done) Hs) as (b & Hb & Hs').
  rewrite (update_lookup _ _ _ _ Hb). eexists. split; [reflexivity|].
  split; [intros x Hx; cbn [hp_blocks store]; now apply lookup_insert_ne|].
  split; [exact Hs'|]. cbn. auto.
Qed.

(** The header of a block in the middle of the heap and the rest of the list. *)
Lemma heap_at h l1 c l2 :
  heap_lay h (l1 ++ c :: l2) ->
  let a := heap_start h + extents l1 in
  hp_blocks h !! a = Some (header c (match l2 with [] => 0 | _ => a + extent c end)
                             (last_addr 0 (heap_start h) l1)) /\
  seg (hp_blocks h) a (a + extent c) l2 0 /\ Forall chunk_ok l2.
Proof.
  intros W a. pose proof (hw_seg _ _ W) as S. apply seg_app in S as [_ [S1 S2]].
  pose proof (hw_chunks _ _ W) as F. apply Forall_app in F as [_ F]. apply Forall_cons_iff in F as [_ F].
  auto.
Qed.

Lemma take_block_spec h l1 c l2 k :
  heap_wf h (l1 ++ c :: l2) -> ck_free c = true -> 16 <= k <= ck_size c -> k mod 16 = 0 ->
  exists h', take_block h (heap_start h + extents l1) k = Ok (heap_start h + extents l1 + HDR, h') /\
    heap_wf h' (l1 ++ taken c k ++ l2) /\ heap_start h' = heap_start h.
Proof.
  intros W Hf Hk Hm. pose proof (heap_bounds _ _ _ _ W) as Hb.
  destruct (heap_at _ _ _ _ W) as (Ha & Hs & F2).
  pose proof (hw_chunks _ _ W) as F. apply Forall_app in F as [F1 F]. apply Forall_cons_iff in F as [Fc _].
  set (a := heap_start h + extents l1) in *. set (pv := last_addr 0 (heap_start h) l1) in *.
  pose proof (taken_ok c k Fc Hk Hm) as Ft. pose proof (taken_adj l1 c l2 k Hf (hw_no_adj _ _ W)) as Hn.
  pose proof (extents_taken c k) as He. unfold extent in *. unfold HDR in *.
  unfold take_block, HDR. rewrite (load_lookup _ _ _ Ha). cbn [obind hb_size hb_next header].
  rewrite (u64_id (ck_size c - k)), (u64_id (48 + k)), (u64_id (a + 48)), (u64_id (a + (48 + k))) by lia.
  unfold taken, HDR in *. change (48 + 16) with 64 in *.
  destruct (Z.leb_spec 64 (ck_size c - k)) as [Hsplit|Hwhole].
  - rewrite (u64_id (ck_size c - k - 48)) by lia.
    set (nb := a + (48 + k)).
    set (h1 := store h nb (mkBlock HEAP_MAGIC (ck_size c - k - 48) HEAP_FREE
                 (match l2 with [] => 0 | _ => a + (48 + ck_size c) end) a)).
    assert (Hs1 : seg (hp_blocks h1) a (a + (48 + ck_size c)) l2 0)
      by (apply seg_insert; [exact F2|subst nb; lia|exact Hs]).
    destruct (relink_spec h1 a nb (a + (48 + ck_size c)) l2 F2 ltac:(lia) Hs1)
      as (h2 & -> & Hfr & Hs2 & E1 & E2 & E3 & E4).
    cbn [obind].
    assert (Ha2 : hp_blocks h2 !! a = hp_blocks h !! a).
    { rewrite Hfr by (unfold a; lia). cbn [h1 hp_blocks store]. apply lookup_insert_ne. subst nb. lia. }
    rewrite (update_lookup h2 a _ _ (eq_trans Ha2 Ha)). cbn [obind].
    rewrite (update_lookup _ a _ _ (lookup_insert_eq _ _ _)). cbn [obind].
    eexists. split; [reflexivity|]. split; [|exact E1].
    split; [|exact Hn]. apply (heap_lay_replace h _ l1 [c] _ l2); auto; try done; try apply W.
    + cbn in *. unfold extent, HDR in *. cbn in *. lia.
    + intros x Hx. cbn [hp_blocks store]. fold a in Hx.
      rewrite !lookup_insert_ne by lia. rewrite Hfr by lia. cbn [h1 hp_blocks store].
      apply lookup_insert_ne. subst nb. lia.
    + fold a pv. cbn [app seg hp_blocks store]. unfold extent, HDR; cbn [ck_size].
      fold nb. rewrite lookup_insert_eq. split; [reflexivity|].
      rewrite !lookup_insert_ne by (subst nb; lia). rewrite Hfr by (subst nb; lia).
      cbn [h1 hp_blocks store]. rewrite lookup_insert_eq.
      replace (nb + (48 + (ck_size c - k - 48))) with (a + (48 + ck_size c)) by (subst nb; lia).
      split; [reflexivity|].
      repeat (apply seg_insert; [exact F2|lia|]). exact Hs2.
  - cbn [obind]. rewrite (update_lookup h a _ _ Ha). cbn [obind].
    eexists. split; [reflexivity|]. split; [|reflexivity].
    split; [|exact Hn]. apply (heap_lay_replace h _ l1 [c] _ l2); auto; try done; try apply W.
    + intros x Hx. cbn [hp_blocks store]. fold a in Hx. apply lookup_insert_ne. lia.
    + fold a pv. cbn [app seg hp_blocks store]. unfold extent, HDR; cbn [ck_size].
      rewrite lookup_insert_eq. split; [reflexivity|].
      apply seg_insert; [exact F2|lia|exact Hs].
Qed.

(** ** Growing *)
Lemma last_free_snoc l c : last_free (l ++ [c]) = ck_free c.
Proof. induction l as [|d r IH]; [reflexivity|]. cbn. destruct r; exact IH || reflexivity. Qed.

(** The blocks after [d] more bytes were committed. *)
Definition grow (cs : list chunk) (d : Z) : list chunk :=
  if d =? 0 then cs
  else match list.last cs with
       | Some c => if ck_free c then removelast cs ++ [mkChunk (ck_size c + d) true]
                   else cs ++ [mkChunk (d - HDR) true]
       | None => [mkChunk (d - HDR) true]
       end.

Lemma grow_snoc l c d :
  d <> 0 -> grow (l ++ [c]) d = if ck_free c then l ++ [mkChunk (ck_size c + d) true]
                                else l ++ [c] ++ [mkChunk (d - HDR) true].
Proof.
  intros Hd. unfold grow. destruct (Z.eqb_spec d 0); [done|].
  rewrite last_snoc, removelast_last, <- app_assoc. reflexivity.
Qed.

Lemma live_grow a cs d : live a (grow cs d) = live a cs.
Proof.
  destruct (Z.eqb_spec d 0) as [->|Hd]; [reflexivity|].
  induction cs as [|c l _] using rev_ind; [unfold grow; destruct (Z.eqb_spec d 0); reflexivity|].
  rewrite grow_snoc by done. destruct (ck_free c) eqn:E.
  - rewrite !live_app. cbn. rewrite E. reflexivity.
  - rewrite (app_assoc l), (live_app a (l ++ [c])). cbn. apply app_nil_r.
Qed.

Lemma extents_grow cs d : extents (grow cs d) = extents cs + d.
Proof.
  destruct (Z.eqb_spec d 0) as [->|Hd]; [cbn; lia|].
  induction cs as [|c l _] using rev_ind.
  - unfold grow. destruct (Z.eqb_spec d 0); [done|]. cbn. unfold extent; cbn. lia.
  - rewrite grow_snoc by done. destruct (ck_free c); rewrite !extents_app; cbn; unfold extent; cbn; lia.
Qed.

Lemma grow_fits cs d k :
  HDR + k <= d -> 0 < k -> Forall chunk_ok cs -> first_fit k (grow cs d) <> None.
Proof.
  intros Hd Hk HF Hn. unfold HDR in *.
  induction cs as [|c l _] using rev_ind.
  - unfold grow in Hn. destruct (Z.eqb_spec d 0); [lia|]. cbn in Hn. unfold HDR in Hn.
    destruct (Z.leb_spec k (d - 48)); [discriminate|lia].
  - rewrite grow_snoc in Hn by lia. apply Forall_app in HF as [_ HF]. apply Forall_cons_iff in HF as [[Hc _] _].
    destruct (ck_free c).
    + pose proof (first_fit_None _ _ _ _ _ Hn eq_refl eq_refl) as H. cbn in H. lia.
    + rewrite app_assoc in Hn. pose proof (first_fit_None _ _ _ _ _ Hn eq_refl eq_refl) as H.
      cbn in H. unfold HDR in H. lia.
Qed.

Lemma add_range_spec h cs j :
  heap_wf h cs -> 0 <= j -> heap_committed_end h + 4096 * j <= heap_reserved_end h ->
  exists h', add_range (set_end h (heap_committed_end h + 4096 * j)) (heap_committed_end h)
               (last_addr 0 (heap_start h) cs) = Ok h' /\
    heap_wf h' (grow cs (4096 * j)) /\ heap_start h' = heap_start h.
Proof.
  intros W Hj Hmax. pose proof W as [[W1 W2 W3 W4 W5 W6 W8] W7].
  pose proof (extents_nonneg _ W6) as Hx.
  unfold add_range, HDR. cbn [heap_committed_end set_end].
  destruct (Z.ltb_spec (heap_committed_end h) (heap_committed_end h + 4096 * j)) as [Hlt|Hge].
  2:{ assert (j = 0) as -> by lia. rewrite Z.mul_0_r, Z.add_0_r.
      exists h. split; [now destruct h|]. split; [exact W|reflexivity]. }
  rewrite (u64_id (heap_committed_end h + 4096 * j - heap_committed_end h)) by lia.
  replace (heap_committed_end h + 4096 * j - heap_committed_end h) with (4096 * j) by lia.
  rewrite (u64_id (4096 * j - 48)) by lia.
  induction cs as [|c l _] using rev_ind.
  - cbn [last_addr]. cbn. eexists. split; [reflexivity|]. split; [|reflexivity].
    unfold grow. destruct (Z.eqb_spec (4096 * j) 0); [lia|]. cbn.
    cbn in W3. split; [|cbn; intuition congruence]. constructor; cbn; auto; unfold extent, HDR; cbn; try lia.
    + repeat constructor; cbn; try lia; dlia.
    + replace (heap_committed_end h) with (heap_start h) by lia.
      rewrite lookup_insert_eq. auto.
  - rewrite last_addr_snoc. set (t := heap_start h + extents l) in *.
    destruct (heap_at h l c [] W) as (Ht & _). fold t in Ht.
    pose proof (heap_bounds h l c [] W) as Hb. cbn in Hb. unfold extent, HDR in *.
    rewrite extents_app in W3, Hx. cbn in W3. unfold extent, HDR in W3.
    destruct (Z.eqb_spec t 0); [lia|]. cbn [negb].
    rewrite grow_snoc by lia. unfold load at 1. cbn [set_end hp_blocks]. rewrite Ht. cbn [of_opt obind].
    apply Forall_app in W6 as [F1 Fc]. apply Forall_cons_iff in Fc as [[Hc Hc16] _].
    apply no_adj_app in W7 as (N1 & _ & N2). apply seg_app in W8 as [S1 [S2 _]].
    cbn in S1, S2. fold t in S1, S2.
    replace (hb_state (header c 0 (last_addr 0 (heap_start h) l)) =? HEAP_FREE) with (ck_free c)
      by (cbn; now destruct (ck_free c)).
    destruct (ck_free c) eqn:Efree.
    + rewrite (update_lookup (set_end h _) t _ _ Ht). cbn [with_size header hb_size].
      rewrite u64_id by lia. eexists. split; [reflexivity|]. split; [|reflexivity].
      split.
      2:{ apply no_adj_app. split; [exact N1|]. cbn. cbn in N2. rewrite Efree in N2. intuition congruence. }
      constructor; cbn; auto.
      * rewrite extents_app. cbn. unfold extent, HDR; cbn. lia.
      * lia.
      * rewrite W5. destruct l; reflexivity.
      * apply Forall_app_2; [exact F1|]. repeat constructor; cbn; try lia; dlia.
      * apply seg_app. cbn. fold t. split; [apply seg_insert; [exact F1|lia|exact S1]|].
        rewrite lookup_insert_eq. unfold header; cbn. rewrite Efree. auto.
    + set (e := heap_committed_end h) in *.
      assert (Hte : t <> e) by lia.
      erewrite update_lookup by (cbn [store hp_blocks]; rewrite lookup_insert_ne by lia; exact Ht).
      eexists. split; [reflexivity|]. split; [|reflexivity].
      split.
      2:{ apply no_adj_app. split; [exact N1|]. cbn. cbn in N2. rewrite Efree in *. intuition congruence. }
      constructor; cbn; auto.
      * rewrite !extents_app. cbn. unfold extent, HDR; cbn. lia.
      * lia.
      * rewrite W5. destruct l; reflexivity.
      * apply Forall_app_2; [exact F1|]. apply Forall_cons_2; [split; assumption|].
        apply Forall_singleton. split; cbn; unfold HDR; [lia|dlia].
      * apply seg_app. cbn. fold t. unfold extent at 1 2, HDR.
        replace (t + (48 + ck_size c)) with e by lia.
        split; [repeat (apply seg_insert; [exact F1|lia|]); exact S1|].
        rewrite lookup_insert_eq, lookup_insert_ne, lookup_insert_eq by lia.
        unfold header; cbn. rewrite Efree. auto.
Qed.

(** ** Freeing *)

(** Merging a block with its successor: both directions of coalescing in
    [kfree] are this step. *)
Lemma merge_spec h l1 c d l2 :
  heap_lay h (l1 ++ c :: d :: l2) ->
  let a := heap_start h + extents l1 in
  let nx := match l2 with [] => 0 | _ => a + extent c + extent d end in
  exists h',
    (let* h := update h a (fun x => with_next (with_size x (hb_size x +64 (HDR +64 ck_size d))) nx) in
     relink h nx a) = Ok h' /\
    heap_lay h' (l1 ++ mkChunk (ck_size c + extent d) (ck_free c) :: l2) /\
    heap_start h' = heap_start h.
Proof.
  intros W a nx. assert (Ea : a = heap_start h + extents l1) by reflexivity.
  pose proof (heap_bounds _ _ _ _ W) as Hb. destruct (heap_at _ _ _ _ W) as (Ha & Hs & F).
  fold a in Ha, Hs. apply Forall_cons_iff in F as [Fd F2]. destruct Hs as [Hd Hs]. cbn [extents] in Hb.
  pose proof (extents_nonneg _ F2) as Hx2. destruct Fd as [Fd1 Fd2].
  unfold extent, HDR in Hb.
  rewrite (update_lookup _ _ _ _ Ha). cbn [obind with_next with_size header hb_size hb_magic hb_state hb_prev].
  unfold HDR. rewrite (u64_id (48 + ck_size d)), (u64_id (ck_size c + (48 + ck_size d))) by lia.
  set (h1 := store _ _ _).
  assert (Hs1 : seg (hp_blocks h1) (a + extent c) (a + extent c + extent d) l2 0).
  { apply seg_insert; [exact F2|unfold extent, HDR; lia|exact Hs]. }
  destruct (relink_spec h1 _ a (a + extent c + extent d) l2 F2 ltac:(unfold extent, HDR; lia) Hs1)
    as (h2 & Hr & Hfr & Hs2 & E1 & E2 & E3 & E4).
  exists h2. split; [exact Hr|]. split; [|exact E1].
  apply (heap_lay_replace h h2 l1 [c; d] [_] l2 W); auto; try done.
  - cbn. unfold extent, HDR; cbn. lia.
  - apply Forall_singleton. split; cbn; unfold extent, HDR; [lia|dlia].
  - intros x Hx. rewrite Hfr by (unfold extent, HDR; lia). cbn [h1 hp_blocks store].
    apply lookup_insert_ne. lia.
  - cbn [app seg]. fold a. rewrite Hfr by (unfold extent, HDR; lia).
    cbn [h1 hp_blocks store]. rewrite lookup_insert_eq.
    replace (a + extent (mkChunk (ck_size c + extent d) (ck_free c))) with (a + extent c + extent d)
      by (unfold extent, HDR; cbn; lia).
    split; [|exact Hs2]. subst nx. destruct l2; reflexivity.
Qed.

Definition merge_next (c : chunk) (l : list chunk) : list chunk :=
  match l with
  | d :: r => if ck_free d then mkChunk (ck_size c + extent d) (ck_free c) :: r else c :: l
  | [] => [c]
  end.

Lemma state_free c n p : (hb_state (header c n p) =? HEAP_FREE) = ck_free c.
Proof. cbn. now destruct (ck_free c). Qed.

Lemma coalesce_next_spec h l1 c l2 :
  heap_lay h (l1 ++ c :: l2) ->
  exists h', coalesce_next h (heap_start h + extents l1) = Ok h' /\
    heap_lay h' (l1 ++ merge_next c l2) /\ heap_start h' = heap_start h.
Proof.
  intros W. pose proof (heap_bounds _ _ _ _ W) as Hb. destruct (heap_at _ _ _ _ W) as (Ha & Hs & F).
  unfold coalesce_next. rewrite (load_lookup _ _ _ Ha). cbn [obind hb_next header].
  destruct l2 as [|d l2]; [exists h; auto|]. unfold extent, HDR in Hb.
  destruct (Z.eqb_spec (heap_start h + extents l1 + extent c) 0) as [E|_]; [unfold extent, HDR in E; lia|].
  destruct Hs as [Hd _]. rewrite (load_lookup _ _ _ Hd). cbn [obind]. rewrite state_free.
  cbn [merge_next hb_size hb_next header].
  destruct (ck_free d); [|exists h; auto]. apply (merge_spec h l1 c d l2 W).
Qed.

(** The blocks before [c] and [c] itself, merged when the last one is free. *)
Definition merge_prev (l : list chunk) (c : chunk) : list chunk :=
  match list.last l with
  | Some d => if ck_free d then removelast l ++ [mkChunk (ck_size d + extent c) true] else l ++ [c]
  | None => [c]
  end.

Lemma coalesce_prev_spec h l1 c l2 :
  heap_lay h (l1 ++ c :: l2) ->
  exists h', coalesce_prev h (heap_start h + extents l1) = Ok h' /\
    heap_lay h' (merge_prev l1 c ++ l2) /\ heap_start h' = heap_start h.
Proof.
  intros W. destruct (heap_at _ _ _ _ W) as (Ha & _ & _).
  unfold coalesce_prev. rewrite (load_lookup _ _ _ Ha). cbn [obind hb_prev header].
  induction l1 as [|d l _] using rev_ind; [cbn; exists h; auto|].
  rewrite last_addr_snoc. unfold merge_prev. rewrite last_snoc, removelast_last.
  pose proof W as W'. rewrite <- app_assoc in W'. cbn in W'. pose proof (heap_bounds _ _ _ _ W') as Hb.
  destruct (heap_at _ _ _ _ W') as (Hd & _ & _).
  destruct (Z.eqb_spec (heap_start h + extents l) 0); [lia|].
  rewrite (load_lookup _ _ _ Hd). cbn [obind]. rewrite state_free.
  destruct (ck_free d) eqn:Ed; [|exists h; rewrite <- (app_assoc (l ++ [d])); auto].
  destruct (merge_spec h l d c l2 W') as (h' & Hm & Wm & Hst). rewrite Ed, <- app_assoc in *.
  exists h'. split; [|auto]. cbn [hb_size hb_next header].
  rewrite extents_app. cbn [extents]. rewrite Z.add_0_r.
  replace (heap_start h + (extents l + extent d)) with (heap_start h + extents l + extent d) by lia. exact Hm.
Qed.

(** The list after block [c] between [l1] and [l2] was freed. *)
Definition freed (l1 : list chunk) (c : chunk) (l2 : list chunk) : list chunk :=
  match merge_next (mkChunk (ck_size c) true) l2 with
  | m :: r => merge_prev l1 m ++ r
  | [] => l1
  end.

Lemma merge_prev_snoc l d c :
  merge_prev (l ++ [d]) c = if ck_free d then l ++ [mkChunk (ck_size d + extent c) true] else (l ++ [d]) ++ [c].
Proof. unfold merge_prev. now rewrite last_snoc, removelast_last. Qed.

Lemma freed_no_adj l1 c l2 : ck_free c = false -> no_adj (l1 ++ c :: l2) -> no_adj (freed l1 c l2).
Proof.
  intros Hc Hn. apply no_adj_app in Hn as (N1 & [_ N2] & _). unfold freed.
  assert (Hm : exists m r, merge_next (mkChunk (ck_size c) true) l2 = m :: r /\ ck_free m = true /\
             hd_free r = false /\ no_adj r).
  { destruct l2 as [|d r]; cbn; [eauto 10|]. cbn in N2. destruct (ck_free d) eqn:Ed.
    - do 2 eexists. split; [reflexivity|]. cbn. destruct (hd_free r); intuition.
    - do 2 eexists. split; [reflexivity|]. cbn. rewrite Ed. intuition congruence. }
  destruct Hm as (m & r & -> & Hm & Hh & Hr).
  induction l1 as [|d l _] using rev_ind; cbn; [rewrite Hh; intuition congruence|].
  apply no_adj_app in N1 as (A & _ & B). rewrite merge_prev_snoc.
  apply no_adj_app; rewrite Hh. cbn in B. destruct (ck_free d) eqn:Ed; rewrite last_free_snoc.
  - rewrite no_adj_app. cbn. intuition congruence.
  - rewrite no_adj_app, last_free_snoc, Ed, no_adj_app. cbn. rewrite Ed. intuition congruence.
Qed.

Lemma live_freed a l1 c l2 :
  live a (freed l1 c l2) = live a l1 ++ live (a + extents l1 + extent c) l2.
Proof.
  unfold freed.
  assert (Hm : exists m r, merge_next (mkChunk (ck_size c) true) l2 = m :: r /\ ck_free m = true /\
             forall b, live (b + extent m) r = live (b + extent c) l2).
  { destruct l2 as [|d r]; cbn; [eauto 10|]. destruct (ck_free d) eqn:Ed.
    - do 2 eexists. split; [reflexivity|]. split; [reflexivity|]. intros b. cbn.
      f_equal. unfold extent; cbn. lia.
    - do 2 eexists. split; [reflexivity|]. split; [reflexivity|]. intros b. cbn. rewrite Ed. reflexivity. }
  destruct Hm as (m & r & -> & Hm & Hr).
  induction l1 as [|d l _] using rev_ind; cbn.
  - rewrite Hm, Z.add_0_r. cbn. apply Hr.
  - rewrite merge_prev_snoc. rewrite !live_app. destruct (ck_free d) eqn:Ed.
    + rewrite <- app_assoc. cbn. rewrite live_app. cbn. rewrite Ed. cbn. rewrite app_nil_r, !extents_app. cbn.
      rewrite <- Hr. do 2 f_equal. unfold extent; cbn. lia.
    + rewrite <- !app_assoc, !live_app, !extents_app. cbn. rewrite Ed, Hm. cbn.
      rewrite <- Hr. rewrite <- app_assoc. cbn. do 3 f_equal. lia.
Qed.

(** Freeing a block in use. *)
Lemma kfree_spec h l1 c l2 :
  heap_wf h (l1 ++ c :: l2) -> ck_free c = false ->
  exists h', kfree (heap_start h + extents l1 + HDR) h = Ok h' /\
    heap_wf h' (freed l1 c l2) /\ heap_start h' = heap_start h.
Proof.
  intros W Hc. pose proof (heap_bounds _ _ _ _ (hw_lay _ _ W)) as Hb.
  pose proof (hw_align _ _ W) as Hal. pose proof (hw_end _ _ W) as Hend.
  rewrite extents_app in Hend. cbn in Hend.
  pose proof (hw_chunks _ _ W) as F. apply Forall_app in F as [F1 _]. pose proof (extents_mod16 _ F1) as Hx.
  destruct (heap_at _ _ _ _ (hw_lay _ _ W)) as (Ha & Hs & F2).
  set (a := heap_start h + extents l1) in *. unfold extent, HDR in Hb, Hend. unfold kfree, HDR.
  destruct (Z.eqb_spec (a + 48) 0); [lia|].
  rewrite (u64_id (heap_start h + 48)) by lia.
  rewrite (u64_id (a + 48 - 48)) by lia. replace (a + 48 - 48) with a by lia.
  assert (Hg1 : (heap_start h + 48 <=? a + 48) && (a + 48 <? heap_committed_end h) = true)
    by (apply andb_true_intro; split; [apply Z.leb_le|apply Z.ltb_lt]; lia).
  assert (Hg2 : ((a + 48) mod 16 =? 0) = true) by (apply Z.eqb_eq; dlia).
  rewrite Hg1, Hg2, (load_lookup _ _ _ Ha). cbn [kassert obind header hb_magic hb_state].
  rewrite Hc, !Z.eqb_refl. cbn [kassert obind].
  rewrite (update_lookup _ _ _ _ Ha). cbn [obind]. set (h1 := store _ _ _).
  assert (W1 : heap_lay h1 (l1 ++ mkChunk (ck_size c) true :: l2)).
  { apply (heap_lay_replace h h1 l1 [c] [_] l2 (hw_lay _ _ W)); auto; try done.
    - apply Forall_singleton. split; cbn; tauto.
    - intros x Hx'. apply lookup_insert_ne. lia.
    - cbn [app seg]. fold a. cbn [h1 hp_blocks store]. rewrite lookup_insert_eq.
      split; [reflexivity|]. apply seg_insert; [exact F2|cbn; unfold extent, HDR; cbn; lia|exact Hs]. }
  destruct (coalesce_next_spec h1 l1 _ l2 W1) as (h2 & E2 & W2 & S2).
  change (heap_start h1 + extents l1) with a in E2. rewrite E2. cbn [obind].
  destruct (merge_next (mkChunk (ck_size c) true) l2) as [|m r] eqn:Em.
  { destruct l2 as [|d r]; cbn in Em; [discriminate|destruct (ck_free d); discriminate]. }
  destruct (coalesce_prev_spec h2 l1 m r W2) as (h3 & E3 & W3 & S3).
  rewrite S2 in E3, S3. change (heap_start h1 + extents l1) with a in E3.
  exists h3. split; [exact E3|]. split; [|exact S3].
  split; [unfold freed; rewrite Em; exact W3|]. apply freed_no_adj; [exact Hc|apply W].
Qed.

(** ** Walking the whole list *)
Lemma kassert_true b n : b = true -> kassert b n = Ok tt.
Proof. now intros ->. Qed.

Lemma verify_next h l1 c l2 :
  heap_wf h (l1 ++ c :: l2) ->
  let a := heap_start h + extents l1 in
  let nx := match l2 with [] => 0 | _ => a + extent c end in
  (if negb (nx =? 0) then
     let* n := load h nx in
     let* _ := kassert (hb_prev n =? a) 185 in
     kassert (a + extent c =? nx) 186
   else kassert (a + extent c =? heap_committed_end h) 188) = Ok tt /\
  (if ck_free c && negb (nx =? 0) then
     let* n := load h nx in kassert (hb_state n =? HEAP_USED) 198
   else Ok tt) = Ok tt.
Proof.
  intros W a nx. assert (Ea : a = heap_start h + extents l1) by reflexivity.
  pose proof (heap_bounds _ _ _ _ (hw_lay _ _ W)) as Hb. unfold extent, HDR in Hb.
  pose proof (hw_end _ _ W) as Hend. rewrite extents_app in Hend.
  destruct (heap_at _ _ _ _ (hw_lay _ _ W)) as (_ & Hs & _). fold a in Hs.
  destruct l2 as [|d r]; subst nx; cbn [Z.eqb negb].
  - rewrite andb_false_r. cbn in Hend. unfold extent, HDR in Hend. split; [apply kassert_true, Z.eqb_eq; unfold extent, HDR; lia|reflexivity].
  - destruct (Z.eqb_spec (a + extent c) 0) as [E|_]; [unfold extent, HDR in E; lia|].
    destruct Hs as [Hd _]. rewrite (load_lookup _ _ _ Hd). cbn [obind negb header hb_prev hb_state].
    rewrite !Z.eqb_refl. split; [reflexivity|]. rewrite andb_true_r.
    pose proof (hw_no_adj _ _ W) as Hn. apply no_adj_app in Hn as (_ & [Hn _] & _). cbn in Hn.
    destruct (ck_free c), (ck_free d); try reflexivity. now destruct Hn.
Qed.

Lemma verify_prev h l1 c l2 :
  heap_wf h (l1 ++ c :: l2) ->
  let a := heap_start h + extents l1 in
  let pv := last_addr 0 (heap_start h) l1 in
  (if negb (pv =? 0) then let* p := load h pv in kassert (hb_next p =? a) 192
   else kassert (a =? hp_head h) 194) = Ok tt.
Proof.
  intros W a pv. subst a pv. pose proof (hw_head _ _ W) as Hh.
  induction l1 as [|d l _] using rev_ind; cbn [last_addr Z.eqb negb extents].
  - cbn in Hh. rewrite Hh. apply kassert_true, Z.eqb_eq. lia.
  - rewrite last_addr_snoc. rewrite <- app_assoc in W. pose proof (heap_bounds _ _ _ _ (hw_lay _ _ W)) as Hb.
    destruct (heap_at _ _ _ _ (hw_lay _ _ W)) as (Hd & _).
    destruct (Z.eqb_spec (heap_start h + extents l) 0); [lia|].
    rewrite (load_lookup _ _ _ Hd). cbn. apply kassert_true, Z.eqb_eq. rewrite extents_app. cbn. lia.
Qed.

Lemma verify_block_spec h l1 c l2 :
  heap_wf h (l1 ++ c :: l2) ->
  let a := heap_start h + extents l1 in
  verify_block h a (header c (match l2 with [] => 0 | _ => a + extent c end) (last_addr 0 (heap_start h) l1))
  = Ok (extent c).
Proof.
  intros W a. assert (Ea : a = heap_start h + extents l1) by reflexivity.
  destruct (verify_next _ _ _ _ W) as [Hn Hf]. pose proof (verify_prev _ _ _ _ W) as Hp. fold a in Hn, Hf, Hp.
  pose proof (heap_bounds _ _ _ _ (hw_lay _ _ W)) as Hb. pose proof (hw_align _ _ W) as Hal.
  pose proof (hw_end _ _ W) as Hend. rewrite extents_app in Hend. cbn [extents] in Hend.
  pose proof (hw_chunks _ _ W) as F. apply Forall_app in F as [F1 _]. pose proof (extents_mod16 _ F1) as Hx.
  assert (He : HDR +64 ck_size c = extent c) by (unfold extent, HDR in *; apply u64_id; lia).
  assert (Hae : a +64 extent c = a + extent c) by (unfold extent, HDR in *; apply u64_id; lia).
  assert (Hah : a +64 HDR = a + 48) by (unfold extent, HDR in *; apply u64_id; lia).
  unfold verify_block. cbn [header hb_size hb_next hb_prev]. rewrite He, Hae, Hah.
  unfold extent, HDR in Hb, Hend.
  do 5 (rewrite kassert_true;
        [cbn [obind]|repeat (apply andb_true_intro; split); unfold extent, HDR; reflect_bools; dlia || lia]).
  rewrite Hn. cbn [obind]. rewrite Hp. cbn [obind].
  assert (Hst : (hb_state (header c (match l2 with [] => 0 | _ => a + extent c end)
                  (last_addr 0 (heap_start h) l1)) =? HEAP_FREE) = ck_free c) by apply state_free.
  cbn [header hb_state] in Hst |- *. rewrite Hst, Hf. reflexivity.
Qed.

Lemma verify_loop_spec h fuel l1 l2 :
  heap_wf h (l1 ++ l2) -> (length l2 < fuel)%nat ->
  verify_loop fuel h (match l2 with [] => 0 | _ => heap_start h + extents l1 end) (extents l1) = Ok tt.
Proof.
  revert l1 fuel; induction l2 as [|c r IH]; intros l1 fuel W Hf; destruct fuel; try (cbn in Hf; lia).
  - cbn. apply kassert_true, Z.eqb_eq. pose proof (hw_end _ _ W) as He. rewrite app_nil_r in He.
    pose proof (hw_chunks _ _ W) as F. rewrite app_nil_r in F. pose proof (extents_nonneg _ F).
    pose proof (hw_limit _ _ W). pose proof (hw_start _ _ W). rewrite u64_id; lia.
  - pose proof (heap_bounds _ _ _ _ (hw_lay _ _ W)) as Hb. unfold extent, HDR in Hb. cbn [verify_loop].
    destruct (Z.eqb_spec (heap_start h + extents l1) 0); [lia|].
    destruct (heap_at _ _ _ _ (hw_lay _ _ W)) as (Ha & _). rewrite (load_lookup _ _ _ Ha). cbn [obind].
    rewrite (verify_block_spec _ _ _ _ W). cbn [obind header hb_next].
    rewrite u64_id by (unfold extent, HDR; lia).
    specialize (IH (l1 ++ [c]) fuel). rewrite <- app_assoc, extents_app in IH. cbn in IH.
    rewrite Z.add_0_r, Z.add_assoc in IH. apply IH; [exact W|cbn in Hf; lia].
Qed.

Lemma verify_spec h cs : heap_wf h cs -> kheap_verify h = Ok tt.
Proof.
  intros W. unfold kheap_verify. rewrite (hw_head _ _ W). split_if; [reflexivity|].
  rewrite <- (Z.add_0_r (heap_start h)). apply (verify_loop_spec h _ [] cs W).
  pose proof (seg_length _ _ _ _ _ (hw_chunks _ _ W) (hw_seg _ _ W)). unfold walk_fuel. lia.
Qed.

(** Totals over the list. *)
Definition bytes_where (f : bool) (l : list chunk) : Z :=
  foldr (fun c n => (if Bool.eqb (ck_free c) f then ck_size c else 0) + n) 0 l.
Definition blocks_where (f : bool) (l : list chunk) : Z :=
  foldr (fun c n => (if Bool.eqb (ck_free c) f then 1 else 0) + n) 0 l.

Lemma extents_totals l :
  extents l = bytes_where true l + bytes_where false l + HDR * zlen l.
Proof.
  induction l as [|c r IH]; [reflexivity|]. unfold zlen in *. cbn [extents length]. rewrite IH.
  unfold extent, HDR, bytes_where; cbn. destruct (ck_free c); cbn; lia.
Qed.

Section Backed.
Context {M : Type} `{PageBackingLaws M}.

(** Every committed page can be accessed. *)
Definition backed (h : kheap) (m : M) : Prop :=
  (heap_committed_end h - heap_start h) mod 4096 = 0 /\
  forall a, heap_start h <= a < heap_committed_end h -> (a - heap_start h) mod 4096 = 0 -> pb_mapped m a.

(** The range between two ends of the committed area is. *)
Definition mapped_from (m : M) (e : Z) (j : Z) : Prop :=
  forall i, 0 <= i < j -> pb_mapped m (e + 4096 * i).

Lemma expand_loop_spec n h m :
  pb_ok m -> 0 <= heap_committed_end h -> heap_committed_end h + 4096 * Z.of_nat n < 2 ^ 64 ->
  exists b j m', expand_loop n h m = Ok (b, set_end h (heap_committed_end h + 4096 * j), m') /\
    0 <= j <= Z.of_nat n /\ pb_ok m' /\ (b = true -> j = Z.of_nat n) /\
    pb_keeps m m' /\ mapped_from m' (heap_committed_end h) j.
Proof.
  assert (Hnone : forall m e, mapped_from m e 0) by (intros m' e i Hi; lia).
  revert h m; induction n as [|n IH]; intros h m Hm He Hn; cbn [expand_loop].
  - exists true, 0, m. rewrite Z.add_0_r. destruct h; cbn. unfold pb_keeps. auto 10 with lia.
  - assert (Hstop : forall m' : M, pb_ok m' -> pb_keeps m m' -> exists b j m'', Ok (false, h, m') =
        Ok (b, set_end h (heap_committed_end h + 4096 * j), m'') /\ 0 <= j <= Z.of_nat (S n) /\
        pb_ok m'' /\ (b = true -> j = Z.of_nat (S n)) /\ pb_keeps m m'' /\
        mapped_from m'' (heap_committed_end h) j).
    { intros m' Hm' Hk. exists false, 0, m'. rewrite Z.add_0_r.
      split; [now destruct h|]. split; [lia|]. split; [exact Hm'|]. split; [discriminate|auto]. }
    destruct (pb_alloc_law m Hm) as (p & m1 & -> & Hz & Hnz). cbn [obind].
    destruct (Z.eqb_spec p 0) as [->|Hp]; [destruct (Hz eq_refl); auto|].
    destruct (Hnz Hp (heap_committed_end h) VMM_FLAG_WRITABLE) as (b & m2 & -> & Ht & Hf). cbn [obind].
    destruct b; cbn [negb].
    + destruct (Ht eq_refl) as (Hm2 & Hk2 & Hmap).
      destruct (IH (set_end h (heap_committed_end h +64 PAGE)) m2 Hm2)
        as (b & j & m' & -> & Hj & Hm' & Hb & Hk & Hfrom); unfold PAGE in *; cbn [set_end heap_committed_end] in *;
        rewrite ?(u64_id (heap_committed_end h + 4096)) in * by lia; try lia.
      exists b, (j + 1), m'. split; [|split; [lia|split; [exact Hm'|split; [intros E; specialize (Hb E); lia|]]]].
      * replace (heap_committed_end h + 4096 * (j + 1)) with (heap_committed_end h + 4096 + 4096 * j) by lia.
        reflexivity.
      * split; [intros v Hv; apply Hk, Hk2, Hv|]. intros i Hi.
        destruct (Z.eq_dec i 0) as [->|]; [rewrite Z.mul_0_r, Z.add_0_r; apply Hk, Hmap|].
        replace (heap_committed_end h + 4096 * i) with (heap_committed_end h + 4096 + 4096 * (i - 1)) by lia.
        apply Hfrom. lia.
    + destruct (Hf eq_refl) as (m3 & -> & Hm3 & Hk3). cbn [obind]. auto.
Qed.

Lemma expand_heap_spec bytes h m :
  pb_ok m -> 0 < bytes <= 2 ^ 44 + 2 ^ 10 -> 0 <= heap_committed_end h <= heap_reserved_end h ->
  heap_reserved_end h <= 2 ^ 64 - 2 ^ 45 ->
  exists b j m', expand_heap bytes h m = Ok (b, set_end h (heap_committed_end h + 4096 * j), m') /\
    0 <= j /\ heap_committed_end h + 4096 * j <= heap_reserved_end h /\ pb_ok m' /\
    (b = true -> bytes <= 4096 * j) /\ pb_keeps m m' /\ mapped_from m' (heap_committed_end h) j.
Proof.
  intros Hm Hb He Hr. unfold expand_heap. rewrite align_up_page by lia. unfold PAGE.
  rewrite Z.div_mul by lia. set (n := (bytes + 4095) / 4096).
  assert (Hn : bytes <= 4096 * n /\ 4096 * n <= bytes + 4095 /\ 0 <= n) by (subst n; dlia).
  rewrite (u64_id (n * 4096)), (u64_id (heap_committed_end h + n * 4096)) by lia.
  destruct (Z.ltb_spec (heap_reserved_end h) (heap_committed_end h + n * 4096)).
  - exists false, 0, m. rewrite Z.add_0_r.
    split; [now destruct h|]. split; [lia|]. split; [lia|]. split; [exact Hm|].
    split; [discriminate|]. split; [now intros v|intros i Hi; lia].
  - destruct (expand_loop_spec (Z.to_nat n) h m Hm) as (b & j & m' & -> & Hj & Hm' & Hb' & Hk & Hfr); try lia.
    exists b, j, m'. split; [reflexivity|]. split; [lia|]. split; [lia|]. split; [exact Hm'|].
    split; [intros E; specialize (Hb' E); lia|auto].
Qed.

(** What a successful or failed request does to the payloads in use. *)
Definition granted (base sz p : Z) (cs cs' : list chunk) : Prop :=
  exists l1 l2 n, live base cs = l1 ++ l2 /\ live base cs' = l1 ++ (p, n) :: l2 /\
    sz <= n /\ p mod 16 = 0 /\ base + HDR <= p.

Lemma walk_spec h cs k :
  heap_wf h cs ->
  find_fit (walk_fuel h) h (hp_head h) 0 k =
  Ok (match first_fit k cs with
      | Some (l1, _, _) => (Some (heap_start h + extents l1), last_addr 0 (heap_start h) l1)
      | None => (None, last_addr 0 (heap_start h) cs)
      end).
Proof.
  intros W. rewrite (hw_head _ _ W). apply find_fit_spec.
  - exact (hw_chunks _ _ W).
  - exact (hw_start _ _ W).
  - exact (hw_seg _ _ W).
  - pose proof (seg_length _ _ _ _ _ (hw_chunks _ _ W) (hw_seg _ _ W)). unfold walk_fuel. lia.
Qed.

Lemma kmalloc_fit n k h m cs :
  heap_wf h cs -> 16 <= k -> k mod 16 = 0 -> first_fit k cs <> None ->
  exists p h' cs', kmalloc_loop (S n) k h m = Ok (p, h', m) /\ heap_wf h' cs' /\
    heap_start h' = heap_start h /\ extents cs' = extents cs /\ p <> 0 /\ granted (heap_start h) k p cs cs'.
Proof.
  intros W Hk Hm Hfit. cbn [kmalloc_loop]. rewrite (walk_spec h cs k W). cbn [obind].
  destruct (first_fit k cs) as [[[l1 c] l2]|] eqn:E; [|done].
  destruct (first_fit_Some _ _ _ _ _ E) as (-> & Hf & Hc).
  destruct (take_block_spec h l1 c l2 k W Hf ltac:(lia) Hm) as (h' & -> & W' & Hst). cbn [obind].
  pose proof (heap_bounds _ _ _ _ W) as Hb. pose proof (hw_align _ _ W) as Ha.
  pose proof (hw_chunks _ _ W) as F. apply Forall_app in F as [F1 _]. pose proof (extents_mod16 _ F1).
  exists (heap_start h + extents l1 + HDR), h', (l1 ++ taken c k ++ l2).
  split; [reflexivity|]. split; [exact W'|]. split; [exact Hst|].
  split; [rewrite !extents_app, extents_taken; cbn; lia|]. unfold HDR in *. split; [lia|].
  exists (live (heap_start h) l1), (live (heap_start h + extents l1 + extent c) l2),
    (if 64 <=? ck_size c - k then k else ck_size c).
  split; [rewrite live_app; cbn; now rewrite Hf|]. split.
  - rewrite live_app. f_equal. rewrite live_app, extents_taken. unfold taken, HDR.
    change (48 + 16) with 64. split_if; cbn; reflexivity.
  - unfold HDR. split; [split_if; reflect_bools; lia|]. split; [dlia|lia].
Qed.

Lemma backed_grow h h' m m' j :
  heap_start h' = heap_start h -> heap_committed_end h' = heap_committed_end h + 4096 * j -> 0 <= j ->
  pb_keeps m m' -> mapped_from m' (heap_committed_end h) j -> backed h m -> backed h' m'.
Proof.
  intros Es Ee Hj Hk Hf [Hmod Hb]. split; [rewrite Es, Ee; dlia|]. intros a Ha Hm. rewrite Es in *.
  destruct (Z_lt_ge_dec a (heap_committed_end h)) as [|Hge]; [apply Hk, Hb; [lia|exact Hm]|].
  replace a with (heap_committed_end h + 4096 * ((a - heap_committed_end h) / 4096)) by dlia.
  apply Hf. rewrite Ee in Ha. dlia.
Qed.

Lemma kmalloc_spec sz h m cs :
  heap_wf h cs -> pb_ok m -> 0 < sz <= 2 ^ 44 ->
  exists p h' m' cs', kmalloc sz h m = Ok (p, h', m') /\ heap_wf h' cs' /\ pb_ok m' /\
    heap_start h' = heap_start h /\ (backed h m -> backed h' m') /\
    ((p = 0 /\ live (heap_start h) cs' = live (heap_start h) cs) \/
     (p <> 0 /\ granted (heap_start h) sz p cs cs')).
Proof.
  intros W Hm Hsz. unfold kmalloc. destruct (Z.eqb_spec sz 0); [lia|].
  rewrite align_up16 by lia. set (k := (sz + 15) / 16 * 16).
  assert (Hk : 16 <= k /\ sz <= k /\ k < sz + 16 /\ k mod 16 = 0) by (subst k; dlia).
  destruct Hk as (Hk & Hk' & Hk'' & Hkm). clearbody k.
  assert (Hweak : forall p a b, granted (heap_start h) k p a b -> granted (heap_start h) sz p a b).
  { intros p a b (l1 & l2 & n0 & A & B & C & D). exists l1, l2, n0. repeat split; auto; lia || tauto. }
  destruct (first_fit k cs) eqn:E.
  { destruct (kmalloc_fit 1 k h m cs W Hk Hkm) as (p0 & h' & cs' & -> & W' & Hs & Hx & ? & ?); [congruence|].
    exists p0, h', m, cs'. split; [reflexivity|]. split; [exact W'|]. split; [exact Hm|]. split; [exact Hs|].
    split; [|auto]. apply (backed_grow h h' m m 0); auto; [|lia|now intros v|intros i Hi; lia].
    rewrite (hw_end _ _ W), (hw_end _ _ W'), Hs, Hx. lia. }
  pose proof W as [[W1 W2 W3 W4 _ W6 _] _]. pose proof (extents_nonneg _ W6).
  remember 1%nat as one eqn:Eone.
  cbn [kmalloc_loop]. rewrite (walk_spec h cs k W), E. cbn [obind].
  unfold HDR. rewrite (u64_id (48 + k)) by lia.
  destruct (expand_heap_spec (48 + k) h m Hm) as (b & j & m' & -> & Hj & Hmax & Hm' & Hb & Hkp & Hfr); try lia.
  cbn [obind]. destruct (add_range_spec h cs j W Hj Hmax) as (h1 & -> & Wg & Hst). cbn [obind].
  assert (He1 : heap_committed_end h1 = heap_committed_end h + 4096 * j)
    by (rewrite (hw_end _ _ W), (hw_end _ _ Wg), Hst, extents_grow; lia).
  destruct b; cbn [negb].
  - subst one. destruct (kmalloc_fit 0 k h1 m' _ Wg Hk Hkm) as (p & h' & cs' & -> & W' & Hs' & Hx & Hp & HG).
    { specialize (Hb eq_refl). apply grow_fits; auto; unfold HDR; lia. }
    exists p, h', m', cs'. split; [reflexivity|]. split; [exact W'|]. split; [exact Hm'|].
    rewrite Hst in *. split; [exact Hs'|]. split.
    + apply (backed_grow h h' m m' j); auto.
      rewrite <- He1, (hw_end _ _ W'), (hw_end _ _ Wg), Hs', Hx, Hst. reflexivity.
    + right. split; [exact Hp|]. apply Hweak. destruct HG as (l1 & l2 & n0 & A & B). exists l1, l2, n0.
      rewrite live_grow in A. auto.
  - exists 0, h1, m', (grow cs (4096 * j)). rewrite live_grow. split; [reflexivity|]. split; [exact Wg|].
    split; [exact Hm'|]. split; [exact Hst|]. split; [apply (backed_grow h h1 m m' j); auto|auto].
Qed.

End Backed.

(** [h'] differs from [h] in sizes and links only. *)
Definition same_states (h h' : kheap) : Prop :=
  heap_start h' = heap_start h /\ heap_committed_end h' = heap_committed_end h /\
  forall a b, hp_blocks h !! a = Some b ->
    exists b', hp_blocks h' !! a = Some b' /\ hb_magic b' = hb_magic b /\ hb_state b' = hb_state b.

Lemma same_states_refl h : same_states h h.
Proof. split; [reflexivity|]. split; [reflexivity|]. eauto. Qed.

Lemma same_states_update h a f h' :
  (forall b, hb_magic (f b) = hb_magic b /\ hb_state (f b) = hb_state b) ->
  update h a f = Ok h' -> same_states h h'.
Proof.
  intros Hf. unfold update, load. destruct (hp_blocks h !! a) as [b|] eqn:Eb; [|discriminate].
  intros [= <-]. split; [reflexivity|]. split; [reflexivity|]. intros x bx Hx. cbn.
  destruct (decide (a = x)) as [->|Hn]; [rewrite lookup_insert_eq|rewrite lookup_insert_ne by done; eauto].
  eexists; split; [reflexivity|]. rewrite Eb in Hx. injection Hx as ->. apply Hf.
Qed.

Lemma same_states_merge h a f n p h' :
  (forall b, hb_magic (f b) = hb_magic b /\ hb_state (f b) = hb_state b) ->
  (let* h := update h a f in relink h n p) = Ok h' -> same_states h h'.
Proof.
  intros Hf E. destruct (update h a f) as [h1|e] eqn:E1; [|discriminate]. cbn in E.
  apply (same_states_update _ _ _ _ Hf) in E1. unfold relink in E.
  destruct (negb (n =? 0)); [|injection E as <-; exact E1].
  apply same_states_update in E; [|now intros []].
  destruct E1 as (A1 & A2 & A3), E as (B1 & B2 & B3). split; [congruence|]. split; [congruence|].
  intros x b Hx. destruct (A3 _ _ Hx) as (b1 & Hb1 & ? & ?). destruct (B3 _ _ Hb1) as (b2 & ? & ? & ?).
  exists b2. split; [assumption|]. split; congruence.
Qed.

Lemma coalesce_next_states h a h' : coalesce_next h a = Ok h' -> same_states h h'.
Proof.
  unfold coalesce_next. destruct (load h a) as [b|]; [|discriminate]. cbn [obind].
  destruct (hb_next b =? 0); [intros [= <-]; apply same_states_refl|].
  destruct (load h (hb_next b)) as [n|]; [|discriminate]. cbn [obind].
  destruct (hb_state n =? HEAP_FREE); [|intros [= <-]; apply same_states_refl].
  apply same_states_merge. now intros [].
Qed.

Lemma coalesce_prev_states h a h' : coalesce_prev h a = Ok h' -> same_states h h'.
Proof.
  unfold coalesce_prev. destruct (load h a) as [b|]; [|discriminate]. cbn [obind].
  destruct (hb_prev b =? 0); [intros [= <-]; apply same_states_refl|].
  destruct (load h (hb_prev b)) as [n|]; [|discriminate]. cbn [obind].
  destruct (hb_state n =? HEAP_FREE); [|intros [= <-]; apply same_states_refl].
  apply same_states_merge. now intros [].
Qed.

(** A successful [kfree] leaves the header it read marked free, even when the
    block was merged into its predecessor. *)
Lemma kfree_marks p h h' :
  kfree p h = Ok h' -> p <> 0 ->
  heap_start h' = heap_start h /\ heap_committed_end h' = heap_committed_end h /\
  (heap_start h +64 HDR <=? p) && (p <? heap_committed_end h) = true /\ (p mod 16 =? 0) = true /\
  exists b, hp_blocks h' !! (p -64 HDR) = Some b /\ hb_magic b = HEAP_MAGIC /\ hb_state b = HEAP_FREE.
Proof.
  intros E Hp. unfold kfree in E. destruct (Z.eqb_spec p 0); [done|].
  destruct (_ && _) eqn:Eg in E; cbn in E; [|discriminate].
  destruct (p mod 16 =? 0) eqn:Em; cbn in E; [|discriminate].
  unfold load at 1 in E. destruct (hp_blocks h !! (p -64 HDR)) as [b|] eqn:Eb; cbn in E; [|discriminate].
  destruct (Z.eqb_spec (hb_magic b) HEAP_MAGIC) as [Hmg|]; cbn in E; [|discriminate].
  destruct (hb_state b =? HEAP_USED); cbn in E; [|discriminate].
  rewrite (update_lookup _ _ _ _ Eb) in E. cbn [obind] in E.
  destruct (coalesce_next _ _) as [h1|] eqn:E1 in E; cbn [obind] in E; [|discriminate].
  apply coalesce_next_states in E1 as (A1 & A2 & A3). apply coalesce_prev_states in E as (B1 & B2 & B3).
  destruct (A3 (p -64 HDR) _ (lookup_insert_eq _ _ _)) as (b1 & Hb1 & M1 & S1).
  destruct (B3 _ _ Hb1) as (b2 & Hb2 & M2 & S2).
  rewrite B1, B2, A1, A2, Eg. repeat (split; [reflexivity|]). exists b2.
  split; [exact Hb2|]. cbn in *. split; congruence.
Qed.

(** ** Payloads in use *)
Lemma live_range a l p n :
  Forall chunk_ok l -> (p, n) ∈ live a l -> a + HDR <= p /\ 16 <= n /\ p + n <= a + extents l.
Proof.
  intros HF; revert a; induction HF as [|c r [Hc _] Hr IH]; intros a; cbn [live extents].
  - intros H%elem_of_nil. done.
  - pose proof (extents_nonneg _ Hr). unfold extent, HDR in *. intros [Hin|Hin]%elem_of_app.
    + destruct (ck_free c); [now apply elem_of_nil in Hin|].
      apply list_elem_of_singleton in Hin. injection Hin as -> ->. lia.
    + specialize (IH _ Hin). lia.
Qed.

Lemma live_split a l p n :
  (p, n) ∈ live a l -> exists l1 c l2, l = l1 ++ c :: l2 /\ ck_free c = false /\
    ck_size c = n /\ p = a + extents l1 + HDR.
Proof.
  revert a; induction l as [|c r IH]; intros a; cbn [live]; [now intros H%elem_of_nil|].
  intros [Hin|Hin]%elem_of_app.
  - destruct (ck_free c) eqn:E; [now apply elem_of_nil in Hin|].
    apply list_elem_of_singleton in Hin. injection Hin as -> ->.
    exists [], c, r. cbn. auto with lia.
  - destruct (IH _ Hin) as (l1 & d & l2 & -> & Hf & Hn & ->). exists (c :: l1), d, l2. cbn. auto with lia.
Qed.

Definition apart (x y : Z * Z) : Prop := x.1 + x.2 <= y.1 \/ y.1 + y.2 <= x.1.

Lemma live_apart a l :
  Forall chunk_ok l ->
  NoDup (live a l).*1 /\ forall x y, x ∈ live a l -> y ∈ live a l -> x.1 <> y.1 -> apart x y.
Proof.
  intros HF; revert a; induction HF as [|c r [Hc _] Hr IH]; intros a; cbn [live].
  - split; [constructor|]. intros x y H%elem_of_nil. done.
  - destruct (IH (a + extent c)) as [ND AP].
    assert (Hge : forall p n, (p, n) ∈ live (a + extent c) r -> a + HDR + ck_size c < p).
    { intros p n Hin. apply (live_range _ _ _ _ Hr) in Hin. unfold extent, HDR in *. lia. }
    destruct (ck_free c); cbn [app fmap list_fmap]; [split; assumption|]. split.
    + constructor; [|exact ND]. intros Hin. apply list_elem_of_fmap in Hin as ([p n] & E & Hin).
      apply Hge in Hin. cbn in E. lia.
    + intros [p n] [q k] [Hx|Hx]%elem_of_cons [Hy|Hy]%elem_of_cons Hne; unfold apart; cbn in *.
      * congruence.
      * injection Hx as -> ->. apply Hge in Hy. lia.
      * injection Hy as -> ->. apply Hge in Hx. lia.
      * apply (AP (p, n) (q, k)); auto.
Qed.

(** A client of the heap: it asks for memory and gives back what it was given.
    Its state lists the payloads it holds with the sizes it asked for. *)
Inductive heap_client {M} `{PageBacking M} :
  kheap * M * list (Z * Z) -> kheap * M * list (Z * Z) -> Prop :=
| hc_malloc h m held sz p h' m' :
    0 < sz <= 2 ^ 44 -> kmalloc sz h m = Ok (p, h', m') ->
    heap_client (h, m, held) (h', m', if p =? 0 then held else (p, sz) :: held)
| hc_free h m l1 p sz l2 h' :
    kfree p h = Ok h' -> heap_client (h, m, l1 ++ (p, sz) :: l2) (h', m, l1 ++ l2).

(** The client's holdings are the payloads in use, each at least as large as asked. *)
Definition holds (base : Z) (cs : list chunk) (held : list (Z * Z)) : Prop :=
  exists caps, live base cs ≡ₚ zip held.*1 caps /\ Forall2 (fun x n => x.2 <= n) held caps.

Definition client_ok {M} `{PageBacking M} (base : Z) (s : kheap * M * list (Z * Z)) : Prop :=
  heap_start s.1.1 = base /\ exists cs, heap_wf s.1.1 cs /\ pb_ok s.1.2 /\ backed s.1.1 s.1.2 /\ holds (heap_start s.1.1) cs s.2.

Lemma holds_live base cs held p sz :
  holds base cs held -> (p, sz) ∈ held -> exists n, (p, n) ∈ live base cs /\ sz <= n.
Proof.
  intros (caps & HP & HF) Hin. apply list_elem_of_split in Hin as (l1 & l2 & ->).
  apply Forall2_app_inv_l in HF as (c1 & c2 & HF1 & HF2 & ->).
  apply Forall2_cons_inv_l in HF2 as (n & c3 & Hn & HF3 & ->). exists n. split; [|exact Hn].
  rewrite HP, fmap_app. rewrite zip_with_app by (rewrite length_fmap; now apply Forall2_length in HF1).
  cbn. apply elem_of_app. right. left.
Qed.

Lemma holds_granted base cs cs' held sz p :
  holds base cs held -> granted base sz p cs cs' -> holds base cs' ((p, sz) :: held).
Proof.
  intros (caps & HP & HF) (l1 & l2 & n & E & E' & Hn & _). exists (n :: caps). split.
  - rewrite E'. cbn. rewrite <- Permutation_middle. constructor. rewrite <- E. exact HP.
  - constructor; [exact Hn|exact HF].
Qed.

(** [kfree] on a payload in use. *)
Lemma kfree_live h cs p n :
  heap_wf h cs -> (p, n) ∈ live (heap_start h) cs ->
  exists h' cs' l1 l2, kfree p h = Ok h' /\ heap_wf h' cs' /\ heap_start h' = heap_start h /\
    live (heap_start h) cs = l1 ++ (p, n) :: l2 /\ live (heap_start h) cs' = l1 ++ l2.
Proof.
  intros W Hin. destruct (live_split _ _ _ _ Hin) as (l1 & c & l2 & -> & Hf & <- & ->).
  destruct (kfree_spec h l1 c l2 W Hf) as (h' & E & W' & Hs).
  exists h', (freed l1 c l2), (live (heap_start h) l1), (live (heap_start h + extents l1 + extent c) l2).
  rewrite live_freed, live_app. cbn [live]. rewrite Hf. auto 10.
Qed.

Lemma holds_freed base cs cs' k1 k2 n l1 p sz l2 :
  NoDup (live base cs).*1 -> holds base cs (l1 ++ (p, sz) :: l2) ->
  live base cs = k1 ++ (p, n) :: k2 -> live base cs' = k1 ++ k2 -> holds base cs' (l1 ++ l2).
Proof.
  intros ND (caps & HP & HF) E E'.
  apply Forall2_app_inv_l in HF as (c1 & c2 & HF1 & HF2 & ->).
  apply Forall2_cons_inv_l in HF2 as (n' & c3 & Hn & HF3 & ->).
  assert (Hlen : length l1.*1 = length c1) by (rewrite length_fmap; now apply Forall2_length in HF1).
  exists (c1 ++ c3). split; [|apply Forall2_app; assumption].
  rewrite fmap_app, zip_with_app in HP |- * by exact Hlen. cbn in HP.
  assert (Hn' : n' = n).
  { assert (Hin : (p, n') ∈ live base cs) by (rewrite HP; apply elem_of_app; right; left).
    rewrite E in Hin, ND. rewrite fmap_app in ND. cbn in ND.
    apply list.NoDup_app in ND as (_ & ND1 & ND2). apply list.NoDup_cons in ND2 as [ND2 _].
    rewrite elem_of_app, elem_of_cons in Hin. destruct Hin as [Hin|[[= <-]|Hin]]; [|reflexivity|].
    - apply (list_elem_of_fmap_2 fst) in Hin. destruct (ND1 _ Hin). left.
    - apply (list_elem_of_fmap_2 fst) in Hin. now destruct ND2. }
  subst n'. rewrite E' . rewrite E in HP. rewrite <- !Permutation_middle in HP.
  now apply Permutation_cons_inv in HP.
Qed.

Lemma client_ok_step {M} `{PageBackingLaws M} base s s' :
  heap_client s s' -> client_ok base s -> client_ok base s'.
Proof.
  intros Hst (Hbase & cs & W & Hm & Hbk & Hh). destruct Hst as [h m held sz p h' m' Hsz E|h m l1 p sz l2 h' E]; cbn in *.
  - destruct (kmalloc_spec sz h m cs W Hm Hsz) as (p1 & h1 & m1 & cs' & E1 & W' & Hm' & Hs & Hbk' & Hcase).
    rewrite E in E1. injection E1 as <- <- <-. split; [cbn; congruence|]. exists cs'. cbn. rewrite Hs.
    split; [exact W'|]. split; [exact Hm'|]. split; [exact (Hbk' Hbk)|]. destruct Hcase as [[-> El]|[Hp HG]]; cbn.
    + unfold holds. now rewrite El.
    + destruct (Z.eqb_spec p 0); [done|]. eapply holds_granted; eauto.
  - destruct (holds_live _ _ _ p sz Hh) as (n & Hin & _); [apply elem_of_app; right; left|].
    destruct (kfree_live h cs p n W Hin) as (h1 & cs' & k1 & k2 & E1 & W' & Hs & El & El').
    rewrite E in E1. injection E1 as <-. split; [cbn; congruence|]. exists cs'. cbn. rewrite Hs.
    pose proof (hw_chunks _ _ W) as F. pose proof (hw_start _ _ W). apply (live_range _ _ _ _ F) in Hin. unfold HDR in Hin.
    destruct (kfree_marks p h h' E ltac:(lia)) as (_ & He & _).
    split; [exact W'|]. split; [exact Hm|]. split; [unfold backed in *; rewrite Hs, He; exact Hbk|].
    eapply holds_freed; eauto. apply live_apart, (hw_chunks _ _ W).
Qed.

(** What a client can rely on in a state [h], [m] in which it holds [held]. *)
Record heap_safe {M} `{PageBacking M} (base : Z) (h : kheap) (m : M) (held : list (Z * Z)) : Prop := {
  hs_start : heap_start h = base;
  hs_verify : kheap_verify h = Ok tt;
  hs_backing : pb_ok m;
  hs_inside p sz : (p, sz) ∈ held -> heap_start h <= p /\ p + sz <= heap_committed_end h;
  hs_mapped : backed h m;
  hs_distinct : NoDup held.*1;
  hs_apart x y : x ∈ held -> y ∈ held -> x.1 <> y.1 -> apart x y;
  hs_malloc sz : 0 < sz <= 2 ^ 44 -> exists r, kmalloc sz h m = Ok r;
  hs_free p sz : (p, sz) ∈ held -> exists h', kfree p h = Ok h'
}.

Lemma client_safe {M} `{PageBackingLaws M} h0 cs0 m0 h m held :
  heap_wf h0 cs0 -> live (heap_start h0) cs0 = [] -> pb_ok m0 -> backed h0 m0 ->
  rtc heap_client (h0, m0, []) (h, m, held) -> heap_safe (heap_start h0) h m held.
Proof.
  intros W0 L0 Hm0 Hb0 Hrtc.
  assert (HI : client_ok (heap_start h0) (h, m, held)).
  { apply (rtc_invariant heap_client (client_ok _) (client_ok_step _) _ _ Hrtc).
    split; [reflexivity|]. exists cs0. cbn. split; [exact W0|]. split; [exact Hm0|]. split; [exact Hb0|]. exists []. rewrite L0. auto. }
  destruct HI as (Hbase & cs & W & Hm & Hb & Hh). cbn in *. pose proof (hw_chunks _ _ W) as F.
  destruct (live_apart (heap_start h) cs F) as [ND AP].
  constructor.
  - exact Hbase.
  - exact (verify_spec h cs W).
  - exact Hm.
  - intros p sz Hin. destruct (holds_live _ _ _ _ _ Hh Hin) as (n & Hl & Hn).
    apply (live_range _ _ _ _ F) in Hl. rewrite (hw_end _ _ W). unfold HDR in Hl. lia.
  - exact Hb.
  - destruct Hh as (caps & HP & HF2). rewrite HP in ND.
    apply Forall2_length in HF2. rewrite fst_zip in ND by (rewrite length_fmap; lia). exact ND.
  - intros [p sz] [q sz'] Hx Hy Hne. destruct (holds_live _ _ _ _ _ Hh Hx) as (n & Hl & Hn).
    destruct (holds_live _ _ _ _ _ Hh Hy) as (n' & Hl' & Hn').
    specialize (AP _ _ Hl Hl' Hne). unfold apart in *. cbn in *. lia.
  - intros sz Hsz. destruct (kmalloc_spec sz h m cs W Hm Hsz) as (p & h' & m' & _ & E & _). eauto.
  - intros p sz Hin. destruct (holds_live _ _ _ _ _ Hh Hin) as (n & Hl & _).
    destruct (kfree_live h cs p n W Hl) as (h' & _ & _ & _ & E & _). eauto.
Qed.

Lemma stats_loop_spec h fuel l1 l2 r c A F B N :
  heap_lay h (l1 ++ l2) -> (length l2 < fuel)%nat ->
  0 <= A -> 0 <= F -> 0 <= N <= B -> A + F + HDR * B + extents l2 < 2 ^ 64 ->
  stats_loop fuel h (match l2 with [] => 0 | _ => heap_start h + extents l1 end) (mkStats r c A F B N) =
  Ok (mkStats r c (A + bytes_where false l2) (F + bytes_where true l2) (B + zlen l2)
        (N + blocks_where true l2)).
Proof.
  revert l1 fuel A F B N; induction l2 as [|d t IH]; intros l1 fuel A F B N W Hf HA HF HN Hlim;
    destruct fuel; try (cbn in Hf; lia).
  - cbn. rewrite !Z.add_0_r. reflexivity.
  - pose proof (heap_bounds _ _ _ _ W) as Hb. cbn [stats_loop]. cbn [extents] in Hlim.
    unfold extent, HDR in Hb, Hlim.
    destruct (Z.eqb_spec (heap_start h + extents l1) 0); [lia|].
    destruct (heap_at _ _ _ _ W) as (Ha & _). rewrite (load_lookup _ _ _ Ha). cbn [obind]. rewrite state_free.
    specialize (IH (l1 ++ [d]) fuel). rewrite <- app_assoc, extents_app in IH. cbn [extents app] in IH.
    rewrite Z.add_0_r, Z.add_assoc in IH. cbn [header hb_size hb_next].
    unfold zlen, bytes_where, blocks_where in *. cbn [foldr length]. cbn in Hf.
    destruct (ck_free d); cbn [Bool.eqb virtual_reserved virtual_committed allocated_bytes free_bytes
      block_count free_block_count].
    + rewrite (u64_id (B + 1)), (u64_id (F + ck_size d)), (u64_id (N + 1)) by lia.
      rewrite IH by (exact W || unfold HDR; lia). do 2 f_equal; lia.
    + rewrite (u64_id (B + 1)), (u64_id (A + ck_size d)) by lia.
      rewrite IH by (exact W || unfold HDR; lia). do 2 f_equal; lia.
Qed.

(** ** A concrete backing store: a budget of pages, all of which can be mapped *)
Definition budget : Type := nat * list Z.

#[export] Instance budget_backing : PageBacking budget := {|
  pb_alloc := fun b => match b with
                       | (O, l) => Ok (0, (O, l))
                       | (S k, l) => Ok (4096 * Z.of_nat (S k), (k, l))
                       end;
  pb_free := fun _ b => Ok (S b.1, b.2);
  pb_map := fun virt _ _ b => Ok (true, (b.1, virt :: b.2));
  pb_ok := fun _ => True;
  pb_mapped := fun b v => v ∈ b.2
|}.

#[export] Instance budget_backing_laws : PageBackingLaws budget.
Proof.
  split. intros [[|n] l] _; do 2 eexists; (split; [reflexivity|]).
  - split; [|done]. intros _. split; [exact I|]. now intros v.
  - split; [done|]. intros _ virt flags. exists true, (n, virt :: l). split; [reflexivity|]. split; [|discriminate].
    intros _. split; [exact I|]. split; [intros v Hv; now right|left].
Qed.

Lemma init_heap_wf base mem :
  0 < base <= KERNEL_HEAP_MAX -> base mod 16 = 0 -> heap_wf (kheap_init base mem) [].
Proof.
  intros Hb Ha. unfold KERNEL_HEAP_MAX in Hb. split; [|exact I]. constructor; cbn; auto; unfold KERNEL_HEAP_MAX; lia.
Qed.

Definition heap0 : kheap := kheap_init KERNEL_HEAP_BASE ∅.

Lemma heap0_wf : heap_wf heap0 [].
Proof. apply init_heap_wf; [unfold KERNEL_HEAP_BASE, KERNEL_HEAP_MAX; lia|reflexivity]. Qed.

Definition pages3 : budget := (3%nat, []).

(** The heap after one request for 100 bytes: a used block of 112 and a free rest. *)
Definition base0 : Z := KERNEL_HEAP_BASE.
Definition heap1 : kheap :=
  mkHeap base0 (base0 + 4096) KERNEL_HEAP_MAX base0
    (<[base0 := mkBlock HEAP_MAGIC 112 HEAP_USED (base0 + 160) 0]>
     (<[base0 + 160 := mkBlock HEAP_MAGIC 3888 HEAP_FREE 0 base0]> ∅)).
Definition chunks1 : list chunk := [mkChunk 112 false; mkChunk 3888 true].

Lemma heap1_wf : heap_wf heap1 chunks1.
Proof.
  split; [|cbn; intuition congruence]. constructor; try reflexivity.
  - vm_compute. split; discriminate.
  - repeat constructor; discriminate.
  - vm_compute. auto.
Qed.

(** ** Theorems *)

(** C4: for every request up to 2^44 bytes [kmalloc] terminates without a failed
    assertion, within one expansion of the heap.  It returns 0 and leaves the
    payloads in use as they were, or it returns a 16-byte-aligned payload of at
    least the requested capacity that is added to the payloads in use, none of
    which moves or changes size.  The heap stays well formed, and every page it
    commits is mapped. *)
Theorem kmalloc_correct {M} `{PageBackingLaws M} sz h m cs :
  heap_wf h cs -> pb_ok m -> 0 < sz <= 2 ^ 44 ->
  exists p h' m' cs', kmalloc sz h m = Ok (p, h', m') /\ heap_wf h' cs' /\ pb_ok m' /\
    heap_start h' = heap_start h /\ (backed h m -> backed h' m') /\
    ((p = 0 /\ live (heap_start h) cs' = live (heap_start h) cs) \/
     (p <> 0 /\ granted (heap_start h) sz p cs cs')).
Proof. apply kmalloc_spec. Qed.

Lemma kmalloc_correct_witness :
  exists h', kmalloc 100 heap0 pages3 = Ok (KERNEL_HEAP_BASE + 48, h', (2%nat, [KERNEL_HEAP_BASE])) /\
    exists cs', heap_wf h' cs'.
Proof.
  destruct (@kmalloc_correct budget budget_backing _ 100 heap0 pages3 [] heap0_wf I ltac:(lia))
    as (p & h' & m' & cs' & E & W & _).
  assert (Hr : match kmalloc 100 heap0 pages3 with Ok (q, _, n) => (q, n) | _ => (0, pages3) end =
               (KERNEL_HEAP_BASE + 48, (2%nat, [KERNEL_HEAP_BASE]))) by (vm_compute; reflexivity).
  rewrite E in Hr. injection Hr as -> ->. exists h'. split; [exact E|]. exists cs'. exact W.
Defined.

(** C5: [kfree] of a payload in use succeeds, takes exactly that payload out of
    use, and merges the block with free neighbours so that the heap is well formed
    again, with no two adjacent free blocks. *)
Theorem kfree_correct h cs p n :
  heap_wf h cs -> (p, n) ∈ live (heap_start h) cs ->
  exists h' cs' l1 l2, kfree p h = Ok h' /\ heap_wf h' cs' /\ heap_start h' = heap_start h /\
    live (heap_start h) cs = l1 ++ (p, n) :: l2 /\ live (heap_start h) cs' = l1 ++ l2.
Proof. apply kfree_live. Qed.

Lemma kfree_correct_witness :
  exists h' cs', kfree (base0 + 48) heap1 = Ok h' /\ heap_wf h' cs' /\ live base0 cs' = [].
Proof.
  destruct (kfree_correct heap1 chunks1 (base0 + 48) 112 heap1_wf) as (h' & cs' & l1 & l2 & E & W & _ & L & L').
  - change (live (heap_start heap1) chunks1) with [(base0 + 48, 112)]. left.
  - exists h', cs'. split; [exact E|]. split; [exact W|].
    change (live (heap_start heap1) chunks1) with [(base0 + 48, 112)] in L.
    change (heap_start heap1) with base0 in L'. rewrite L'.
    destruct l1 as [|x l1]; [now injection L as <-|]. injection L as _ L. destruct l1; discriminate.
Defined.

(** The contract of the heap for a client that frees only what it was given.
    After any sequence of requests and frees, the consistency check of the code
    passes, the payloads held lie inside the committed heap, all of whose pages
    are mapped, and do not overlap, and every further request or free of a held
    payload returns normally. *)
Theorem heap_client_safe {M} `{PageBackingLaws M} h0 cs0 m0 h m held :
  heap_wf h0 cs0 -> live (heap_start h0) cs0 = [] -> pb_ok m0 -> backed h0 m0 ->
  rtc heap_client (h0, m0, []) (h, m, held) -> heap_safe (heap_start h0) h m held.
Proof. apply client_safe. Qed.

Lemma heap_client_safe_witness :
  exists h m, rtc heap_client (heap0, pages3, []) (h, m, [(base0 + 48, 100)]) /\ kheap_verify h = Ok tt.
Proof.
  assert (Hr : match kmalloc 100 heap0 pages3 with Ok (q, _, _) => q | _ => 0 end = base0 + 48)
    by (vm_compute; reflexivity).
  destruct (kmalloc 100 heap0 pages3) as [[[p h] m]|e] eqn:E; [|discriminate]. subst p.
  assert (Hrtc : rtc heap_client (heap0, pages3, []) (h, m, [(base0 + 48, 100)])).
  { apply rtc_once. apply (hc_malloc heap0 pages3 [] 100 (base0 + 48) h m ltac:(lia) E). }
  exists h, m. split; [exact Hrtc|].
  apply (@heap_client_safe budget budget_backing _ heap0 [] pages3 h m [(base0 + 48, 100)] heap0_wf eq_refl I); [|exact Hrtc].
  split; [reflexivity|]. intros a Ha. unfold heap0 in Ha. cbn in Ha. lia.
Defined.

(** the consistency check [kheap_verify] accepts every well-formed heap: none
    of its assertions fails and its walk ends. *)
Theorem kheap_verify_accepts h cs : heap_wf h cs -> kheap_verify h = Ok tt.
Proof. apply verify_spec. Qed.

Lemma kheap_verify_accepts_witness : kheap_verify heap1 = Ok tt.
Proof. exact (kheap_verify_accepts heap1 chunks1 heap1_wf). Defined.

(** [kheap_get_stats] reports the totals of the block list, and they account
    for every committed byte: used payload, free payload and one header for each
    block. *)
Theorem kheap_get_stats_correct h cs :
  heap_wf h cs ->
  exists s, kheap_get_stats h = Ok s /\
    allocated_bytes s = bytes_where false cs /\ free_bytes s = bytes_where true cs /\
    block_count s = zlen cs /\ free_block_count s = blocks_where true cs /\
    virtual_committed s = allocated_bytes s + free_bytes s + HDR * block_count s.
Proof.
  intros W. pose proof (hw_chunks _ _ W) as F. pose proof (extents_nonneg _ F).
  pose proof (hw_end _ _ W) as He. pose proof (hw_start _ _ W). pose proof (hw_limit _ _ W).
  unfold kheap_get_stats. rewrite (hw_head _ _ W).
  replace (match cs with [] => 0 | _ => heap_start h end)
    with (match cs with [] => 0 | _ => heap_start h + extents [] end) by (destruct cs; cbn; lia).
  pose proof (seg_length _ _ _ _ _ F (hw_seg _ _ W)).
  rewrite (stats_loop_spec h _ [] cs) by (apply W || (unfold walk_fuel, HDR; lia)).
  eexists. split; [reflexivity|]. cbn. rewrite !Z.add_0_l. repeat (split; [reflexivity|]).
  rewrite He, u64_id by lia. pose proof (extents_totals cs). lia.
Qed.

Lemma kheap_get_stats_correct_witness :
  exists s, kheap_get_stats heap1 = Ok s /\ allocated_bytes s = 112 /\ free_block_count s = 1.
Proof.
  destruct (kheap_get_stats_correct heap1 chunks1 heap1_wf) as (s & E & A & _ & _ & B & _).
  exists s. split; [exact E|]. split; [exact A|exact B].
Defined.

(** C34: freeing a payload twice in a row is caught: after a successful [kfree] of
    a non-null pointer, a second [kfree] of it stops at the assertion that the
    block is in use, also when the block has been merged into a neighbour. *)
Theorem kfree_twice_caught p h h' :
  kfree p h = Ok h' -> p <> 0 -> kfree p h' = Stop (Panic 143).
Proof.
  intros E Hp. destruct (kfree_marks p h h' E Hp) as (E1 & E2 & E3 & E4 & b & Hb & Hm & Hs).
  unfold kfree. destruct (Z.eqb_spec p 0); [done|].
  rewrite E1, E2, E3, E4, (load_lookup _ _ _ Hb). cbn [kassert obind]. rewrite Hm, Hs. reflexivity.
Qed.

Lemma kfree_twice_caught_witness :
  exists h', kfree (base0 + 48) heap1 = Ok h' /\ kfree (base0 + 48) h' = Stop (Panic 143).
Proof.
  destruct (kfree (base0 + 48) heap1) as [h'|e] eqn:E; [|vm_compute in E; discriminate].
  exists h'. split; [reflexivity|]. apply (kfree_twice_caught _ _ _ E). discriminate.
Defined.

(** The size of a request is rounded up with wrap-around: a request within 15
    bytes of 2^64 is rounded to 0, so when the first block is free and large
    enough to split, [kmalloc] returns a non-null pointer to a block of capacity
    0 instead of failing. *)
Theorem kmalloc_huge_request_wraps {M} `{PageBacking M} sz h (m : M) c cs :
  heap_wf h (c :: cs) -> ck_free c = true -> 64 <= ck_size c -> 2 ^ 64 - 16 < sz < 2 ^ 64 ->
  exists h', kmalloc sz h m = Ok (heap_start h + HDR, h', m) /\
    exists b, hp_blocks h' !! heap_start h = Some b /\ hb_size b = 0 /\ hb_state b = HEAP_USED.
Proof.
  intros W Hf Hc Hsz. pose proof (heap_bounds h [] c cs (hw_lay _ _ W)) as Hb.
  destruct (heap_at h [] c cs (hw_lay _ _ W)) as (Ha & Hs & F). cbn [extents] in *.
  rewrite Z.add_0_r in *. unfold extent, HDR in Hb.
  unfold kmalloc. destruct (Z.eqb_spec sz 0); [lia|].
  assert (Hal : align_up sz 16 = 0).
  { unfold align_up. change (u64 (Z.lnot (16 -64 1))) with (u64 (Z.lnot (2 ^ 4 - 1))).
    replace (sz +64 16 -64 1) with (sz - (2 ^ 64 - 15)).
    - rewrite land_not_low by lia. dlia.
    - unfold u64. rewrite Zminus_mod_idemp_l. replace (sz + 16 - 1) with (sz - (2 ^ 64 - 15) + 1 * 2 ^ 64) by lia.
      rewrite Z.mod_add, Z.mod_small by lia. reflexivity. }
  rewrite Hal. cbn [kmalloc_loop]. rewrite (walk_spec h _ 0 W). cbn [first_fit obind].
  rewrite Hf. destruct (Z.leb_spec 0 (ck_size c)); [|lia]. cbn [andb extents]. rewrite Z.add_0_r.
  unfold take_block, HDR. rewrite (load_lookup _ _ _ Ha). cbn [obind header hb_size hb_next].
  rewrite Z.sub_0_r, (u64_id (ck_size c)) by lia. change (48 + 16) with 64.
  destruct (Z.leb_spec 64 (ck_size c)); [|lia].
  rewrite (u64_id (48 + 0)), (u64_id (heap_start h + (48 + 0))), (u64_id (ck_size c - 48)) by lia.
  set (h1 := store _ _ _).
  assert (Hs1 : seg (hp_blocks h1) (heap_start h) (heap_start h + extent c) cs 0).
  { apply seg_insert; [exact F|unfold extent, HDR; lia|exact Hs]. }
  destruct (relink_spec h1 _ (heap_start h + (48 + 0)) (heap_start h + extent c) cs F
              ltac:(unfold extent, HDR; lia) Hs1) as (h2 & -> & Hfr & _). cbn [obind].
  assert (Ha2 : hp_blocks h2 !! heap_start h = hp_blocks h !! heap_start h).
  { rewrite Hfr by (unfold extent, HDR; lia). apply lookup_insert_ne. lia. }
  rewrite (update_lookup h2 _ _ _ (eq_trans Ha2 Ha)). cbn [obind].
  rewrite (update_lookup _ (heap_start h) _ _ (lookup_insert_eq _ _ _)). cbn [obind].
  rewrite (u64_id (heap_start h + 48)) by lia. eexists. split; [reflexivity|].
  cbn [store hp_blocks]. rewrite lookup_insert_eq. eexists. split; [reflexivity|]. auto.
Qed.

Lemma kmalloc_huge_request_wraps_witness :
  exists h1 h2, kfree (base0 + 48) heap1 = Ok h1 /\
    kmalloc (2 ^ 64 - 8) h1 pages3 = Ok (base0 + 48, h2, pages3).
Proof.
  destruct (kfree_spec heap1 [] (mkChunk 112 false) [mkChunk 3888 true] heap1_wf eq_refl) as (h1 & E & W & Hs).
  destruct (@kmalloc_huge_request_wraps budget _ (2 ^ 64 - 8) h1 pages3 (mkChunk 4048 true) [] W
              eq_refl ltac:(cbn; lia) ltac:(lia)) as (h2 & E2 & _).
  exists h1, h2. split; [exact E|]. rewrite Hs in E2. exact E2.
Defined.
