(* ===== verification/Vmm.v ===== *)
(** * Virtual memory manager (src/kernel/memory/vmm.c, virt.h)

    The state [vmm F] holds the 64-bit words of memory by kernel virtual address,
    the frame allocator [F] (an instance of [FrameSource]), the CR3 and EFER
    registers, the two static variables of the file, and the list of addresses
    passed to [invlpg].  A pointer to a page table is the address
    [phys_to_virt] computes, with its wrap-around; [0] is the null pointer.  A
    word that nothing wrote reads as 0, which is no restriction: the map may hold
    any contents.  Messages on the serial port are left out.

    [walk] is the translation of the processor; [pt_inv] says that the tables of
    an address space form a tree by levels in frames held from the allocator.
    The theorems describe the operations by what they do to [walk]. *)

From S2P Require Import Prelude Interfaces Pmm.

Definition HIGHER_HALF_BASE : Z := 0xFFFFFFFF80000000.

Definition PTE_PRESENT : Z := 1.
Definition PTE_WRITABLE : Z := 2.
Definition PTE_USER : Z := 4.
Definition PDE_PS : Z := 128.
Definition PTE_NO_EXECUTE : Z := 2 ^ 63.
Definition PTE_FRAME_MASK : Z := 0x000FFFFFFFFFF000.

Definition phys_to_virt (phys : Z) : Z := phys +64 HIGHER_HALF_BASE.
Definition virt_to_phys (virt : Z) : Z := virt -64 HIGHER_HALF_BASE.

Definition pml4_index (addr : Z) : Z := Z.land (Z.shiftr addr 39) 0x1FF.
Definition pdpt_index (addr : Z) : Z := Z.land (Z.shiftr addr 30) 0x1FF.
Definition pd_index (addr : Z) : Z := Z.land (Z.shiftr addr 21) 0x1FF.
Definition pt_index (addr : Z) : Z := Z.land (Z.shiftr addr 12) 0x1FF.

Definition is_canonical (virt_addr : Z) : bool :=
  let upper_17 := Z.shiftr virt_addr 47 in (upper_17 =? 0) || (upper_17 =? 0x1FFFF).

Definition flags_to_pte (flags : Z) : Z :=
  let pte := 0 in
  let pte := if has flags VMM_FLAG_WRITABLE then Z.lor pte PTE_WRITABLE else pte in
  let pte := if has flags VMM_FLAG_USER then Z.lor pte PTE_USER else pte in
  if has flags VMM_FLAG_NO_EXECUTE then Z.lor pte PTE_NO_EXECUTE else pte.

(** ** Memory *)
Abbreviation memory := (gmap Z Z).

(** [t[i]] and [t[i] = v] for [uint64_t *t]. *)
Definition rd (m : memory) (t i : Z) : Z := default 0 (m !! (t +64 (8 * i))).
Definition wr (m : memory) (t i v : Z) : memory := <[t +64 (8 * i) := v]> m.

(** [for (i = from; i < from + n; i++) t[i] = 0;] *)
Fixpoint zero_words (m : memory) (t from : Z) (n : nat) : memory :=
  match n with
  | O => m
  | S k => zero_words (wr m t from 0) t (from + 1) k
  end.

(** [for (i = from; i < from + n; i++) t[i] = s[i];] *)
Fixpoint copy_words (m : memory) (t s from : Z) (n : nat) : memory :=
  match n with
  | O => m
  | S k => copy_words (wr m t from (rd m s from)) t s (from + 1) k
  end.

Record vmm (F : Type) : Type := mkVmm {
  vm_mem : memory;
  vm_frames : F;
  vm_cr3 : Z;
  vm_efer : Z;
  current_pml4_phys : Z;
  pml4_table : Z;
  vm_invlpg : list Z
}.
Arguments mkVmm {F}.
Arguments vm_mem {F}.
Arguments vm_frames {F}.
Arguments vm_cr3 {F}.
Arguments vm_efer {F}.
Arguments current_pml4_phys {F}.
Arguments pml4_table {F}.
Arguments vm_invlpg {F}.

Section Operations.
Context {F : Type} `{FrameSource F}.
Implicit Types s : vmm F.

Definition set_mem s (m : memory) : vmm F :=
  mkVmm m (vm_frames s) (vm_cr3 s) (vm_efer s) (current_pml4_phys s) (pml4_table s) (vm_invlpg s).
Definition set_frames s (f : F) : vmm F :=
  mkVmm (vm_mem s) f (vm_cr3 s) (vm_efer s) (current_pml4_phys s) (pml4_table s) (vm_invlpg s).
Definition invlpg s (virt_addr : Z) : vmm F :=
  mkVmm (vm_mem s) (vm_frames s) (vm_cr3 s) (vm_efer s) (current_pml4_phys s) (pml4_table s)
    (virt_addr :: vm_invlpg s).

Definition vmm_get_current_pml4 s : Z := Z.land (vm_cr3 s) PTE_FRAME_MASK.

Definition vmm_init (pml4_phys : Z) s : vmm F :=
  mkVmm (vm_mem s) (vm_frames s) (vm_cr3 s) (Z.lor (vm_efer s) (2 ^ 11)) pml4_phys
    (phys_to_virt pml4_phys) (vm_invlpg s).

Definition get_next_level s (current_table index : Z) (allocate : bool) (pte_flags : Z) : outcome (Z * vmm F) :=
  let entry := rd (vm_mem s) current_table index in
  if has entry PTE_PRESENT then
    if has entry PDE_PS then Ok (0, s)
    else
      let s := if has pte_flags PTE_WRITABLE && negb (has entry PTE_WRITABLE)
               then set_mem s (wr (vm_mem s) current_table index
                      (Z.lor (rd (vm_mem s) current_table index) PTE_WRITABLE))
               else s in
      let s := if has pte_flags PTE_USER && negb (has entry PTE_USER)
               then set_mem s (wr (vm_mem s) current_table index
                      (Z.lor (rd (vm_mem s) current_table index) PTE_USER))
               else s in
      Ok (phys_to_virt (Z.land entry PTE_FRAME_MASK), s)
  else if negb allocate then Ok (0, s)
  else
    let* (next_table_phys, f) := fs_alloc (vm_frames s) in
    let s := set_frames s f in
    if next_table_phys =? 0 then Ok (0, s)
    else
      let next_table_virt := phys_to_virt next_table_phys in
      let m := zero_words (vm_mem s) next_table_virt 0 512 in
      let intermediate_flags := PTE_PRESENT in
      let intermediate_flags := if has pte_flags PTE_WRITABLE
                                then Z.lor intermediate_flags PTE_WRITABLE else intermediate_flags in
      let intermediate_flags := if has pte_flags PTE_USER
                                then Z.lor intermediate_flags PTE_USER else intermediate_flags in
      Ok (next_table_virt,
          set_mem s (wr m current_table index (Z.lor next_table_phys intermediate_flags))).

Definition vmm_map_page (pml4_phys virt_addr phys_addr flags : Z) s : outcome (bool * vmm F) :=
  let root := phys_to_virt pml4_phys in
  if negb (is_canonical virt_addr) then Ok (false, s)
  else if negb (virt_addr mod PMM_PAGE_SIZE =? 0) || negb (phys_addr mod PMM_PAGE_SIZE =? 0)
  then Ok (false, s)
  else
    let arch_flags := flags_to_pte flags in
    let* (pdpt, s) := get_next_level s root (pml4_index virt_addr) true arch_flags in
    if pdpt =? 0 then Ok (false, s)
    else
    let* (pd, s) := get_next_level s pdpt (pdpt_index virt_addr) true arch_flags in
    if pd =? 0 then Ok (false, s)
    else
    let* (pt, s) := get_next_level s pd (pd_index virt_addr) true arch_flags in
    if pt =? 0 then Ok (false, s)
    else
    let pt_idx := pt_index virt_addr in
    if has (rd (vm_mem s) pt pt_idx) PTE_PRESENT then Ok (false, s)
    else
    let s := set_mem s (wr (vm_mem s) pt pt_idx (Z.lor (Z.lor phys_addr arch_flags) PTE_PRESENT)) in
    let s := if pml4_phys =? vmm_get_current_pml4 s then invlpg s virt_addr else s in
    Ok (true, s).

Definition vmm_unmap_page (pml4_phys virt_addr : Z) s : outcome (bool * vmm F) :=
  let root := phys_to_virt pml4_phys in
  if negb (is_canonical virt_addr) then Ok (false, s)
  else if negb (virt_addr mod PMM_PAGE_SIZE =? 0) then Ok (false, s)
  else
    let* (pdpt, s) := get_next_level s root (pml4_index virt_addr) false 0 in
    if pdpt =? 0 then Ok (false, s)
    else
    let* (pd, s) := get_next_level s pdpt (pdpt_index virt_addr) false 0 in
    if pd =? 0 then Ok (false, s)
    else
    let* (pt, s) := get_next_level s pd (pd_index virt_addr) false 0 in
    if pt =? 0 then Ok (false, s)
    else
    let pt_idx := pt_index virt_addr in
    if negb (has (rd (vm_mem s) pt pt_idx) PTE_PRESENT) then Ok (false, s)
    else
    let s := set_mem s (wr (vm_mem s) pt pt_idx 0) in
    let s := if pml4_phys =? vmm_get_current_pml4 s then invlpg s virt_addr else s in
    Ok (true, s).

(** The result and, when it is true, the value stored through [out_phys]. *)
Definition vmm_get_phys (pml4_phys virt_addr : Z) s : option Z :=
  let m := vm_mem s in
  let root := phys_to_virt pml4_phys in
  if negb (is_canonical virt_addr) then None
  else
    let pml4e := rd m root (pml4_index virt_addr) in
    if negb (has pml4e PTE_PRESENT) then None
    else
    let pdpt := phys_to_virt (Z.land pml4e PTE_FRAME_MASK) in
    let pdpte := rd m pdpt (pdpt_index virt_addr) in
    if negb (has pdpte PTE_PRESENT) then None
    else if has pdpte PDE_PS then None
    else
    let pd := phys_to_virt (Z.land pdpte PTE_FRAME_MASK) in
    let pde := rd m pd (pd_index virt_addr) in
    if negb (has pde PTE_PRESENT) then None
    else if has pde PDE_PS then
      Some (Z.land pde PTE_FRAME_MASK +64 Z.land virt_addr 0x1FFFFF)
    else
    let pt := phys_to_virt (Z.land pde PTE_FRAME_MASK) in
    let pte := rd m pt (pt_index virt_addr) in
    if negb (has pte PTE_PRESENT) then None
    else Some (Z.land pte PTE_FRAME_MASK +64 Z.land virt_addr 0xFFF).

(** The result and the new [as->pml4_phys] when it is true. *)
Definition vmm_create_address_space s : outcome (option Z * vmm F) :=
  let* (pml4_phys, f) := fs_alloc (vm_frames s) in
  let s := set_frames s f in
  if pml4_phys =? 0 then Ok (None, s)
  else
    let new_pml4 := phys_to_virt pml4_phys in
    let kernel_pml4 := phys_to_virt (vmm_get_current_pml4 s) in
    let m := zero_words (vm_mem s) new_pml4 0 256 in
    let m := copy_words m new_pml4 kernel_pml4 256 256 in
    Ok (Some pml4_phys, set_mem s m).

(** The loops over the entries of a table visit [index], ..., [index + n - 1]. *)
Section Entries.
Variable visit : Z -> vmm F -> outcome (vmm F).

Fixpoint each_entry (n : nat) (index : Z) s : outcome (vmm F) :=
  match n with
  | O => Ok s
  | S k => let* s := visit index s in each_entry k (index + 1) s
  end.
End Entries.

Definition release s (phys : Z) : outcome (vmm F) :=
  let* f := fs_free phys (vm_frames s) in Ok (set_frames s f).

(** [level] counts down from 3; the code calls it with no smaller level than 1. *)
Fixpoint free_page_table (level : nat) (table_phys : Z) s : outcome (vmm F) :=
  match level with
  | O => Stop NoFuel
  | 1%nat => release s table_phys
  | S below =>
    let table := phys_to_virt table_phys in
    let* s := each_entry (fun i s =>
      let e := rd (vm_mem s) table i in
      if has e PTE_PRESENT then
        if negb (has e PDE_PS) then free_page_table below (Z.land e PTE_FRAME_MASK) s else Ok s
      else Ok s) 512 0 s in
    release s table_phys
  end.

(** [as] is passed as its field; the new value of the field is [0] in every case. *)
Definition vmm_destroy_address_space (pml4_phys : Z) s : outcome (vmm F) :=
  if pml4_phys =? 0 then Ok s
  else
    let pml4 := phys_to_virt pml4_phys in
    let* s := each_entry (fun i s =>
      let e := rd (vm_mem s) pml4 i in
      if has e PTE_PRESENT then free_page_table 3 (Z.land e PTE_FRAME_MASK) s else Ok s) 256 0 s in
    release s pml4_phys.

Definition vmm_is_user_readable (pml4_phys va : Z) s : bool :=
  let m := vm_mem s in
  let root := phys_to_virt pml4_phys in
  if negb (is_canonical va) then false
  else
    let pml4e := rd m root (pml4_index va) in
    if negb (has pml4e PTE_PRESENT) || negb (has pml4e PTE_USER) then false
    else
    let pdpt := phys_to_virt (Z.land pml4e PTE_FRAME_MASK) in
    let pdpte := rd m pdpt (pdpt_index va) in
    if negb (has pdpte PTE_PRESENT) || negb (has pdpte PTE_USER) then false
    else if has pdpte PDE_PS then true
    else
    let pd := phys_to_virt (Z.land pdpte PTE_FRAME_MASK) in
    let pde := rd m pd (pd_index va) in
    if negb (has pde PTE_PRESENT) || negb (has pde PTE_USER) then false
    else if has pde PDE_PS then true
    else
    let pt := phys_to_virt (Z.land pde PTE_FRAME_MASK) in
    let pte := rd m pt (pt_index va) in
    if negb (has pte PTE_PRESENT) || negb (has pte PTE_USER) then false else true.

Definition vmm_is_user_writable (pml4_phys va : Z) s : bool :=
  let m := vm_mem s in
  let root := phys_to_virt pml4_phys in
  if negb (is_canonical va) then false
  else
    let pml4e := rd m root (pml4_index va) in
    if negb (has pml4e PTE_PRESENT) || negb (has pml4e PTE_USER) || negb (has pml4e PTE_WRITABLE) then false
    else
    let pdpt := phys_to_virt (Z.land pml4e PTE_FRAME_MASK) in
    let pdpte := rd m pdpt (pdpt_index va) in
    if negb (has pdpte PTE_PRESENT) || negb (has pdpte PTE_USER) || negb (has pdpte PTE_WRITABLE) then false
    else if has pdpte PDE_PS then true
    else
    let pd := phys_to_virt (Z.land pdpte PTE_FRAME_MASK) in
    let pde := rd m pd (pd_index va) in
    if negb (has pde PTE_PRESENT) || negb (has pde PTE_USER) || negb (has pde PTE_WRITABLE) then false
    else if has pde PDE_PS then true
    else
    let pt := phys_to_virt (Z.land pde PTE_FRAME_MASK) in
    let pte := rd m pt (pt_index va) in
    if negb (has pte PTE_PRESENT) || negb (has pte PTE_USER) || negb (has pte PTE_WRITABLE) then false
    else true.

(** [for (va = page_start; va < end; va += PMM_PAGE_SIZE)] with its test. *)
Fixpoint range_loop (ok : Z -> bool) (fuel : nat) (va end_ : Z) : outcome bool :=
  if va <? end_ then
    match fuel with
    | O => Stop NoFuel
    | S k => if negb (ok va) then Ok false else range_loop ok k (va +64 PMM_PAGE_SIZE) end_
    end
  else Ok true.

(** The two range checks differ in the test of a page only; [pml4_phys] is the
    root of the address space of the current thread's process.  The loop makes at
    most one step for each page below [end]. *)
Definition user_range_check (ok : Z -> bool) (addr len : Z) : outcome bool :=
  if len =? 0 then Ok true
  else
    let start := addr in
    let end_ := start +64 len in
    if end_ <? start then Ok false
    else if 0x0000800000000000 <? end_ then Ok false
    else
      let page_start := Z.land start (u64 (Z.lnot 0xFFF)) in
      range_loop ok (Z.to_nat (end_ / PMM_PAGE_SIZE + 1)) page_start end_.

Definition user_range_readable (pml4_phys addr len : Z) s : outcome bool :=
  user_range_check (fun va => vmm_is_user_readable pml4_phys va s) addr len.

Definition user_range_writable (pml4_phys addr len : Z) s : outcome bool :=
  user_range_check (fun va => vmm_is_user_writable pml4_phys va s) addr len.

End Operations.

(** ** Specification *)

(** Word [i] of the table in frame [t]. *)
Definition tbl (m : memory) (t i : Z) : Z := rd m (phys_to_virt t) i.

Definition frame (e : Z) : Z := Z.land e PTE_FRAME_MASK.

(** The index that selects the entry at level [l] (4 is the PML4). *)
Definition idx (l : nat) (va : Z) : Z :=
  match l with
  | 4%nat => pml4_index va
  | 3%nat => pdpt_index va
  | 2%nat => pd_index va
  | _ => pt_index va
  end.

(** The translation of the processor from a table of level [l]: the level and the
    value of the entry that maps [va], a page-table entry or a large page. *)
Fixpoint walk (l : nat) (m : memory) (t va : Z) : option (nat * Z) :=
  match l with
  | O => None
  | S k =>
    let e := tbl m t (idx l va) in
    if has e PTE_PRESENT then
      match k with
      | O => Some (l, e)
      | _ => if has e PDE_PS then Some (l, e) else walk k m (frame e) va
      end
    else None
  end.

(** The processor's permission check for an access from user mode: every entry on
    the way to the page has all the bits of [need]. *)
Fixpoint permitted (need : list Z) (l : nat) (m : memory) (t va : Z) : bool :=
  match l with
  | O => false
  | S k =>
    let e := tbl m t (idx l va) in
    has e PTE_PRESENT && forallb (has e) need &&
    match k with
    | O => true
    | _ => if has e PDE_PS && (l <? 4)%nat then true else permitted need k m (frame e) va
    end
  end.

(** The bits that a permission check may ask for. *)
Definition right (x : Z) : Prop := x = PTE_USER \/ x = PTE_WRITABLE.

(** The permissions of a translation are those of the entry that maps the page. *)
Definition leaf_rights (need : list Z) (w : option (nat * Z)) : bool :=
  match w with Some (_, e) => forallb (has e) need | None => false end.

(** Entry [e] points to the table in frame [n]. *)
Definition links (e n : Z) : Prop :=
  has e PTE_PRESENT = true /\ has e PDE_PS = false /\ frame e = n.

(** Frames the higher-half mapping of the boot code reaches. *)
Definition frame_ok (t : Z) : Prop := t mod 4096 = 0 /\ 0 <= t < 2 ^ 30.

Section Invariant.
Context {F : Type} `{FrameSource F}.

(** The tables of the address space with root [root], by level.  They lie in frames in
    use: held from the allocator, or reserved as the tables of the boot code are; the
    tables of the user half are held.  No page is less accessible than its own entry
    says, because an entry above it lacks a permission. *)
Record pt_inv (T : gmap Z nat) (root : Z) (s : vmm F) : Prop := {
  inv_root : T !! root = Some 4%nat;
  inv_level t l : T !! t = Some l -> (1 <= l <= 4)%nat;
  inv_top t : T !! t = Some 4%nat -> t = root;
  inv_used t l : T !! t = Some l -> fs_used (vm_frames s) t;
  inv_held t l i n : T !! t = Some (S l) -> (1 <= l)%nat -> 0 <= i < 512 -> links (tbl (vm_mem s) t i) n ->
    (t = root /\ i < 256) \/ (t <> root /\ fs_held (vm_frames s) t) -> fs_held (vm_frames s) n;
  inv_no_ps i : 0 <= i < 512 ->
    has (tbl (vm_mem s) root i) PTE_PRESENT = true -> has (tbl (vm_mem s) root i) PDE_PS = false;
  inv_child t l i n : T !! t = Some (S l) -> (1 <= l)%nat -> 0 <= i < 512 ->
    links (tbl (vm_mem s) t i) n -> T !! n = Some l;
  inv_parent t t' l l' i i' n :
    T !! t = Some l -> T !! t' = Some l' -> (2 <= l)%nat -> (2 <= l')%nat ->
    0 <= i < 512 -> 0 <= i' < 512 ->
    links (tbl (vm_mem s) t i) n -> links (tbl (vm_mem s) t' i') n -> t = t' /\ i = i';
  inv_rights need va : Forall right need ->
    permitted need 4 (vm_mem s) root va = leaf_rights need (walk 4 (vm_mem s) root va);
  inv_frames : fs_ok (vm_frames s);
  inv_limit : fs_limit (vm_frames s) <= 2 ^ 30
}.
End Invariant.

(** A table without present entries. *)
Definition empty_table (m : memory) (n : Z) : Prop := forall i, 0 <= i < 512 -> tbl m n i = 0.

(** A change of an entry at level [l] that no translation can see: the entry
    keeps pointing to the same table and its permissions, or an absent one now points
    to a table without entries. *)
Definition gains (e e' : Z) : Prop := forall x, right x -> has e x = true -> has e' x = true.

Definition benign (m' : memory) (l : nat) (e e' : Z) : Prop :=
  e' = e \/
  ((2 <= l)%nat /\ gains e e' /\ exists n, links e n /\ links e' n) \/
  ((2 <= l)%nat /\ has e PTE_PRESENT = false /\ exists n, links e' n /\ empty_table m' n).

Definition benign_on (T : gmap Z nat) (m m' : memory) : Prop :=
  forall t l i, T !! t = Some l -> 0 <= i < 512 -> benign m' l (tbl m t i) (tbl m' t i).

(** ** Entries *)
Lemma has_lor a b k : has (Z.lor a b) k = has a k || has b k.
Proof.
  unfold has. rewrite Z.land_lor_distr_l.
  destruct (Z.eqb_spec (Z.land a k) 0) as [->|Ha]; [now rewrite Z.lor_0_l|].
  destruct (Z.eqb_spec (Z.lor (Z.land a k) (Z.land b k)) 0) as [E|]; [|reflexivity].
  apply Z.lor_eq_0_iff in E as [E _]. contradiction.
Qed.

Lemma frame_lor a b : frame (Z.lor a b) = Z.lor (frame a) (frame b).
Proof. unfold frame. apply Z.land_lor_distr_l. Qed.

Lemma frame_div e : frame e = e / 4096 mod 2 ^ 40 * 4096.
Proof.
  unfold frame. change PTE_FRAME_MASK with (Z.shiftl (Z.ones 40) 12).
  change 4096 with (2 ^ 12) at 2. rewrite <- Z.shiftl_mul_pow2 by lia.
  change 4096 with (2 ^ 12). rewrite <- Z.shiftr_div_pow2, <- Z.land_ones by lia.
  apply Z.bits_inj'. intros n Hn. rewrite Z.land_spec, !Z.shiftl_spec by lia.
  destruct (Z.ltb_spec n 12).
  - rewrite !(Z.testbit_neg_r _ (n - 12)) by lia. apply andb_false_r.
  - rewrite Z.land_spec, Z.shiftr_spec by lia. do 2 f_equal. lia.
Qed.

Lemma frame_aligned e : frame e mod 4096 = 0.
Proof. rewrite frame_div. apply Z.mod_mul. lia. Qed.

Lemma frame_id t : t mod 4096 = 0 -> 0 <= t < 2 ^ 52 -> frame t = t.
Proof. intros Ha Ht. rewrite frame_div. dlia. Qed.

Lemma has_aligned t k : t mod 4096 = 0 -> 0 <= k < 4096 -> has t k = false.
Proof.
  intros Ht Hk. unfold has. apply negb_false_iff, Z.eqb_eq.
  assert (Ek : k = Z.land k (Z.ones 12)) by (rewrite Z.land_ones, Z.mod_small; lia).
  rewrite Ek, (Z.land_comm k), Z.land_assoc, Z.land_ones by lia.
  change (2 ^ 12) with 4096. rewrite Ht. apply Z.land_0_l.
Qed.

Lemma links_lor_W e n : links e n -> links (Z.lor e PTE_WRITABLE) n.
Proof.
  intros (A & B & C). unfold links. rewrite !has_lor, A, B, frame_lor, C.
  change (frame PTE_WRITABLE) with 0. now rewrite Z.lor_0_r.
Qed.

Lemma links_lor_U e n : links e n -> links (Z.lor e PTE_USER) n.
Proof.
  intros (A & B & C). unfold links. rewrite !has_lor, A, B, frame_lor, C.
  change (frame PTE_USER) with 0. now rewrite Z.lor_0_r.
Qed.

(** A new entry for a table: the frame with flags below the page size. *)
Lemma links_new n fl :
  n mod 4096 = 0 -> 0 <= n < 2 ^ 52 -> has fl PTE_PRESENT = true -> has fl PDE_PS = false -> frame fl = 0 ->
  links (Z.lor n fl) n.
Proof.
  intros Ha Hn Hp Hps Hf. unfold links.
  rewrite !has_lor, Hp, Hps, frame_lor, Hf, frame_id, Z.lor_0_r, orb_true_r, orb_false_r by assumption.
  rewrite has_aligned by (assumption || (unfold PDE_PS; lia)). auto.
Qed.

Lemma links_unique e n n' : links e n -> links e n' -> n = n'.
Proof. intros (_ & _ & <-) (_ & _ & <-). reflexivity. Qed.

Lemma links_present e n : links e n -> has e PTE_PRESENT = true.
Proof. now intros (? & _). Qed.

(** ** Words of tables *)
Lemma word_addr t i : frame_ok t -> 0 <= i < 512 -> phys_to_virt t +64 (8 * i) = t + HIGHER_HALF_BASE + 8 * i.
Proof.
  intros [_ Ht] Hi. unfold phys_to_virt, HIGHER_HALF_BASE.
  rewrite (u64_id (t + _)), u64_id by lia. reflexivity.
Qed.

Lemma phys_to_virt_neq0 t : frame_ok t -> phys_to_virt t <> 0.
Proof. intros [_ Ht]. unfold phys_to_virt, HIGHER_HALF_BASE. rewrite u64_id; lia. Qed.

Lemma word_inj t t' i i' :
  frame_ok t -> frame_ok t' -> 0 <= i < 512 -> 0 <= i' < 512 ->
  phys_to_virt t +64 (8 * i) = phys_to_virt t' +64 (8 * i') -> t = t' /\ i = i'.
Proof.
  intros Ht Ht' Hi Hi'. rewrite !word_addr by assumption. destruct Ht as [Ha _], Ht' as [Ha' _].
  intros E. dlia.
Qed.

Lemma tbl_wr m t t' i i' v :
  frame_ok t -> frame_ok t' -> 0 <= i < 512 -> 0 <= i' < 512 ->
  tbl (wr m (phys_to_virt t) i v) t' i' = if (t' =? t) && (i' =? i) then v else tbl m t' i'.
Proof.
  intros Ht Ht' Hi Hi'. unfold tbl, rd, wr.
  destruct (decide (phys_to_virt t +64 (8 * i) = phys_to_virt t' +64 (8 * i'))) as [E|Hn].
  - destruct (word_inj _ _ _ _ Ht Ht' Hi Hi' E) as [-> ->]. rewrite lookup_insert_eq, !Z.eqb_refl. reflexivity.
  - rewrite lookup_insert_ne by exact Hn.
    destruct (Z.eqb_spec t' t) as [->|]; [|reflexivity]. destruct (Z.eqb_spec i' i) as [->|]; [done|reflexivity].
Qed.

Lemma tbl_zero m t t' from n i' :
  frame_ok t -> frame_ok t' -> 0 <= from -> from + Z.of_nat n <= 512 -> 0 <= i' < 512 ->
  tbl (zero_words m (phys_to_virt t) from n) t' i' =
  if (t' =? t) && (from <=? i') && (i' <? from + Z.of_nat n) then 0 else tbl m t' i'.
Proof.
  intros Ht Ht'. revert m from; induction n as [|n IH]; intros m from Hf Hn Hi; cbn [zero_words].
  - destruct (Z.leb_spec from i'), (Z.ltb_spec i' (from + Z.of_nat 0)); try lia;
      rewrite ?andb_false_r; reflexivity || (rewrite andb_false_r; reflexivity).
  - rewrite IH by lia. rewrite tbl_wr by (assumption || lia).
    destruct (Z.eqb_spec t' t); cbn [andb]; [|reflexivity].
    destruct (Z.leb_spec (from + 1) i'), (Z.leb_spec from i'), (Z.ltb_spec i' (from + 1 + Z.of_nat n)),
      (Z.ltb_spec i' (from + Z.of_nat (S n))), (Z.eqb_spec i' from); cbn; reflexivity || lia.
Qed.

Lemma tbl_copy m t u t' from n i' :
  frame_ok t -> frame_ok u -> frame_ok t' -> t <> u -> 0 <= from -> from + Z.of_nat n <= 512 -> 0 <= i' < 512 ->
  tbl (copy_words m (phys_to_virt t) (phys_to_virt u) from n) t' i' =
  if (t' =? t) && (from <=? i') && (i' <? from + Z.of_nat n) then tbl m u i' else tbl m t' i'.
Proof.
  intros Ht Hu Ht' Htu. revert m from; induction n as [|n IH]; intros m from Hf Hn Hi; cbn [copy_words].
  - destruct (Z.leb_spec from i'), (Z.ltb_spec i' (from + Z.of_nat 0)); try lia;
      rewrite ?andb_false_r; reflexivity || (rewrite andb_false_r; reflexivity).
  - rewrite IH by lia. rewrite !tbl_wr by (assumption || lia).
    destruct (Z.eqb_spec u t); [congruence|]. cbn [andb].
    destruct (Z.eqb_spec t' t); cbn [andb]; [|reflexivity].
    destruct (Z.leb_spec (from + 1) i'), (Z.leb_spec from i'), (Z.ltb_spec i' (from + 1 + Z.of_nat n)),
      (Z.ltb_spec i' (from + Z.of_nat (S n))), (Z.eqb_spec i' from); cbn; subst; reflexivity || lia.
Qed.

Lemma idx_range l va : 0 <= idx l va < 512.
Proof.
  assert (Hm : forall x, 0 <= Z.land x 511 < 512)
    by (intros x; change 511 with (Z.ones 9); rewrite Z.land_ones by lia; apply Z.mod_pos_bound; lia).
  unfold idx, pml4_index, pdpt_index, pd_index, pt_index. destruct l as [|[|[|[|[|l]]]]]; apply Hm.
Qed.

(** ** Translations *)
Lemma walk_link k m t va n :
  links (tbl m t (idx (S (S k)) va)) n -> walk (S (S k)) m t va = walk (S k) m n va.
Proof. intros (A & B & C). cbn [walk]. rewrite A, B, C. reflexivity. Qed.

Lemma walk_empty l m n va : empty_table m n -> walk l m n va = None.
Proof. intros He. destruct l; [reflexivity|]. cbn [walk]. rewrite He by apply idx_range. reflexivity. Qed.

Lemma links_cases e : has e PTE_PRESENT = true -> has e PDE_PS = true \/ links e (frame e).
Proof. intros Hp. unfold links. destruct (has e PDE_PS); auto. Qed.

Section Trees.
Context {F : Type} `{FrameSourceLaws F}.
Implicit Types (s : vmm F) (T : gmap Z nat).

Lemma inv_frame_ok T root s t l : pt_inv T root s -> T !! t = Some l -> frame_ok t.
Proof.
  intros I Ht. pose proof (inv_used _ _ _ I _ _ Ht) as Hh.
  destruct (fs_used_range _ _ (inv_frames _ _ _ I) Hh) as [Ha Hr].
  pose proof (inv_limit _ _ _ I). split; [exact Ha|lia].
Qed.

(** Benign changes keep every translation. *)
Lemma walk_benign T root s m' l t va :
  pt_inv T root s -> benign_on T (vm_mem s) m' -> T !! t = Some l ->
  walk l m' t va = walk l (vm_mem s) t va.
Proof.
  intros I HB. revert t; induction l as [|k IH]; intros t Ht; [reflexivity|].
  pose proof (idx_range (S k) va) as Hi. destruct (HB t _ _ Ht Hi) as [E|[(Hk & _ & n & L & L')|(Hk & Hp & n & L' & He)]].
  - cbn [walk]. rewrite E. destruct (has _ PTE_PRESENT) eqn:Ep; [|reflexivity].
    destruct k as [|k]; [reflexivity|]. destruct (links_cases _ Ep) as [->|L]; [reflexivity|].
    destruct (has _ PDE_PS) eqn:Eps; [reflexivity|].
    apply IH. apply (inv_child _ _ _ I t _ _ _ Ht ltac:(lia) Hi L).
  - destruct k as [|k]; [lia|]. rewrite (walk_link _ _ _ _ _ L), (walk_link _ _ _ _ _ L').
    apply IH. apply (inv_child _ _ _ I t _ _ _ Ht ltac:(lia) Hi L).
  - destruct k as [|k]; [lia|]. rewrite (walk_link _ _ _ _ _ L'), (walk_empty _ _ _ _ He).
    cbn [walk]. rewrite Hp. reflexivity.
Qed.

Lemma benign_links m' l e e' n : benign m' l e e' -> links e n -> links e' n.
Proof.
  intros [->|[(_ & _ & n' & L & L')|(_ & Hp & _)]] Hl; [exact Hl| |].
  - now rewrite (links_unique _ _ _ Hl L).
  - destruct Hl as [Hl _]. congruence.
Qed.

(** Permissions along a translation. *)
Lemma forallb_gains need e e' : Forall right need -> gains e e' -> forallb (has e) need = true -> forallb (has e') need = true.
Proof. intros Hn Hg. rewrite !forallb_forall. intros Hx x Hin. apply Hg; [exact (proj1 (List.Forall_forall _ _) Hn x Hin)|auto]. Qed.

Lemma permitted_walk need l m t va :
  ((l <= 3)%nat \/ (has (tbl m t (idx l va)) PTE_PRESENT = true -> has (tbl m t (idx l va)) PDE_PS = false)) ->
  (l <= 4)%nat -> permitted need l m t va = true -> leaf_rights need (walk l m t va) = true.
Proof.
  revert t; induction l as [|k IH]; intros t Hps Hl Hp; [discriminate|]. cbn [permitted walk] in *.
  apply andb_true_iff in Hp as [[Hpr Hn]%andb_true_iff Hp]. rewrite Hpr in *. destruct k as [|k]; [exact Hn|].
  destruct (has _ PDE_PS) eqn:Eps; [exact Hn|]. cbn [andb] in Hp. apply IH; [left; lia|lia|exact Hp].
Qed.

Lemma permitted_gain need T root s m' l t va :
  pt_inv T root s -> benign_on T (vm_mem s) m' -> Forall right need -> T !! t = Some l ->
  permitted need l (vm_mem s) t va = true -> permitted need l m' t va = true.
Proof.
  intros I HB Hneed. revert t; induction l as [|k IH]; intros t Ht Hp; [discriminate|]. pose proof (idx_range (S k) va) as Hi.
  cbn [permitted] in *. apply andb_true_iff in Hp as [[Hpr Hn]%andb_true_iff Hp].
  destruct (HB t _ _ Ht Hi) as [E|[(Hk & Hg & n & L & L')|(Hk & Hx & _)]]; [| |congruence].
  - rewrite E, Hpr, Hn. cbn [andb]. destruct k as [|k]; [reflexivity|]. destruct (has _ PDE_PS) eqn:Eps; cbn [andb] in *.
    + destruct (S (S k) <? 4)%nat eqn:El; [reflexivity|]. apply Nat.ltb_ge in El. assert (S (S k) = 4%nat) as E4 by (pose proof (inv_level _ _ _ I _ _ Ht); lia).
      rewrite E4 in *. rewrite (inv_top _ _ _ I _ Ht) in *. rewrite (inv_no_ps _ _ _ I _ Hi Hpr) in Eps. discriminate.
    + apply IH; [|exact Hp]. apply (inv_child _ _ _ I t _ _ _ Ht ltac:(lia) Hi). repeat split; assumption.
  - destruct L' as (Lp' & Ls' & Lf'). rewrite Lp', (forallb_gains _ _ _ Hneed Hg Hn), Ls', Lf'. destruct k as [|k]; [lia|]. cbn [andb].
    pose proof (inv_child _ _ _ I t _ _ _ Ht ltac:(lia) Hi L) as Hc. destruct L as (_ & Ls & Lf). rewrite Ls, Lf in Hp. exact (IH n Hc Hp).
Qed.

Lemma rights_benign T root s m' need va :
  pt_inv T root s -> benign_on T (vm_mem s) m' ->
  (has (tbl m' root (idx 4 va)) PTE_PRESENT = true -> has (tbl m' root (idx 4 va)) PDE_PS = false) ->
  Forall right need -> permitted need 4 m' root va = leaf_rights need (walk 4 m' root va).
Proof.
  intros I HB Hps Hneed. pose proof (walk_benign T root s m' 4 root va I HB (inv_root _ _ _ I)) as W.
  pose proof (inv_rights _ _ _ I need va Hneed) as R. destruct (permitted need 4 m' root va) eqn:Ep.
  - symmetry. apply permitted_walk; auto.
  - rewrite W, <- R. destruct (permitted need 4 (vm_mem s) root va) eqn:Eq; [|reflexivity].
    rewrite (permitted_gain need T root s m' 4 root va I HB Hneed (inv_root _ _ _ I) Eq) in Ep. discriminate.
Qed.

(** Replacing an entry by one that points to the same table. *)
Lemma relabel T root s t l i e n :
  pt_inv T root s -> T !! t = Some (S l) -> (1 <= l)%nat -> 0 <= i < 512 ->
  links (tbl (vm_mem s) t i) n -> links e n -> gains (tbl (vm_mem s) t i) e ->
  let m' := wr (vm_mem s) (phys_to_virt t) i e in
  pt_inv T root (set_mem s m') /\ benign_on T (vm_mem s) m' /\ tbl m' t i = e.
Proof.
  intros I Ht Hl Hi L L' Hg m'. pose proof (inv_frame_ok _ _ _ _ _ I Ht) as Hf.
  assert (Htbl : forall t' l' i', T !! t' = Some l' -> 0 <= i' < 512 ->
            tbl m' t' i' = if (t' =? t) && (i' =? i) then e else tbl (vm_mem s) t' i').
  { intros t' l' i' Ht' Hi'. apply tbl_wr; auto. eapply inv_frame_ok; eauto. }
  assert (Hback : forall t' l' i' x, T !! t' = Some l' -> 0 <= i' < 512 ->
            links (tbl m' t' i') x -> links (tbl (vm_mem s) t' i') x).
  { intros t' l' i' x Ht' Hi' Hx. rewrite (Htbl _ _ _ Ht' Hi') in Hx.
    destruct (Z.eqb_spec t' t) as [->|], (Z.eqb_spec i' i) as [->|]; cbn in Hx; auto.
    now rewrite (links_unique _ _ _ Hx L'). }
  assert (HB : benign_on T (vm_mem s) m').
  { intros t' l' i' Ht' Hi'. rewrite (Htbl _ _ _ Ht' Hi').
    destruct (Z.eqb_spec t' t) as [->|]; [|now left]. destruct (Z.eqb_spec i' i) as [->|]; [|now left].
    right; left. rewrite Ht in Ht'. injection Ht' as <-. split; [lia|eauto]. }
  assert (Hps : forall i', 0 <= i' < 512 -> has (tbl m' root i') PTE_PRESENT = true -> has (tbl m' root i') PDE_PS = false).
  { intros i' Hi' Hp. rewrite (Htbl root 4%nat _ (inv_root _ _ _ I) Hi') in *.
    destruct ((root =? t) && (i' =? i)); [apply L'|now apply (inv_no_ps _ _ _ I)]. }
  split; [constructor; cbn [set_mem vm_mem vm_frames]; try apply I|split; [exact HB|]].
  - intros t' l' i' x Ht' Hl' Hi' Hx. eapply (inv_held _ _ _ I); eauto.
  - exact Hps.
  - intros t' l' i' x Ht' Hl' Hi' Hx. eapply (inv_child _ _ _ I); eauto.
  - intros t1 t2 l1 l2 i1 i2 x T1 T2 L1 L2 I1 I2 X1 X2. eapply (inv_parent _ _ _ I); eauto.
  - intros need va Hneed. apply (rights_benign T root s m' need va I HB); [apply Hps, idx_range|exact Hneed].
  - now rewrite (Htbl _ _ _ Ht Hi), !Z.eqb_refl.
Qed.

(** Hanging a fresh empty table into an absent entry. *)
Lemma hang T root s t l i e n f :
  pt_inv T root s -> T !! t = Some (S l) -> (1 <= l)%nat -> 0 <= i < 512 ->
  has (tbl (vm_mem s) t i) PTE_PRESENT = false -> frame_ok n -> links e n ->
  ~ fs_used (vm_frames s) n -> fs_ok f -> fs_limit f = fs_limit (vm_frames s) ->
  (forall q, (fs_held f q <-> q = n \/ fs_held (vm_frames s) q) /\ (fs_used f q <-> q = n \/ fs_used (vm_frames s) q)) ->
  let m' := wr (zero_words (vm_mem s) (phys_to_virt n) 0 512) (phys_to_virt t) i e in
  pt_inv (<[n := l]> T) root (set_mem (set_frames s f) m') /\ benign_on T (vm_mem s) m' /\
  tbl m' t i = e /\ empty_table m' n /\
  (forall t' i', frame_ok t' -> 0 <= i' < 512 -> t' <> n -> t' <> t \/ i' <> i ->
     tbl m' t' i' = tbl (vm_mem s) t' i').
Proof.
  intros I Ht Hl Hi Hp Hn Le Hfresh Hok Hlim Hheld m'.
  pose proof (inv_frame_ok _ _ _ _ _ I Ht) as Hf.
  assert (HnT : forall l', T !! n <> Some l') by (intros l' E; exact (Hfresh (inv_used _ _ _ I _ _ E))).
  assert (Htn : t <> n) by (intros ->; eapply HnT; eauto).
  assert (Htbl : forall t' i', frame_ok t' -> 0 <= i' < 512 ->
            tbl m' t' i' = if (t' =? t) && (i' =? i) then e else if t' =? n then 0 else tbl (vm_mem s) t' i').
  { intros t' i' Ht' Hi'. unfold m'. rewrite tbl_wr, tbl_zero by (assumption || lia).
    destruct ((t' =? t) && (i' =? i)); [reflexivity|].
    destruct (Z.leb_spec 0 i'), (Z.ltb_spec i' (0 + Z.of_nat 512)); try lia. now rewrite !andb_true_r. }
  assert (Hempty : empty_table m' n).
  { intros i' Hi'. rewrite Htbl by assumption. destruct (Z.eqb_spec n t); [congruence|]. cbn. now rewrite Z.eqb_refl. }
  assert (Hold : forall t' l' i', T !! t' = Some l' -> 0 <= i' < 512 ->
            tbl m' t' i' = if (t' =? t) && (i' =? i) then e else tbl (vm_mem s) t' i').
  { intros t' l' i' Ht' Hi'. rewrite Htbl by (assumption || eapply inv_frame_ok; eauto).
    destruct (Z.eqb_spec t' n) as [->|]; [now destruct (HnT _ Ht')|reflexivity]. }
  assert (Hlinks : forall t' l' i' x, <[n := l]> T !! t' = Some l' -> 0 <= i' < 512 -> links (tbl m' t' i') x ->
            T !! t' = Some l' /\ ((t' = t /\ i' = i /\ x = n) \/ links (tbl (vm_mem s) t' i') x)).
  { intros t' l' i' x Ht' Hi' Hx. destruct (decide (t' = n)) as [->|Hne].
    - rewrite Hempty in Hx by assumption. destruct Hx as [Hx _]. discriminate.
    - rewrite lookup_insert_ne in Ht' by done. split; [exact Ht'|].
      rewrite (Hold _ _ _ Ht' Hi') in Hx.
      destruct (Z.eqb_spec t' t) as [->|], (Z.eqb_spec i' i) as [->|]; cbn in Hx; auto.
      left. repeat split; auto. eapply links_unique; eauto. }
  assert (HB : benign_on T (vm_mem s) m').
  { intros t' l' i' Ht' Hi'. rewrite (Hold _ _ _ Ht' Hi').
    destruct (Z.eqb_spec t' t) as [->|]; [|now left]. destruct (Z.eqb_spec i' i) as [->|]; [|now left].
    right; right. rewrite Ht in Ht'. injection Ht' as <-. split; [lia|]. split; [exact Hp|]. eauto. }
  assert (Hps : forall i', 0 <= i' < 512 -> has (tbl m' root i') PTE_PRESENT = true -> has (tbl m' root i') PDE_PS = false).
  { intros i' Hi' Hp'. rewrite (Hold root 4%nat _ (inv_root _ _ _ I) Hi') in *.
    destruct ((root =? t) && (i' =? i)); [apply Le|now apply (inv_no_ps _ _ _ I)]. }
  split; [constructor; cbn [set_mem set_frames vm_mem vm_frames]|split; [exact HB|split; [|split]]].
  - rewrite lookup_insert_ne; [apply I|]. intros ->. eapply HnT, I.
  - intros t' l'. rewrite lookup_insert_Some. intros [[_ <-]|[_ Ht']]; [|eapply inv_level; eauto].
    pose proof (inv_level _ _ _ I _ _ Ht). lia.
  - intros t'. rewrite lookup_insert_Some. intros [[_ E]|[_ Ht']]; [|eapply inv_top; eauto].
    pose proof (inv_level _ _ _ I _ _ Ht). lia.
  - intros t' l'. rewrite lookup_insert_Some, (proj2 (Hheld t')). intros [[<- _]|[_ Ht']]; [now left|right; eapply inv_used; eauto].
  - intros t' l' i' x Ht' Hl' Hi' Hx Hup. apply Hheld. destruct (Hlinks _ _ _ _ Ht' Hi' Hx) as [Ht'' [(_ & _ & ->)|Hx']]; [now left|right].
    apply (inv_held _ _ _ I t' l' i' x Ht'' Hl' Hi' Hx'). destruct Hup as [Hup|[Hr Hh]]; [now left|right]. split; [exact Hr|].
    apply Hheld in Hh as [->|Hh]; [now destruct (HnT _ Ht'')|exact Hh].
  - exact Hps.
  - intros t' l' i' x Ht' Hl' Hi' Hx. destruct (Hlinks _ _ _ _ Ht' Hi' Hx) as [Ht'' [(-> & -> & ->)|Hx']].
    + rewrite Ht in Ht''. injection Ht'' as <-. apply lookup_insert_eq.
    + rewrite lookup_insert_ne; [eapply (inv_child _ _ _ I); eauto|].
      intros ->. eapply HnT, (inv_child _ _ _ I t'); eauto.
  - intros t1 t2 l1 l2 i1 i2 x T1 T2 L1 L2 I1 I2 X1 X2.
    destruct (Hlinks _ _ _ _ T1 I1 X1) as [T1' [(-> & -> & ->)|X1']], (Hlinks _ _ _ _ T2 I2 X2) as [T2' [(-> & -> & E2)|X2']]; auto.
    + exfalso. destruct l2 as [|l2]; [lia|]. apply (HnT l2). apply (inv_child _ _ _ I t2 l2 i2 n T2' ltac:(lia) I2 X2').
    + exfalso. subst. destruct l1 as [|l1]; [lia|]. apply (HnT l1). apply (inv_child _ _ _ I t1 l1 i1 n T1' ltac:(lia) I1 X1').
    + eapply (inv_parent _ _ _ I); eauto.
  - intros need va Hneed. apply (rights_benign T root s m' need va I HB); [apply Hps, idx_range|exact Hneed].
  - exact Hok.
  - rewrite Hlim. apply I.
  - now rewrite (Hold _ _ _ Ht Hi), !Z.eqb_refl.
  - exact Hempty.
  - intros t' i' Ht' Hi' Hn' Hne. rewrite Htbl by assumption.
    destruct (Z.eqb_spec t' n); [done|].
    destruct (Z.eqb_spec t' t), (Z.eqb_spec i' i); cbn [andb]; intuition.
Qed.

(** What a step down the tree guarantees.  [s'] has the same registers; the
    result is null exactly when the entry is a large page or an absent entry that
    was not filled in. *)
Definition same_cpu s s' : Prop := vm_cr3 s' = vm_cr3 s /\ vm_invlpg s' = vm_invlpg s.

Record stepped T root s s' (t i : Z) (l : nat) (fl r : Z) (T' : gmap Z nat) : Prop := {
  st_inv : pt_inv T' root s';
  st_sub : T ⊆ T';
  st_benign : benign_on T (vm_mem s) (vm_mem s');
  st_cpu : same_cpu s s';
  st_keeps : keeps (vm_frames s) (vm_frames s');
  st_writes t' i' : frame_ok t' -> 0 <= i' < 512 -> fs_used (vm_frames s) t' -> t' <> t \/ i' <> i ->
    tbl (vm_mem s') t' i' = tbl (vm_mem s) t' i';
  st_new x : has (tbl (vm_mem s) t i) PTE_PRESENT = false -> links (tbl (vm_mem s') t i) x ->
    ~ fs_used (vm_frames s) x;
  st_fresh x k : T' !! x = Some k -> ~ fs_used (vm_frames s) x -> empty_table (vm_mem s') x;
  st_tables x k : T' !! x = Some k -> T !! x = Some k \/ ~ fs_used (vm_frames s) x;
  st_cases :
    (r = 0 /\ s' = s /\ has (tbl (vm_mem s) t i) PTE_PRESENT = true /\ has (tbl (vm_mem s) t i) PDE_PS = true) \/
    (r = 0 /\ has (tbl (vm_mem s) t i) PTE_PRESENT = false /\
     fs_alloc (vm_frames s') = Ok (0, vm_frames s')) \/
    (exists n, r = phys_to_virt n /\ frame_ok n /\ links (tbl (vm_mem s') t i) n /\ T' !! n = Some l /\ gains fl (tbl (vm_mem s') t i))
}.

Lemma benign_refl T m : benign_on T m m.
Proof. intros t l i _ _. now left. Qed.

Lemma set_mem_id s : set_mem s (vm_mem s) = s.
Proof. now destruct s. Qed.

(** Adding a permission to a present entry, when [b] asks for it. *)
Definition widen (b : bool) s (t i x : Z) : vmm F :=
  if b then set_mem s (wr (vm_mem s) (phys_to_virt t) i (Z.lor (rd (vm_mem s) (phys_to_virt t) i) x)) else s.

Record widened T root s s' (t i : Z) : Prop := {
  wd_inv : pt_inv T root s';
  wd_links n : links (tbl (vm_mem s) t i) n -> links (tbl (vm_mem s') t i) n;
  wd_gains : gains (tbl (vm_mem s) t i) (tbl (vm_mem s') t i);
  wd_cpu : same_cpu s s';
  wd_frames : vm_frames s' = vm_frames s;
  wd_others t' i' : frame_ok t' -> 0 <= i' < 512 -> t' <> t \/ i' <> i -> tbl (vm_mem s') t' i' = tbl (vm_mem s) t' i'
}.

Lemma links_lor_right e n x : right x -> links e n -> links (Z.lor e x) n.
Proof. intros [->| ->]; [apply links_lor_U|apply links_lor_W]. Qed.

Lemma widen_spec T root s t l i n b x :
  right x -> pt_inv T root s -> T !! t = Some (S l) -> (1 <= l)%nat -> 0 <= i < 512 -> links (tbl (vm_mem s) t i) n ->
  widened T root s (widen b s t i x) t i /\ (b = true -> has (tbl (vm_mem (widen b s t i x)) t i) x = true).
Proof.
  intros Hx I Ht Hl Hi L. pose proof (inv_frame_ok _ _ _ _ _ I Ht) as Hf. unfold widen. destruct b.
  2:{ split; [|discriminate]. constructor; auto; [intros y _; auto|now unfold same_cpu]. }
  assert (Hg : gains (tbl (vm_mem s) t i) (Z.lor (tbl (vm_mem s) t i) x)) by (intros y _ Hy; now rewrite has_lor, Hy).
  destruct (relabel T root s t l i (Z.lor (tbl (vm_mem s) t i) x) n I Ht Hl Hi L (links_lor_right _ _ _ Hx L) Hg) as (A & _ & C).
  fold (tbl (vm_mem s) t i). cbn zeta in C. split.
  - constructor; cbn [set_mem vm_mem vm_frames]; [exact A|..|reflexivity|].
    + intros k Lk. rewrite C. now apply links_lor_right.
    + now rewrite C.
    + now unfold same_cpu.
    + intros t' i' Ht' Hi' Hne. rewrite tbl_wr by auto. destruct (Z.eqb_spec t' t), (Z.eqb_spec i' i); cbn; intuition.
  - intros _. cbn [set_mem vm_mem]. rewrite C, has_lor. replace (has x x) with true by (destruct Hx as [->| ->]; reflexivity). apply orb_true_r.
Qed.

Lemma widened_trans T root s s1 s2 t i : widened T root s s1 t i -> widened T root s1 s2 t i -> widened T root s s2 t i.
Proof.
  intros [A1 B1 C1 [D1 D1'] E1 G1] [A2 B2 C2 [D2 D2'] E2 G2]. constructor; auto; try (unfold same_cpu; split; congruence); try congruence.
  - intros x Hx Hh. apply C2; auto.
  - intros t' i' Ht' Hi' Hne. rewrite G2 by assumption. auto.
Qed.

Lemma widened_benign T root s s' t l i n :
  pt_inv T root s -> T !! t = Some (S l) -> (1 <= l)%nat -> 0 <= i < 512 -> links (tbl (vm_mem s) t i) n ->
  widened T root s s' t i -> benign_on T (vm_mem s) (vm_mem s').
Proof.
  intros I Ht Hl Hi L W t' l' i' Ht' Hi'. assert (Hf' : frame_ok t') by (eapply inv_frame_ok; eauto).
  destruct (decide (t' = t)) as [->|Hne]; [destruct (decide (i' = i)) as [->|Hne]|].
  - right; left. rewrite Ht in Ht'. injection Ht' as <-. split; [lia|]. split; [apply W|]. exists n. split; [exact L|]. now apply W.
  - left. eapply wd_others; eauto.
  - left. eapply wd_others; eauto.
Qed.

Lemma stepped_stay T root s t i l fl :
  pt_inv T root s ->
  (has (tbl (vm_mem s) t i) PTE_PRESENT = true /\ has (tbl (vm_mem s) t i) PDE_PS = true \/
   has (tbl (vm_mem s) t i) PTE_PRESENT = false /\ fs_alloc (vm_frames s) = Ok (0, vm_frames s)) ->
  stepped T root s s t i l fl 0 T.
Proof.
  intros I Hc. constructor; auto using benign_refl, keeps_refl.
  - now unfold same_cpu.
  - intros x Hp [Hx _]. congruence.
  - intros x k Hx Hn. destruct Hn. eapply inv_used; eauto.
  - intuition.
Qed.

(** A present entry gets the permissions of [fl]. *)
Lemma next_present T root s t l i fl n :
  pt_inv T root s -> T !! t = Some (S l) -> (1 <= l)%nat -> 0 <= i < 512 -> links (tbl (vm_mem s) t i) n ->
  exists s', get_next_level s (phys_to_virt t) i true fl = Ok (phys_to_virt n, s') /\ stepped T root s s' t i l fl (phys_to_virt n) T.
Proof.
  intros I Ht Hl Hi L. pose proof L as (Ep & Eps & <-). set (e := tbl (vm_mem s) t i) in *.
  set (s1 := widen (has fl PTE_WRITABLE && negb (has e PTE_WRITABLE)) s t i PTE_WRITABLE).
  set (s2 := widen (has fl PTE_USER && negb (has e PTE_USER)) s1 t i PTE_USER).
  assert (HW : right PTE_WRITABLE) by now right. assert (HU : right PTE_USER) by now left.
  destruct (widen_spec T root s t l i _ (has fl PTE_WRITABLE && negb (has e PTE_WRITABLE)) PTE_WRITABLE HW I Ht Hl Hi L) as [W1 B1]. fold s1 in W1, B1.
  destruct (widen_spec T root s1 t l i _ (has fl PTE_USER && negb (has e PTE_USER)) PTE_USER HU (wd_inv _ _ _ _ _ _ W1) Ht Hl Hi (wd_links _ _ _ _ _ _ W1 _ L)) as [W2 B2].
  fold s2 in W2, B2. pose proof (widened_trans _ _ _ _ _ _ _ W1 W2) as W. exists s2.
  split; [unfold get_next_level; change (rd (vm_mem s) (phys_to_virt t) i) with e; rewrite Ep, Eps; reflexivity|].
  assert (Hn : T !! frame e = Some l) by (eapply (inv_child _ _ _ I); eauto).
  constructor; try apply W; auto.
  - eapply widened_benign; eauto.
  - rewrite (wd_frames _ _ _ _ _ _ W). apply keeps_refl.
  - intros t' i' Ht' Hi' _. now apply W.
  - intros x Hx. unfold e in Ep. congruence.
  - intros x k Hx Hu. destruct Hu. eapply inv_used; eauto.
  - right; right. exists (frame e). split; [reflexivity|]. split; [eapply inv_frame_ok; eauto|]. split; [now apply W|]. split; [exact Hn|].
    intros x [->| ->] Hx; rewrite Hx in *; cbn [andb] in *.
    + destruct (has e PTE_USER) eqn:Ex; [now apply W; [left|]|now apply B2].
    + destruct (has e PTE_WRITABLE) eqn:Ex; [now apply W; [right|]|]. apply W2; [now right|]. now apply B1.
Qed.

Lemma next_spec T root s t l i fl :
  pt_inv T root s -> T !! t = Some (S l) -> (1 <= l)%nat -> 0 <= i < 512 ->
  exists r s' T', get_next_level s (phys_to_virt t) i true fl = Ok (r, s') /\ stepped T root s s' t i l fl r T'.
Proof.
  intros I Ht Hl Hi. destruct (has (tbl (vm_mem s) t i) PTE_PRESENT) eqn:Ep.
  { destruct (links_cases _ Ep) as [Eps|L].
    - exists 0, s, T. unfold get_next_level. change (rd (vm_mem s) (phys_to_virt t) i) with (tbl (vm_mem s) t i).
      rewrite Ep, Eps. split; [reflexivity|]. apply stepped_stay; auto.
    - destruct (next_present T root s t l i fl _ I Ht Hl Hi L) as (s' & E & St). eauto. }
  unfold get_next_level. change (rd (vm_mem s) (phys_to_virt t) i) with (tbl (vm_mem s) t i). rewrite Ep. cbn [negb].
  destruct (fs_alloc_law _ (inv_frames _ _ _ I)) as (p & f & E & Hok & Hlim & Hcase).
  rewrite E. cbn [obind]. destruct Hcase as [[-> ->]|(Hp & Hfresh & Hheld)].
  { cbn [Z.eqb]. exists 0, s, T. split; [now destruct s|]. apply stepped_stay; auto. }
  destruct (Z.eqb_spec p 0); [done|].
  assert (Hfp : frame_ok p).
  { destruct (fs_used_range f p Hok) as [Ha Hr]; [apply Hheld; now left|].
    rewrite Hlim in Hr. pose proof (inv_limit _ _ _ I). split; [exact Ha|lia]. }
  set (fl' := if has fl PTE_USER then _ else _).
  assert (L : links (Z.lor p fl') p).
  { apply links_new; [apply Hfp|destruct Hfp; lia|..]; subst fl';
      destruct (has fl PTE_WRITABLE), (has fl PTE_USER); reflexivity. }
  assert (Hg : gains fl (Z.lor p fl')).
  { intros x Hx Hh. rewrite has_lor. apply orb_true_iff. right. subst fl'.
    destruct Hx as [->| ->]; rewrite Hh; [|destruct (has fl PTE_USER)]; destruct (has fl PTE_WRITABLE); reflexivity. }
  destruct (hang T root s t l i _ p f I Ht Hl Hi Ep Hfp L Hfresh Hok Hlim Hheld) as (A & B & C & D & G).
  do 2 eexists. exists (<[p := l]> T). split; [reflexivity|].
  constructor; [exact A| |exact B|split; reflexivity|..]; cbn [set_mem set_frames vm_mem vm_frames].
  - apply insert_subseteq. destruct (T !! p) eqn:Ep'; [|reflexivity].
    now destruct (Hfresh (inv_used _ _ _ I _ _ Ep')).
  - intros q Hq. split; [apply Hheld; now right|]. rewrite (proj1 (Hheld q)). split; [intros [->|Hh]; [contradiction|exact Hh]|now right].
  - intros t' i' Ht' Hi' Hh Hne. apply G; auto. intros ->. contradiction.
  - intros x _ Lx. rewrite C in Lx. now rewrite <- (links_unique _ _ _ L Lx).
  - intros x k. rewrite lookup_insert_Some. intros [[<- _]|[_ Hx]] Hn; [exact D|].
    destruct Hn. eapply inv_used; eauto.
  - intros x k. rewrite lookup_insert_Some. intros [[<- _]|[_ Hx]]; auto.
  - right; right. exists p. rewrite lookup_insert_eq, C. auto.
Qed.

(** [n] is the page table that the translation of [va] goes through. *)
Fixpoint reach (l : nat) (m : memory) (t va n : Z) : Prop :=
  match l with
  | O => False
  | 1%nat => t = n
  | S k => exists c, links (tbl m t (idx l va)) c /\ reach k m c va n
  end.

Lemma reach_up T root s l t t' va va' n :
  pt_inv T root s -> T !! t = Some l -> T !! t' = Some l ->
  reach l (vm_mem s) t va n -> reach l (vm_mem s) t' va' n ->
  t = t' /\ forall j, (2 <= j <= l)%nat -> idx j va = idx j va'.
Proof.
  intros I. revert t t'; induction l as [|[|k] IH]; intros t t' Ht Ht' R R'; [done| |].
  - cbn in R, R'. split; [congruence|lia].
  - destruct R as (c & L & R), R' as (c' & L' & R'). pose proof (idx_range (S (S k))) as Hi.
    destruct (IH c c') as [<- Hidx]; auto.
    { apply (inv_child _ _ _ I t _ _ _ Ht ltac:(lia) (Hi va) L). }
    { apply (inv_child _ _ _ I t' _ _ _ Ht' ltac:(lia) (Hi va') L'). }
    destruct (inv_parent _ _ _ I t t' _ _ _ _ c Ht Ht' ltac:(lia) ltac:(lia) (Hi va) (Hi va') L L') as [<- E].
    split; [reflexivity|]. intros j Hj. destruct (decide (j = S (S k))) as [->|]; [exact E|apply Hidx; lia].
Qed.

(** Writing a page-table entry changes only the translations through it. *)
Lemma walk_leaf_other T root s l t n i v va :
  pt_inv T root s -> T !! n = Some 1%nat -> 0 <= i < 512 -> T !! t = Some l ->
  ~ (reach l (vm_mem s) t va n /\ idx 1 va = i) ->
  walk l (wr (vm_mem s) (phys_to_virt n) i v) t va = walk l (vm_mem s) t va.
Proof.
  intros I Hn Hi. revert t; induction l as [|k IH]; intros t Ht Hnot; [reflexivity|].
  pose proof (inv_frame_ok _ _ _ _ _ I Hn). pose proof (inv_frame_ok _ _ _ _ _ I Ht).
  pose proof (idx_range (S k) va) as Hx. cbn [walk]. rewrite tbl_wr by assumption.
  destruct (Z.eqb_spec t n) as [->|Hne]; cbn [andb].
  - rewrite Hn in Ht. injection Ht as <-. destruct (Z.eqb_spec (idx 1 va) i) as [E|]; [|reflexivity].
    exfalso. apply Hnot. split; [reflexivity|exact E].
  - destruct (has _ PTE_PRESENT) eqn:Ep; [|reflexivity]. destruct k as [|k]; [reflexivity|].
    destruct (links_cases _ Ep) as [->|L]; [reflexivity|]. destruct (has _ PDE_PS) eqn:Eps; [reflexivity|].
    apply IH; [eapply (inv_child _ _ _ I); eauto; lia|]. intros [R E]. apply Hnot. split; [|exact E].
    exists (frame (tbl (vm_mem s) t (idx (S (S k)) va))). auto.
Qed.

Lemma walk_leaf_same T root s l t n v va :
  pt_inv T root s -> T !! n = Some 1%nat -> T !! t = Some l -> reach l (vm_mem s) t va n ->
  walk l (wr (vm_mem s) (phys_to_virt n) (idx 1 va) v) t va =
  if has v PTE_PRESENT then Some (1%nat, v) else None.
Proof.
  intros I Hn. revert t; induction l as [|[|k] IH]; intros t Ht R; [done| |];
    pose proof (inv_frame_ok _ _ _ _ _ I Hn); pose proof (inv_frame_ok _ _ _ _ _ I Ht).
  - cbn in R. subst t. cbn [walk]. rewrite tbl_wr, !Z.eqb_refl by (assumption || apply idx_range). reflexivity.
  - destruct R as (c & L & R). rewrite (walk_link k _ _ _ c).
    + apply IH; [|exact R]. eapply (inv_child _ _ _ I); eauto; [lia|apply idx_range].
    + rewrite tbl_wr by (assumption || apply idx_range). destruct (Z.eqb_spec t n) as [->|]; [congruence|exact L].
Qed.

Lemma invlpg_inv T root s va : pt_inv T root s -> pt_inv T root (invlpg s va).
Proof. intros I. constructor; cbn; apply I. Qed.

End Trees.

(** The four indices and the sign of a canonical address determine its page. *)
Lemma same_page va va' :
  0 <= va < 2 ^ 64 -> 0 <= va' < 2 ^ 64 -> is_canonical va = true -> is_canonical va' = true ->
  (forall j, (1 <= j <= 4)%nat -> idx j va = idx j va') -> va / 4096 = va' / 4096.
Proof.
  intros Hva Hva' C C' Hj.
  pose proof (Hj 1%nat ltac:(lia)) as J1. pose proof (Hj 2%nat ltac:(lia)) as J2.
  pose proof (Hj 3%nat ltac:(lia)) as J3. pose proof (Hj 4%nat ltac:(lia)) as J4. clear Hj.
  unfold idx, pml4_index, pdpt_index, pd_index, pt_index in *. unfold is_canonical in *.
  change 511 with (Z.ones 9) in *. rewrite !Z.land_ones, !Z.shiftr_div_pow2 in * by lia.
  change (2 ^ 21) with (2 ^ 12 * 2 ^ 9) in *. change (2 ^ 30) with (2 ^ 12 * 2 ^ 18) in *.
  change (2 ^ 39) with (2 ^ 12 * 2 ^ 27) in *. change (2 ^ 47) with (2 ^ 12 * 2 ^ 35) in *.
  rewrite <- !Z.div_div in * by lia. change 4096 with (2 ^ 12).
  assert (0 <= va / 2 ^ 12 < 2 ^ 52) by dlia. assert (0 <= va' / 2 ^ 12 < 2 ^ 52) by dlia.
  set (q := va / 2 ^ 12) in *. set (q' := va' / 2 ^ 12) in *. clearbody q q'. clear Hva Hva' va va'.
  apply orb_true_iff in C, C'. rewrite !Z.eqb_eq in *. change (Z.ones 9) with 511 in *. dlia.
Qed.

Section Mapping.
Context {F : Type} `{FrameSourceLaws F}.
Implicit Types (s : vmm F) (T : gmap Z nat).

(** The translation of [va] from [root] reaches table [t] at level [l]. *)
Inductive down (m : memory) (root va : Z) : nat -> Z -> Prop :=
| down_root : down m root va 4 root
| down_step k t n :
    down m root va (S (S k)) t -> links (tbl m t (idx (S (S k)) va)) n -> down m root va (S k) n.

Lemma down_level T root s va l t : pt_inv T root s -> down (vm_mem s) root va l t -> T !! t = Some l.
Proof.
  intros I. induction 1 as [|k t n Hd IH L]; [apply I|].
  apply (inv_child _ _ _ I t _ _ _ IH ltac:(lia) (idx_range _ va) L).
Qed.

Lemma down_walk m root va l t : down m root va l t -> walk 4 m root va = walk l m t va.
Proof. induction 1 as [|k t n Hd IH L]; [reflexivity|]. now rewrite IH, (walk_link _ _ _ _ _ L). Qed.

Lemma down_reach m root va l t x : down m root va l t -> reach l m t va x -> reach 4 m root va x.
Proof. induction 1 as [|k t n Hd IH L]; [auto|]. intros R. apply IH. exists n. auto. Qed.

Lemma down_benign T root s m' va l t :
  pt_inv T root s -> benign_on T (vm_mem s) m' -> down (vm_mem s) root va l t -> down m' root va l t.
Proof.
  intros I HB. induction 1 as [|k t n Hd IH L]; [constructor|].
  eapply down_step; [exact IH|]. eapply benign_links; [|exact L].
  apply HB; [eapply down_level; eauto|apply idx_range].
Qed.

Lemma down_le m root va l t : down m root va l t -> (1 <= l <= 4)%nat.
Proof. induction 1; lia. Qed.

Lemma down_det m root va l t t' : down m root va l t -> down m root va l t' -> t = t'.
Proof.
  intros Hd. revert t'. induction Hd as [|k t n Hd IH L]; intros t' Hd'; inversion Hd' as [|k' u n' Hu Lu]; subst; try reflexivity.
  - apply down_le in Hu. lia.
  - apply down_le in Hd. lia.
  - rewrite <- (IH _ Hu) in Lu. exact (links_unique _ _ _ L Lu).
Qed.

Lemma down_prefix m root va k t j : down m root va k t -> (k <= j <= 4)%nat -> exists u, down m root va j u.
Proof.
  intros Hd. revert j. induction Hd as [|k t n Hd IH L]; intros j Hj; [replace j with 4%nat by lia; eauto using down_root|].
  destruct (decide (j = S k)) as [->|]; [eauto using down_step|apply IH; lia].
Qed.

Lemma down_idx m root va va' l t : (forall j, (2 <= j <= 4)%nat -> idx j va = idx j va') -> down m root va l t -> down m root va' l t.
Proof.
  intros E. induction 1 as [|k t n Hd IH L]; [constructor|]. pose proof (down_le _ _ _ _ _ Hd). eapply down_step; [exact IH|].
  now rewrite <- E by lia.
Qed.

Lemma reach_down m root va l t n : down m root va l t -> reach l m t va n -> down m root va 1 n.
Proof.
  revert t. induction l as [|[|k] IH]; intros t Hd R; [done|cbn in R; now subst|]. destruct R as (c & L & R). eapply IH; [|exact R]. eapply down_step; eauto.
Qed.

(** The entries on the way of [va], down to level [k], have the permissions [need]. *)
Definition opened (k : nat) (need : list Z) (m : memory) (root va : Z) : Prop :=
  forall j t, (k <= j)%nat -> down m root va (S (S j)) t -> forallb (has (tbl m t (idx (S (S j)) va))) need = true.

Lemma opened_permitted need m root va k t :
  opened k need m root va -> down m root va (S k) t -> permitted need 4 m root va = permitted need (S k) m t va.
Proof.
  intros Hop Hd. revert Hop. remember (S k) as l eqn:El. revert k El. induction Hd as [|k t n Hd IH L]; intros k' El Hop; [reflexivity|]. injection El as <-.
  rewrite (IH (S k) eq_refl) by (intros j u Hj; apply Hop; lia). cbn [permitted]. rewrite (Hop k t ltac:(lia) Hd). destruct L as (-> & -> & ->). reflexivity.
Qed.

Lemma down_leaf T root s n i v va l t : pt_inv T root s -> T !! n = Some 1%nat -> 0 <= i < 512 ->
  down (vm_mem s) root va l t <-> down (wr (vm_mem s) (phys_to_virt n) i v) root va l t.
Proof.
  intros I Hn Hi. assert (Htbl : forall t l i', T !! t = Some l -> (2 <= l)%nat -> 0 <= i' < 512 -> tbl (wr (vm_mem s) (phys_to_virt n) i v) t i' = tbl (vm_mem s) t i').
  { intros u k i' Hu Hk Hi'. rewrite tbl_wr by (assumption || eapply inv_frame_ok; eauto).
    destruct (Z.eqb_spec u n) as [->|]; [|reflexivity]. rewrite Hn in Hu. injection Hu as <-. lia. }
  split; (induction 1 as [|k u c Hd IH L]; [constructor|]; eapply down_step; [exact IH|]).
  - rewrite (Htbl u (S (S k))); [exact L|eapply down_level; eauto|lia|apply idx_range].
  - rewrite (Htbl u (S (S k))) in L; [exact L|eapply down_level; eauto|lia|apply idx_range].
Qed.

Lemma permitted_none T root s need va : pt_inv T root s -> permitted need 4 (vm_mem s) root va = true -> leaf_rights need (walk 4 (vm_mem s) root va) = true.
Proof. intros I. apply permitted_walk; [right; apply (inv_no_ps _ _ _ I), idx_range|lia]. Qed.

Lemma permitted_down need m root va l t : permitted need 4 m root va = true -> down m root va l t -> permitted need l m t va = true.
Proof.
  intros Hp. induction 1 as [|k t n Hd IH L]; [exact Hp|]. cbn [permitted] in IH. destruct L as (Lp & Ls & Lf). rewrite Ls, Lf in IH. now apply andb_true_iff in IH.
Qed.

Lemma permitted_opened need m root va : permitted need 4 m root va = true -> opened 0 need m root va.
Proof. intros Hp j t _ Hd. pose proof (permitted_down _ _ _ _ _ _ Hp Hd) as H'. cbn [permitted] in H'. rewrite !andb_true_iff in H'. tauto. Qed.

(** The entry that maps an address, and the table it is in. *)
Lemma walk_down m root va l t k e : down m root va l t -> walk l m t va = Some (k, e) ->
  exists u, down m root va k u /\ e = tbl m u (idx k va) /\ has e PTE_PRESENT = true /\ (k = 1%nat \/ has e PDE_PS = true).
Proof.
  revert t. induction l as [|l IH]; intros t Hd W; [discriminate|]. cbn [walk] in W. destruct (has (tbl m t (idx (S l) va)) PTE_PRESENT) eqn:Ep; [|discriminate].
  destruct l as [|l]; [injection W as <- <-; eauto 6|]. destruct (has (tbl m t (idx (S (S l)) va)) PDE_PS) eqn:Es; [injection W as <- <-; eauto 6|].
  apply (IH _ (down_step _ _ _ _ _ _ Hd (conj Ep (conj Es eq_refl))) W).
Qed.

(** The permissions after writing an entry of a page table. *)
Lemma leaf_rights_kept T root s n i v need va :
  let m' := wr (vm_mem s) (phys_to_virt n) i v in
  pt_inv T root s -> T !! n = Some 1%nat -> 0 <= i < 512 -> Forall right need ->
  (down (vm_mem s) root va 1 n -> idx 1 va = i -> Forall right need -> has v PTE_PRESENT = true -> forallb (has v) need = true ->
     opened 0 need (vm_mem s) root va) ->
  permitted need 4 m' root va = leaf_rights need (walk 4 m' root va).
Proof.
  intros m' I Hn Hi Hneed Hop. pose proof (inv_frame_ok _ _ _ _ _ I Hn) as Hf.
  assert (Htbl : forall k u, down (vm_mem s) root va k u -> u = n /\ k = 1%nat /\ idx 1 va = i \/ tbl m' u (idx k va) = tbl (vm_mem s) u (idx k va)).
  { intros k u Hd. pose proof (down_level _ _ _ _ _ _ I Hd) as Hu. unfold m'. rewrite tbl_wr by (assumption || apply idx_range || eapply inv_frame_ok; eauto).
    destruct (Z.eqb_spec u n) as [->|]; [|now right]. rewrite Hn in Hu. injection Hu as <-. destruct (Z.eqb_spec (idx 1 va) i); [now left|now right]. }
  assert (Hps : has (tbl m' root (idx 4 va)) PTE_PRESENT = true -> has (tbl m' root (idx 4 va)) PDE_PS = false).
  { destruct (Htbl 4%nat root (down_root _ _ _)) as [(_ & ? & _)| ->]; [discriminate|]. apply (inv_no_ps _ _ _ I), idx_range. }
  destruct (permitted need 4 m' root va) eqn:Ep; [symmetry; apply permitted_walk; auto|].
  destruct (leaf_rights need (walk 4 m' root va)) eqn:El; [|reflexivity]. exfalso.
  destruct (walk 4 m' root va) as [[k e]|] eqn:W; [|discriminate]. cbn [leaf_rights] in El.
  destruct (walk_down _ _ _ _ _ _ _ (down_root _ _ _) W) as (u & Hd' & -> & Hpr & Hk).
  pose proof (proj2 (down_leaf T root s n i v va k u I Hn Hi) Hd') as Hd.
  assert (Ho : opened 0 need (vm_mem s) root va).
  { destruct (Htbl k u Hd) as [(-> & -> & Ei)|E].
    - apply Hop; auto; unfold m' in Hpr, El; rewrite tbl_wr, Ei, !Z.eqb_refl in Hpr, El by (assumption || apply idx_range); assumption.
    - apply permitted_opened. rewrite (inv_rights _ _ _ I need va Hneed), (down_walk _ _ _ _ _ Hd). rewrite E in *.
      destruct k as [|k]; [apply down_le in Hd; lia|]. cbn [walk]. rewrite Hpr. destruct k; [exact El|]. destruct Hk as [Hk| ->]; [discriminate|exact El]. }
  assert (Ho' : opened 0 need m' root va).
  { intros j t _ Ht%(down_leaf T root s n i v va _ t I Hn Hi). destruct (Htbl _ _ Ht) as [(_ & ? & _)| ->]; [lia|]. exact (Ho j t ltac:(lia) Ht). }
  destruct k as [|k]; [apply down_le in Hd; lia|].
  rewrite (opened_permitted need m' root va k u) in Ep; [|intros j t _; apply Ho'; lia|exact Hd'].
  cbn [permitted] in Ep. rewrite Hpr, El in Ep. cbn [andb] in Ep. destruct k; [discriminate|]. destruct Hk as [Hk|Hk]; [discriminate|]. rewrite Hk in Ep.
  destruct (Nat.ltb_spec (S (S k)) 4); [discriminate|]. assert (k = 2%nat) as -> by (apply down_le in Hd; lia).
  rewrite (down_det _ _ _ _ _ _ Hd' (down_root _ _ _)) in Hk, Hpr. rewrite (Hps Hpr) in Hk. discriminate.
Qed.

(** Writing an entry of a page table, where the way to it has its permissions. *)
Lemma leaf_inv T root s n i v :
  pt_inv T root s -> T !! n = Some 1%nat -> 0 <= i < 512 ->
  (forall va need, down (vm_mem s) root va 1 n -> idx 1 va = i -> Forall right need -> has v PTE_PRESENT = true -> forallb (has v) need = true ->
     opened 0 need (vm_mem s) root va) ->
  pt_inv T root (set_mem s (wr (vm_mem s) (phys_to_virt n) i v)).
Proof.
  intros I Hn Hi Hop. pose proof (inv_frame_ok _ _ _ _ _ I Hn) as Hf. set (m' := wr (vm_mem s) (phys_to_virt n) i v).
  assert (Htbl : forall t l i', T !! t = Some l -> (2 <= l)%nat -> 0 <= i' < 512 -> tbl m' t i' = tbl (vm_mem s) t i').
  { intros t l i' Ht Hl Hi'. unfold m'. rewrite tbl_wr; auto; [|eapply inv_frame_ok; eauto].
    destruct (Z.eqb_spec t n) as [->|]; [|reflexivity]. rewrite Hn in Ht. injection Ht as <-. lia. }
  constructor; cbn [set_mem vm_mem vm_frames]; fold m'; try apply I.
  - intros t l i' x Ht Hl Hi'. rewrite (Htbl t (S l)) by (assumption || lia). now apply (inv_held _ _ _ I t l).
  - intros i' Hi'. rewrite (Htbl root 4%nat) by (apply I || lia || assumption). now apply (inv_no_ps _ _ _ I).
  - intros t l i' x Ht Hl Hi'. rewrite (Htbl t (S l)) by (assumption || lia). now apply (inv_child _ _ _ I).
  - intros t t' l l' j j' x Ht Ht' Hl Hl' Hj Hj'.
    rewrite (Htbl t l), (Htbl t' l') by assumption. now apply (inv_parent _ _ _ I t t' l l').
  - intros need va Hneed. exact (leaf_rights_kept T root s n i v need va I Hn Hi Hneed (Hop va need)).
Qed.

(** The tables in [A] are in use and none of them is on the way of [va]. *)
Definition off_path (A : Z -> Prop) s root va : Prop :=
  (forall x, A x -> frame_ok x /\ fs_used (vm_frames s) x) /\
  (forall l x, down (vm_mem s) root va l x -> ~ A x).

Definition untouched (A : Z -> Prop) (m m' : memory) : Prop :=
  forall x i, A x -> 0 <= i < 512 -> tbl m' x i = tbl m x i.

(** A step down changes nothing of the tables off the path and reaches only
    tables that were reached before or were not held by anybody. *)
Lemma stepped_down T root s s' va k t fl r T' j x :
  pt_inv T root s -> down (vm_mem s) root va (S (S k)) t ->
  stepped T root s s' t (idx (S (S k)) va) (S k) fl r T' ->
  down (vm_mem s') root va j x -> down (vm_mem s) root va j x \/ ~ fs_used (vm_frames s) x.
Proof.
  intros I Hd St. induction 1 as [|k' t' n Hd' IH L]; [left; constructor|].
  destruct IH as [IH|Hn'].
  2:{ exfalso. pose proof (down_level _ _ _ _ _ _ (st_inv _ _ _ _ _ _ _ _ _ _ St) Hd') as Ht'.
      pose proof (st_fresh _ _ _ _ _ _ _ _ _ _ St _ _ Ht' Hn') as He.
      rewrite He in L by apply idx_range. destruct L; discriminate. }
  pose proof (down_level _ _ _ _ _ _ I IH) as Ht'. pose proof (down_level _ _ _ _ _ _ I Hd) as Ht.
  destruct (decide (t' = t /\ idx (S (S k')) va = idx (S (S k)) va)) as [[-> Ei]|Hne].
  - destruct (has (tbl (vm_mem s) t (idx (S (S k)) va)) PTE_PRESENT) eqn:Ep.
    + left. eapply down_step; [exact IH|]. rewrite Ei in *.
      destruct (st_benign _ _ _ _ _ _ _ _ _ _ St t _ (idx (S (S k)) va) Ht (idx_range _ va)) as [E|[(_ & _ & n' & L1 & L2)|(_ & E & _)]].
      * now rewrite <- E.
      * now rewrite (links_unique _ _ _ L L2).
      * congruence.
    + right. rewrite Ei in L. exact (st_new _ _ _ _ _ _ _ _ _ _ St n Ep L).
  - left. eapply down_step; [exact IH|].
    rewrite (st_writes _ _ _ _ _ _ _ _ _ _ St) in L; [exact L|eapply inv_frame_ok; eauto|apply idx_range|eapply inv_used; eauto|].
    destruct (decide (t' = t)); [right; tauto|now left].
Qed.

Lemma stepped_off A T root s s' va k t fl r T' :
  pt_inv T root s -> down (vm_mem s) root va (S (S k)) t ->
  stepped T root s s' t (idx (S (S k)) va) (S k) fl r T' -> off_path A s root va ->
  off_path A s' root va /\ untouched A (vm_mem s) (vm_mem s').
Proof.
  intros I Hd St [Hh Ho]. split; [split|].
  - intros x Hx. destruct (Hh x Hx) as [Hf Hu]. split; [exact Hf|]. exact (proj1 (st_keeps _ _ _ _ _ _ _ _ _ _ St x Hu)).
  - intros l x Hx HA. destruct (stepped_down _ _ _ _ _ _ _ _ _ _ _ _ I Hd St Hx) as [Hx'|Hn]; [now apply (Ho _ _ Hx')|].
    now destruct (Hh x HA).
  - intros x i HA Hi. destruct (Hh x HA). eapply st_writes; eauto. left. intros ->. now apply (Ho _ _ Hd).
Qed.

(** A step down gives the entry it goes through the permissions of [fl]. *)
Lemma stepped_opened need T root s s' va k t fl r T' n :
  pt_inv T root s -> down (vm_mem s) root va (S (S k)) t ->
  stepped T root s s' t (idx (S (S k)) va) (S k) fl r T' -> links (tbl (vm_mem s') t (idx (S (S k)) va)) n ->
  gains fl (tbl (vm_mem s') t (idx (S (S k)) va)) -> Forall right need -> forallb (has fl) need = true ->
  opened (S k) need (vm_mem s) root va -> opened k need (vm_mem s') root va.
Proof.
  intros I Hd St L Hg Hneed Hfl Hop j u Hj Hu. pose proof (st_benign _ _ _ _ _ _ _ _ _ _ St) as HB. pose proof (down_le _ _ _ _ _ Hu) as Hj4.
  destruct (down_prefix _ _ _ _ _ (S (S j)) Hd ltac:(lia)) as [u' Hu'].
  rewrite (down_det _ _ _ _ _ _ Hu (down_benign _ _ _ _ _ _ _ I HB Hu')). destruct (decide (j = k)) as [->|Hne].
  - rewrite (down_det _ _ _ _ _ _ Hu' Hd). exact (forallb_gains _ _ _ Hneed Hg Hfl).
  - pose proof (Hop j u' ltac:(lia) Hu') as Hx. pose proof (down_prefix _ _ _ _ _ (S j) Hd ltac:(lia)) as [w Hw].
    inversion Hw as [|? y ? Hy Ly]; subst; [lia|]. rewrite (down_det _ _ _ _ _ _ Hy Hu') in Ly.
    destruct (HB u' (S (S j)) (idx (S (S j)) va) (down_level _ _ _ _ _ _ I Hu') (idx_range _ va)) as [->|[(_ & Hg' & _)|(_ & Ha & _)]]; [exact Hx|exact (forallb_gains _ _ _ Hneed Hg' Hx)|].
    destruct Ly as [Hp _]. congruence.
Qed.

(** One step of the descent in [vmm_map_page]. *)
Lemma descend T root s va k t fl :
  pt_inv T root s -> down (vm_mem s) root va (S (S k)) t ->
  exists r s' T', get_next_level s (phys_to_virt t) (idx (S (S k)) va) true fl = Ok (r, s') /\
    pt_inv T' root s' /\ T ⊆ T' /\ same_cpu s s' /\
    (forall va', walk 4 (vm_mem s') root va' = walk 4 (vm_mem s) root va') /\
    (keeps (vm_frames s) (vm_frames s') /\
     (forall x l, T' !! x = Some l -> T !! x = Some l \/ ~ fs_used (vm_frames s) x) /\
     forall A, off_path A s root va -> off_path A s' root va /\ untouched A (vm_mem s) (vm_mem s')) /\
    ((r = 0 /\ (walk 4 (vm_mem s) root va <> None \/ fs_alloc (vm_frames s') = Ok (0, vm_frames s'))) \/
     (exists n, r = phys_to_virt n /\ r <> 0 /\ down (vm_mem s') root va (S k) n /\
        forall need, Forall right need -> forallb (has fl) need = true -> opened (S k) need (vm_mem s) root va -> opened k need (vm_mem s') root va)).
Proof.
  intros I Hd. pose proof (down_level _ _ _ _ _ _ I Hd) as Ht.
  destruct (next_spec T root s t (S k) (idx (S (S k)) va) fl I Ht ltac:(lia) (idx_range _ va))
    as (r & s' & T' & E & St). pose proof St as [I' Hsub HB Hcpu Hheld _ _ _ Htab Hcase].
  exists r, s', T'. split; [exact E|]. split; [exact I'|]. split; [exact Hsub|]. split; [exact Hcpu|].
  split; [intros va'; apply (walk_benign T root s _ _ _ _ I HB), I|].
  split; [split; [exact Hheld|split; [exact Htab|intros A; apply (stepped_off A T root s s' va k t fl r T' I Hd St)]]|].
  destruct Hcase as [(-> & _ & Hp & Hps)|[(-> & _ & Ha)|(n & -> & Hn & L & _ & Hg)]].
  - left. split; [reflexivity|]. left. rewrite (down_walk _ _ _ _ _ Hd). cbn [walk]. now rewrite Hp, Hps.
  - left. split; [reflexivity|now right].
  - right. exists n. split; [reflexivity|]. split; [now apply phys_to_virt_neq0|].
    split; [eapply down_step; [|exact L]; exact (down_benign _ _ _ _ _ _ _ I HB Hd)|].
    intros need Hneed Hfl. exact (stepped_opened need T root s s' va k t fl _ T' n I Hd St L Hg Hneed Hfl).
Qed.

(** The flags of a mapping as the entry records them. *)
Definition pte_of (pa flags : Z) : Z := Z.lor (Z.lor pa (flags_to_pte flags)) PTE_PRESENT.

Lemma pte_present pa flags : has (pte_of pa flags) PTE_PRESENT = true.
Proof. unfold pte_of. rewrite has_lor. apply orb_true_r. Qed.

Lemma has_pte pa flags x : pa mod 4096 = 0 -> right x -> has (pte_of pa flags) x = has (flags_to_pte flags) x.
Proof.
  intros Ha Hx. unfold pte_of. rewrite !has_lor. replace (has pa x) with false.
  - cbn [orb]. destruct Hx as [->| ->]; now rewrite orb_false_r.
  - symmetry. apply has_aligned; [exact Ha|]. destruct Hx as [->| ->]; unfold PTE_USER, PTE_WRITABLE; lia.
Qed.

Lemma forallb_pte pa flags need : pa mod 4096 = 0 -> Forall right need -> forallb (has (pte_of pa flags)) need = forallb (has (flags_to_pte flags)) need.
Proof. intros Ha. induction 1 as [|x l Hx Hl IH]; [reflexivity|]. cbn [forallb]. now rewrite IH, has_pte. Qed.

Lemma frame_pte pa flags : pa mod 4096 = 0 -> 0 <= pa < 2 ^ 52 -> frame (pte_of pa flags) = pa.
Proof.
  intros Ha Hp. unfold pte_of. rewrite !frame_lor, frame_id by assumption.
  unfold flags_to_pte. destruct (has flags _), (has flags _), (has flags _);
    cbv [frame]; cbn; now rewrite !Z.lor_0_r.
Qed.

(** What the processor lets a program do at an address stays the same. *)
Definition same_access root s s' va : Prop :=
  walk 4 (vm_mem s') root va = walk 4 (vm_mem s) root va /\
  forall need, Forall right need -> permitted need 4 (vm_mem s') root va = permitted need 4 (vm_mem s) root va.

Lemma same_access_inv T T' root s s' va : pt_inv T root s -> pt_inv T' root s' -> walk 4 (vm_mem s') root va = walk 4 (vm_mem s) root va -> same_access root s s' va.
Proof. intros I I' W. split; [exact W|]. intros need Hn. now rewrite (inv_rights _ _ _ I need va Hn), (inv_rights _ _ _ I' need va Hn), W. Qed.

(** What [vmm_map_page] did, by its result. *)
Definition map_result root va pa flags s s' (b : bool) : Prop :=
  (forall va', 0 <= va' < 2 ^ 64 -> is_canonical va' = true -> va' / 4096 <> va / 4096 ->
     walk 4 (vm_mem s') root va' = walk 4 (vm_mem s) root va') /\
  (if b then walk 4 (vm_mem s) root va = None /\
             walk 4 (vm_mem s') root va = Some (1%nat, pte_of pa flags) /\
             (forall need, Forall right need -> permitted need 4 (vm_mem s') root va = forallb (has (flags_to_pte flags)) need) /\
             (root = vmm_get_current_pml4 s -> vm_invlpg s' = va :: vm_invlpg s)
   else walk 4 (vm_mem s') root va = walk 4 (vm_mem s) root va /\
        (walk 4 (vm_mem s) root va <> None \/ fs_alloc (vm_frames s') = Ok (0, vm_frames s'))).

(** Writing the entry of [va] in the page table [n] reached for it. *)
Lemma leaf_result T root s va n v :
  pt_inv T root s -> 0 <= va < 2 ^ 64 -> is_canonical va = true -> down (vm_mem s) root va 1 n ->
  (forall need, Forall right need -> has v PTE_PRESENT = true -> forallb (has v) need = true -> opened 0 need (vm_mem s) root va) ->
  let s' := set_mem s (wr (vm_mem s) (phys_to_virt n) (pt_index va) v) in
  pt_inv T root s' /\
  walk 4 (vm_mem s') root va = (if has v PTE_PRESENT then Some (1%nat, v) else None) /\
  (forall va', 0 <= va' < 2 ^ 64 -> is_canonical va' = true -> va' / 4096 <> va / 4096 ->
     walk 4 (vm_mem s') root va' = walk 4 (vm_mem s) root va').
Proof.
  intros I Hva Hc Hd Hop s'. pose proof (down_level _ _ _ _ _ _ I Hd) as Hn.
  assert (R : reach 4 (vm_mem s) root va n) by (apply (down_reach _ _ _ _ _ _ Hd); reflexivity).
  change (pt_index va) with (idx 1 va) in *. split; [|split].
  - apply leaf_inv; auto; [apply idx_range|]. intros va' need Hd' Ei Hneed Hp Hv j t _ Ht.
    assert (R' : reach 4 (vm_mem s) root va' n) by (apply (down_reach _ _ _ _ _ _ Hd'); reflexivity).
    destruct (reach_up T root s 4 root root va' va n I (inv_root _ _ _ I) (inv_root _ _ _ I) R' R) as [_ Hidx].
    pose proof (down_le _ _ _ _ _ Ht). rewrite (Hidx (S (S j))) by lia.
    exact (Hop need Hneed Hp Hv j t ltac:(lia) (down_idx _ _ _ _ _ _ Hidx Ht)).
  - apply (walk_leaf_same T root s 4 root n v va I Hn (inv_root _ _ _ I) R).
  - intros va' Hva' Hc' Hpage. apply (walk_leaf_other T root s 4 root n _ v va' I Hn (idx_range 1 va) (inv_root _ _ _ I)).
    intros [R' E]. apply Hpage.
    destruct (reach_up T root s 4 root root va' va n I (inv_root _ _ _ I) (inv_root _ _ _ I) R' R) as [_ Hidx].
    apply same_page; auto. intros j Hj. destruct (decide (j = 1%nat)) as [->|]; [exact E|apply Hidx; lia].
Qed.

Lemma off_trans root va s s1 s2 :
  (forall A, off_path A s root va -> off_path A s1 root va /\ untouched A (vm_mem s) (vm_mem s1)) ->
  (forall A, off_path A s1 root va -> off_path A s2 root va /\ untouched A (vm_mem s1) (vm_mem s2)) ->
  forall A, off_path A s root va -> off_path A s2 root va /\ untouched A (vm_mem s) (vm_mem s2).
Proof.
  intros O1 O2 A HA. destruct (O1 A HA) as [HA1 U1]. destruct (O2 A HA1) as [HA2 U2].
  split; [exact HA2|]. intros x i Hx Hi. rewrite U2 by assumption. now apply U1.
Qed.

(** The last part of [vmm_map_page], on the page table [n] reached for [va]. *)
Lemma map_leaf T root s va pa flags n :
  pt_inv T root s -> 0 <= va < 2 ^ 64 -> is_canonical va = true -> pa mod 4096 = 0 -> down (vm_mem s) root va 1 n ->
  (forall need, Forall right need -> forallb (has (flags_to_pte flags)) need = true -> opened 0 need (vm_mem s) root va) ->
  exists b s',
    (let pt_idx := pt_index va in
     if has (rd (vm_mem s) (phys_to_virt n) pt_idx) PTE_PRESENT then Ok (false, s)
     else
     let s := set_mem s (wr (vm_mem s) (phys_to_virt n) pt_idx
                (Z.lor (Z.lor pa (flags_to_pte flags)) PTE_PRESENT)) in
     let s := if root =? vmm_get_current_pml4 s then invlpg s va else s in
     Ok (true, s)) = Ok (b, s') /\ pt_inv T root s' /\ vm_cr3 s' = vm_cr3 s /\
    vm_frames s' = vm_frames s /\
    (forall A, off_path A s root va -> untouched A (vm_mem s) (vm_mem s')) /\
    map_result root va pa flags s s' b.
Proof.
  intros I Hva Hc Hpa Hd Hop. pose proof (down_level _ _ _ _ _ _ I Hd) as Hn.
  assert (Hleaf : walk 4 (vm_mem s) root va =
            if has (tbl (vm_mem s) n (idx 1 va)) PTE_PRESENT
            then Some (1%nat, tbl (vm_mem s) n (idx 1 va)) else None)
    by exact (down_walk _ _ _ _ _ Hd).
  cbn zeta. change (rd (vm_mem s) (phys_to_virt n) (pt_index va)) with (tbl (vm_mem s) n (idx 1 va)).
  destruct (has (tbl (vm_mem s) n (idx 1 va)) PTE_PRESENT) eqn:Ep.
  { exists false, s. unfold map_result, untouched. rewrite Hleaf.
    repeat (split; [solve [auto]|]). now left. }
  assert (Hbits : forall need, Forall right need -> forallb (has (pte_of pa flags)) need = forallb (has (flags_to_pte flags)) need)
    by (intros need Hneed; now apply forallb_pte).
  destruct (leaf_result T root s va n (pte_of pa flags) I Hva Hc Hd) as (I4 & Wva & Woth).
  { intros need Hneed _ Hv. apply Hop; [exact Hneed|]. now rewrite <- Hbits. }
  rewrite pte_present in Wva. fold (pte_of pa flags). set (s4 := set_mem s _) in *.
  assert (U : forall A, off_path A s root va -> untouched A (vm_mem s) (vm_mem s4)).
  { intros A [Hh Ho] x i HA Hi. destruct (Hh x HA). cbn [s4 set_mem vm_mem].
    rewrite tbl_wr; auto; [|eapply inv_frame_ok; eauto|apply (idx_range 1)].
    destruct (Z.eqb_spec x n) as [->|]; [now destruct (Ho _ _ Hd)|reflexivity]. }
  assert (Hrights : forall need, Forall right need -> permitted need 4 (vm_mem s4) root va = forallb (has (flags_to_pte flags)) need).
  { intros need Hneed. rewrite (inv_rights _ _ _ I4 need va Hneed), Wva. now apply Hbits. }
  change (vmm_get_current_pml4 s4) with (vmm_get_current_pml4 s). do 2 eexists. split; [reflexivity|].
  unfold map_result. destruct (Z.eqb_spec root (vmm_get_current_pml4 s)) as [Er|Er].
  - split; [now apply invlpg_inv|]. repeat (split; [solve [auto]|]). auto.
  - split; [exact I4|]. repeat (split; [solve [auto]|]). done.
Qed.

Lemma map_failed root va pa flags s s' :
  (forall va', walk 4 (vm_mem s') root va' = walk 4 (vm_mem s) root va') ->
  (walk 4 (vm_mem s) root va <> None \/ fs_alloc (vm_frames s') = Ok (0, vm_frames s')) ->
  map_result root va pa flags s s' false.
Proof. intros W Hw. split; [auto|]. split; [apply W|exact Hw]. Qed.

Lemma map_spec T root s va pa flags :
  pt_inv T root s -> 0 <= va < 2 ^ 64 -> is_canonical va = true -> va mod 4096 = 0 -> pa mod 4096 = 0 ->
  exists b s' T', vmm_map_page root va pa flags s = Ok (b, s') /\ pt_inv T' root s' /\ T ⊆ T' /\
    vm_cr3 s' = vm_cr3 s /\ keeps (vm_frames s) (vm_frames s') /\
    (forall x l, T' !! x = Some l -> T !! x = Some l \/ ~ fs_used (vm_frames s) x) /\
    (forall A, off_path A s root va -> untouched A (vm_mem s) (vm_mem s')) /\
    map_result root va pa flags s s' b.
Proof.
  intros I Hva Hc Ha Hpa. unfold vmm_map_page, PMM_PAGE_SIZE. rewrite Hc, Ha, Hpa. cbn [negb orb Z.eqb].
  change (pml4_index va) with (idx 4 va). change (pdpt_index va) with (idx 3 va).
  change (pd_index va) with (idx 2 va).
  destruct (descend T root s va 2 root (flags_to_pte flags) I (down_root _ _ _))
    as (r1 & s1 & T1 & -> & I1 & S1 & [C1 K1] & W1 & (H1 & N1 & O1) & Hc1). cbn [obind].
  destruct Hc1 as [[-> Hw]|(n3 & -> & Hr & D1 & G1)].
  { exists false, s1, T1. split; [reflexivity|]. split; [exact I1|]. split; [exact S1|]. split; [exact C1|].
    split; [exact H1|]. split; [exact N1|]. split; [intros A HA; apply (O1 A HA)|]. now apply map_failed. }
  destruct (Z.eqb_spec (phys_to_virt n3) 0); [done|].
  destruct (descend T1 root s1 va 1 n3 (flags_to_pte flags) I1 D1)
    as (r2 & s2 & T2 & -> & I2 & S2 & [C2 K2] & W2 & (H2 & N2 & O2) & Hc2). cbn [obind].
  assert (W02 : forall va', walk 4 (vm_mem s2) root va' = walk 4 (vm_mem s) root va') by (intros; now rewrite W2).
  assert (S02 : T ⊆ T2) by (etrans; eauto). assert (C02 : vm_cr3 s2 = vm_cr3 s) by congruence.
  assert (O02 : forall A, off_path A s root va -> off_path A s2 root va /\ untouched A (vm_mem s) (vm_mem s2))
    by exact (off_trans root va s s1 s2 O1 O2).
  assert (N02 : forall x l, T2 !! x = Some l -> T !! x = Some l \/ ~ fs_used (vm_frames s) x)
    by (intros x l [Hx|Hx]%N2; [auto|right; intros Hq; apply Hx, H1, Hq]).
  assert (H02 : keeps (vm_frames s) (vm_frames s2)) by exact (keeps_trans _ _ _ H1 H2).
  destruct Hc2 as [[-> Hw]|(n2 & -> & Hr2 & D2 & G2)].
  { exists false, s2, T2. rewrite W1 in Hw. split; [reflexivity|]. split; [exact I2|]. split; [exact S02|].
    split; [exact C02|]. split; [exact H02|]. split; [exact N02|]. split; [intros A HA; apply (O02 A HA)|].
    now apply map_failed. }
  destruct (Z.eqb_spec (phys_to_virt n2) 0); [done|].
  destruct (descend T2 root s2 va 0 n2 (flags_to_pte flags) I2 D2)
    as (r3 & s3 & T3 & -> & I3 & S3 & [C3 K3] & W3 & (H3 & N3 & O3) & Hc3). cbn [obind].
  assert (W03 : forall va', walk 4 (vm_mem s3) root va' = walk 4 (vm_mem s) root va') by (intros; now rewrite W3).
  assert (S03 : T ⊆ T3) by (etrans; eauto). assert (C03 : vm_cr3 s3 = vm_cr3 s) by congruence.
  assert (O03 : forall A, off_path A s root va -> off_path A s3 root va /\ untouched A (vm_mem s) (vm_mem s3))
    by exact (off_trans root va s s2 s3 O02 O3).
  assert (N03 : forall x l, T3 !! x = Some l -> T !! x = Some l \/ ~ fs_used (vm_frames s) x)
    by (intros x l [Hx|Hx]%N3; [auto|right; intros Hq; apply Hx, H02, Hq]).
  assert (H03 : keeps (vm_frames s) (vm_frames s3)) by exact (keeps_trans _ _ _ H02 H3).
  destruct Hc3 as [[-> Hw]|(n1 & -> & Hr3 & D3 & G3)].
  { exists false, s3, T3. rewrite W02 in Hw. split; [reflexivity|]. split; [exact I3|]. split; [exact S03|].
    split; [exact C03|]. split; [exact H03|]. split; [exact N03|]. split; [intros A HA; apply (O03 A HA)|].
    now apply map_failed. }
  destruct (Z.eqb_spec (phys_to_virt n1) 0); [done|].
  destruct (map_leaf T3 root s3 va pa flags n1 I3 Hva Hc Hpa D3) as (b & s4 & E & I4 & C4 & H4 & O4 & Hm).
  { intros need Hneed Hfl. apply (G3 need Hneed Hfl), (G2 need Hneed Hfl), (G1 need Hneed Hfl). intros j t Hj Hd. apply down_le in Hd. lia. }
  exists b, s4, T3. split; [exact E|]. split; [exact I4|]. split; [exact S03|].
  split; [congruence|]. split; [now rewrite H4|]. split; [exact N03|].
  split; [intros A HA; destruct (O03 A HA) as [HA3 U3]; intros x i Hx Hi; rewrite (O4 A HA3) by assumption; now apply U3|].
  destruct Hm as [Hoth Hres]. split; [intros; rewrite Hoth by assumption; apply W03|].
  unfold vmm_get_current_pml4 in *. rewrite C03, !W03 in Hres. destruct b; [|exact Hres].
  destruct Hres as (A1 & A2 & A2' & A3). split; [exact A1|]. split; [exact A2|]. split; [exact A2'|]. intros Er. rewrite (A3 Er). congruence.
Qed.

End Mapping.

(** ** Queries *)
Lemma idx_page j va va' : va / 4096 = va' / 4096 -> idx j va = idx j va'.
Proof.
  intros E. assert (Hs : forall k, 0 <= k -> Z.shiftr va (12 + k) = Z.shiftr va' (12 + k)).
  { intros k Hk. rewrite <- !Z.shiftr_shiftr by lia. rewrite !(Z.shiftr_div_pow2 _ 12) by lia.
    change (2 ^ 12) with 4096. now rewrite E. }
  unfold idx, pml4_index, pdpt_index, pd_index, pt_index.
  pose proof (Hs 0 ltac:(lia)) as H0. pose proof (Hs 9 ltac:(lia)) as H1.
  pose proof (Hs 18 ltac:(lia)) as H2. pose proof (Hs 27 ltac:(lia)) as H3. cbn [Z.add] in *.
  destruct j as [|[|[|[|[|j]]]]]; f_equal; assumption.
Qed.

Lemma walk_page l m t va va' : va / 4096 = va' / 4096 -> walk l m t va = walk l m t va'.
Proof.
  intros E. revert t; induction l as [|k IH]; intros t; [reflexivity|].
  cbn [walk]. rewrite (idx_page _ _ _ E). destruct (has _ _); [|reflexivity].
  destruct k; [reflexivity|]. destruct (has _ _); [reflexivity|]. apply IH.
Qed.

Lemma canonical_page va va' : va / 4096 = va' / 4096 -> is_canonical va = is_canonical va'.
Proof.
  intros E. unfold is_canonical. change 47 with (12 + 35).
  rewrite <- !Z.shiftr_shiftr by lia. rewrite !(Z.shiftr_div_pow2 _ 12) by lia.
  change (2 ^ 12) with 4096. now rewrite E.
Qed.

(** The physical address of a translation. *)
Definition phys_of (va : Z) (w : option (nat * Z)) : option Z :=
  match w with
  | Some (1%nat, e) => Some (frame e + va mod 4096)
  | Some (2%nat, e) => Some (frame e + va mod 2 ^ 21)
  | _ => None
  end.

Lemma frame_bound e : 0 <= frame e < 2 ^ 52.
Proof. rewrite frame_div. dlia. Qed.

Lemma get_phys_walk {F} (s : vmm F) root va :
  is_canonical va = true ->
  (has (tbl (vm_mem s) root (pml4_index va)) PTE_PRESENT = true ->
   has (tbl (vm_mem s) root (pml4_index va)) PDE_PS = false) ->
  vmm_get_phys root va s = phys_of va (walk 4 (vm_mem s) root va).
Proof.
  intros Hc Hps. unfold vmm_get_phys. rewrite Hc. cbn [negb].
  assert (Hoff : forall e, Z.land e PTE_FRAME_MASK +64 Z.land va 0xFFF = frame e + va mod 4096).
  { intros e. fold (frame e). change 0xFFF with (Z.ones 12). rewrite Z.land_ones by lia.
    change (2 ^ 12) with 4096. pose proof (frame_bound e). apply u64_id. dlia. }
  assert (Hoff2 : forall e, Z.land e PTE_FRAME_MASK +64 Z.land va 0x1FFFFF = frame e + va mod 2 ^ 21).
  { intros e. fold (frame e). change 0x1FFFFF with (Z.ones 21). rewrite Z.land_ones by lia.
    pose proof (frame_bound e). apply u64_id. dlia. }
  fold (tbl (vm_mem s) root (pml4_index va)). set (e4 := tbl _ root _) in *.
  cbn [walk]. change (idx 4 va) with (pml4_index va). fold e4.
  destruct (has e4 PTE_PRESENT); cbn [negb]; [|reflexivity]. rewrite (Hps eq_refl).
  fold (frame e4). fold (tbl (vm_mem s) (frame e4) (pdpt_index va)).
  change (idx 3 va) with (pdpt_index va). set (e3 := tbl _ (frame e4) _).
  destruct (has e3 PTE_PRESENT); cbn [negb]; [|reflexivity].
  destruct (has e3 PDE_PS); [reflexivity|].
  fold (frame e3). fold (tbl (vm_mem s) (frame e3) (pd_index va)).
  change (idx 2 va) with (pd_index va). set (e2 := tbl _ (frame e3) _).
  destruct (has e2 PTE_PRESENT); cbn [negb]; [|reflexivity].
  destruct (has e2 PDE_PS); [cbn [phys_of]; f_equal; apply Hoff2|].
  fold (frame e2). fold (tbl (vm_mem s) (frame e2) (pt_index va)).
  change (idx 1 va) with (pt_index va). set (e1 := tbl _ (frame e2) _).
  destruct (has e1 PTE_PRESENT); cbn [negb phys_of]; [|reflexivity]. f_equal. apply Hoff.
Qed.

Lemma user_readable_permitted {F} (s : vmm F) root va :
  vmm_is_user_readable root va s = is_canonical va && permitted [PTE_USER] 4 (vm_mem s) root va.
Proof.
  unfold vmm_is_user_readable. destruct (is_canonical va); [|reflexivity]. cbn [negb].
  cbn [permitted forallb Nat.ltb Nat.leb idx]. unfold tbl, frame.
  repeat match goal with
  | |- context [has ?e ?k] => destruct (has e k); cbn [negb andb orb]; try reflexivity
  end.
Qed.

Lemma user_writable_permitted {F} (s : vmm F) root va :
  vmm_is_user_writable root va s = is_canonical va && permitted [PTE_USER; PTE_WRITABLE] 4 (vm_mem s) root va.
Proof.
  unfold vmm_is_user_writable. destruct (is_canonical va); [|reflexivity]. cbn [negb].
  cbn [permitted forallb Nat.ltb Nat.leb idx]. unfold tbl, frame.
  repeat match goal with
  | |- context [has ?e ?k] => destruct (has e k); cbn [negb andb orb]; try reflexivity
  end.
Qed.

Lemma permitted_page need l m t va va' : va / 4096 = va' / 4096 -> permitted need l m t va = permitted need l m t va'.
Proof.
  intros E. revert t; induction l as [|k IH]; intros t; [reflexivity|].
  cbn [permitted]. rewrite (idx_page _ _ _ E). destruct k; [reflexivity|]. now rewrite IH.
Qed.

Lemma range_loop_spec (ok : Z -> bool) fuel p end_ :
  0 <= p -> end_ <= 2 ^ 47 -> end_ - 4096 * p <= 4096 * Z.of_nat fuel ->
  exists b, range_loop ok fuel (4096 * p) end_ = Ok b /\
    (b = true <-> forall q, p <= q -> 4096 * q < end_ -> ok (4096 * q) = true).
Proof.
  revert p; induction fuel as [|fuel IH]; intros p Hp He Hf; cbn [range_loop].
  - destruct (Z.ltb_spec (4096 * p) end_); [lia|]. exists true. split; [reflexivity|].
    split; [intros _ q; lia|reflexivity].
  - destruct (Z.ltb_spec (4096 * p) end_) as [Hlt|].
    2:{ exists true. split; [reflexivity|]. split; [intros _ q; lia|reflexivity]. }
    destruct (ok (4096 * p)) eqn:E; cbn [negb].
    + unfold PMM_PAGE_SIZE. rewrite u64_id by lia. replace (4096 * p + 4096) with (4096 * (p + 1)) by lia.
      destruct (IH (p + 1)) as (b & Eb & Hb); try lia. exists b. split; [exact Eb|]. rewrite Hb.
      split; intros Hq q Hpq Hqe; [|apply Hq; lia].
      destruct (Z.eq_dec p q) as [<-|]; [exact E|apply Hq; lia].
    + exists false. split; [reflexivity|]. split; [discriminate|].
      intros Hq. rewrite (Hq p) in E; [discriminate|lia|lia].
Qed.

Lemma range_check_spec (ok : Z -> bool) addr len :
  (forall x y, x / 4096 = y / 4096 -> ok x = ok y) -> 0 <= addr < 2 ^ 64 -> 0 <= len < 2 ^ 64 ->
  exists b, user_range_check ok addr len = Ok b /\
    (b = true <-> len = 0 \/ (addr + len <= 2 ^ 47 /\ forall x, addr <= x < addr + len -> ok x = true)).
Proof.
  intros Hok Ha Hl. unfold user_range_check. destruct (Z.eqb_spec len 0) as [->|Hlen].
  { exists true. split; [reflexivity|]. split; auto. }
  destruct (Z_lt_ge_dec (addr + len) (2 ^ 64)) as [Hno|Hov].
  2:{ assert (E : addr +64 len = addr + len - 2 ^ 64).
      { unfold u64. replace (addr + len) with (addr + len - 2 ^ 64 + 1 * 2 ^ 64) at 1 by lia.
        rewrite Z.mod_add, Z.mod_small by lia. reflexivity. }
      rewrite E. destruct (Z.ltb_spec (addr + len - 2 ^ 64) addr); [|lia].
      exists false. split; [reflexivity|]. split; [discriminate|]. intros [?|[? _]]; lia. }
  rewrite u64_id by lia. destruct (Z.ltb_spec (addr + len) addr); [lia|].
  change 0x0000800000000000 with (2 ^ 47). destruct (Z.ltb_spec (2 ^ 47) (addr + len)).
  { exists false. split; [reflexivity|]. split; [discriminate|]. intros [?|[? _]]; lia. }
  change (u64 (Z.lnot 0xFFF)) with (u64 (Z.lnot (2 ^ 12 - 1))). rewrite land_not_low by lia.
  change (2 ^ 12) with 4096. unfold PMM_PAGE_SIZE.
  replace (addr - addr mod 4096) with (4096 * (addr / 4096)) by dlia.
  destruct (range_loop_spec ok (Z.to_nat ((addr + len) / 4096 + 1)) (addr / 4096) (addr + len))
    as (b & Eb & Hb); [dlia|lia|rewrite Z2Nat.id by dlia; dlia|].
  exists b. split; [exact Eb|]. rewrite Hb. split.
  - intros Hq. right. split; [lia|]. intros x Hx. rewrite <- (Hok (4096 * (x / 4096)) x) by dlia. apply Hq; dlia.
  - intros [?|[_ Hx]] q Hq1 Hq2; [lia|]. destruct (Z_lt_ge_dec (4096 * q) addr).
    + rewrite (Hok _ addr) by dlia. apply Hx. lia.
    + apply Hx. lia.
Qed.

Section Spaces.
Context {F : Type} `{FrameSourceLaws F}.
Implicit Types (s : vmm F) (T : gmap Z nat).

(** An address space whose tables a change left alone. *)
Lemma inv_untouched T root s s' :
  pt_inv T root s -> untouched (fun x => exists l, T !! x = Some l) (vm_mem s) (vm_mem s') ->
  (forall q l, T !! q = Some l -> fs_used (vm_frames s') q /\ (fs_held (vm_frames s') q <-> fs_held (vm_frames s) q)) ->
  fs_ok (vm_frames s') -> fs_limit (vm_frames s') <= 2 ^ 30 ->
  pt_inv T root s' /\ forall va, walk 4 (vm_mem s') root va = walk 4 (vm_mem s) root va.
Proof.
  intros I U K Hok Hlim.
  assert (Hold : forall t l i, T !! t = Some l -> 0 <= i < 512 -> tbl (vm_mem s') t i = tbl (vm_mem s) t i)
    by (intros t l i Ht Hi; apply U; eauto).
  assert (HB : benign_on T (vm_mem s) (vm_mem s')) by (intros t l i Ht Hi; left; eapply Hold; eauto).
  assert (Hps : forall i, 0 <= i < 512 -> has (tbl (vm_mem s') root i) PTE_PRESENT = true -> has (tbl (vm_mem s') root i) PDE_PS = false)
    by (intros i Hi; rewrite (Hold root 4%nat) by (apply I || assumption); now apply (inv_no_ps _ _ _ I)).
  split; [|intros va; apply (walk_benign T root s _ _ _ _ I HB), I].
  constructor; [exact (inv_root _ _ _ I)|exact (inv_level _ _ _ I)|exact (inv_top _ _ _ I)|..|exact Hok|exact Hlim].
  - intros t l Ht. exact (proj1 (K t l Ht)).
  - intros t l i n Ht Hl Hi. rewrite (Hold t (S l)) by assumption. intros L Hup. pose proof (inv_child _ _ _ I t l i n Ht Hl Hi L) as Hn.
    apply (K n l Hn). apply (inv_held _ _ _ I t l i n Ht Hl Hi L). destruct Hup as [Hup|[Hr Hh]]; [now left|right].
    split; [exact Hr|]. now apply (K t (S l) Ht).
  - exact Hps.
  - intros t l i x Ht Hl Hi. rewrite (Hold t (S l)) by assumption. now apply (inv_child _ _ _ I).
  - intros t t' l l' i i' x Ht Ht' Hl Hl' Hi Hi'.
    rewrite (Hold t l), (Hold t' l') by assumption. now apply (inv_parent _ _ _ I t t' l l').
  - intros need va. apply (rights_benign T root s _ need va I HB), Hps, idx_range.
Qed.

(** ** Unmapping *)
Lemma next_lookup s t i :
  get_next_level s (phys_to_virt t) i false 0 =
  Ok (let e := tbl (vm_mem s) t i in
      if has e PTE_PRESENT && negb (has e PDE_PS) then phys_to_virt (frame e) else 0, s).
Proof.
  unfold get_next_level. fold (tbl (vm_mem s) t i). cbn [has negb andb].
  destruct (has _ PTE_PRESENT); [|reflexivity]. destruct (has _ PDE_PS); reflexivity.
Qed.

(** The descent without allocation: it ends at a table, or the address is not
    mapped by a page-table entry. *)
Lemma descend_lookup T root s va k t :
  pt_inv T root s -> down (vm_mem s) root va (S (S k)) t ->
  exists r, get_next_level s (phys_to_virt t) (idx (S (S k)) va) false 0 = Ok (r, s) /\
    ((r = 0 /\ forall e, walk 4 (vm_mem s) root va <> Some (1%nat, e)) \/
     (exists n, r = phys_to_virt n /\ r <> 0 /\ down (vm_mem s) root va (S k) n)).
Proof.
  intros I Hd. rewrite next_lookup. eexists. split; [reflexivity|]. cbn zeta.
  destruct (has (tbl (vm_mem s) t (idx (S (S k)) va)) PTE_PRESENT) eqn:Ep; cbn [andb].
  - destruct (links_cases _ Ep) as [Eps|L].
    + rewrite Eps. left. split; [reflexivity|]. intros e. rewrite (down_walk _ _ _ _ _ Hd).
      cbn [walk]. rewrite Ep, Eps. congruence.
    + pose proof L as (_ & Eps & _). rewrite Eps. right. eexists. split; [reflexivity|].
      assert (Hd' := down_step _ _ _ _ _ _ Hd L). split; [|exact Hd'].
      apply phys_to_virt_neq0. eapply inv_frame_ok; [exact I|]. eapply down_level; eauto.
  - left. split; [reflexivity|]. intros e. rewrite (down_walk _ _ _ _ _ Hd). cbn [walk]. rewrite Ep. discriminate.
Qed.

Lemma unmap_spec T root s va :
  pt_inv T root s -> 0 <= va < 2 ^ 64 -> is_canonical va = true -> va mod 4096 = 0 ->
  exists b s', vmm_unmap_page root va s = Ok (b, s') /\ pt_inv T root s' /\ vm_frames s' = vm_frames s /\
    (if b then (exists e, walk 4 (vm_mem s) root va = Some (1%nat, e)) /\
               walk 4 (vm_mem s') root va = None /\
               (root = vmm_get_current_pml4 s -> vm_invlpg s' = va :: vm_invlpg s)
     else s' = s /\ forall e, walk 4 (vm_mem s) root va <> Some (1%nat, e)) /\
    (forall va', 0 <= va' < 2 ^ 64 -> is_canonical va' = true -> va' / 4096 <> va / 4096 ->
       walk 4 (vm_mem s') root va' = walk 4 (vm_mem s) root va').
Proof.
  intros I Hva Hc Ha. unfold vmm_unmap_page, PMM_PAGE_SIZE. rewrite Hc, Ha. cbn [negb Z.eqb].
  change (pml4_index va) with (idx 4 va). change (pdpt_index va) with (idx 3 va).
  change (pd_index va) with (idx 2 va).
  destruct (descend_lookup T root s va 2 root I (down_root _ _ _)) as (r1 & -> & [[-> Hw]|(n3 & -> & Hr & D1)]);
    cbn [obind]; [exists false, s; auto 10|].
  destruct (Z.eqb_spec (phys_to_virt n3) 0); [done|].
  destruct (descend_lookup T root s va 1 n3 I D1) as (r2 & -> & [[-> Hw]|(n2 & -> & Hr2 & D2)]);
    cbn [obind]; [exists false, s; auto 10|].
  destruct (Z.eqb_spec (phys_to_virt n2) 0); [done|].
  destruct (descend_lookup T root s va 0 n2 I D2) as (r3 & -> & [[-> Hw]|(n1 & -> & Hr3 & D3)]);
    cbn [obind]; [exists false, s; auto 10|].
  destruct (Z.eqb_spec (phys_to_virt n1) 0); [done|].
  assert (Hleaf : walk 4 (vm_mem s) root va =
            if has (tbl (vm_mem s) n1 (idx 1 va)) PTE_PRESENT
            then Some (1%nat, tbl (vm_mem s) n1 (idx 1 va)) else None)
    by exact (down_walk _ _ _ _ _ D3).
  change (rd (vm_mem s) (phys_to_virt n1) (pt_index va)) with (tbl (vm_mem s) n1 (idx 1 va)).
  destruct (has (tbl (vm_mem s) n1 (idx 1 va)) PTE_PRESENT) eqn:Ep; cbn [negb].
  2:{ exists false, s. rewrite Hleaf. auto 10. }
  destruct (leaf_result T root s va n1 0 I Hva Hc D3) as (I4 & Wva & Woth); [discriminate|].
  do 2 eexists. split; [reflexivity|].
  change (vmm_get_current_pml4 (set_mem s _)) with (vmm_get_current_pml4 s).
  destruct (Z.eqb_spec root (vmm_get_current_pml4 s)) as [Er|Er].
  - split; [now apply invlpg_inv|]. split; [reflexivity|]. split; [|exact Woth].
    split; [eauto|]. split; [exact Wva|reflexivity].
  - split; [exact I4|]. split; [reflexivity|]. split; [|exact Woth].
    split; [eauto|]. split; [exact Wva|done].
Qed.

(** ** Creating an address space *)

(** A root whose upper half is that of [k] and whose lower half is empty. *)
Lemma clone_spec T k p s :
  pt_inv T k s -> T !! p = None -> fs_held (vm_frames s) p ->
  (forall i, 0 <= i < 512 -> tbl (vm_mem s) p i = if i <? 256 then 0 else tbl (vm_mem s) k i) ->
  pt_inv (<[p := 4%nat]> (delete k T)) p s /\
  forall va, walk 4 (vm_mem s) p va = if pml4_index va <? 256 then None else walk 4 (vm_mem s) k va.
Proof.
  intros I Hp Hh Hcopy.
  assert (Hslot : forall i n, 0 <= i < 512 -> links (tbl (vm_mem s) p i) n -> links (tbl (vm_mem s) k i) n).
  { intros i n Hi L. rewrite Hcopy in L by exact Hi. destruct (i <? 256); [destruct L; discriminate|exact L]. }
  assert (Hne : forall n l, T !! n = Some l -> (l <= 3)%nat -> n <> p /\ n <> k).
  { intros n l Hn Hl. split; intros ->; [congruence|]. rewrite (inv_root _ _ _ I) in Hn. injection Hn as <-. lia. }
  assert (Hget : forall t l, <[p := 4%nat]> (delete k T) !! t = Some l ->
            (t = p /\ l = 4%nat) \/ (t <> p /\ t <> k /\ T !! t = Some l)).
  { intros t l. rewrite lookup_insert_Some, lookup_delete_Some. intuition. }
  split.
  2:{ intros va. cbn [walk]. rewrite Hcopy by apply idx_range. change (idx 4 va) with (pml4_index va).
      destruct (pml4_index va <? 256); reflexivity. }
  constructor; [..|exact (inv_frames _ _ _ I)|exact (inv_limit _ _ _ I)].
  - apply lookup_insert_eq.
  - intros t l [[_ ->]|(_ & _ & Ht)]%Hget; [lia|eapply inv_level; eauto].
  - intros t [[-> _]|(_ & Hk & Ht)]%Hget; [reflexivity|]. destruct Hk. eapply inv_top; eauto.
  - intros t l [[-> _]|(_ & _ & Ht)]%Hget; [exact (fs_held_used _ _ (inv_frames _ _ _ I) Hh)|eapply inv_used; eauto].
  - intros t l i n [[-> [= ->]]|(Htp & Htk & Ht)]%Hget Hl Hi L [[Ep Hlow]|[Hnp Hht]].
    + rewrite Hcopy in L by exact Hi. destruct (Z.ltb_spec i 256); [destruct L; discriminate|lia].
    + now destruct Hnp.
    + contradiction.
    + apply (inv_held _ _ _ I t l i n Ht Hl Hi L). now right.
  - intros i Hi. rewrite Hcopy by exact Hi. destruct (i <? 256); [discriminate|now apply (inv_no_ps _ _ _ I)].
  - intros t l i n Ht Hl Hi L. assert (Hn : T !! n = Some l).
    { destruct (Hget _ _ Ht) as [[-> [= ->]]|(_ & _ & Ht')]; [|eapply (inv_child _ _ _ I); eauto].
      apply (inv_child _ _ _ I k 3%nat i n (inv_root _ _ _ I) ltac:(lia) Hi). auto. }
    assert (Hl3 : (l <= 3)%nat).
    { destruct (Hget _ _ Ht) as [[_ [= ->]]|(_ & _ & Ht')]; [lia|]. pose proof (inv_level _ _ _ I _ _ Ht'). lia. }
    destruct (Hne n l Hn Hl3). rewrite lookup_insert_ne, lookup_delete_ne by congruence. exact Hn.
  - intros t t' l l' i i' n [[-> ->]|(N1 & N2 & Ht)]%Hget [[-> ->]|(N1' & N2' & Ht')]%Hget Hl Hl' Hi Hi' L L'.
    + destruct (inv_parent _ _ _ I k k _ _ i i' n (inv_root _ _ _ I) (inv_root _ _ _ I) Hl Hl' Hi Hi'); auto.
    + destruct (inv_parent _ _ _ I k t' _ _ i i' n (inv_root _ _ _ I) Ht' Hl Hl' Hi Hi'); auto. congruence.
    + destruct (inv_parent _ _ _ I t k _ _ i i' n Ht (inv_root _ _ _ I) Hl Hl' Hi Hi'); auto. congruence.
    + eapply (inv_parent _ _ _ I t t' l l'); eauto.
  - intros need va Hneed. pose proof (inv_rights _ _ _ I need va Hneed) as R. cbn [permitted walk] in *.
    rewrite Hcopy by apply idx_range. destruct (idx 4 va <? 256); [reflexivity|exact R].
Qed.

#[local] Opaque zero_words copy_words.

Lemma create_eq s p f :
  fs_alloc (vm_frames s) = Ok (p, f) -> p <> 0 -> frame_ok p -> frame_ok (vmm_get_current_pml4 s) ->
  p <> vmm_get_current_pml4 s ->
  exists m', vmm_create_address_space s = Ok (Some p, set_mem (set_frames s f) m') /\
    forall t i, frame_ok t -> 0 <= i < 512 ->
      tbl m' t i = if t =? p then (if i <? 256 then 0 else tbl (vm_mem s) (vmm_get_current_pml4 s) i)
                   else tbl (vm_mem s) t i.
Proof.
  intros E Hp Hfp Hfk Hpk. unfold vmm_create_address_space. rewrite E. cbn [obind].
  destruct (Z.eqb_spec p 0); [done|]. eexists. split; [reflexivity|].
  change (vmm_get_current_pml4 (set_frames s f)) with (vmm_get_current_pml4 s).
  set (k := vmm_get_current_pml4 s) in *. cbn [set_frames vm_mem].
  intros t i Ht Hi. rewrite tbl_copy, !tbl_zero by (assumption || lia).
  destruct (Z.eqb_spec k p); [congruence|]. cbn [andb].
  destruct (Z.eqb_spec t p), (Z.leb_spec 256 i), (Z.ltb_spec i 256), (Z.leb_spec 0 i),
    (Z.ltb_spec i (256 + Z.of_nat 256)), (Z.ltb_spec i (0 + Z.of_nat 256)); cbn [andb]; reflexivity || lia.
Qed.

Lemma create_spec T s :
  let k := vmm_get_current_pml4 s in
  pt_inv T k s ->
  exists o s', vmm_create_address_space s = Ok (o, s') /\ pt_inv T k s' /\
    match o with
    | None => s' = s
    | Some p =>
      p <> k /\ T !! p = None /\ pt_inv (<[p := 4%nat]> (delete k T)) p s' /\
      (forall va, walk 4 (vm_mem s') k va = walk 4 (vm_mem s) k va) /\
      (forall va, walk 4 (vm_mem s') p va =
                  if pml4_index va <? 256 then None else walk 4 (vm_mem s) k va) /\
      keeps (vm_frames s) (vm_frames s') /\ ~ fs_used (vm_frames s) p /\ fs_held (vm_frames s') p
    end.
Proof.
  intros k I.
  destruct (fs_alloc_law _ (inv_frames _ _ _ I)) as (p & f & E & Hok & Hlim & Hcase).
  destruct Hcase as [[-> ->]|(Hp & Hfresh & Hheld)].
  { exists None, s. unfold vmm_create_address_space. rewrite E. cbn [obind Z.eqb].
    split; [now destruct s|]. auto. }
  assert (Hfp : frame_ok p).
  { destruct (fs_used_range f p Hok) as [Ha Hr]; [apply Hheld; now left|].
    rewrite Hlim in Hr. pose proof (inv_limit _ _ _ I). split; [exact Ha|lia]. }
  assert (Hfk : frame_ok k) by (eapply inv_frame_ok; [exact I|apply I]).
  assert (HpT : T !! p = None).
  { destruct (T !! p) eqn:Ep; [|reflexivity]. destruct (Hfresh (inv_used _ _ _ I _ _ Ep)). }
  assert (Hpk : p <> k) by (intros ->; rewrite (inv_root _ _ _ I) in HpT; discriminate).
  destruct (create_eq s p f E Hp Hfp Hfk Hpk) as (m' & -> & Htbl). fold k in Htbl.
  assert (Hold : forall t l i, T !! t = Some l -> 0 <= i < 512 -> tbl m' t i = tbl (vm_mem s) t i).
  { intros t l i Ht Hi. rewrite Htbl by (assumption || eapply inv_frame_ok; eauto).
    destruct (Z.eqb_spec t p) as [->|]; [congruence|reflexivity]. }
  assert (Hwalk : forall l t va, T !! t = Some l -> walk l m' t va = walk l (vm_mem s) t va).
  { intros l t va Ht. apply (walk_benign T k s m' l t va I); [|exact Ht].
    intros t' l' i' Ht' Hi'. left. eapply Hold; eauto. }
  assert (HK : keeps (vm_frames s) f).
  { intros q Hq. split; [apply Hheld; now right|]. rewrite (proj1 (Hheld q)). split; [intros [->|Hh]; [contradiction|exact Hh]|now right]. }
  assert (I' : pt_inv T k (set_mem (set_frames s f) m')).
  { apply (inv_untouched T k s); auto; [intros x i [l Hx] Hi; exact (Hold x l i Hx Hi)|intros q l Hq; apply HK; eapply inv_used; eauto|cbn; rewrite Hlim; apply I]. }
  exists (Some p), (set_mem (set_frames s f) m'). split; [reflexivity|]. split; [exact I'|].
  split; [exact Hpk|]. split; [exact HpT|].
  destruct (clone_spec T k p _ I' HpT) as [IC WC]; [apply Hheld; now left| |].
  { intros i Hi. cbn [set_mem vm_mem]. rewrite (Hold k 4%nat) by (apply I || assumption).
    rewrite Htbl, Z.eqb_refl by assumption. reflexivity. }
  split; [exact IC|]. cbn [set_mem vm_mem] in *. split; [intros va; apply Hwalk, I|].
  split; [intros va; rewrite WC; destruct (pml4_index va <? 256); [reflexivity|]; apply Hwalk, I|].
  split; [exact HK|]. split; [exact Hfresh|]. apply Hheld. now left.
Qed.

(** ** Destroying an address space *)

(** Giving back the frames of a list, in order. *)
Fixpoint release_all s (l : list Z) : outcome (vmm F) :=
  match l with
  | [] => Ok s
  | p :: r => let* s := release s p in release_all s r
  end.

Lemma release_all_app s l1 l2 :
  release_all s (l1 ++ l2) = let* s := release_all s l1 in release_all s l2.
Proof.
  revert s; induction l1 as [|p r IH]; intros s; [reflexivity|]. cbn [app release_all].
  destruct (release s p); [apply IH|reflexivity].
Qed.

Lemma release_mem s p s' : release s p = Ok s' -> vm_mem s' = vm_mem s.
Proof. unfold release. destruct (fs_free p (vm_frames s)); [|discriminate]. now intros [= <-]. Qed.

Lemma release_all_mem s l s' : release_all s l = Ok s' -> vm_mem s' = vm_mem s.
Proof.
  revert s; induction l as [|p r IH]; intros s; cbn; [now intros [= <-]|].
  destruct (release s p) as [s1|] eqn:E; [|discriminate]. cbn. intros E'.
  rewrite (IH _ E'). now apply (release_mem _ p).
Qed.

(** The tables below [t], a table of level [l], and [t] itself. *)
Fixpoint below (l : nat) (m : memory) (t : Z) : list Z :=
  match l with
  | O => []
  | 1%nat => [t]
  | S k => concat ((fun i => let e := tbl m t i in
                    if has e PTE_PRESENT && negb (has e PDE_PS) then below k m (frame e) else [])
                   <$> seqZ 0 512) ++ [t]
  end.

(** The tables that belong to the user half of the address space, and its root. *)
Definition user_tables (m : memory) (root : Z) : list Z :=
  concat ((fun i => if has (tbl m root i) PTE_PRESENT then below 3 m (frame (tbl m root i)) else [])
          <$> seqZ 0 256) ++ [root].

Lemma each_entry_release (visit : Z -> vmm F -> outcome (vmm F)) (L : Z -> list Z) m n i s :
  (forall i s, vm_mem s = m -> visit i s = release_all s (L i)) -> vm_mem s = m ->
  each_entry visit n i s = release_all s (concat (L <$> seqZ i (Z.of_nat n))).
Proof.
  intros Hv. revert i s; induction n as [|n IH]; intros i s Hs; [reflexivity|].
  cbn [each_entry]. rewrite seqZ_cons by lia. rewrite fmap_cons. cbn [concat].
  rewrite release_all_app, (Hv _ _ Hs). destruct (release_all s (L i)) as [s1|] eqn:E; [|reflexivity].
  cbn [obind]. replace (Z.pred (Z.of_nat (S n))) with (Z.of_nat n) by lia. apply IH.
  now rewrite (release_all_mem _ _ _ E).
Qed.

Lemma free_page_table_eq l t s :
  (1 <= l)%nat -> free_page_table l t s = release_all s (below l (vm_mem s) t).
Proof.
  assert (Hone : forall s p, release s p = release_all s [p])
    by (intros s' p; cbn; now destruct (release s' p)).
  revert t s; induction l as [|[|k] IH]; intros t s Hl; [lia|apply Hone|].
  change (below (S (S k)) (vm_mem s) t) with
    (concat ((fun i => let e := tbl (vm_mem s) t i in
       if has e PTE_PRESENT && negb (has e PDE_PS) then below (S k) (vm_mem s) (frame e) else [])
       <$> seqZ 0 (Z.of_nat 512)) ++ [t]).
  rewrite release_all_app, <- (each_entry_release (fun i s =>
      let e := rd (vm_mem s) (phys_to_virt t) i in
      if has e PTE_PRESENT then
        if negb (has e PDE_PS) then free_page_table (S k) (Z.land e PTE_FRAME_MASK) s else Ok s
      else Ok s) _ (vm_mem s) 512 0 s); [|..|reflexivity].
  - cbn [free_page_table]. destruct (each_entry _ 512 0 s); [apply Hone|reflexivity].
  - intros i s' Hs'. cbn zeta. rewrite Hs'. fold (tbl (vm_mem s) t i).
    destruct (has _ PTE_PRESENT); [|reflexivity]. destruct (has _ PDE_PS); [reflexivity|]. cbn [negb andb].
    rewrite IH by lia. now rewrite Hs'.
Qed.

Lemma destroy_eq root s :
  root <> 0 -> vmm_destroy_address_space root s = release_all s (user_tables (vm_mem s) root).
Proof.
  intros Hr. unfold vmm_destroy_address_space. destruct (Z.eqb_spec root 0); [done|].
  unfold user_tables. change (seqZ 0 256) with (seqZ 0 (Z.of_nat 256)). rewrite release_all_app.
  rewrite <- (each_entry_release (fun i s =>
      let e := rd (vm_mem s) (phys_to_virt root) i in
      if has e PTE_PRESENT then free_page_table 3 (Z.land e PTE_FRAME_MASK) s else Ok s) _ (vm_mem s) 256 0 s);
    [|..|reflexivity].
  - destruct (each_entry _ 256 0 s) as [s1|]; [|reflexivity]. cbn. now destruct (release s1 root).
  - intros i s' Hs'. cbn zeta. rewrite Hs'. fold (tbl (vm_mem s) root i).
    destruct (has _ PTE_PRESENT); [|reflexivity]. rewrite free_page_table_eq by lia. now rewrite Hs'.
Qed.

Lemma release_all_spec s l :
  fs_ok (vm_frames s) -> NoDup l -> (forall p, p ∈ l -> fs_held (vm_frames s) p) ->
  exists s', release_all s l = Ok s' /\ fs_ok (vm_frames s') /\ fs_limit (vm_frames s') = fs_limit (vm_frames s) /\
    forall q, (fs_held (vm_frames s') q <-> fs_held (vm_frames s) q /\ q ∉ l) /\ (fs_used (vm_frames s') q <-> fs_used (vm_frames s) q /\ q ∉ l).
Proof.
  intros Hok ND. revert s Hok; induction ND as [|p r Hp ND IH]; intros s Hok Hh; cbn [release_all].
  - exists s. split; [reflexivity|]. split; [exact Hok|]. split; [reflexivity|]. intros q. rewrite elem_of_nil. tauto.
  - destruct (fs_free_law _ p Hok (Hh p ltac:(left))) as (f & E & Hok' & Hlim & Hf).
    unfold release at 1. rewrite E. cbn [obind].
    destruct (IH (set_frames s f)) as (s' & E' & Hok'' & Hlim' & Hf'); [exact Hok'| |].
    { intros q Hq. cbn. apply Hf. split; [intros ->; contradiction|]. apply Hh. now right. }
    exists s'. split; [exact E'|]. split; [exact Hok''|]. split; [cbn in Hlim'; congruence|]. intros q. destruct (Hf' q) as [-> ->]. cbn. destruct (Hf q) as [-> ->]. rewrite elem_of_cons. tauto.
Qed.

(** The tables below an entry of [t], a table of level [S (S k)]. *)
Lemma below_step k m t x :
  x ∈ below (S (S k)) m t <->
  x = t \/ exists i n, 0 <= i < 512 /\ links (tbl m t i) n /\ x ∈ below (S k) m n.
Proof.
  change (below (S (S k)) m t) with
    (concat ((fun i => let e := tbl m t i in
       if has e PTE_PRESENT && negb (has e PDE_PS) then below (S k) m (frame e) else [])
       <$> seqZ 0 512) ++ [t]).
  rewrite elem_of_app, elem_of_concat_map, list_elem_of_singleton. split.
  - intros [(i & Hi & Hx)|Hx]; [right|now left]. apply elem_of_seqZ in Hi. cbn zeta in Hx.
    destruct (has (tbl m t i) PTE_PRESENT) eqn:Ep; [|now apply elem_of_nil in Hx].
    destruct (has (tbl m t i) PDE_PS) eqn:Es; [now apply elem_of_nil in Hx|].
    exists i, (frame (tbl m t i)). split; [lia|]. split; [split; auto|exact Hx].
  - intros [->|(i & n & Hi & (Hp & Hs & <-) & Hx)]; [now right|left]. exists i.
    split; [apply elem_of_seqZ; lia|]. cbn zeta. now rewrite Hp, Hs.
Qed.

Lemma below_level T root s l t x :
  pt_inv T root s -> T !! t = Some l -> x ∈ below l (vm_mem s) t ->
  exists k, (k <= l)%nat /\ T !! x = Some k /\ (k = l -> x = t).
Proof.
  intros I. revert t; induction l as [|[|k] IH]; intros t Ht Hx; [now apply elem_of_nil in Hx| |].
  - apply list_elem_of_singleton in Hx as ->. eauto.
  - apply below_step in Hx as [->|(i & n & Hi & L & Hx)]; [eauto|].
    pose proof (inv_child _ _ _ I t _ _ _ Ht ltac:(lia) Hi L) as Hn.
    destruct (IH n Hn Hx) as (j & Hj & Hxj & _). exists j. split; [lia|]. split; [exact Hxj|lia].
Qed.

(** The tables below a held one are held. *)
Lemma below_held T root s l t x :
  pt_inv T root s -> T !! t = Some l -> t <> root -> fs_held (vm_frames s) t -> x ∈ below l (vm_mem s) t -> fs_held (vm_frames s) x.
Proof.
  intros I. revert t; induction l as [|[|k] IH]; intros t Ht Hr Hh Hx; [now apply elem_of_nil in Hx|now apply list_elem_of_singleton in Hx as ->|].
  apply below_step in Hx as [->|(i & n & Hi & L & Hx)]; [exact Hh|].
  pose proof (inv_child _ _ _ I t _ _ _ Ht ltac:(lia) Hi L) as Hn. apply (IH n Hn); [|apply (inv_held _ _ _ I t (S k) i n Ht ltac:(lia) Hi L); now right|exact Hx].
  intros ->. rewrite (inv_root _ _ _ I) in Hn. pose proof (inv_level _ _ _ I _ _ Ht). injection Hn as <-. lia.
Qed.

Lemma below_disjoint T root s l t t' x :
  pt_inv T root s -> T !! t = Some l -> T !! t' = Some l ->
  x ∈ below l (vm_mem s) t -> x ∈ below l (vm_mem s) t' -> t = t'.
Proof.
  intros I. revert t t'; induction l as [|[|k] IH]; intros t t' Ht Ht' Hx Hx'; [now apply elem_of_nil in Hx| |].
  - apply list_elem_of_singleton in Hx as ->. now apply list_elem_of_singleton in Hx'.
  - destruct (below_level _ _ _ _ _ _ I Ht Hx) as (j & Hj & Hxj & Hjl).
    destruct (below_level _ _ _ _ _ _ I Ht' Hx') as (j' & _ & Hxj' & Hjl').
    rewrite Hxj in Hxj'. injection Hxj' as <-.
    apply below_step in Hx as [->|(i & n & Hi & L & Hx)].
    { rewrite Ht in Hxj. injection Hxj as <-. auto. }
    apply below_step in Hx' as [->|(i' & n' & Hi' & L' & Hx')].
    { rewrite Ht' in Hxj. injection Hxj as <-. symmetry. auto. }
    pose proof (inv_child _ _ _ I t _ _ _ Ht ltac:(lia) Hi L) as Hn.
    pose proof (inv_child _ _ _ I t' _ _ _ Ht' ltac:(lia) Hi' L') as Hn'.
    rewrite <- (IH n n' Hn Hn' Hx Hx') in L'.
    destruct (inv_parent _ _ _ I t t' _ _ i i' n Ht Ht' ltac:(lia) ltac:(lia) Hi Hi' L L'). assumption.
Qed.

(** Different entries have disjoint tables below them. *)
Lemma below_entries T root s l t i j n n' x :
  pt_inv T root s -> T !! t = Some (S l) -> (1 <= l)%nat -> 0 <= i < 512 -> 0 <= j < 512 ->
  links (tbl (vm_mem s) t i) n -> links (tbl (vm_mem s) t j) n' ->
  x ∈ below l (vm_mem s) n -> x ∈ below l (vm_mem s) n' -> i = j.
Proof.
  intros I Ht Hl Hi Hj L L' Hx Hx'.
  pose proof (inv_child _ _ _ I t _ _ _ Ht Hl Hi L) as Hn.
  pose proof (inv_child _ _ _ I t _ _ _ Ht Hl Hj L') as Hn'.
  rewrite <- (below_disjoint _ _ _ _ _ _ _ I Hn Hn' Hx Hx') in L'.
  destruct (inv_parent _ _ _ I t t _ _ i j n Ht Ht ltac:(lia) ltac:(lia) Hi Hj L L'). assumption.
Qed.

Lemma below_NoDup T root s l t : pt_inv T root s -> T !! t = Some l -> NoDup (below l (vm_mem s) t).
Proof.
  intros I. revert t; induction l as [|[|k] IH]; intros t Ht; [constructor|apply NoDup_singleton|].
  set (f := fun i => let e := tbl (vm_mem s) t i in
       if has e PTE_PRESENT && negb (has e PDE_PS) then below (S k) (vm_mem s) (frame e) else []).
  change (below (S (S k)) (vm_mem s) t) with (concat (f <$> seqZ 0 512) ++ [t]).
  assert (Hf : forall i x, x ∈ f i -> exists n, links (tbl (vm_mem s) t i) n /\ x ∈ below (S k) (vm_mem s) n).
  { intros i x. unfold f. cbn zeta. destruct (has _ PTE_PRESENT) eqn:Ep; [|now intros H'%elem_of_nil].
    destruct (has _ PDE_PS) eqn:Es; [now intros H'%elem_of_nil|]. intros Hx. eexists. split; [split; auto|exact Hx]. }
  apply list.NoDup_app. split; [|split; [|apply NoDup_singleton]].
  - apply NoDup_concat_map; [apply NoDup_seqZ| |].
    + intros i Hi%elem_of_seqZ. unfold f. cbn zeta. destruct (has _ PTE_PRESENT) eqn:Ep; [|constructor].
      destruct (has _ PDE_PS) eqn:Es; [constructor|]. cbn [andb negb]. apply IH.
      apply (inv_child _ _ _ I t _ i _ Ht ltac:(lia) ltac:(lia)). split; auto.
    + intros i j x Hi%elem_of_seqZ Hj%elem_of_seqZ Hx Hx'.
      destruct (Hf _ _ Hx) as (n & L & Hn), (Hf _ _ Hx') as (n' & L' & Hn').
      eapply (below_entries T root s (S k) t i j n n' x); eauto; lia.
  - intros x (i & Hi & Hx)%elem_of_concat_map ->%list_elem_of_singleton. apply elem_of_seqZ in Hi.
    destruct (Hf _ _ Hx) as (n & L & Hn).
    pose proof (inv_child _ _ _ I t _ i _ Ht ltac:(lia) ltac:(lia) L) as Hn'.
    destruct (below_level _ _ _ _ _ _ I Hn' Hn) as (j & Hj & Hxj & _). rewrite Ht in Hxj. injection Hxj as <-. lia.
Qed.

Lemma user_tables_spec T root s :
  pt_inv T root s -> NoDup (user_tables (vm_mem s) root) /\
  forall x, x ∈ user_tables (vm_mem s) root -> (exists l, T !! x = Some l) /\ (x = root \/ fs_held (vm_frames s) x).
Proof.
  intros I. pose proof (inv_root _ _ _ I) as Hr. unfold user_tables.
  set (f := fun i => if has (tbl (vm_mem s) root i) PTE_PRESENT
                     then below 3 (vm_mem s) (frame (tbl (vm_mem s) root i)) else []).
  assert (Hf : forall i x, 0 <= i < 512 -> x ∈ f i ->
            exists n, links (tbl (vm_mem s) root i) n /\ T !! n = Some 3%nat /\ x ∈ below 3 (vm_mem s) n).
  { intros i x Hi. unfold f. destruct (has _ PTE_PRESENT) eqn:Ep; [|now intros H'%elem_of_nil].
    pose proof (inv_no_ps _ _ _ I i Hi Ep) as Es. intros Hx. eexists.
    assert (L : links (tbl (vm_mem s) root i) (frame (tbl (vm_mem s) root i))) by (split; auto).
    split; [exact L|]. split; [|exact Hx]. apply (inv_child _ _ _ I root _ i _ Hr ltac:(lia) Hi L). }
  split.
  - apply list.NoDup_app. split; [|split; [|apply NoDup_singleton]].
    + apply NoDup_concat_map; [apply NoDup_seqZ| |].
      * intros i Hi%elem_of_seqZ. unfold f. destruct (has _ PTE_PRESENT) eqn:Ep; [|constructor].
        apply (below_NoDup T root s 3 _ I).
        apply (inv_child _ _ _ I root 3 i _ Hr ltac:(lia) ltac:(lia)). split; [exact Ep|].
        split; [apply (inv_no_ps _ _ _ I i ltac:(lia) Ep)|reflexivity].
      * intros i j x Hi%elem_of_seqZ Hj%elem_of_seqZ Hx Hx'.
        destruct (Hf i x ltac:(lia) Hx) as (n & L & _ & Hn), (Hf j x ltac:(lia) Hx') as (n' & L' & _ & Hn').
        eapply (below_entries T root s 3 root i j n n' x); eauto; lia.
    + intros x (i & Hi & Hx)%elem_of_concat_map ->%list_elem_of_singleton. apply elem_of_seqZ in Hi.
      destruct (Hf i _ ltac:(lia) Hx) as (n & _ & Hn' & Hn).
      destruct (below_level _ _ _ _ _ _ I Hn' Hn) as (j & Hj & Hxj & _). rewrite Hr in Hxj. injection Hxj as <-. lia.
  - intros x [(i & Hi & Hx)%elem_of_concat_map| ->%list_elem_of_singleton]%elem_of_app; [|eauto].
    apply elem_of_seqZ in Hi. destruct (Hf i x ltac:(lia) Hx) as (n & L & Hn' & Hn).
    destruct (below_level _ _ _ _ _ _ I Hn' Hn) as (j & _ & Hxj & _). split; [eauto|]. right.
    apply (below_held T root s 3 n x I Hn'); [intros ->; congruence| |exact Hn].
    apply (inv_held _ _ _ I root 3 i n Hr ltac:(lia) ltac:(lia) L). left. split; [reflexivity|lia].
Qed.

Lemma destroy_tables T root s : pt_inv T root s -> fs_held (vm_frames s) root ->
  exists s', vmm_destroy_address_space root s = Ok s' /\ fs_ok (vm_frames s') /\ fs_limit (vm_frames s') = fs_limit (vm_frames s) /\ vm_mem s' = vm_mem s /\
    forall q, (fs_held (vm_frames s') q <-> fs_held (vm_frames s) q /\ q ∉ user_tables (vm_mem s) root) /\
              (fs_used (vm_frames s') q <-> fs_used (vm_frames s) q /\ q ∉ user_tables (vm_mem s) root).
Proof.
  intros I Hroot. destruct (user_tables_spec _ _ _ I) as [ND HT].
  assert (Hr : root <> 0) by (pose proof (fs_held_range _ _ (inv_frames _ _ _ I) Hroot); lia).
  rewrite (destroy_eq root s Hr).
  destruct (release_all_spec s _ (inv_frames _ _ _ I) ND) as (s' & E & Hok & Hlim & Hh).
  { intros p Hp. destruct (HT p Hp) as [_ [->|Hp']]; assumption. }
  exists s'. split; [exact E|]. split; [exact Hok|]. split; [exact Hlim|]. split; [now apply (release_all_mem s _ s') in E|exact Hh].
Qed.

(** ** Two address spaces *)

Lemma below_self k m t : t ∈ below (S k) m t.
Proof. destruct k; [left|]. apply below_step. now left. Qed.

(** The tables on the way of a user address belong to the user half. *)
Lemma down_user m root va l x :
  pml4_index va < 256 -> down m root va l x -> x ∈ user_tables m root.
Proof.
  intros Hlow Hd.
  assert (Hx : (l = 4%nat /\ x = root) \/
               exists n, links (tbl m root (idx 4 va)) n /\ forall y, y ∈ below l m x -> y ∈ below 3 m n).
  { induction Hd as [|k t n Hd IH L]; [left; split; reflexivity|]. right.
    destruct IH as [[E ->]|(n0 & L0 & Hsub)].
    - injection E as ->. exists n. split; [exact L|]. intros y Hy; exact Hy.
    - exists n0. split; [exact L0|]. intros y Hy. apply Hsub, below_step. right.
      exists (idx (S (S k)) va), n. split; [apply idx_range|]. split; [exact L|exact Hy]. }
  assert (Hl : (1 <= l)%nat) by (destruct Hd; lia).
  unfold user_tables. apply elem_of_app. destruct Hx as [[_ ->]|(n & (Hp & _ & Hf) & Hsub)]; [right; left|left].
  apply elem_of_concat_map. exists (pml4_index va). pose proof (idx_range 4 va) as Hi.
  change (idx 4 va) with (pml4_index va) in *. split; [apply elem_of_seqZ; lia|].
  rewrite Hp, Hf. apply Hsub. destruct l; [lia|apply below_self].
Qed.

End Spaces.

(** ** A concrete state: an empty root table in frame 2 of a 16-frame machine *)
Definition frames0 : pmm := set_bitmap pmm16 [7; 0] 3.
Definition vm0 : vmm pmm := mkVmm ∅ frames0 8192 0 8192 (phys_to_virt 8192) [].
Definition tables0 : gmap Z nat := {[8192 := 4%nat]}.

Lemma frames0_ok : fs_ok frames0 /\ forall q, fs_held frames0 q <-> q = 8192 \/ fs_held pmm16 q.
Proof.
  destruct (fs_alloc_law pmm16 pmm16_ok) as (p & f & E & Hok & _ & Hcase).
  assert (E' : fs_alloc pmm16 = Ok (8192, frames0)) by reflexivity.
  rewrite E' in E. injection E as <- <-. split; [exact Hok|].
  destruct Hcase as [[? _]|(_ & _ & Hh)]; [discriminate|intros q; exact (proj1 (Hh q))].
Qed.

(** An address space that is an empty root table. *)
Lemma empty_root_inv {F} `{FrameSourceLaws F} (f : F) root : fs_ok f -> fs_held f root -> fs_limit f <= 2 ^ 30 ->
  pt_inv {[root := 4%nat]} root (mkVmm ∅ f root 0 root (phys_to_virt root) []).
Proof.
  intros Hok Hh Hl.
  assert (Hget : forall t l, ({[root := 4%nat]} : gmap Z nat) !! t = Some l -> t = root /\ l = 4%nat)
    by (intros t l; rewrite lookup_singleton_Some; intuition).
  constructor; cbn [vm_mem vm_frames].
  - apply lookup_singleton_eq.
  - intros t l [_ ->]%Hget. lia.
  - intros t [-> _]%Hget. reflexivity.
  - intros t l [-> _]%Hget. exact (fs_held_used _ _ Hok Hh).
  - intros t l i n _ _ _ [Hp _]. discriminate.
  - intros i _. discriminate.
  - intros t l i n _ _ _ [Hp _]. discriminate.
  - intros t t' l l' i i' n _ _ _ _ _ _ [Hp _]. discriminate.
  - intros need va _. reflexivity.
  - exact Hok.
  - exact Hl.
Qed.

Lemma vm0_inv : pt_inv tables0 8192 vm0.
Proof. apply empty_root_inv; [apply frames0_ok|apply frames0_ok; now left|cbn; lia]. Qed.

(** ** Theorems *)
Section Claims.
Context {F : Type} `{FrameSourceLaws F}.

(** C3: [vmm_map_page] on a canonical, page-aligned address returns without
    touching memory in use other than tables on the way to the address, and keeps the
    tree of tables well formed.  On success the page was unmapped before and is now
    translated by an entry with the requested frame and flags; a program can read or
    write it exactly as the flags say, the entries of the tables above included; the
    TLB entry is dropped when the address space is the active one, and no other page
    changes, neither its translation nor its permissions.  On failure nothing of this
    changes at all, and the page was mapped already or the frame allocator is
    exhausted. *)
Theorem vmm_map_page_correct (T : gmap Z nat) root (s : vmm F) va pa flags :
  pt_inv T root s -> 0 <= va < 2 ^ 64 -> is_canonical va = true -> va mod 4096 = 0 -> pa mod 4096 = 0 ->
  exists b s' T', vmm_map_page root va pa flags s = Ok (b, s') /\ pt_inv T' root s' /\ T ⊆ T' /\
    keeps (vm_frames s) (vm_frames s') /\ map_result root va pa flags s s' b /\
    (forall va', 0 <= va' < 2 ^ 64 -> is_canonical va' = true -> b = false \/ va' / 4096 <> va / 4096 -> same_access root s s' va').
Proof.
  intros I Hva Hc Ha Hpa.
  destruct (map_spec T root s va pa flags I Hva Hc Ha Hpa) as (b & s' & T' & E & I' & HS & _ & Hh & _ & _ & Hm).
  exists b, s', T'. do 5 (split; [assumption|]). intros va' Hva' Hc' Hb. apply (same_access_inv T T' root s s' va' I I').
  destruct Hm as [Hoth Hres]. destruct (decide (va' / 4096 = va / 4096)) as [E'|Hne]; [|now apply Hoth].
  destruct Hb as [->|Hne]; [|contradiction]. rewrite !(walk_page 4 _ root va' va E'). apply Hres.
Qed.

(** A successful mapping is what [vmm_get_phys] reports: every address of the
    page translates to the same offset in the frame, and the answer for every
    address outside the page is the one before the call. *)
Theorem vmm_map_get_phys_roundtrip (T : gmap Z nat) root (s s' : vmm F) va pa flags :
  pt_inv T root s -> 0 <= va < 2 ^ 64 -> is_canonical va = true -> va mod 4096 = 0 ->
  pa mod 4096 = 0 -> 0 <= pa < 2 ^ 52 ->
  vmm_map_page root va pa flags s = Ok (true, s') ->
  (forall off, 0 <= off < 4096 -> vmm_get_phys root (va + off) s' = Some (pa + off)) /\
  (forall va', 0 <= va' < 2 ^ 64 -> va' / 4096 <> va / 4096 -> vmm_get_phys root va' s' = vmm_get_phys root va' s).
Proof.
  intros I Hva Hc Ha Hpa Hpr E.
  destruct (map_spec T root s va pa flags I Hva Hc Ha Hpa) as (b & s1 & T' & E1 & I' & _ & _ & _ & _ & _ & Hm).
  rewrite E in E1. injection E1 as <- <-. destruct Hm as [Hoth (_ & Hw & _ & _)].
  assert (Hps : forall v (x : vmm F) T0, pt_inv T0 root x -> has (tbl (vm_mem x) root (pml4_index v)) PTE_PRESENT = true ->
            has (tbl (vm_mem x) root (pml4_index v)) PDE_PS = false).
  { intros v x T0 Ix. apply (inv_no_ps _ _ _ Ix), (idx_range 4). }
  split.
  - intros off Hoff. assert (Hp : (va + off) / 4096 = va / 4096) by dlia.
    rewrite get_phys_walk; [|now rewrite (canonical_page _ _ Hp)|eapply Hps; eauto].
    rewrite (walk_page _ _ _ _ _ Hp), Hw. cbn [phys_of]. rewrite frame_pte by assumption.
    do 2 f_equal. dlia.
  - intros va' Hva' Hne. destruct (is_canonical va') eqn:Hc'.
    + rewrite !get_phys_walk by (assumption || eapply Hps; eauto). now rewrite Hoth.
    + unfold vmm_get_phys. now rewrite Hc'.
Qed.

(** [vmm_unmap_page] removes exactly the translation of a page mapped by a
    page-table entry, drops its TLB entry when the address space is active, and
    otherwise fails without changing anything; large pages and unmapped pages
    are refused. *)
Theorem vmm_unmap_page_correct (T : gmap Z nat) root (s : vmm F) va :
  pt_inv T root s -> 0 <= va < 2 ^ 64 -> is_canonical va = true -> va mod 4096 = 0 ->
  exists b s', vmm_unmap_page root va s = Ok (b, s') /\ pt_inv T root s' /\ vm_frames s' = vm_frames s /\
    (if b then (exists e, walk 4 (vm_mem s) root va = Some (1%nat, e)) /\
               walk 4 (vm_mem s') root va = None /\
               (root = vmm_get_current_pml4 s -> vm_invlpg s' = va :: vm_invlpg s)
     else s' = s /\ forall e, walk 4 (vm_mem s) root va <> Some (1%nat, e)) /\
    (forall va', 0 <= va' < 2 ^ 64 -> is_canonical va' = true -> va' / 4096 <> va / 4096 ->
       walk 4 (vm_mem s') root va' = walk 4 (vm_mem s) root va').
Proof. apply unmap_spec. Qed.

(** A new address space shares the kernel half of the active one and has an
    empty user half; the active address space is unchanged, and both are well
    formed. *)
Theorem vmm_create_address_space_correct (T : gmap Z nat) (s : vmm F) :
  let k := vmm_get_current_pml4 s in
  pt_inv T k s ->
  exists o s', vmm_create_address_space s = Ok (o, s') /\ pt_inv T k s' /\
    match o with
    | None => s' = s
    | Some p =>
      p <> k /\ T !! p = None /\ pt_inv (<[p := 4%nat]> (delete k T)) p s' /\
      (forall va, walk 4 (vm_mem s') k va = walk 4 (vm_mem s) k va) /\
      (forall va, walk 4 (vm_mem s') p va =
                  if pml4_index va <? 256 then None else walk 4 (vm_mem s) k va) /\
      keeps (vm_frames s) (vm_frames s') /\ ~ fs_used (vm_frames s) p /\ fs_held (vm_frames s') p
    end.
Proof. apply create_spec. Qed.

(** C29: [vmm_destroy_address_space] on an address space with a root of its own (not
    the boot tables) returns without a failed assertion in the frame allocator, so no
    frame is freed twice, and gives back exactly the tables of the user half and the
    root.  The comment in vmm.h says that it frees all user mappings; the code does not
    free the frames that the user half maps: they stay held, as do the tables of the
    shared kernel half.  Every other address space stays well formed, with the same
    translations. *)
Theorem vmm_destroy_address_space_correct (T : gmap Z nat) root (s : vmm F) :
  pt_inv T root s -> fs_held (vm_frames s) root ->
  exists s', vmm_destroy_address_space root s = Ok s' /\ fs_ok (vm_frames s') /\
    vm_mem s' = vm_mem s /\
    (forall q, fs_held (vm_frames s') q <-> fs_held (vm_frames s) q /\ q ∉ user_tables (vm_mem s) root) /\
    (forall q, q ∈ user_tables (vm_mem s) root -> exists l, T !! q = Some l) /\
    (forall T2 r2, pt_inv T2 r2 s -> (forall x, x ∈ user_tables (vm_mem s) root -> T2 !! x = None) ->
       pt_inv T2 r2 s' /\ forall va, same_access r2 s s' va).
Proof.
  intros I Hroot. destruct (destroy_tables T root s I Hroot) as (s' & E & Hok & Hlim & Hm & Hh). exists s'.
  split; [exact E|]. split; [exact Hok|]. split; [exact Hm|]. split; [intros q; apply Hh|]. split; [intros q Hq; now apply (user_tables_spec _ _ _ I)|].
  intros T2 r2 I2 Hdis. destruct (inv_untouched T2 r2 s s' I2) as [I2' W].
  - intros x i _ _. now rewrite Hm.
  - intros q l Hq. assert (Hn : q ∉ user_tables (vm_mem s) root) by (intros Hin; rewrite (Hdis q Hin) in Hq; discriminate).
    destruct (Hh q) as [Hh1 Hh2]. pose proof (inv_used _ _ _ I2 q l Hq). rewrite Hh1, Hh2. tauto.
  - exact Hok.
  - rewrite Hlim. apply I.
  - split; [exact I2'|]. intros va. exact (same_access_inv _ _ _ _ _ va I2 I2' (W va)).
Qed.

(** C6: isolation of address spaces: mapping a user page in one address space
    changes neither the translations nor the permissions of another one that does not
    share its user tables, and leaves the other one well formed. *)
Theorem vmm_map_page_isolated (T1 T2 : gmap Z nat) r1 r2 (s s' : vmm F) va pa flags b :
  pt_inv T1 r1 s -> pt_inv T2 r2 s ->
  (forall x, x ∈ user_tables (vm_mem s) r1 -> T2 !! x = None) ->
  0 <= va < 2 ^ 64 -> is_canonical va = true -> va mod 4096 = 0 -> pa mod 4096 = 0 -> pml4_index va < 256 ->
  vmm_map_page r1 va pa flags s = Ok (b, s') ->
  pt_inv T2 r2 s' /\ forall va', same_access r2 s s' va'.
Proof.
  intros I1 I2 Hdis Hva Hc Ha Hpa Hlow E.
  destruct (map_spec T1 r1 s va pa flags I1 Hva Hc Ha Hpa) as (b' & s1 & T' & E1 & I' & _ & _ & Hh & _ & HU & _).
  rewrite E in E1. injection E1 as <- <-. destruct (inv_untouched T2 r2 s s' I2) as [I2' W].
  - apply HU. split.
    + intros x [l Hx]. split; [exact (inv_frame_ok _ _ _ _ _ I2 Hx)|exact (inv_used _ _ _ I2 _ _ Hx)].
    + intros l x Hd [l' Hx]. rewrite (Hdis x) in Hx; [discriminate|]. eapply down_user; eauto.
  - intros q l Hq. apply Hh. exact (inv_used _ _ _ I2 q l Hq).
  - apply I'.
  - apply I'.
  - split; [exact I2'|]. intros va'. exact (same_access_inv _ _ _ _ _ va' I2 I2' (W va')).
Qed.

(** C30: [user_range_readable] accepts a buffer exactly when it is empty, or lies
    below the end of the user half and the processor permits a user-mode read at
    each of its bytes; it always returns, also for ranges that wrap around. *)
Theorem user_range_readable_correct root addr len (s : vmm F) :
  0 <= addr < 2 ^ 64 -> 0 <= len < 2 ^ 64 ->
  exists b, user_range_readable root addr len s = Ok b /\
    (b = true <-> len = 0 \/ (addr + len <= 2 ^ 47 /\ forall x, addr <= x < addr + len ->
       is_canonical x && permitted [PTE_USER] 4 (vm_mem s) root x = true)).
Proof.
  intros Ha Hl. destruct (range_check_spec (fun va => vmm_is_user_readable root va s) addr len) as (b & E & Hb); auto.
  - intros x y Hxy. rewrite !user_readable_permitted, (canonical_page _ _ Hxy). f_equal. now apply permitted_page.
  - exists b. split; [exact E|]. rewrite Hb. now setoid_rewrite user_readable_permitted.
Qed.

(** the same for [user_range_writable] and user-mode writes. *)
Theorem user_range_writable_correct root addr len (s : vmm F) :
  0 <= addr < 2 ^ 64 -> 0 <= len < 2 ^ 64 ->
  exists b, user_range_writable root addr len s = Ok b /\
    (b = true <-> len = 0 \/ (addr + len <= 2 ^ 47 /\ forall x, addr <= x < addr + len ->
       is_canonical x && permitted [PTE_USER; PTE_WRITABLE] 4 (vm_mem s) root x = true)).
Proof.
  intros Ha Hl. destruct (range_check_spec (fun va => vmm_is_user_writable root va s) addr len) as (b & E & Hb); auto.
  - intros x y Hxy. rewrite !user_writable_permitted, (canonical_page _ _ Hxy). f_equal. now apply permitted_page.
  - exists b. split; [exact E|]. rewrite Hb. now setoid_rewrite user_writable_permitted.
Qed.

End Claims.

(** ** Instances on the concrete state *)
Definition va0 : Z := 0x400000.
Definition result_of {A B : Type} (r : outcome (A * B)) : option A :=
  match r with Ok (a, _) => Some a | Stop _ => None end.

Lemma vmm_map_get_phys_roundtrip_witness :
  exists s', vmm_map_page 8192 va0 0x5000 3 vm0 = Ok (true, s') /\ vmm_get_phys 8192 (va0 + 5) s' = Some 0x5005.
Proof.
  assert (Hr : result_of (vmm_map_page 8192 va0 0x5000 3 vm0) = Some true) by (vm_compute; reflexivity).
  destruct (vmm_map_page 8192 va0 0x5000 3 vm0) as [[b s']|] eqn:E; [|discriminate].
  injection Hr as ->. exists s'. split; [reflexivity|].
  apply (vmm_map_get_phys_roundtrip tables0 8192 vm0 s' va0 0x5000 3 vm0_inv ltac:(unfold va0; lia)
           eq_refl eq_refl eq_refl ltac:(lia) E). lia.
Defined.

Lemma vmm_unmap_page_correct_witness : vmm_unmap_page 8192 va0 vm0 = Ok (false, vm0).
Proof.
  assert (Hr : result_of (vmm_unmap_page 8192 va0 vm0) = Some false) by (vm_compute; reflexivity).
  destruct (vmm_unmap_page_correct tables0 8192 vm0 va0 vm0_inv ltac:(unfold va0; lia) eq_refl eq_refl)
    as (b & s' & E & _ & _ & Hb & _).
  rewrite E in Hr. injection Hr as ->. destruct Hb as [-> _]. exact E.
Defined.

Lemma vmm_create_address_space_correct_witness :
  exists s', vmm_create_address_space vm0 = Ok (Some 12288, s') /\ walk 4 (vm_mem s') 12288 va0 = None.
Proof.
  assert (Hr : result_of (vmm_create_address_space vm0) = Some (Some 12288)) by (vm_compute; reflexivity).
  destruct (vmm_create_address_space_correct tables0 vm0 vm0_inv) as (o & s' & E & _ & Ho).
  rewrite E in Hr. injection Hr as ->. exists s'. split; [exact E|].
  destruct Ho as (_ & _ & _ & _ & Hw & _). exact (Hw va0).
Defined.

Lemma user_range_readable_correct_witness :
  user_range_readable 8192 (2 ^ 64 - 8) 16 vm0 = Ok false.
Proof.
  destruct (user_range_readable_correct 8192 (2 ^ 64 - 8) 16 vm0 ltac:(lia) ltac:(lia)) as ([|] & E & Hb); [|exact E].
  destruct (proj1 Hb eq_refl) as [?|[? _]]; lia.
Defined.

Lemma user_range_writable_correct_witness :
  user_range_writable 8192 va0 0 vm0 = Ok true.
Proof.
  destruct (user_range_writable_correct 8192 va0 0 vm0 ltac:(unfold va0; lia) ltac:(lia)) as (b & E & Hb).
  rewrite (proj2 Hb (or_introl eq_refl)) in E. exact E.
Defined.
