(* ===== verification/Boot.v ===== *)
(** * The page tables of the boot code (src/arch/x86_64/boot/boot.asm, [set_up_page_tables];
      src/kernel/init/main.c, the start of [kernel_main])

    The boot code builds four page tables in the kernel image, and [kernel_main] removes
    the identity mapping from them.  They are the first address space of the kernel, and
    [vmm_create_address_space] copies their upper half into every other one.  The
    theorem shows that they meet the invariant under which the virtual memory manager is
    verified, and that they map memory where [phys_to_virt] expects it.

    The boot code runs without paging and addresses tables by physical address; in the
    memory of [Vmm] a table is at the address [phys_to_virt] gives it.  The high halves
    of the entries are zero from the loop that clears the tables. *)

From S2P Require Import Prelude Bitmap Interfaces Pmm Vmm.

(** [.map_pd_table]: entry [ecx] of [pd_table] maps 2 MiB. *)
Fixpoint map_pd_table (n : nat) (pd_table ecx : Z) (m : memory) : memory :=
  match n with
  | O => m
  | S k => map_pd_table k pd_table (ecx + 1) (wr m (phys_to_virt pd_table) ecx (Z.lor (u32 (0x200000 * ecx)) 131))
  end.

(** The four tables lie one after the other from [pml4] on. *)
Definition set_up_page_tables (pml4 : Z) (m : memory) : memory :=
  let pdpt_table := pml4 + 4096 in
  let kernel_pdpt_table := pml4 + 8192 in
  let pd_table := pml4 + 12288 in
  let m := zero_words m (phys_to_virt pml4) 0 2048 in
  let m := wr m (phys_to_virt pml4) 0 (Z.lor pdpt_table 3) in
  let m := wr m (phys_to_virt pml4) 511 (Z.lor kernel_pdpt_table 3) in
  let m := wr m (phys_to_virt pdpt_table) 0 (Z.lor pd_table 3) in
  let m := wr m (phys_to_virt kernel_pdpt_table) 510 (Z.lor pd_table 3) in
  map_pd_table 512 pd_table 0 m.

Section Boot.
Context {F : Type} `{FrameSource F}.

(** CR3 and the bit LME of EFER. *)
Definition enable_paging (pml4 : Z) (s : vmm F) : vmm F :=
  mkVmm (vm_mem s) (vm_frames s) pml4 (Z.lor (vm_efer s) (2 ^ 8)) (current_pml4_phys s) (pml4_table s) (vm_invlpg s).

(** [pml4[0] = 0], and CR3 again. *)
Definition drop_identity_map (pml4 : Z) (s : vmm F) : vmm F :=
  mkVmm (wr (vm_mem s) (phys_to_virt pml4) 0 0) (vm_frames s) pml4 (vm_efer s) (current_pml4_phys s) (pml4_table s) (vm_invlpg s).

(** From the boot code to [vmm_init], with the frame allocator that [multiboot_parse]
    set up. *)
Definition boot (pml4 : Z) (s : vmm F) : vmm F :=
  vmm_init pml4 (drop_identity_map pml4 (enable_paging pml4 (set_mem s (set_up_page_tables pml4 (vm_mem s))))).
End Boot.

(** ** The entries of the tables *)
Definition boot_tables (pml4 : Z) : gmap Z nat := <[pml4 := 4%nat]> (<[pml4 + 8192 := 3%nat]> {[pml4 + 12288 := 2%nat]}).

(** The entry for 2 MiB from [2^21 * i] on: present, writable, a large page. *)
Definition large_page (i : Z) : Z := Z.lor (2 ^ 21 * i) 131.

Lemma tbl_map_pd pd n ecx m t i :
  frame_ok pd -> frame_ok t -> 0 <= ecx -> ecx + Z.of_nat n <= 512 -> 0 <= i < 512 ->
  tbl (map_pd_table n pd ecx m) t i = if (t =? pd) && (ecx <=? i) && (i <? ecx + Z.of_nat n) then large_page i else tbl m t i.
Proof.
  intros Hpd Ht. revert ecx m. induction n as [|n IH]; intros ecx m He Hn Hi; cbn [map_pd_table].
  - destruct (Z.leb_spec ecx i), (Z.ltb_spec i (ecx + Z.of_nat 0)); try lia; now rewrite ?andb_false_r.
  - rewrite IH, tbl_wr by (assumption || lia). destruct (Z.eqb_spec t pd); cbn [andb]; [|reflexivity].
    unfold large_page. rewrite u32_id by lia. change 0x200000 with (2 ^ 21).
    destruct (Z.leb_spec (ecx + 1) i), (Z.leb_spec ecx i), (Z.ltb_spec i (ecx + 1 + Z.of_nat n)), (Z.ltb_spec i (ecx + Z.of_nat (S n))), (Z.eqb_spec i ecx);
      cbn [andb]; subst; try reflexivity; lia.
Qed.

Lemma zero_words_app m t from a b : zero_words m t from (a + b) = zero_words (zero_words m t from a) t (from + Z.of_nat a) b.
Proof.
  revert m from. induction a as [|a IH]; intros m from; cbn [zero_words Nat.add]; [now rewrite Z.add_0_r|].
  rewrite IH. f_equal. lia.
Qed.

Lemma zero_words_shift m t from n : 0 <= t < 2 ^ 32 -> 0 <= from ->
  zero_words m (phys_to_virt t) (512 + from) n = zero_words m (phys_to_virt (t + 4096)) from n.
Proof.
  intros Ht. revert m from. induction n as [|n IH]; intros m from Hf; cbn [zero_words]; [reflexivity|].
  replace (512 + from + 1) with (512 + (from + 1)) by lia. rewrite IH by lia. f_equal. unfold wr. f_equal.
  unfold phys_to_virt, u64. rewrite !Zplus_mod_idemp_l. f_equal. lia.
Qed.

Lemma zero_next m t n : 0 <= t < 2 ^ 32 ->
  zero_words m (phys_to_virt t) 0 (512 + n) = zero_words (zero_words m (phys_to_virt t) 0 512) (phys_to_virt (t + 4096)) 0 n.
Proof. intros Ht. rewrite zero_words_app. change (0 + Z.of_nat 512) with (512 + 0). now rewrite zero_words_shift by lia. Qed.

(** Clearing 2048 words clears four tables. *)
Lemma tbl_zero4 m b t i : frame_ok b -> frame_ok (b + 12288) -> frame_ok t -> 0 <= i < 512 ->
  tbl (zero_words m (phys_to_virt b) 0 2048) t i =
  if (t =? b) || (t =? b + 4096) || (t =? b + 8192) || (t =? b + 12288) then 0 else tbl m t i.
Proof.
  intros Hb Hb3 Ht Hi. pose proof Hb as [Ha Hr]. pose proof Hb3 as [_ Hr3].
  change 2048%nat with (512 + (512 + (512 + 512)))%nat. rewrite !zero_next by lia.
  replace (b + 4096 + 4096) with (b + 8192) by lia. replace (b + 8192 + 4096) with (b + 12288) by lia.
  assert (frame_ok (b + 4096)) by (split; [dlia|lia]). assert (frame_ok (b + 8192)) by (split; [dlia|lia]).
  assert (Hall : forall m' u, frame_ok u -> tbl (zero_words m' (phys_to_virt u) 0 512) t i = if t =? u then 0 else tbl m' t i).
  { intros m' u Hu. rewrite tbl_zero by (assumption || lia). destruct (Z.leb_spec 0 i), (Z.ltb_spec i (0 + Z.of_nat 512)); try lia. now rewrite !andb_true_r. }
  rewrite !Hall by assumption. destruct (t =? b), (t =? b + 4096), (t =? b + 8192), (t =? b + 12288); reflexivity.
Qed.

Section BootTables.
Context {F : Type} `{FrameSourceLaws F}.
Variables (b : Z) (s0 : vmm F).
Hypothesis Hok : fs_ok (vm_frames s0).
Hypothesis Hlim : fs_limit (vm_frames s0) <= 2 ^ 30.
Hypothesis Hused : fs_used (vm_frames s0) b /\ fs_used (vm_frames s0) (b + 8192) /\ fs_used (vm_frames s0) (b + 12288).

(** The tables are reserved, not handed out by the frame allocator. *)
Hypothesis Hres : ~ fs_held (vm_frames s0) (b + 8192).

Lemma used_frame t : fs_used (vm_frames s0) t -> frame_ok t.
Proof. intros Hu. destruct (fs_used_range _ t Hok Hu). split; [assumption|lia]. Qed.

Lemma boot_entry t i : frame_ok t -> 0 <= i < 512 ->
  tbl (vm_mem (boot b s0)) t i =
  if t =? b then (if i =? 511 then Z.lor (b + 8192) 3 else 0)
  else if t =? b + 4096 then (if i =? 0 then Z.lor (b + 12288) 3 else 0)
  else if t =? b + 8192 then (if i =? 510 then Z.lor (b + 12288) 3 else 0)
  else if t =? b + 12288 then large_page i
  else tbl (vm_mem s0) t i.
Proof.
  intros Ht Hi. destruct Hused as (H1 & H2 & H3). pose proof (used_frame _ H1) as F1. pose proof (used_frame _ H2) as F2. pose proof (used_frame _ H3) as F3.
  assert (F4 : frame_ok (b + 4096)) by (destruct F1, F3; split; [dlia|lia]).
  cbn [boot vmm_init drop_identity_map enable_paging set_mem vm_mem]. unfold set_up_page_tables.
  rewrite tbl_wr, tbl_map_pd, !tbl_wr, tbl_zero4 by (assumption || lia).
  destruct (Z.eqb_spec t b), (Z.eqb_spec t (b + 4096)), (Z.eqb_spec t (b + 8192)), (Z.eqb_spec t (b + 12288)); try lia;
    destruct (Z.eqb_spec i 0), (Z.eqb_spec i 511), (Z.eqb_spec i 510), (Z.leb_spec 0 i), (Z.ltb_spec i (0 + Z.of_nat 512)); cbn [andb orb]; try reflexivity; lia.
Qed.

Lemma table_entry x : x mod 4096 = 0 -> 0 <= x < 2 ^ 52 -> links (Z.lor x 3) x /\ has (Z.lor x 3) PTE_WRITABLE = true /\ has (Z.lor x 3) PTE_USER = false.
Proof.
  intros Ha Hx. split; [apply links_new; auto|]. rewrite !has_lor, (has_aligned x PTE_USER Ha) by (unfold PTE_USER; lia). split; [apply orb_true_r|reflexivity].
Qed.

Lemma large_entry i : 0 <= i < 512 ->
  has (large_page i) PTE_PRESENT = true /\ has (large_page i) PDE_PS = true /\ has (large_page i) PTE_WRITABLE = true /\
  has (large_page i) PTE_USER = false /\ frame (large_page i) = 2 ^ 21 * i.
Proof.
  intros Hi. assert (Ha : (2 ^ 21 * i) mod 4096 = 0) by dlia. unfold large_page. rewrite !has_lor, frame_lor, frame_id by (assumption || lia).
  rewrite (has_aligned _ PTE_USER Ha) by (unfold PTE_USER; lia). repeat split; try apply orb_true_r. apply Z.lor_0_r.
Qed.

Lemma boot_walk va :
  walk 4 (vm_mem (boot b s0)) b va = (if (idx 4 va =? 511) && (idx 3 va =? 510) then Some (2%nat, large_page (idx 2 va)) else None) /\
  forall need, permitted need 4 (vm_mem (boot b s0)) b va =
    (idx 4 va =? 511) && (idx 3 va =? 510) && forallb (has (Z.lor (b + 8192) 3)) need && forallb (has (Z.lor (b + 12288) 3)) need && forallb (has (large_page (idx 2 va))) need.
Proof.
  destruct Hused as (H1 & H2 & H3). pose proof (used_frame _ H1) as F1. pose proof (used_frame _ H2) as F2. pose proof (used_frame _ H3) as F3.
  pose proof (idx_range 4 va) as I4. pose proof (idx_range 3 va) as I3. pose proof (idx_range 2 va) as I2.
  destruct (table_entry (b + 8192)) as [(P2 & S2 & E2) _]; [apply F2|destruct F2; lia|]. destruct (table_entry (b + 12288)) as [(P3 & S3 & E3) _]; [apply F3|destruct F3; lia|].
  destruct (large_entry (idx 2 va) I2) as (PL & SL & _).
  assert (B4 : tbl (vm_mem (boot b s0)) b (idx 4 va) = if idx 4 va =? 511 then Z.lor (b + 8192) 3 else 0) by (rewrite boot_entry, Z.eqb_refl by assumption; reflexivity).
  assert (B3 : tbl (vm_mem (boot b s0)) (b + 8192) (idx 3 va) = if idx 3 va =? 510 then Z.lor (b + 12288) 3 else 0).
  { rewrite boot_entry, Z.eqb_refl by assumption. destruct (Z.eqb_spec (b + 8192) b), (Z.eqb_spec (b + 8192) (b + 4096)); reflexivity || lia. }
  assert (B2 : tbl (vm_mem (boot b s0)) (b + 12288) (idx 2 va) = large_page (idx 2 va)).
  { rewrite boot_entry, Z.eqb_refl by assumption. destruct (Z.eqb_spec (b + 12288) b), (Z.eqb_spec (b + 12288) (b + 4096)), (Z.eqb_spec (b + 12288) (b + 8192)); reflexivity || lia. }
  cbn [walk permitted]. rewrite B4. destruct (idx 4 va =? 511); [|split; [reflexivity|intros need; reflexivity]].
  rewrite P2, S2, E2, B3. destruct (idx 3 va =? 510); [|split; [reflexivity|intros need; cbn [andb Nat.ltb Nat.leb has]; now rewrite andb_false_r]].
  rewrite P3, S3, E3, B2, PL, SL. split; [reflexivity|]. intros need. cbn [andb Nat.ltb Nat.leb]. now rewrite !andb_true_r, !andb_assoc.
Qed.

(** The boot tables are an address space of the virtual memory manager. *)
Lemma boot_inv : pt_inv (boot_tables b) b (boot b s0).
Proof.
  destruct Hused as (H1 & H2 & H3). pose proof (used_frame _ H1) as F1. pose proof (used_frame _ H2) as F2. pose proof (used_frame _ H3) as F3.
  destruct (table_entry (b + 8192)) as [L2 [W2 U2]]; [apply F2|destruct F2; lia|]. destruct (table_entry (b + 12288)) as [L3 [W3 U3]]; [apply F3|destruct F3; lia|].
  assert (Hget : forall t l, boot_tables b !! t = Some l -> (t = b /\ l = 4%nat) \/ (t = b + 8192 /\ l = 3%nat) \/ (t = b + 12288 /\ l = 2%nat)).
  { intros t l. unfold boot_tables. rewrite !lookup_insert_Some, lookup_singleton_Some. intuition. }
  assert (Hlinks : forall t l i n, boot_tables b !! t = Some l -> 0 <= i < 512 -> links (tbl (vm_mem (boot b s0)) t i) n ->
            (t = b /\ l = 4%nat /\ i = 511 /\ n = b + 8192) \/ (t = b + 8192 /\ l = 3%nat /\ i = 510 /\ n = b + 12288)).
  { intros t l i n Ht Hi L. destruct (Hget t l Ht) as [[-> ->]|[[-> ->]|[-> ->]]]; rewrite boot_entry in L by assumption.
    - rewrite Z.eqb_refl in L. destruct (Z.eqb_spec i 511); [left; now rewrite (links_unique _ _ _ L L2)|destruct L; discriminate].
    - destruct (Z.eqb_spec (b + 8192) b), (Z.eqb_spec (b + 8192) (b + 4096)); try lia. rewrite Z.eqb_refl in L.
      destruct (Z.eqb_spec i 510); [right; now rewrite (links_unique _ _ _ L L3)|destruct L; discriminate].
    - destruct (Z.eqb_spec (b + 12288) b), (Z.eqb_spec (b + 12288) (b + 4096)), (Z.eqb_spec (b + 12288) (b + 8192)); try lia. rewrite Z.eqb_refl in L.
      destruct L as (_ & Ls & _), (large_entry i Hi) as (_ & Es & _). congruence. }
  constructor.
  - apply lookup_insert_eq.
  - intros t l [[_ ->]|[[_ ->]|[_ ->]]]%Hget; lia.
  - intros t [[-> _]|[[_ ?]|[_ ?]]]%Hget; [reflexivity|discriminate|discriminate].
  - intros t l [[-> _]|[[-> _]|[-> _]]]%Hget; assumption.
  - intros t l i n Ht Hl Hi L Hup. exfalso. destruct (Hlinks _ _ _ _ Ht Hi L) as [(-> & _ & -> & _)|(-> & _ & -> & ->)].
    + destruct Hup as [[_ ?]|[? _]]; [lia|contradiction].
    + destruct Hup as [[? _]|[_ Hh]]; [lia|contradiction].
  - intros i Hi _. rewrite boot_entry, Z.eqb_refl by assumption. destruct (i =? 511); [apply L2|reflexivity].
  - intros t l i n Ht Hl Hi L. unfold boot_tables. destruct (Hlinks _ _ _ _ Ht Hi L) as [(-> & [= ->] & -> & ->)|(-> & [= ->] & -> & ->)].
    + rewrite lookup_insert_ne by lia. apply lookup_insert_eq.
    + rewrite !lookup_insert_ne by lia. apply lookup_singleton_eq.
  - intros t t' l l' i i' n Ht Ht' _ _ Hi Hi' L L'.
    destruct (Hlinks _ _ _ _ Ht Hi L) as [(-> & _ & -> & ->)|(-> & _ & -> & ->)], (Hlinks _ _ _ _ Ht' Hi' L') as [(-> & _ & -> & ?)|(-> & _ & -> & ?)]; split; lia.
  - intros need va Hneed. destruct (boot_walk va) as [-> Hp]. rewrite Hp. destruct (large_entry (idx 2 va) (idx_range 2 va)) as (_ & _ & WL & UL & _).
    destruct (idx 4 va =? 511), (idx 3 va =? 510); cbn [andb leaf_rights]; try reflexivity.
    assert (Hsame : forall e, has e PTE_WRITABLE = true -> has e PTE_USER = false -> forallb (has e) need = forallb (has (large_page (idx 2 va))) need).
    { intros e We Ue. clear Hp. induction Hneed as [|x r [->| ->] Hr IH]; cbn [forallb]; [reflexivity|now rewrite Ue, UL|now rewrite We, WL, IH]. }
    rewrite (Hsame _ W2 U2), (Hsame _ W3 U3). now rewrite !andb_diag.
  - exact Hok.
  - exact Hlim.
Qed.

End BootTables.

(** Frames below the bitmap are reserved. *)
Lemma below_bitmap st p : fs_ok st -> p mod 4096 = 0 -> 0 < p < bitmap_phys_addr st -> p < max_physical_address st -> fs_used st p /\ ~ fs_held st p.
Proof.
  intros [WF [_ Hres]] Ha Hp Hm. pose proof (wf_bounds _ WF). split; [|intros (_ & _ & Hge & _); lia].
  split; [exact Ha|]. split; [lia|]. apply Hres. unfold PMM_PAGE_SIZE. dlia.
Qed.

Lemma direct_map_idx phys : 0 <= phys < 2 ^ 30 ->
  is_canonical (phys_to_virt phys) = true /\ idx 4 (phys_to_virt phys) = 511 /\ idx 3 (phys_to_virt phys) = 510 /\
  idx 2 (phys_to_virt phys) = phys / 2 ^ 21 /\ phys_to_virt phys mod 2 ^ 21 = phys mod 2 ^ 21.
Proof.
  intros Hp. assert (E : phys_to_virt phys = 0xFFFFFFFF80000000 + phys) by (unfold phys_to_virt, HIGHER_HALF_BASE; rewrite u64_id by lia; lia).
  rewrite E. cbn [idx]. unfold is_canonical, pml4_index, pdpt_index, pd_index. change 0x1FF with (Z.ones 9).
  rewrite !Z.land_ones, !Z.shiftr_div_pow2 by lia.
  assert ((0xFFFFFFFF80000000 + phys) / 2 ^ 47 = 0x1FFFF) as -> by (symmetry; apply (Z.div_unique_pos _ _ _ (2 ^ 47 - 2 ^ 31 + phys)); lia).
  assert ((0xFFFFFFFF80000000 + phys) / 2 ^ 39 = 2 ^ 25 - 1) as -> by (symmetry; apply (Z.div_unique_pos _ _ _ (2 ^ 39 - 2 ^ 31 + phys)); lia).
  assert ((0xFFFFFFFF80000000 + phys) / 2 ^ 30 = 2 ^ 34 - 2) as -> by (symmetry; apply (Z.div_unique_pos _ _ _ phys); lia).
  replace (0xFFFFFFFF80000000 + phys) with (phys + (2 ^ 43 - 2 ^ 10) * 2 ^ 21) by lia. rewrite Z.div_add, Z.mod_add by lia.
  split; [reflexivity|]. split; [reflexivity|]. split; [reflexivity|]. split; [|reflexivity].
  replace (phys / 2 ^ 21 + (2 ^ 43 - 2 ^ 10)) with (phys / 2 ^ 21 + (2 ^ 34 - 2) * 2 ^ 9) by lia. rewrite Z.mod_add by lia. apply Z.mod_small. dlia.
Qed.

(** An address that the boot tables map is in the direct map. *)
Lemma mapped_direct va : 0 <= va < 2 ^ 64 -> is_canonical va = true -> idx 4 va = 511 -> idx 3 va = 510 -> HIGHER_HALF_BASE <= va < HIGHER_HALF_BASE + 2 ^ 30.
Proof.
  unfold is_canonical. cbn [idx]. unfold pml4_index, pdpt_index, HIGHER_HALF_BASE. change 0x1FF with (Z.ones 9). rewrite !Z.land_ones, !Z.shiftr_div_pow2 by lia.
  intros Hva Hc E4 E3. change (2 ^ 47) with (2 ^ 30 * 2 ^ 17) in Hc. change (2 ^ 39) with (2 ^ 30 * 2 ^ 9) in E4. rewrite <- Z.div_div in Hc, E4 by lia.
  assert (Hq : 2 ^ 30 * (va / 2 ^ 30) <= va < 2 ^ 30 * (va / 2 ^ 30) + 2 ^ 30) by dlia. set (q := va / 2 ^ 30) in *.
  assert (q = 2 ^ 34 - 2); [|lia]. assert (Hq' : 0 <= q < 2 ^ 34) by lia. clear Hq. clearbody q. apply orb_true_iff in Hc. rewrite !Z.eqb_eq in Hc. change (Z.ones 9) with 511 in E4. dlia.
Qed.

(** C7: The page tables that the boot code builds, without the identity mapping that
    [kernel_main] removes, are a well-formed address space whose tables the frame
    allocator never hands out, on a machine with at most 1 GiB of memory whose frame
    bitmap lies behind the tables.  They map the first GiB of memory where
    [phys_to_virt] says, writable and out of reach of user programs, and nothing else. *)
Theorem boot_page_tables_correct pml4 (s0 : vmm pmm) :
  fs_ok (vm_frames s0) -> max_physical_address (vm_frames s0) <= 2 ^ 30 -> pml4 mod 4096 = 0 -> 0 < pml4 ->
  pml4 + 16384 <= bitmap_phys_addr (vm_frames s0) -> pml4 + 16384 <= max_physical_address (vm_frames s0) ->
  let s := boot pml4 s0 in
  pt_inv (boot_tables pml4) pml4 s /\ (forall t l, boot_tables pml4 !! t = Some l -> ~ fs_held (vm_frames s) t) /\ vmm_get_current_pml4 s = pml4 /\
  (forall phys, 0 <= phys < 2 ^ 30 -> vmm_get_phys pml4 (phys_to_virt phys) s = Some phys /\
     permitted [PTE_WRITABLE] 4 (vm_mem s) pml4 (phys_to_virt phys) = true /\ permitted [PTE_USER] 4 (vm_mem s) pml4 (phys_to_virt phys) = false) /\
  (forall va, 0 <= va < 2 ^ 64 -> is_canonical va = true -> ~ HIGHER_HALF_BASE <= va < HIGHER_HALF_BASE + 2 ^ 30 -> walk 4 (vm_mem s) pml4 va = None).
Proof.
  intros Hok Hlim Ha Hpos Hbm Hmax s.
  assert (Hb : forall o, o mod 4096 = 0 -> 0 <= o <= 12288 -> fs_used (vm_frames s0) (pml4 + o) /\ ~ fs_held (vm_frames s0) (pml4 + o))
    by (intros o Ho Hr; apply below_bitmap; [exact Hok|dlia|lia|lia]).
  assert (Hu : fs_used (vm_frames s0) pml4 /\ fs_used (vm_frames s0) (pml4 + 8192) /\ fs_used (vm_frames s0) (pml4 + 12288)).
  { split; [rewrite <- (Z.add_0_r pml4)|split]; apply Hb; reflexivity || lia. }
  pose proof (boot_inv pml4 s0 Hok Hlim Hu (proj2 (Hb 8192 eq_refl ltac:(lia)))) as I. pose proof (boot_walk pml4 s0 Hok Hlim Hu) as W. fold s in I, W.
  split; [exact I|]. split.
  { intros t l. unfold boot_tables. rewrite !lookup_insert_Some, lookup_singleton_Some. intros [[<- _]|[_ [[<- _]|[_ [<- _]]]]].
    - rewrite <- (Z.add_0_r pml4). apply (Hb 0); reflexivity || lia.
    - apply (Hb 8192); reflexivity || lia.
    - apply (Hb 12288); reflexivity || lia. }
  split; [apply frame_id; [exact Ha|lia]|]. split.
  - intros phys Hp. destruct (direct_map_idx phys Hp) as (Hc & E4 & E3 & E2 & Em). destruct (W (phys_to_virt phys)) as [Ww Wp].
    rewrite E4, E3, !Z.eqb_refl in Ww. cbn [andb] in Ww. assert (Hi : 0 <= idx 2 (phys_to_virt phys) < 512) by apply idx_range.
    destruct (large_entry _ Hi) as (_ & _ & WL & UL & FL).
    split; [|split].
    + rewrite get_phys_walk; [|exact Hc|apply (inv_no_ps _ _ _ I), (idx_range 4)]. rewrite Ww. unfold phys_of. rewrite FL, Em, E2. f_equal. dlia.
    + rewrite (inv_rights _ _ _ I) by (repeat constructor). rewrite Ww. cbn [leaf_rights forallb]. now rewrite WL.
    + rewrite (inv_rights _ _ _ I) by (repeat constructor). rewrite Ww. cbn [leaf_rights forallb]. now rewrite UL.
  - intros va Hva Hc Hout. rewrite (proj1 (W va)). destruct (Z.eqb_spec (idx 4 va) 511) as [E4|]; [|reflexivity].
    destruct (Z.eqb_spec (idx 3 va) 510) as [E3|]; [|reflexivity]. destruct Hout. now apply mapped_direct.
Qed.

(** ** A machine with 32 frames, the boot tables in frames 1 to 4 *)
Definition pmm32 : pmm :=
  {| bitmap := [63; 0; 0; 0]; total_frames := 32; used_frames := 6;
     max_physical_address := 131072; bitmap_phys_addr := 20480; bitmap_size := 4 |}.

Lemma pmm32_ok : fs_ok pmm32.
Proof.
  split.
  - constructor; try reflexivity; cbn; try lia. repeat constructor; unfold byte; lia.
  - split; [reflexivity|]. intros f Hf. unfold PMM_PAGE_SIZE in Hf. cbn in Hf. destruct (Z.ltb_spec f 0).
    + unfold free_frame. destruct (Z.leb_spec 0 f); [lia|reflexivity].
    + assert (f = 0 \/ f = 1 \/ f = 2 \/ f = 3 \/ f = 4 \/ f = 5) as [-> | [-> | [-> | [-> | [-> | ->]]]]] by lia; reflexivity.
Qed.

Definition power_on : vmm pmm := mkVmm ∅ pmm32 0 0 0 0 [].
Definition machine32 : vmm pmm := boot 4096 power_on.

Lemma boot_page_tables_correct_witness :
  pt_inv (boot_tables 4096) 4096 machine32 /\ vmm_get_phys 4096 (phys_to_virt 0x3fffffff) machine32 = Some 0x3fffffff.
Proof.
  destruct (boot_page_tables_correct 4096 power_on pmm32_ok) as (I & _ & _ & Hd & _); [discriminate|reflexivity|reflexivity|discriminate|discriminate|].
  split; [exact I|]. apply Hd. split; [discriminate|reflexivity].
Defined.

Lemma machine32_inv : pt_inv (boot_tables 4096) 4096 machine32.
Proof.
  apply boot_inv; [exact pmm32_ok|discriminate| |].
  - split; [|split]; apply below_bitmap; try exact pmm32_ok; try reflexivity; split; reflexivity.
  - apply below_bitmap; try exact pmm32_ok; try reflexivity; split; reflexivity.
Qed.

(** ** The virtual memory manager on it *)
Lemma vmm_map_page_correct_witness :
  exists s' T', vmm_map_page 4096 0xFFFFC00000000000 0x1F000 1 machine32 = Ok (true, s') /\ pt_inv T' 4096 s' /\
    walk 4 (vm_mem s') 4096 0xFFFFC00000000000 = Some (1%nat, 0x1F003) /\ permitted [PTE_WRITABLE] 4 (vm_mem s') 4096 0xFFFFC00000000000 = true.
Proof.
  assert (Hr : result_of (vmm_map_page 4096 0xFFFFC00000000000 0x1F000 1 machine32) = Some true) by (vm_compute; reflexivity).
  destruct (vmm_map_page_correct (boot_tables 4096) 4096 machine32 0xFFFFC00000000000 0x1F000 1 machine32_inv ltac:(lia)
              eq_refl eq_refl eq_refl) as (b & s' & T' & E & I & _ & _ & (_ & Hm) & _).
  rewrite E in Hr. injection Hr as ->. exists s', T'. split; [exact E|]. split; [exact I|]. destruct Hm as (_ & Hw & Hp & _).
  split; [exact Hw|]. apply (Hp [PTE_WRITABLE]). constructor; [now right|constructor].
Defined.

Lemma boot_tables_reserved t l : boot_tables 4096 !! t = Some l -> ~ fs_held pmm32 t.
Proof.
  intros Ht (_ & _ & Hge & _). unfold boot_tables in Ht. rewrite !lookup_insert_Some, lookup_singleton_Some in Ht. cbn in Hge. lia.
Qed.

(** An address space for a program. *)
Lemma program_space : exists s1, vmm_create_address_space machine32 = Ok (Some 0x6000, s1) /\ pt_inv (boot_tables 4096) 4096 s1 /\
  pt_inv (<[0x6000 := 4%nat]> (delete 4096 (boot_tables 4096))) 0x6000 s1 /\ fs_held (vm_frames s1) 0x6000 /\
  (forall x, x ∈ user_tables (vm_mem s1) 0x6000 -> boot_tables 4096 !! x = None).
Proof.
  assert (Hr : result_of (vmm_create_address_space machine32) = Some (Some 0x6000)) by (vm_compute; reflexivity).
  destruct (create_spec (boot_tables 4096) machine32 machine32_inv) as (o & s1 & E & I & Ho). rewrite E in Hr. injection Hr as ->.
  destruct Ho as (_ & Hp & I1 & _ & _ & HK & _ & Hh). exists s1. split; [exact E|]. split; [exact I|]. split; [exact I1|]. split; [exact Hh|].
  intros x Hx. destruct (proj2 (user_tables_spec _ _ _ I1) x Hx) as [_ [->|Hhx]]; [exact Hp|].
  destruct (boot_tables 4096 !! x) as [l|] eqn:El; [|reflexivity]. destruct (boot_tables_reserved x l El).
  apply (HK x (inv_used _ _ _ machine32_inv x l El)), Hhx.
Qed.

Lemma vmm_map_page_isolated_witness :
  exists s1 s2 b, vmm_create_address_space machine32 = Ok (Some 0x6000, s1) /\
    vmm_map_page 0x6000 va0 0x1F000 3 s1 = Ok (b, s2) /\ pt_inv (boot_tables 4096) 4096 s2.
Proof.
  destruct program_space as (s1 & E & I & I1 & _ & Hdis).
  destruct (map_spec _ 0x6000 s1 va0 0x1F000 3 I1 ltac:(unfold va0; lia) eq_refl eq_refl eq_refl) as (b & s2 & _ & E2 & _).
  exists s1, s2, b. split; [exact E|]. split; [exact E2|].
  apply (vmm_map_page_isolated _ (boot_tables 4096) 0x6000 4096 s1 s2 va0 0x1F000 3 b I1 I Hdis); [unfold va0; lia|reflexivity|reflexivity|reflexivity|reflexivity|exact E2].
Defined.

Lemma vmm_destroy_address_space_correct_witness :
  exists s1 s2, vmm_create_address_space machine32 = Ok (Some 0x6000, s1) /\ vmm_destroy_address_space 0x6000 s1 = Ok s2 /\
    ~ fs_held (vm_frames s2) 0x6000 /\ pt_inv (boot_tables 4096) 4096 s2.
Proof.
  destruct program_space as (s1 & E & I & I1 & Hh & Hdis).
  destruct (vmm_destroy_address_space_correct _ 0x6000 s1 I1 Hh) as (s2 & E2 & _ & _ & Hheld & _ & Hoth).
  exists s1, s2. split; [exact E|]. split; [exact E2|]. split; [|exact (proj1 (Hoth _ 4096 I Hdis))].
  rewrite Hheld. intros [_ Hn]. apply Hn. unfold user_tables. apply elem_of_app. right. left.
Defined.
