(* ===== verification/KernelHeap.v ===== *)
(** * The kernel heap on top of the memory managers

    [expand_heap] (src/kernel/memory/heap.c) gets frames from [pmm_alloc_page] and
    maps them with [vmm_map_page] into the kernel's address space.  Here the
    virtual memory manager, over any frame allocator, is shown to meet the
    contract [PageBacking] under which the heap was verified, so that the three
    components are verified as one: the memory the heap hands out is mapped in
    the page tables. *)

From S2P Require Import Prelude Interfaces Pmm Vmm Boot Heap.

Section Backing.
Context {F : Type} `{FrameSourceLaws F}.
(** the root of the kernel's address space, [kernel_process->as.pml4_phys] *)
Variable root : Z.

Definition vm_alloc (s : vmm F) : outcome (Z * vmm F) :=
  let* (p, f) := fs_alloc (vm_frames s) in Ok (p, set_frames s f).

Definition vmm_backing : PageBacking (vmm F) := {|
  pb_alloc := vm_alloc;
  pb_free := fun p s => release s p;
  pb_map := fun virt phys flags s => vmm_map_page root virt phys flags s;
  pb_ok := fun s => exists T, pt_inv T root s;
  pb_mapped := fun s v => 0 <= v < 2 ^ 64 /\ is_canonical v = true /\ walk 4 (vm_mem s) root v <> None
|}.

Lemma canonical_range v : is_canonical v = true -> 0 <= v < 2 ^ 64.
Proof.
  unfold is_canonical. rewrite Z.shiftr_div_pow2 by lia.
  intros [E%Z.eqb_eq|E%Z.eqb_eq]%orb_true_iff; dlia.
Qed.

(** Taking a frame, or giving back one that is not a table, keeps the tables. *)
Lemma frames_inv T s f :
  pt_inv T root s -> fs_ok f -> fs_limit f = fs_limit (vm_frames s) ->
  (forall t l, T !! t = Some l -> fs_used f t /\ (fs_held f t <-> fs_held (vm_frames s) t)) -> pt_inv T root (set_frames s f).
Proof.
  intros I Hok Hlim Hh. apply (inv_untouched T root s); auto; [intros x i _ _; reflexivity|]. cbn. rewrite Hlim. apply I.
Qed.

Lemma taken_inv T s p f :
  pt_inv T root s -> fs_ok f -> fs_limit f = fs_limit (vm_frames s) -> ~ fs_used (vm_frames s) p ->
  (forall q, (fs_held f q <-> q = p \/ fs_held (vm_frames s) q) /\ (fs_used f q <-> q = p \/ fs_used (vm_frames s) q)) ->
  pt_inv T root (set_frames s f).
Proof.
  intros I Hok Hlim Hn Hh. apply frames_inv; auto. intros t l Ht. pose proof (inv_used _ _ _ I t l Ht) as Hu. destruct (Hh t) as [-> ->].
  split; [now right|]. split; [intros [->|Hx]; [contradiction|exact Hx]|now right].
Qed.

Lemma returned_inv T s p f :
  pt_inv T root s -> fs_ok f -> fs_limit f = fs_limit (vm_frames s) -> (forall l, T !! p <> Some l) ->
  (forall q, (fs_held f q <-> q <> p /\ fs_held (vm_frames s) q) /\ (fs_used f q <-> q <> p /\ fs_used (vm_frames s) q)) ->
  pt_inv T root (set_frames s f).
Proof.
  intros I Hok Hlim Hn Hh. apply frames_inv; auto. intros t l Ht. pose proof (inv_used _ _ _ I t l Ht) as Hu. destruct (Hh t) as [-> ->].
  assert (t <> p) by (intros ->; exact (Hn l Ht)). tauto.
Qed.

(** The three calls [expand_heap] makes, on a state with frame [p] taken. *)
Lemma map_or_free T s p virt flags :
  pt_inv T root s -> fs_held (vm_frames s) p -> (forall l, T !! p <> Some l) ->
  exists b s2, vmm_map_page root virt p flags s = Ok (b, s2) /\
    (forall v, 0 <= v < 2 ^ 64 -> is_canonical v = true ->
       walk 4 (vm_mem s) root v <> None -> walk 4 (vm_mem s2) root v <> None) /\
    (b = true -> (exists T', pt_inv T' root s2) /\ 0 <= virt < 2 ^ 64 /\ is_canonical virt = true /\
                 walk 4 (vm_mem s2) root virt <> None) /\
    (b = false -> exists s3, release s2 p = Ok s3 /\ vm_mem s3 = vm_mem s2 /\ exists T', pt_inv T' root s3).
Proof.
  intros I Hp HpT.
  assert (Hfree : forall T' s2, pt_inv T' root s2 -> fs_held (vm_frames s2) p -> (forall l, T' !! p <> Some l) ->
            exists s3, release s2 p = Ok s3 /\ vm_mem s3 = vm_mem s2 /\ exists T', pt_inv T' root s3).
  { intros T' s2 I2 Hp2 HpT2. destruct (fs_free_law _ p (inv_frames _ _ _ I2) Hp2) as (f & E & Hok & Hlim & Hh).
    unfold release. rewrite E. eexists. split; [reflexivity|]. split; [reflexivity|]. exists T'.
    apply (returned_inv T' s2 p f); auto. }
  assert (Hpa : p mod 4096 = 0) by (apply (fs_held_range _ _ (inv_frames _ _ _ I) Hp)).
  destruct (is_canonical virt) eqn:Hc; [destruct (Z.eqb_spec (virt mod 4096) 0) as [Ha|Ha]|].
  2,3: exists false, s; unfold vmm_map_page, PMM_PAGE_SIZE; rewrite Hc; cbn [negb];
    try (destruct (Z.eqb_spec (virt mod 4096) 0); [done|]); cbn [negb orb];
    (split; [reflexivity|]); (split; [auto|]); (split; [discriminate|]); intros _; eauto.
  pose proof (canonical_range _ Hc) as Hv.
  destruct (map_spec T root s virt p flags I Hv Hc Ha Hpa) as (b & s2 & T' & E & I2 & _ & _ & Hh & HN & _ & Hoth & Hres).
  exists b, s2. split; [exact E|]. split; [|split].
  - intros v Hvr Hvc Hw. destruct (Z.eq_dec (v / 4096) (virt / 4096)) as [Ep|Hne].
    + rewrite (walk_page _ _ _ _ _ Ep) in Hw. rewrite (walk_page _ _ _ _ _ Ep). destruct b; [now rewrite (proj1 Hres) in Hw|].
      now rewrite (proj1 Hres).
    + now rewrite Hoth.
  - intros ->. destruct Hres as (_ & Hw & _). split; [eauto|]. split; [exact Hv|]. split; [reflexivity|].
    now rewrite Hw.
  - intros _. pose proof (fs_held_used _ _ (inv_frames _ _ _ I) Hp) as Hu. apply (Hfree T'); auto; [now apply Hh|].
    intros l [Hl|Hl]%HN; [now apply (HpT l)|contradiction].
Qed.

Lemma vmm_backing_laws : @PageBackingLaws (vmm F) vmm_backing.
Proof.
  split. intros s [T I]. cbn [pb_alloc pb_ok pb_map pb_free pb_keeps pb_mapped vmm_backing]. unfold vm_alloc.
  destruct (fs_alloc_law _ (inv_frames _ _ _ I)) as (p & f & E & Hok & Hlim & Hcase).
  rewrite E. cbn [obind]. exists p, (set_frames s f). split; [reflexivity|].
  destruct Hcase as [[-> ->]|(Hp & Hfresh & Hheld)].
  { split; [|done]. intros _. split; [|now intros v]. exists T. apply frames_inv; auto. intros t l Ht. pose proof (inv_used _ _ _ I t l Ht). tauto. }
  split; [done|]. intros _ virt flags.
  assert (I1 : pt_inv T root (set_frames s f)) by (apply (taken_inv T s p f); auto).
  destruct (map_or_free T _ p virt flags I1) as (b & s2 & Em & Hk & Ht & Hf).
  { apply Hheld. now left. }
  { intros l Hl. exact (Hfresh (inv_used _ _ _ I _ _ Hl)). }
  exists b, s2. split; [exact Em|]. split.
  - intros ->. destruct (Ht eq_refl) as (I2 & Hv & Hc & Hw). split; [exact I2|]. split; [|auto].
    intros v (Hv' & Hc' & Hw'). split; [exact Hv'|]. split; [exact Hc'|]. now apply Hk.
  - intros ->. destruct (Hf eq_refl) as (s3 & Er & Hm & I3). exists s3. split; [exact Er|]. split; [exact I3|].
    intros v (Hv' & Hc' & Hw'). split; [exact Hv'|]. split; [exact Hc'|]. rewrite Hm. now apply Hk.
Qed.

(** C1: the heap, the virtual memory manager and the frame allocator together.
    Started on an empty heap and well-formed page tables, after any sequence of
    requests and frees the heap is consistent, the payloads handed out do not
    overlap, the page tables of the kernel are well formed, and every address of a
    payload translates to physical memory; and every further request of up to 2^44
    bytes, and every free of a payload that is held, returns.  The page tables may be
    those of the boot code, in frames that the frame allocator does not hand out. *)
Theorem kernel_heap_safe h0 cs0 (s0 : vmm F) h s held T0 :
  heap_wf h0 cs0 -> live (heap_start h0) cs0 = [] -> pt_inv T0 root s0 ->
  heap_start h0 mod 4096 = 0 -> heap_committed_end h0 = heap_start h0 ->
  rtc (@heap_client _ vmm_backing) (h0, s0, []) (h, s, held) ->
  kheap_verify h = Ok tt /\ NoDup held.*1 /\ (exists T, pt_inv T root s) /\
  (forall x y, x ∈ held -> y ∈ held -> x.1 <> y.1 -> apart x y) /\
  (forall p sz a, (p, sz) ∈ held -> p <= a < p + sz -> walk 4 (vm_mem s) root a <> None) /\
  (forall sz, 0 < sz <= 2 ^ 44 -> exists r, @kmalloc _ vmm_backing sz h s = Ok r) /\
  (forall p sz, (p, sz) ∈ held -> exists h', kfree p h = Ok h').
Proof.
  intros W L I Ha He Hrtc. pose proof vmm_backing_laws as HL.
  assert (Hb0 : @backed _ vmm_backing h0 s0) by (split; [rewrite He, Z.sub_diag; reflexivity|intros a Hr; lia]).
  destruct (@client_safe _ vmm_backing HL h0 cs0 s0 h s held W L (ex_intro _ T0 I) Hb0 Hrtc)
    as [Hst Hv Hpt Hin [Hmod Hmap] Hd Hap Hmal Hfree].
  split; [exact Hv|]. split; [exact Hd|]. split; [exact Hpt|]. split; [exact Hap|]. split; [|split; [exact Hmal|exact Hfree]].
  intros p sz a Hp Hr. destruct (Hin p sz Hp) as [Hlo Hhi].
  assert (Hpage : (heap_start h + 4096 * ((a - heap_start h) / 4096)) / 4096 = a / 4096).
  { rewrite <- Hst in Ha. dlia. }
  destruct (Hmap (heap_start h + 4096 * ((a - heap_start h) / 4096))) as (_ & _ & Hw); [dlia|dlia|].
  now rewrite (walk_page _ _ _ _ _ Hpage) in Hw.
Qed.

End Backing.

(** On the page tables of the boot code. *)
Lemma kernel_heap_safe_witness :
  exists h s, rtc (@heap_client _ (vmm_backing 4096)) (heap0, machine32, []) (h, s, [(base0 + 48, 100)]) /\
    walk 4 (vm_mem s) 4096 (base0 + 147) <> None.
Proof.
  assert (Hr : match @kmalloc _ (vmm_backing 4096) 100 heap0 machine32 with Ok (q, _, _) => q | _ => 0 end = base0 + 48)
    by (vm_compute; reflexivity).
  destruct (@kmalloc _ (vmm_backing 4096) 100 heap0 machine32) as [[[p h] s]|e] eqn:E; [|discriminate]. subst p.
  assert (Hrtc : rtc (@heap_client _ (vmm_backing 4096)) (heap0, machine32, []) (h, s, [(base0 + 48, 100)])).
  { apply rtc_once. apply (@hc_malloc _ (vmm_backing 4096) heap0 machine32 [] 100 (base0 + 48) h s ltac:(lia) E). }
  exists h, s. split; [exact Hrtc|].
  destruct (kernel_heap_safe 4096 heap0 [] machine32 h s [(base0 + 48, 100)] (boot_tables 4096) heap0_wf eq_refl machine32_inv
              eq_refl eq_refl Hrtc) as (_ & _ & _ & _ & Hw & _).
  apply (Hw (base0 + 48) 100); [left|lia].
Defined.

(** ** Kernel objects from the heap

    The heap meets the contract [ObjectHeap] under which threads and processes are
    verified. *)
Lemma chunks_unique bs : forall cs cs' p a,
  Forall chunk_ok cs -> Forall chunk_ok cs' -> extents cs = extents cs' -> seg bs p a cs 0 -> seg bs p a cs' 0 -> cs = cs'.
Proof.
  induction cs as [|c cs IH]; intros cs' p a Hc Hc' He Hs Hs'; destruct cs' as [|c' cs'].
  - reflexivity.
  - apply Forall_cons_iff in Hc' as [[Hc' _] Hr]. cbn in He. unfold extent, HDR in He. pose proof (extents_nonneg _ Hr). lia.
  - apply Forall_cons_iff in Hc as [[Hc _] Hr]. cbn in He. unfold extent, HDR in He. pose proof (extents_nonneg _ Hr). lia.
  - apply Forall_cons_iff in Hc as [_ Hc]. apply Forall_cons_iff in Hc' as [_ Hc']. destruct Hs as [E Hs], Hs' as [E' Hs'].
    assert (Ecc : c = c').
    { rewrite E in E'. unfold header in E'. injection E' as Esz Est _. destruct c as [sz fr], c' as [sz' fr']. cbn in *. subst sz'.
      now destruct fr, fr'. }
    subst c'. f_equal. cbn in He. apply (IH cs' a (a + extent c)); auto; lia.
Qed.

Lemma heap_unique h cs cs' : heap_wf h cs -> heap_wf h cs' -> cs = cs'.
Proof.
  intros W W'. apply (chunks_unique (hp_blocks h) cs cs' 0 (heap_start h)); try apply W; try apply W'.
  pose proof (hw_end _ _ W). pose proof (hw_end _ _ W'). lia.
Qed.

Section Objects.
Context {M : Type} `{PageBackingLaws M}.

#[local] Instance heap_objects : ObjectHeap (kheap * M) := {
  oh_alloc n a := let* r := kmalloc n (fst a) (snd a) in let '(p, h, m) := r in Ok (p, (h, m));
  oh_free p a := let* h := kfree p (fst a) in Ok (h, snd a);
  oh_ok a := exists cs, heap_wf (fst a) cs /\ pb_ok (snd a);
  oh_held a p := exists cs n, heap_wf (fst a) cs /\ (p, n) ∈ live (heap_start (fst a)) cs;
  oh_static p := 2 ^ 64 - 2 ^ 45 <= p
}.

Lemma held_live a cs p : heap_wf (fst a) cs -> oh_held a p <-> exists n, (p, n) ∈ live (heap_start (fst a)) cs.
Proof.
  intros W. split; [|intros [n Hn]; now exists cs, n]. intros (cs' & n & W' & Hn). exists n. now rewrite (heap_unique _ _ _ W W').
Qed.

(** [kmalloc] returns 0 or a pointer that nobody holds, [kfree] takes back exactly
    one object that is held, and both always return. *)
#[local] Instance heap_objects_laws : ObjectHeapLaws (kheap * M).
Proof.
  split.
  - intros [h m] p [cs [W _]] Hh. apply (held_live _ cs) in Hh as [n Hn]; [|exact W]. cbn in *.
    apply live_range in Hn as (Hn & Hn' & Hhi); [|apply W]. pose proof (hw_start _ _ W). pose proof (hw_end _ _ W). pose proof (hw_limit _ _ W).
    unfold HDR in Hn. lia.
  - intros [h m] n [cs [W Hm]] Hn. cbn [fst snd] in W, Hm.
    change (oh_alloc n (h, m)) with (let* r := kmalloc n h m in let '(p, h, m) := r in Ok (p, (h, m))).
    destruct (kmalloc_spec n h m cs W Hm Hn) as (p & h' & m' & cs' & -> & W' & Hm' & Hs & _ & Hc).
    exists p, (h', m'). cbn [obind]. split; [reflexivity|]. split; [now exists cs'|].
    assert (Hl : forall q, oh_held (h', m') q <-> exists k, (q, k) ∈ live (heap_start h) cs') by (intros q; rewrite (held_live _ cs') by exact W'; cbn [fst]; now rewrite Hs).
    destruct Hc as [[-> El]|(Hp & l1 & l2 & k & El & El' & Hk & _ & Hlo)].
    + left. split; [reflexivity|]. intros q. rewrite Hl, El. symmetry. now apply held_live.
    + right. assert (Hin : (p, k) ∈ live (heap_start h') cs') by (rewrite Hs, El', elem_of_app; right; left).
      apply live_range in Hin as (Hlo' & _ & Hhi); [|apply W']. pose proof (hw_start _ _ W'). pose proof (hw_end _ _ W'). pose proof (hw_limit _ _ W').
      unfold HDR in *. split; [lia|]. split; [lia|].
      destruct (live_apart (heap_start h) cs' (hw_chunks _ _ W')) as [Hnd _]. rewrite El', fmap_app in Hnd. cbn in Hnd.
      apply list.NoDup_app in Hnd as (_ & Hd1 & Hnd). apply list.NoDup_cons in Hnd as [Hd2 _]. split.
      * rewrite (held_live _ cs) by exact W. intros [k' Hin']. cbn in Hin'. rewrite El in Hin'. apply elem_of_app in Hin' as [Hin'|Hin'].
        -- apply (Hd1 p); [apply list_elem_of_fmap; now exists (p, k')|left].
        -- apply Hd2. apply list_elem_of_fmap. now exists (p, k').
      * intros q. rewrite Hl, (held_live _ cs) by exact W. cbn. rewrite El, El'. split.
        -- intros [k' Hin']. rewrite elem_of_app, elem_of_cons in Hin'. destruct Hin' as [?|[[= -> ->]|?]]; [right|now left|right]; exists k'; rewrite elem_of_app; auto.
        -- intros [->|[k' Hin']]; [exists k; rewrite elem_of_app; right; left|]. exists k'. rewrite elem_of_app in *. rewrite elem_of_cons. tauto.
  - intros [h m] p [cs [W Hm]] Hh. apply (held_live _ cs) in Hh as [n Hn]; [|exact W]. cbn [fst snd] in W, Hm, Hn.
    change (oh_free p (h, m)) with (let* h := kfree p h in Ok (h, m)).
    destruct (kfree_live h cs p n W Hn) as (h' & cs' & l1 & l2 & -> & W' & Hs & El & El'). cbn [obind]. exists (h', m). split; [reflexivity|].
    split; [now exists cs'|]. intros q. rewrite (held_live _ cs'), (held_live _ cs) by (exact W || exact W'). cbn. rewrite Hs, El, El'.
    destruct (live_apart (heap_start h) cs (hw_chunks _ _ W)) as [Hnd _]. rewrite El, fmap_app in Hnd. cbn in Hnd.
    apply list.NoDup_app in Hnd as (_ & Hd1 & Hnd). apply list.NoDup_cons in Hnd as [Hd2 _]. split.
    + intros [k Hin]. split; [|exists k; rewrite elem_of_app in Hin; rewrite elem_of_app, elem_of_cons; tauto].
      intros ->. apply elem_of_app in Hin as [Hin|Hin]; [apply (Hd1 p); [|left]|apply Hd2]; apply list_elem_of_fmap; now exists (p, k).
    + intros [Hq [k Hin]]. exists k. rewrite elem_of_app, elem_of_cons in Hin. rewrite elem_of_app. destruct Hin as [?|[[= -> _]|?]]; [tauto|congruence|tauto].
Qed.

(** The file systems see the same heap as [KernelAlloc].  A panic would end the
    kernel; the two lemmas below show that there is none. *)
#[local] Instance heap_memory : KernelAlloc (kheap * M) := {
  ka_alloc n a := match oh_alloc n a with Ok r => r | Stop _ => (0, a) end;
  ka_free p a := match oh_free p a with Ok a' => a' | Stop _ => a end
}.

Lemma heap_memory_alloc a n : oh_ok a -> 0 < n <= 2 ^ 44 -> oh_alloc n a = Ok (ka_alloc n a) /\ oh_ok (snd (ka_alloc n a)).
Proof.
  intros Ho Hn. destruct (oh_alloc_law a n Ho Hn) as (p & a' & E & Ho' & _). cbn [ka_alloc heap_memory]. rewrite E. now split.
Qed.

Lemma heap_memory_free a p : oh_ok a -> oh_held a p -> oh_free p a = Ok (ka_free p a) /\ oh_ok (ka_free p a).
Proof.
  intros Ho Hp. destruct (oh_free_law a p Ho Hp) as (a' & E & Ho' & _). cbn [ka_free heap_memory]. rewrite E. now split.
Qed.

(** With the note of refusals it is an allocator as the round trip of files needs it. *)
Lemma heap_memory_log : RefusalLogLaws (logged (kheap * M)).
Proof. apply logged_log_laws. Qed.

End Objects.
