(* ===== verification/CString.v ===== *)
(** * Bytes and C strings (src/kernel/lib/string.c)

    A C object is the list of its bytes; a pointer into it is an offset, or the
    list from that offset on for the string functions, which only move forward.
    An access outside the object is [Stop BadAccess].  [memcpy] and [memmove]
    work on one memory, so that source and destination may overlap. *)

From S2P Require Import Prelude Bitmap.

(** ** The functions of string.c *)
Fixpoint strlen (s : list Z) : outcome Z :=
  match s with
  | [] => Stop BadAccess
  | c :: r => if c =? 0 then Ok 0 else let* n := strlen r in Ok (n +64 1)
  end.

Fixpoint strcmp (s1 s2 : list Z) : outcome Z :=
  match s1, s2 with
  | c1 :: r1, c2 :: r2 =>
    if negb (c1 =? 0) && (c1 =? c2) then strcmp r1 r2 else Ok (c1 - c2)
  | _, _ => Stop BadAccess
  end.

Fixpoint strncmp (s1 s2 : list Z) (n : nat) : outcome Z :=
  match n with
  | O => Ok 0
  | S k =>
    match s1, s2 with
    | c1 :: r1, c2 :: r2 =>
      if negb (c1 =? 0) && (c1 =? c2) then strncmp r1 r2 k else Ok (c1 - c2)
    | _, _ => Stop BadAccess
    end
  end.

Fixpoint memcmp (s1 s2 : list Z) (n : nat) : outcome Z :=
  match n with
  | O => Ok 0
  | S k =>
    match s1, s2 with
    | c1 :: r1, c2 :: r2 => if negb (c1 =? c2) then Ok (c1 - c2) else memcmp r1 r2 k
    | _, _ => Stop BadAccess
    end
  end.

(** [m[i]] and [m[i] = v]. *)
Definition load (m : list Z) (i : Z) : outcome Z := of_opt (znth m i).
Definition store (m : list Z) (i v : Z) : outcome (list Z) :=
  if (0 <=? i) && (i <? zlen m) then Ok (zset m i v) else Stop BadAccess.

Fixpoint memset (m : list Z) (p c : Z) (n : nat) : outcome (list Z) :=
  match n with
  | O => Ok m
  | S k => let* m := store m p (u8 c) in memset m (p + 1) c k
  end.

(** [while (n--) *d++ = *s++;] *)
Fixpoint memcpy (m : list Z) (d s : Z) (n : nat) : outcome (list Z) :=
  match n with
  | O => Ok m
  | S k => let* c := load m s in let* m := store m d c in memcpy m (d + 1) (s + 1) k
  end.

(** [while (n--) *--d = *--s;] *)
Fixpoint copy_down (m : list Z) (d s : Z) (n : nat) : outcome (list Z) :=
  match n with
  | O => Ok m
  | S k => let* c := load m (s - 1) in let* m := store m (d - 1) c in copy_down m (d - 1) (s - 1) k
  end.

Definition memmove (m : list Z) (d s : Z) (n : nat) : outcome (list Z) :=
  if d <? s then memcpy m d s n
  else copy_down m (d + Z.of_nat n) (s + Z.of_nat n) n.

(** The two loops of [strncpy] into [dest]: [i] bytes are done. *)
Fixpoint strncpy (dest : list Z) (i : Z) (src : list Z) (n : nat) : outcome (list Z) :=
  match n with
  | O => Ok dest
  | S k =>
    match src with
    | [] => Stop BadAccess
    | c :: r =>
      if c =? 0 then memset dest i 0 n
      else let* dest := store dest i c in strncpy dest (i + 1) r k
    end
  end.

(** ** Little-endian fields of a packed structure *)
Definition get16 (m : list Z) (p : Z) : outcome Z :=
  let* b0 := load m p in let* b1 := load m (p + 1) in Ok (b0 + 2 ^ 8 * b1).
Definition get32 (m : list Z) (p : Z) : outcome Z :=
  let* l := get16 m p in let* h := get16 m (p + 2) in Ok (l + 2 ^ 16 * h).

Definition le16 (v : Z) : list Z := [u8 v; u8 (v / 2 ^ 8)].
Definition le32 (v : Z) : list Z := le16 v ++ le16 (v / 2 ^ 16).

(** Overwriting a part of an object by the bytes [src], which must fit. *)
Definition blit (m : list Z) (p : Z) (src : list Z) : list Z :=
  firstn (Z.to_nat p) m ++ src ++ skipn (Z.to_nat p + length src) m.

(** The [n] bytes from [p] on. *)
Definition slice (m : list Z) (p n : Z) : list Z := firstn (Z.to_nat n) (skipn (Z.to_nat p) m).

(** ** Specification: the string at the start of a list *)
Fixpoint cstr (s : list Z) : option (list Z) :=
  match s with
  | [] => None
  | c :: r => if c =? 0 then Some [] else match cstr r with Some t => Some (c :: t) | None => None end
  end.

Lemma strlen_spec s t : cstr s = Some t -> Z.of_nat (length t) < 2 ^ 64 -> strlen s = Ok (zlen t).
Proof.
  revert t; induction s as [|c r IH]; intros t; cbn; [discriminate|].
  destruct (c =? 0); [now intros [= <-]|]. destruct (cstr r) as [u|]; [|discriminate].
  intros [= <-] Hl. cbn in Hl. rewrite (IH u eq_refl) by lia. cbn [obind]. unfold zlen in *. cbn [length].
  rewrite u64_id by lia. f_equal. lia.
Qed.

Lemma cstr_app s t : Forall (fun c => c <> 0) s -> cstr (s ++ 0 :: t) = Some s.
Proof.
  induction 1 as [|c r Hc _ IH]; [reflexivity|]. cbn. destruct (Z.eqb_spec c 0); [done|]. now rewrite IH.
Qed.

Lemma cstr_nonzero s t : cstr s = Some t -> Forall (fun c => c <> 0) t.
Proof.
  revert t; induction s as [|c r IH]; intros t; cbn; [discriminate|].
  destruct (Z.eqb_spec c 0); [now intros [= <-]|]. destruct (cstr r) as [u|]; [|discriminate].
  intros [= <-]. constructor; auto.
Qed.

Lemma cstr_length s t : cstr s = Some t -> (length t < length s)%nat.
Proof.
  revert t; induction s as [|c r IH]; intros t; cbn; [discriminate|].
  destruct (c =? 0); [intros [= <-]; cbn; lia|]. destruct (cstr r) as [u|]; [|discriminate].
  intros [= <-]. specialize (IH u eq_refl). cbn. lia.
Qed.

(** [strcmp] decides equality of strings. *)
Lemma strcmp_spec s1 s2 t1 t2 :
  cstr s1 = Some t1 -> cstr s2 = Some t2 -> exists d, strcmp s1 s2 = Ok d /\ (d = 0 <-> t1 = t2).
Proof.
  revert s2 t1 t2; induction s1 as [|c1 r1 IH]; intros s2 t1 t2; cbn; [discriminate|].
  destruct s2 as [|c2 r2]; cbn; [discriminate|]. intros H1 H2.
  destruct (Z.eqb_spec c1 0) as [->|N1]; cbn [negb andb].
  - injection H1 as <-. exists (0 - c2). split; [reflexivity|].
    destruct (Z.eqb_spec c2 0) as [->|N2]; [injection H2 as <-; split; auto; lia|].
    destruct (cstr r2); [|discriminate]. injection H2 as <-. split; [lia|discriminate].
  - destruct (cstr r1) as [u1|] eqn:E1; [|discriminate]. injection H1 as <-.
    destruct (Z.eqb_spec c1 c2) as [<-|N2].
    + destruct (Z.eqb_spec c1 0); [done|]. destruct (cstr r2) as [u2|] eqn:E2; [|discriminate].
      injection H2 as <-. destruct (IH r2 u1 u2 eq_refl E2) as (d & Ed & Hd). exists d. split; [exact Ed|].
      rewrite Hd. split; [now intros ->|now intros [=]].
    + exists (c1 - c2). split; [reflexivity|]. split; [lia|].
      destruct (Z.eqb_spec c2 0); [injection H2 as <-; discriminate|].
      destruct (cstr r2); [|discriminate]. injection H2 as <-. intros [=]. lia.
Qed.

(** ** Lemmas on objects *)
Lemma zlen_app {A} (l1 l2 : list A) : zlen (l1 ++ l2) = zlen l1 + zlen l2.
Proof. unfold zlen. rewrite length_app. lia. Qed.

Lemma znth_app {A} (l1 l2 : list A) i :
  0 <= i -> znth (l1 ++ l2) i = if i <? zlen l1 then znth l1 i else znth l2 (i - zlen l1).
Proof.
  intros Hi. unfold znth, zlen. destruct (Z.leb_spec 0 i); [|lia].
  destruct (Z.ltb_spec i (Z.of_nat (length l1))).
  - apply lookup_app_l. lia.
  - destruct (Z.leb_spec 0 (i - Z.of_nat (length l1))); [|lia].
    rewrite lookup_app_r by lia. f_equal. lia.
Qed.

Lemma zlen_blit m p src : 0 <= p -> p + zlen src <= zlen m -> zlen (blit m p src) = zlen m.
Proof. intros Hp Hl. unfold blit, zlen in *. rewrite !length_app, length_firstn, length_skipn. lia. Qed.

Lemma znth_blit m p src i :
  0 <= p -> p + zlen src <= zlen m -> 0 <= i ->
  znth (blit m p src) i = if (p <=? i) && (i <? p + zlen src) then znth src (i - p) else znth m i.
Proof.
  intros Hp Hl Hi. unfold blit.
  assert (Hf : zlen (firstn (Z.to_nat p) m) = p) by (unfold zlen in *; rewrite length_firstn; lia).
  rewrite znth_app by lia. rewrite Hf.
  destruct (Z.ltb_spec i p), (Z.leb_spec p i); try lia; cbn [andb].
  - unfold znth. destruct (Z.leb_spec 0 i); [|lia]. apply lookup_take_lt. lia.
  - rewrite znth_app by lia. destruct (Z.ltb_spec (i - p) (zlen src)), (Z.ltb_spec i (p + zlen src)); try lia; [reflexivity|].
    unfold znth, zlen in *. destruct (Z.leb_spec 0 (i - p - Z.of_nat (length src))); [|lia].
    destruct (Z.leb_spec 0 i); [|lia]. rewrite lookup_drop. f_equal. lia.
Qed.

Lemma zlen_slice m p n : 0 <= p -> 0 <= n -> p + n <= zlen m -> zlen (slice m p n) = n.
Proof. intros Hp Hn Hl. unfold slice, zlen in *. rewrite length_firstn, length_skipn. lia. Qed.

Lemma znth_slice m p n i : 0 <= p -> 0 <= i < n -> znth (slice m p n) i = znth m (p + i).
Proof.
  intros Hp Hi. unfold slice, znth. destruct (Z.leb_spec 0 i); [|lia]. destruct (Z.leb_spec 0 (p + i)); [|lia].
  rewrite lookup_take_lt by lia. rewrite lookup_drop. f_equal. lia.
Qed.

(** ** Copying *)

(** [m'] is [m] with the [n] bytes from [s] on copied to [d]. *)
Definition copied (m m' : list Z) (d s n : Z) : Prop :=
  zlen m' = zlen m /\
  forall i, 0 <= i < zlen m ->
    znth m' i = if (d <=? i) && (i <? d + n) then znth m (s + (i - d)) else znth m i.

Lemma copied_blit m m' d s n :
  0 <= d -> 0 <= s -> 0 <= n -> d + n <= zlen m -> s + n <= zlen m -> copied m m' d s n ->
  m' = blit m d (slice m s n).
Proof.
  intros Hd Hs Hn Hdn Hsn [Hlen Hi]. pose proof (zlen_slice m s n Hs Hn Hsn) as Hsl.
  apply znth_ext; [rewrite zlen_blit; lia|]. intros i Hir. rewrite Hi by lia.
  rewrite znth_blit by lia. rewrite Hsl.
  destruct ((d <=? i) && (i <? d + n)) eqn:E; [|reflexivity]. reflect_bools.
  rewrite znth_slice by lia. reflexivity.
Qed.

Lemma store_ok m i v : 0 <= i < zlen m -> store m i v = Ok (zset m i v).
Proof. intros Hi. unfold store. destruct (Z.leb_spec 0 i), (Z.ltb_spec i (zlen m)); reflexivity || lia. Qed.

Lemma load_ok m i : 0 <= i < zlen m -> exists c, load m i = Ok c /\ znth m i = Some c.
Proof. intros Hi. destruct (znth_is_Some m i Hi) as [c E]. exists c. unfold load. now rewrite E. Qed.

Lemma memcpy_copied m d s n :
  0 <= d -> 0 <= s -> d + Z.of_nat n <= zlen m -> s + Z.of_nat n <= zlen m ->
  d <= s \/ s + Z.of_nat n <= d ->
  exists m', memcpy m d s n = Ok m' /\ copied m m' d s (Z.of_nat n).
Proof.
  revert m d s; induction n as [|n IH]; intros m d s Hd Hs Hdn Hsn Hov; cbn [memcpy].
  - exists m. split; [reflexivity|]. split; [reflexivity|]. intros i Hi.
    destruct (Z.leb_spec d i), (Z.ltb_spec i (d + Z.of_nat 0)); cbn; reflexivity || lia.
  - destruct (load_ok m s) as (c & -> & Ec); [lia|]. cbn [obind]. rewrite store_ok by lia. cbn [obind].
    destruct (IH (zset m d c) (d + 1) (s + 1)) as (m' & -> & Hlen & Hi); rewrite ?zlen_zset in *; try lia.
    exists m'. split; [reflexivity|]. split; [exact Hlen|]. intros i Hir. rewrite Hi by lia.
    destruct (Z.leb_spec (d + 1) i), (Z.leb_spec d i), (Z.ltb_spec i (d + 1 + Z.of_nat n)),
      (Z.ltb_spec i (d + Z.of_nat (S n))); cbn [andb]; try lia; rewrite ?znth_zset_ne by lia; try reflexivity.
    + f_equal. lia.
    + replace i with d by lia. rewrite znth_zset_eq by lia. rewrite Z.sub_diag, Z.add_0_r. now rewrite Ec.
Qed.

Lemma copy_down_copied m d s n :
  0 <= d -> 0 <= s -> d + Z.of_nat n <= zlen m -> s + Z.of_nat n <= zlen m -> s <= d ->
  exists m', copy_down m (d + Z.of_nat n) (s + Z.of_nat n) n = Ok m' /\ copied m m' d s (Z.of_nat n).
Proof.
  revert m; induction n as [|n IH]; intros m Hd Hs Hdn Hsn Hov; cbn [copy_down].
  - exists m. split; [reflexivity|]. split; [reflexivity|]. intros i Hi.
    destruct (Z.leb_spec d i), (Z.ltb_spec i (d + Z.of_nat 0)); cbn; reflexivity || lia.
  - replace (d + Z.of_nat (S n) - 1) with (d + Z.of_nat n) by lia.
    replace (s + Z.of_nat (S n) - 1) with (s + Z.of_nat n) by lia.
    destruct (load_ok m (s + Z.of_nat n)) as (c & -> & Ec); [lia|]. cbn [obind].
    rewrite store_ok by lia. cbn [obind].
    destruct (IH (zset m (d + Z.of_nat n) c)) as (m' & -> & Hlen & Hi); rewrite ?zlen_zset in *; try lia.
    exists m'. split; [reflexivity|]. split; [exact Hlen|]. intros i Hir. rewrite Hi by lia.
    destruct (Z.leb_spec d i), (Z.ltb_spec i (d + Z.of_nat n)), (Z.ltb_spec i (d + Z.of_nat (S n)));
      cbn [andb]; try lia; rewrite ?znth_zset_ne by lia; try reflexivity.
    replace i with (d + Z.of_nat n) by lia. rewrite znth_zset_eq by lia.
    replace (s + (d + Z.of_nat n - d)) with (s + Z.of_nat n) by lia. now rewrite Ec.
Qed.

Lemma memset_spec m p c n :
  0 <= p -> p + Z.of_nat n <= zlen m -> memset m p c n = Ok (blit m p (replicate n (u8 c))).
Proof.
  revert m p; induction n as [|n IH]; intros m p Hp Hl; cbn [memset].
  - unfold blit. cbn. rewrite Nat.add_0_r. now rewrite firstn_skipn.
  - rewrite store_ok by lia. cbn [obind]. rewrite IH by (rewrite ?zlen_zset; lia). f_equal.
    assert (Hr : forall k, zlen (replicate k (u8 c)) = Z.of_nat k) by (intros; apply zlen_replicate).
    apply znth_ext; [rewrite !zlen_blit, ?zlen_zset; rewrite ?Hr, ?zlen_zset; lia|].
    intros i Hi. rewrite zlen_blit, zlen_zset in Hi by (rewrite ?Hr, ?zlen_zset; lia).
    rewrite !znth_blit by (rewrite ?Hr, ?zlen_zset; lia). rewrite !Hr.
    destruct (Z.leb_spec (p + 1) i), (Z.leb_spec p i), (Z.ltb_spec i (p + 1 + Z.of_nat n)),
      (Z.ltb_spec i (p + Z.of_nat (S n))); cbn [andb]; try lia;
      rewrite ?znth_zset_ne by lia; rewrite ?znth_replicate by lia; try reflexivity;
      replace i with p by lia; rewrite znth_zset_eq by lia; reflexivity.
Qed.

(** ** Fields *)
Lemma le32_len v : zlen (le32 v) = 4.
Proof. reflexivity. Qed.

Lemma get32_znth m p b0 b1 b2 b3 :
  znth m p = Some b0 -> znth m (p + 1) = Some b1 -> znth m (p + 2) = Some b2 -> znth m (p + 3) = Some b3 ->
  get32 m p = Ok (b0 + 2 ^ 8 * b1 + 2 ^ 16 * (b2 + 2 ^ 8 * b3)).
Proof.
  intros E0 E1 E2 E3. unfold get32, get16, load. rewrite E0, E1, E2.
  replace (p + 2 + 1) with (p + 3) by lia. rewrite E3. reflexivity.
Qed.

Lemma get32_ext m m' p p' :
  (forall k, 0 <= k < 4 -> znth m (p + k) = znth m' (p' + k)) -> get32 m p = get32 m' p'.
Proof.
  intros H. unfold get32, get16, load.
  pose proof (H 0 ltac:(lia)) as H0. pose proof (H 1 ltac:(lia)) as H1.
  pose proof (H 2 ltac:(lia)) as H2. pose proof (H 3 ltac:(lia)) as H3.
  rewrite !Z.add_0_r in H0. rewrite H0, H1, H2.
  replace (p + 2 + 1) with (p + 3) by lia. replace (p' + 2 + 1) with (p' + 3) by lia. now rewrite H3.
Qed.

Lemma get32_le32 v r : 0 <= v < 2 ^ 32 -> get32 (le32 v ++ r) 0 = Ok v.
Proof.
  intros Hv. unfold le32, le16. cbn [app].
  rewrite (get32_znth _ 0 (u8 v) (u8 (v / 2 ^ 8)) (u8 (v / 2 ^ 16)) (u8 (v / 2 ^ 16 / 2 ^ 8))) by reflexivity.
  f_equal. unfold u8. dlia.
Qed.

Lemma le32_get32 b0 b1 b2 b3 :
  byte b0 -> byte b1 -> byte b2 -> byte b3 -> le32 (b0 + 2 ^ 8 * b1 + 2 ^ 16 * (b2 + 2 ^ 8 * b3)) = [b0; b1; b2; b3].
Proof. unfold byte, le32, le16, u8. intros H0 H1 H2 H3. cbn [app]. repeat (f_equal; [dlia|]). f_equal. dlia. Qed.

(** ** Copying by sectors

    The bytes from [off] to the end of its sector, at most [len]. *)
Definition chunk_at (off len : Z) : Z := if len <? 512 - off mod 512 then len else 512 - off mod 512.

Lemma chunk_at_spec off len : 0 < len ->
  0 < chunk_at off len <= len /\ off mod 512 + chunk_at off len <= 512 /\
  (chunk_at off len = len \/ off mod 512 + chunk_at off len = 512).
Proof. intros Hl. unfold chunk_at. destruct (Z.ltb_spec len (512 - off mod 512)); dlia. Qed.

Lemma same_block_range p off n :
  p / 512 = off / 512 ->
  (off <=? p) && (p <? off + n) = (off mod 512 <=? p mod 512) && (p mod 512 <? off mod 512 + n).
Proof.
  intros E. pose proof (Z.div_mod p 512 ltac:(lia)). pose proof (Z.div_mod off 512 ltac:(lia)).
  destruct (Z.leb_spec off p), (Z.leb_spec (off mod 512) (p mod 512)),
    (Z.ltb_spec p (off + n)), (Z.ltb_spec (p mod 512) (off mod 512 + n)); try reflexivity; lia.
Qed.

Lemma slice_split src n m :
  0 <= n -> 0 <= m -> slice src 0 (n + m) = slice src 0 n ++ slice (skipn (Z.to_nat n) src) 0 m.
Proof.
  intros Hn Hm. unfold slice. rewrite !drop_0, Z2Nat.inj_add by lia. symmetry. apply take_take_drop.
Qed.

Lemma Forall_slice (P : Z -> Prop) l o n : Forall P l -> Forall P (slice l o n).
Proof. intros Hl. unfold slice. now apply Forall_take, Forall_drop. Qed.

(** [memmove] copies [n] bytes as if through a temporary buffer, whether or
    not source and destination overlap and in either direction, and touches no
    other byte. *)
Theorem memmove_correct m d s n :
  0 <= d -> 0 <= s -> d + Z.of_nat n <= zlen m -> s + Z.of_nat n <= zlen m ->
  memmove m d s n = Ok (blit m d (slice m s (Z.of_nat n))).
Proof.
  intros Hd Hs Hdn Hsn. unfold memmove. destruct (Z.ltb_spec d s).
  - destruct (memcpy_copied m d s n) as (m' & -> & Hc); auto; try lia. f_equal. apply copied_blit; auto; lia.
  - destruct (copy_down_copied m d s n) as (m' & -> & Hc); auto; try lia. f_equal. apply copied_blit; auto; lia.
Qed.

Lemma memmove_correct_witness : memmove [1; 2; 3; 4; 5] 1 0 4 = Ok [1; 1; 2; 3; 4].
Proof. exact (memmove_correct [1; 2; 3; 4; 5] 1 0 4 ltac:(lia) ltac:(lia) ltac:(unfold zlen; cbn; lia) ltac:(unfold zlen; cbn; lia)). Defined.

(** [strcmp] returns 0 exactly on equal strings, for any two terminated
    strings, and stays inside them. *)
Theorem strcmp_decides_equality s1 s2 t1 t2 :
  cstr s1 = Some t1 -> cstr s2 = Some t2 -> exists d, strcmp s1 s2 = Ok d /\ (d = 0 <-> t1 = t2).
Proof. apply strcmp_spec. Qed.

Lemma strcmp_decides_equality_witness : exists d, strcmp [97; 98; 0; 7] [97; 98; 0] = Ok d /\ d = 0.
Proof.
  destruct (strcmp_decides_equality [97; 98; 0; 7] [97; 98; 0] [97; 98] [97; 98] eq_refl eq_refl) as (d & E & Hd).
  exists d. split; [exact E|]. now apply Hd.
Defined.
