(* ===== verification/Kfs.v ===== *)
(** * The KFS file system (src/kernel/fs/kfs.c, src/include/kfs.h)

    The state [kfs] holds the file's static variables: the superblock, the two
    cached bitmaps, and the block device and kernel allocator they are used with.
    Every function of the file is one operation of the state monad [st], which
    carries [outcome]: an index outside a buffer is [Stop BadAccess].  A C
    function that returns a negative [errno] or 0 and an output is an operation
    of [kop]; the changes made before an error stay.  A vnode is its field
    [fs_private] (the inode number) and its type; an open file is passed as its
    offset and flags, and the new offset is returned.  On-disk structures are
    decoded from and encoded to the bytes of a sector. *)

From S2P Require Import Prelude Bitmap Interfaces CString.

(** ** Constants *)
Definition KFS_MAGIC : Z := 0x4B465331.
Definition KFS_BLOCK_SIZE : Z := 512.
Definition KFS_SUPERBLOCK_BLK : Z := 64.
Definition KFS_TYPE_FREE : Z := 0.
Definition KFS_TYPE_FILE : Z := 1.
Definition KFS_TYPE_DIR : Z := 2.
Definition VNODE_TYPE_FILE : Z := 1.
Definition VNODE_TYPE_DIR : Z := 2.

Definition DT_REG : Z := 1.
Definition DT_DIR : Z := 2.

Definition O_RDONLY : Z := 0x0000.
Definition O_WRONLY : Z := 0x0001.
Definition O_RDWR : Z := 0x0002.
Definition O_ACCMODE : Z := 0x0003.
Definition O_CREAT : Z := 0x0040.
Definition O_EXCL : Z := 0x0080.
Definition O_TRUNC : Z := 0x0200.
Definition O_APPEND : Z := 0x0400.

Definition ENOENT : Z := 2.
Definition EIO : Z := 5.
Definition EBADF : Z := 9.
Definition ENOMEM : Z := 12.
Definition EACCES : Z := 13.
Definition EFAULT : Z := 14.
Definition EEXIST : Z := 17.
Definition ENODEV : Z := 19.
Definition ENOTDIR : Z := 20.
Definition EISDIR : Z := 21.
Definition EINVAL : Z := 22.
Definition EFBIG : Z := 27.
Definition ENOSPC : Z := 28.
Definition EROFS : Z := 30.
Definition ENAMETOOLONG : Z := 36.
Definition ENOTEMPTY : Z := 39.
Definition ENOTSUP : Z := 95.

(** ** On-disk structures *)
Record kfs_superblock : Type := mkSb {
  sb_magic : Z;
  sb_total_blocks : Z;
  sb_inode_count : Z;
  sb_block_bitmap_start : Z;
  sb_block_bitmap_blks : Z;
  sb_inode_bitmap_start : Z;
  sb_inode_bitmap_blks : Z;
  sb_inode_table_start : Z;
  sb_inode_table_blks : Z;
  sb_data_blocks_start : Z;
  sb_root_inode : Z
}.

Record kfs_inode : Type := mkInode {
  in_size : Z;
  in_type : Z;
  in_direct : list Z;
  in_indirect : Z;
  in_link_count : Z;
  in_pad : list Z
}.

Record vnode : Type := mkVnode { fs_private : Z; vn_type : Z }.

Definition with_isize (i : kfs_inode) (v : Z) : kfs_inode :=
  mkInode v (in_type i) (in_direct i) (in_indirect i) (in_link_count i) (in_pad i).
Definition with_itype (i : kfs_inode) (v : Z) : kfs_inode :=
  mkInode (in_size i) v (in_direct i) (in_indirect i) (in_link_count i) (in_pad i).
Definition with_direct (i : kfs_inode) (k v : Z) : kfs_inode :=
  mkInode (in_size i) (in_type i) (zset (in_direct i) k v) (in_indirect i) (in_link_count i) (in_pad i).
Definition with_indirect (i : kfs_inode) (v : Z) : kfs_inode :=
  mkInode (in_size i) (in_type i) (in_direct i) v (in_link_count i) (in_pad i).
Definition with_links (i : kfs_inode) (v : Z) : kfs_inode :=
  mkInode (in_size i) (in_type i) (in_direct i) (in_indirect i) v (in_pad i).

(** [memset(&inode, 0, sizeof inode)] *)
Definition zero_inode : kfs_inode := mkInode 0 0 (replicate 10 0) 0 0 (replicate 2 0).

(** [n] consecutive 32-bit words from [p] on. *)
Fixpoint get_words (b : list Z) (p : Z) (n : nat) : outcome (list Z) :=
  match n with
  | O => Ok []
  | S k => let* v := get32 b p in let* r := get_words b (p + 4) k in Ok (v :: r)
  end.

Definition put_words (l : list Z) : list Z := concat (le32 <$> l).

Definition decode_superblock (b : list Z) : outcome kfs_superblock :=
  let* w := get_words b 0 11 in
  match w with
  | [m; tot; cnt; bs; bb; ims; imb; ts; tb; ds; ri] => Ok (mkSb m tot cnt bs bb ims imb ts tb ds ri)
  | _ => Stop BadAccess
  end.

(** [((struct kfs_inode * )buf)[k]] *)
Definition decode_inode (b : list Z) (k : Z) : outcome kfs_inode :=
  let* sz := get32 b (64 * k) in
  let* ty := get32 b (64 * k + 4) in
  let* d := get_words b (64 * k + 8) 10 in
  let* ind := get32 b (64 * k + 48) in
  let* lc := get32 b (64 * k + 52) in
  let* pad := get_words b (64 * k + 56) 2 in
  Ok (mkInode sz ty d ind lc pad).

Definition encode_inode (i : kfs_inode) : list Z :=
  le32 (in_size i) ++ le32 (in_type i) ++ put_words (in_direct i) ++ le32 (in_indirect i) ++
  le32 (in_link_count i) ++ put_words (in_pad i).

(** ** The state and its operations *)
Record kfs (D A : Type) : Type := mkKfs {
  k_sb : option kfs_superblock;
  k_block_bitmap : list Z;
  k_inode_bitmap : list Z;
  k_dev : D;
  k_heap : A;
  k_root : option vnode
}.
Arguments mkKfs {D A}.
Arguments k_sb {D A}.
Arguments k_block_bitmap {D A}.
Arguments k_inode_bitmap {D A}.
Arguments k_dev {D A}.
Arguments k_heap {D A}.
Arguments k_root {D A}.

Definition st (D A X : Type) : Type := kfs D A -> outcome (X * kfs D A).

(** A C function that returns an error code: [inl e] with [e < 0], or its output. *)
Definition kop (D A X : Type) : Type := st D A (Z + X).

Section Monad.
Context {D A : Type}.

Definition sret {X} (x : X) : st D A X := fun s => Ok (x, s).
Definition sbind {X Y} (m : st D A X) (f : X -> st D A Y) : st D A Y :=
  fun s => match m s with Ok (x, s) => f x s | Stop e => Stop e end.

Definition ret {X} (x : X) : kop D A X := sret (inr x).
Definition fail {X} (e : Z) : kop D A X := sret (inl e).
(** [if (err < 0) return err;] *)
Definition bind {X Y} (m : kop D A X) (f : X -> kop D A Y) : kop D A Y :=
  sbind m (fun r => match r with inl e => fail e | inr x => f x end).

(** An access to a local object. *)
Definition local {X} (o : outcome X) : kop D A X := fun s => match o with Ok x => Ok (inr x, s) | Stop e => Stop e end.
End Monad.

Declare Scope kfs_scope.
Delimit Scope kfs_scope with kfs.
Notation "'do' x <- m ; k" := (bind m (fun x => k))
  (at level 10, x pattern, m at level 100, k at level 200) : kfs_scope.
Notation "'do!' x <- m ; k" := (sbind m (fun x => k))
  (at level 10, x pattern, m at level 100, k at level 200) : kfs_scope.
#[local] Open Scope kfs_scope.

Section Operations.
Context {D A : Type} `{BlockDevice D} `{KernelAlloc A}.
Abbreviation op := (kop D A).
Abbreviation sop := (st D A).

Definition kmalloc (sz : Z) : sop Z :=
  fun s => let '(p, a) := ka_alloc sz (k_heap s) in
           Ok (p, mkKfs (k_sb s) (k_block_bitmap s) (k_inode_bitmap s) (k_dev s) a (k_root s)).
Definition kfree (p : Z) : sop unit :=
  fun s => Ok (tt, mkKfs (k_sb s) (k_block_bitmap s) (k_inode_bitmap s) (k_dev s) (ka_free p (k_heap s)) (k_root s)).

Definition set_sb (v : option kfs_superblock) : sop unit :=
  fun s => Ok (tt, mkKfs v (k_block_bitmap s) (k_inode_bitmap s) (k_dev s) (k_heap s) (k_root s)).
Definition set_block_bitmap (v : list Z) : sop unit :=
  fun s => Ok (tt, mkKfs (k_sb s) v (k_inode_bitmap s) (k_dev s) (k_heap s) (k_root s)).
Definition set_inode_bitmap (v : list Z) : sop unit :=
  fun s => Ok (tt, mkKfs (k_sb s) (k_block_bitmap s) v (k_dev s) (k_heap s) (k_root s)).

(** [sb->...]: the superblock, a null dereference when there is none. *)
Definition the_sb : op kfs_superblock := fun s => local (of_opt (k_sb s)) s.
Definition the_block_bitmap : sop (list Z) := fun s => Ok (k_block_bitmap s, s).
Definition the_inode_bitmap : sop (list Z) := fun s => Ok (k_inode_bitmap s, s).

Definition read_sectors (lba n : Z) : sop (Z * list Z) :=
  fun s => Ok (bd_read lba n (k_dev s), s).
Definition write_sectors (lba : Z) (b : list Z) : sop Z :=
  fun s => let '(c, d) := bd_write lba b (k_dev s) in
           Ok (c, mkKfs (k_sb s) (k_block_bitmap s) (k_inode_bitmap s) d (k_heap s) (k_root s)).

(** ... followed by [if (err < 0) return err;] *)
Definition dev_read (lba n : Z) : op (list Z) :=
  do! r <- read_sectors lba n; if fst r <? 0 then fail (fst r) else ret (snd r).
Definition dev_write (lba : Z) (b : list Z) : op unit :=
  do! c <- write_sectors lba b; if c <? 0 then fail c else ret tt.

Definition kfs_read_superblock : op unit :=
  do! p <- kmalloc KFS_BLOCK_SIZE;
  if p =? 0 then do! _ <- set_sb None; fail (- ENOMEM)
  else
  do! r <- read_sectors KFS_SUPERBLOCK_BLK 1;
  do sb <- local (decode_superblock (snd r));
  do! _ <- set_sb (Some sb);
  if fst r <? 0 then fail (fst r)
  else if negb (sb_magic sb =? KFS_MAGIC) then
    do! _ <- kfree p;
    do! _ <- set_sb None;
    fail (- EINVAL)
  else ret tt.

(** Reading [n] sectors into a buffer of [size] bytes. *)
Definition read_into (size lba n : Z) : op (list Z) :=
  if size <? n * KFS_BLOCK_SIZE then local (Stop BadAccess) else dev_read lba n.

Definition kfs_load_bitmaps : op unit :=
  do sb <- the_sb;
  let bmap_size := u32 (sb_block_bitmap_blks sb * KFS_BLOCK_SIZE) in
  do! p <- kmalloc bmap_size;
  if p =? 0 then fail (- ENOMEM)
  else
  do b <- read_into bmap_size (sb_block_bitmap_start sb) (sb_block_bitmap_blks sb);
  do! _ <- set_block_bitmap b;
  let imap_size := u32 (sb_inode_bitmap_blks sb * KFS_BLOCK_SIZE) in
  do! q <- kmalloc imap_size;
  if q =? 0 then fail (- ENOMEM)
  else
  do b <- read_into imap_size (sb_inode_bitmap_start sb) (sb_inode_bitmap_blks sb);
  do! _ <- set_inode_bitmap b;
  ret tt.

Definition kfs_read_inode (ino : Z) : op kfs_inode :=
  do sb <- the_sb;
  if sb_inode_count sb <=? ino then fail (- EINVAL)
  else
  do! bm <- the_inode_bitmap;
  do used <- local (of_opt (bm_test bm ino));
  if negb used then fail (- ENOENT)
  else
  let blk_offset := ino / 8 in
  let ino_offset := ino mod 8 in
  do buf <- dev_read (u32 (sb_inode_table_start sb + blk_offset)) 1;
  local (decode_inode buf ino_offset).

Definition kfs_write_inode (ino : Z) (i : kfs_inode) : op unit :=
  do sb <- the_sb;
  if sb_inode_count sb <=? ino then fail (- EINVAL)
  else
  let blk_offset := ino / 8 in
  let ino_offset := ino mod 8 in
  do buf <- dev_read (u32 (sb_inode_table_start sb + blk_offset)) 1;
  dev_write (u32 (sb_inode_table_start sb + blk_offset)) (blit buf (64 * ino_offset) (encode_inode i)).

(** Writing back the sector of a bitmap that holds bit [i]. *)
Definition write_bitmap_sector (start : Z) (bm : list Z) (i : Z) : op unit :=
  let sec_offset := i / 8 / KFS_BLOCK_SIZE in
  dev_write (u32 (start + sec_offset)) (slice bm (sec_offset * KFS_BLOCK_SIZE) KFS_BLOCK_SIZE).

(** The scan [for (i = ...; i < limit; i++)] for a clear bit: [n] bits are left. *)
Fixpoint find_clear (bm : list Z) (i : Z) (n : nat) : outcome (option Z) :=
  match n with
  | O => Ok None
  | S k =>
    let* used := of_opt (bm_test bm i) in
    if negb used then Ok (Some i) else find_clear bm (i + 1) k
  end.

Definition kfs_alloc_inode (type : Z) : op Z :=
  do sb <- the_sb;
  do! bm <- the_inode_bitmap;
  do found <- local (find_clear bm 1 (Z.to_nat (sb_inode_count sb - 1)));
  match found with
  | None => fail (- ENOSPC)
  | Some i =>
    do bm <- local (of_opt (bm_set bm i));
    do! _ <- set_inode_bitmap bm;
    do _ <- write_bitmap_sector (sb_inode_bitmap_start sb) bm i;
    let new_in := with_links (with_itype zero_inode type) 1 in
    do _ <- kfs_write_inode i new_in;
    ret i
  end.

Definition kfs_free_inode (ino : Z) : op unit :=
  do sb <- the_sb;
  if (ino =? 0) || (sb_inode_count sb <=? ino) then fail (- EINVAL)
  else
  do! bm <- the_inode_bitmap;
  do bm <- local (of_opt (bm_clear bm ino));
  do! _ <- set_inode_bitmap bm;
  write_bitmap_sector (sb_inode_bitmap_start sb) bm ino.

Definition zero_buf : list Z := replicate 512 0.

Definition kfs_alloc_block : op Z :=
  do sb <- the_sb;
  do! bm <- the_block_bitmap;
  do found <- local (find_clear bm (sb_data_blocks_start sb)
                       (Z.to_nat (sb_total_blocks sb - sb_data_blocks_start sb)));
  match found with
  | None => fail (- ENOSPC)
  | Some i =>
    do bm <- local (of_opt (bm_set bm i));
    do! _ <- set_block_bitmap bm;
    do _ <- write_bitmap_sector (sb_block_bitmap_start sb) bm i;
    do _ <- dev_write i zero_buf;
    ret i
  end.

Definition kfs_free_block (blk : Z) : op unit :=
  do sb <- the_sb;
  if (blk <? sb_data_blocks_start sb) || (sb_total_blocks sb <=? blk) then fail (- EINVAL)
  else
  do! bm <- the_block_bitmap;
  do bm <- local (of_opt (bm_clear bm blk));
  do! _ <- set_block_bitmap bm;
  write_bitmap_sector (sb_block_bitmap_start sb) bm blk.

(** The inode and its dirty flag are in-out parameters: they come back with the
    changes made, also when the result is an error. *)
Definition kfs_map_or_alloc_block (inode : kfs_inode) (logical_blk : Z) (dirty : bool)
  : sop ((Z + Z) * kfs_inode * bool) :=
  if logical_blk <? 10 then
    do! d <- local (load (in_direct inode) logical_blk);
    match d with
    | inl e => sret (inl e, inode, dirty)
    | inr d =>
      if d =? 0 then
        do! r <- kfs_alloc_block;
        match r with
        | inl e => sret (inl e, inode, dirty)
        | inr new_blk => sret (inr new_blk, with_direct inode logical_blk new_blk, true)
        end
      else sret (inr d, inode, dirty)
    end
  else
    let ind_offset := logical_blk - 10 in
    if 128 <=? ind_offset then sret (inl (- EFBIG), inode, dirty)
    else
    do! r <- (if in_indirect inode =? 0 then
                do new_ind <- kfs_alloc_block; ret (with_indirect inode new_ind, true)
              else ret (inode, dirty));
    match r with
    | inl e => sret (inl e, inode, dirty)
    | inr (inode, dirty) =>
      do! r <- (do ind_buf <- dev_read (in_indirect inode) 1;
                do w <- local (get32 ind_buf (4 * ind_offset));
                if w =? 0 then
                  do new_blk <- kfs_alloc_block;
                  do _ <- dev_write (in_indirect inode) (blit ind_buf (4 * ind_offset) (le32 new_blk));
                  ret new_blk
                else ret w);
      sret (r, inode, dirty)
    end.

Definition kfs_map_block (inode : kfs_inode) (logical_blk : Z) : op Z :=
  if logical_blk <? 10 then
    do phys_blk <- local (load (in_direct inode) logical_blk);
    if phys_blk =? 0 then fail (- ENOENT) else ret phys_blk
  else if in_indirect inode =? 0 then fail (- ENOENT)
  else
    let ind_offset := u32 (logical_blk - 10) in
    if 128 <=? ind_offset then fail (- EINVAL)
    else
    do buf <- dev_read (in_indirect inode) 1;
    do phys_blk <- local (get32 buf (4 * ind_offset));
    if phys_blk =? 0 then fail (- ENOENT) else ret phys_blk.

(** ** Reading *)

(** What [read] leaves behind: its code, the bytes copied out and the offset. *)
Record read_result : Type := mkRead { rr_err : Z; rr_data : list Z; rr_offset : Z }.

(** The copying loop: [to_read] bytes are left, [out] is copied already. *)
Fixpoint read_loop (fuel : nat) (inode : kfs_inode) (offset to_read : Z) (out : list Z) : sop read_result :=
  if to_read =? 0 then sret (mkRead 0 out offset)
  else
    match fuel with
    | O => fun _ => Stop NoFuel
    | S k =>
      let logical_blk := u32 (offset / KFS_BLOCK_SIZE) in
      let blk_offset := offset mod KFS_BLOCK_SIZE in
      do! r <- (do phys_blk <- kfs_map_block inode logical_blk; dev_read phys_blk 1);
      match r with
      | inl e => sret (mkRead e out offset)
      | inr blk_buf =>
        let chunk := KFS_BLOCK_SIZE - blk_offset in
        let chunk := if to_read <? chunk then to_read else chunk in
        read_loop k inode (offset +64 chunk) (to_read - chunk) (out ++ slice blk_buf blk_offset chunk)
      end
    end.

(** Each iteration reads to the end of a block, so one more than the number of
    blocks in [to_read] bytes is enough. *)
Definition read_fuel (to_read : Z) : nat := S (S (Z.to_nat (to_read / KFS_BLOCK_SIZE))).

Definition kfs_vnode_read (vn : vnode) (offset count : Z) : sop read_result :=
  let ino := u32 (fs_private vn) in
  do! r <- kfs_read_inode ino;
  match r with
  | inl e => sret (mkRead e [] offset)
  | inr inode =>
    if in_size inode <=? offset then sret (mkRead 0 [] offset)
    else
      let to_read := if in_size inode <? offset +64 count then in_size inode - offset else count in
      read_loop (read_fuel to_read) inode offset to_read []
  end.

(** The whole content of a directory into a buffer of [size] bytes. *)
Definition read_dir (vn : vnode) (size : Z) : op (list Z) :=
  do! r <- kfs_vnode_read vn 0 size;
  if rr_err r <? 0 then fail (rr_err r) else ret (rr_data r).

(** ** Directory entries *)
Record kfs_dirent : Type := mkDirent { de_inode : Z; de_reclen : Z; de_type : Z; de_name : list Z }.

(** [(struct kfs_dirent * )(data + offset)]: the fixed fields, and the bytes from
    [name] to the end of the buffer. *)
Definition dirent_at (data : list Z) (offset : Z) : outcome kfs_dirent :=
  let* ino := get32 data offset in
  let* reclen := get16 data (offset + 4) in
  let* type := CString.load data (offset + 6) in
  Ok (mkDirent ino reclen type (skipn (Z.to_nat (offset + 7)) data)).

(** The scan of a directory for [name]: the entry found and its offset. *)
Fixpoint find_dirent (fuel : nat) (data : list Z) (size : Z) (name : list Z) (offset : Z)
  : outcome (option (Z * kfs_dirent)) :=
  if size <=? offset then Ok None
  else
    match fuel with
    | O => Stop NoFuel
    | S k =>
      let* ent := dirent_at data offset in
      if (de_reclen ent =? 0) || negb (de_reclen ent mod 4 =? 0) then Ok None
      else
        let* c := strcmp (de_name ent) name in
        if c =? 0 then Ok (Some (offset, ent))
        else find_dirent k data size name (u32 (offset + de_reclen ent))
    end.

(** Records are at least 4 bytes long. *)
Definition scan_fuel (size : Z) : nat := S (Z.to_nat (size / 4 + 1)).

Definition str (l : list Z) : list Z := l ++ [0].
Definition DOT : list Z := str [46].
Definition DOTDOT : list Z := str [46; 46].

Definition sizeof_vnode : Z := 24.

(** [kmalloc] of a vnode with the operations of [vn]. *)
Definition new_vnode (private type : Z) : op vnode :=
  do! p <- kmalloc sizeof_vnode;
  if p =? 0 then fail (- ENOMEM) else ret (mkVnode private type).

Definition kfs_vnode_lookup (vn : vnode) (name : list Z) : op vnode :=
  let ino := u32 (fs_private vn) in
  do inode <- kfs_read_inode ino;
  if negb (in_type inode =? KFS_TYPE_DIR) then fail (- ENOTDIR)
  else
  do c <- local (strcmp name DOT);
  if c =? 0 then new_vnode (fs_private vn) VNODE_TYPE_DIR
  else
  do sb <- the_sb;
  do c <- local (if ino =? sb_root_inode sb then strcmp name DOTDOT else Ok 1);
  if c =? 0 then new_vnode (fs_private vn) VNODE_TYPE_DIR
  else
  do! dir_data <- kmalloc (in_size inode);
  if dir_data =? 0 then fail (- ENOMEM)
  else
  do! r <- read_dir vn (in_size inode);
  match r with
  | inl e => do! _ <- kfree dir_data; fail e
  | inr data =>
    do found <- local (find_dirent (scan_fuel (in_size inode)) data (in_size inode) name 0);
    match found with
    | Some (_, ent) =>
      do! r <- new_vnode (de_inode ent) (if de_type ent =? KFS_TYPE_DIR then VNODE_TYPE_DIR else VNODE_TYPE_FILE);
      do! _ <- kfree dir_data;
      sret r
    | None => do! _ <- kfree dir_data; fail (- ENOENT)
    end
  end.

(** [sizeof(struct dirent)], the record handed to the caller of [getdents]. *)
Definition sizeof_dirent : Z := 280.
Record dirent : Type := mkDirentOut { d_ino : Z; d_type : Z; d_reclen : Z; d_name : list Z }.

(** [dirp] points to an object of [dirp_size] bytes.  The result is the returned
    value with the record stored in [*dirp], if any, and the new offset. *)
Definition kfs_vnode_getdents (vn : vnode) (offset dirp_size count : Z) : op (Z * option dirent * Z) :=
  if count =? 0 then fail (- EINVAL)
  else
  let ino := u32 (fs_private vn) in
  do inode <- kfs_read_inode ino;
  if negb (in_type inode =? KFS_TYPE_DIR) then fail (- ENOTDIR)
  else if in_size inode <=? offset then ret (0, None, offset)
  else
  do! dir_data <- kmalloc (in_size inode);
  if dir_data =? 0 then fail (- ENOMEM)
  else
  do! r <- read_dir vn (in_size inode);
  match r with
  | inl e => do! _ <- kfree dir_data; fail e
  | inr data =>
    do ent <- local (dirent_at data offset);
    if (de_reclen ent =? 0) || (in_size inode <? offset +64 de_reclen ent) then
      do! _ <- kfree dir_data; fail (- EIO)
    else
    do name <- local (let* n := strncpy (replicate 256 0) 0 (de_name ent) 255 in CString.store n 255 0);
    do _ <- local (if dirp_size <? sizeof_dirent then Stop BadAccess else Ok tt);
    do! _ <- kfree dir_data;
    ret (sizeof_dirent,
         Some (mkDirentOut (de_inode ent) (if de_type ent =? KFS_TYPE_DIR then DT_DIR else DT_REG)
                 sizeof_dirent name), offset +64 de_reclen ent)
  end.

(** ** Freeing blocks *)

(** [if (p != 0) kfs_free_block(p)] on each word of a list, errors ignored. *)
Fixpoint free_words (l : list Z) : sop unit :=
  match l with
  | [] => sret tt
  | p :: r =>
    do! _ <- (if negb (p =? 0) then kfs_free_block p else ret tt);
    free_words r
  end.

Definition kfs_free_inode_blocks (inode : kfs_inode) : op kfs_inode :=
  do! _ <- free_words (in_direct inode);
  let inode := mkInode (in_size inode) (in_type inode) (replicate 10 0) (in_indirect inode)
                 (in_link_count inode) (in_pad inode) in
  if negb (in_indirect inode =? 0) then
    do! r <- read_sectors (in_indirect inode) 1;
    do! _ <- (if fst r =? 0 then
                do ind_buf <- local (get_words (snd r) 0 128);
                do! _ <- free_words ind_buf; ret tt
              else ret tt);
    do! _ <- kfs_free_block (in_indirect inode);
    ret (with_indirect inode 0)
  else ret inode.

Definition kfs_vnode_truncate (vn : vnode) : op unit :=
  let ino := u32 (fs_private vn) in
  do inode <- kfs_read_inode ino;
  do inode <- kfs_free_inode_blocks inode;
  kfs_write_inode ino (with_isize inode 0).

(** ** Writing *)
Record write_result : Type := mkWrite { wr_err : Z; wr_written : Z; wr_offset : Z }.

(** The state of the loop when it ends, by its condition or by [break]; [inl] is
    an error before anything was written. *)
Record write_state : Type := mkWs { ws_inode : kfs_inode; ws_offset : Z; ws_total : Z; ws_dirty : bool }.

(** One block of the loop: the error of the first call that fails, if any. *)
Definition write_block (w : write_state) (src : list Z) : sop ((Z + Z) * kfs_inode * bool) :=
  let logical_blk := u32 (ws_offset w / KFS_BLOCK_SIZE) in
  let blk_offset := ws_offset w mod KFS_BLOCK_SIZE in
  do! r <- kfs_map_or_alloc_block (ws_inode w) logical_blk (ws_dirty w);
  let '(b, inode, dirty) := r in
  match b with
  | inl e => sret (inl e, inode, dirty)
  | inr phys_blk =>
    let chunk := KFS_BLOCK_SIZE - blk_offset in
    let chunk := if zlen src <? chunk then zlen src else chunk in
    do! r <- (do blk_buf <- (if (0 <? blk_offset) || (chunk <? KFS_BLOCK_SIZE)
                             then dev_read phys_blk 1 else ret zero_buf);
              do _ <- dev_write phys_blk (blit blk_buf blk_offset (slice src 0 chunk));
              ret chunk);
    sret (r, inode, dirty)
  end.

Fixpoint write_loop (fuel : nat) (w : write_state) (src : list Z) : op write_state :=
  if zlen src =? 0 then ret w
  else
    match fuel with
    | O => fun _ => Stop NoFuel
    | S k =>
      do! r <- write_block w src;
      let '(b, inode, dirty) := r in
      match b with
      | inl e =>
        if 0 <? ws_total w then ret (mkWs inode (ws_offset w) (ws_total w) dirty) else fail e
      | inr chunk =>
        let offset := ws_offset w +64 chunk in
        let '(inode, dirty) := if in_size inode <? offset then (with_isize inode (u32 offset), true)
                               else (inode, dirty) in
        write_loop k (mkWs inode offset (ws_total w + chunk) dirty) (skipn (Z.to_nat chunk) src)
      end
    end.

Definition kfs_vnode_write (vn : vnode) (offset flags : Z) (buf : list Z) : sop write_result :=
  if Z.land flags (Z.lor O_WRONLY O_RDWR) =? 0 then sret (mkWrite (- EINVAL) 0 offset)
  else if zlen buf =? 0 then sret (mkWrite 0 0 offset)
  else
  let ino := u32 (fs_private vn) in
  do! r <- kfs_read_inode ino;
  match r with
  | inl e => sret (mkWrite e 0 offset)
  | inr inode =>
    let offset := if has flags O_APPEND then in_size inode else offset in
    do! r <- write_loop (read_fuel (zlen buf)) (mkWs inode offset 0 false) buf;
    match r with
    | inl e => sret (mkWrite e 0 offset)
    | inr w =>
      if ws_dirty w then
        do! r <- kfs_write_inode ino (ws_inode w);
        match r with
        | inl e => sret (mkWrite e 0 (ws_offset w))
        | inr _ => sret (mkWrite 0 (ws_total w) (ws_offset w))
        end
      else sret (mkWrite 0 (ws_total w) (ws_offset w))
    end
  end.

(** ** Removing entries *)

(** [for (b = new_blocks; b < old_blocks; b++)]: giving back the blocks of the
    directory that are not needed any more; errors are ignored. *)
Definition release_block (inode : kfs_inode) (b : Z) : op kfs_inode :=
  if b <? 10 then
    do d <- local (load (in_direct inode) b);
    if negb (d =? 0) then do! _ <- kfs_free_block d; ret (with_direct inode b 0)
    else ret inode
  else
    let ind_off := b - 10 in
    if negb (in_indirect inode =? 0) then
      do! r <- read_sectors (in_indirect inode) 1;
      if fst r =? 0 then
        do w <- local (get32 (snd r) (4 * ind_off));
        if negb (w =? 0) then
          do! _ <- kfs_free_block w;
          do! _ <- write_sectors (in_indirect inode) (blit (snd r) (4 * ind_off) (le32 0));
          ret inode
        else ret inode
      else ret inode
    else ret inode.

Fixpoint release_blocks (inode : kfs_inode) (b : Z) (n : nat) : op kfs_inode :=
  match n with
  | O => ret inode
  | S k => do inode <- release_block inode b; release_blocks inode (b + 1) k
  end.

(** [for (b = 0; b < new_blocks; b++)]: writing the directory back. *)
Fixpoint write_dir (inode : kfs_inode) (dir_data : list Z) (new_size b : Z) (n : nat) : op unit :=
  match n with
  | O => ret tt
  | S k =>
    do phys_blk <- (if b <? 10 then local (load (in_direct inode) b)
                    else do! r <- read_sectors (in_indirect inode) 1;
                         local (get32 (snd r) (4 * (b - 10))));
    let off := b * KFS_BLOCK_SIZE in
    let chunk := if KFS_BLOCK_SIZE <? new_size - off then KFS_BLOCK_SIZE else new_size - off in
    do _ <- local (if zlen dir_data <? off + chunk then Stop BadAccess else Ok tt);
    do! _ <- write_sectors phys_blk (blit zero_buf 0 (slice dir_data off chunk));
    write_dir inode dir_data new_size (b + 1) k
  end.

Definition kfs_remove_dirent (dir_ino : Z) (dir_inode : kfs_inode) (target_offset reclen : Z)
  (dir_data : list Z) : op unit :=
  let remaining := u32 (in_size dir_inode - u32 (target_offset + reclen)) in
  do dir_data <- local (if 0 <? remaining
                        then memmove dir_data target_offset (target_offset + reclen) (Z.to_nat remaining)
                        else Ok dir_data);
  let new_size := u32 (in_size dir_inode - reclen) in
  let old_blocks := u32 (in_size dir_inode + KFS_BLOCK_SIZE - 1) / KFS_BLOCK_SIZE in
  let new_blocks := u32 (new_size + KFS_BLOCK_SIZE - 1) / KFS_BLOCK_SIZE in
  do dir_inode <- release_blocks dir_inode new_blocks (Z.to_nat (old_blocks - new_blocks));
  do dir_inode <- (if (new_blocks <=? 10) && negb (in_indirect dir_inode =? 0) then
                     do! _ <- kfs_free_block (in_indirect dir_inode); ret (with_indirect dir_inode 0)
                   else ret dir_inode);
  do _ <- write_dir dir_inode dir_data new_size 0 (Z.to_nat new_blocks);
  kfs_write_inode dir_ino (with_isize dir_inode new_size).

(** The target of [unlink] and [rmdir]: the directory's inode and content, the
    entry with its offset, and the inode it names.  The buffer [dir_data] is
    allocated when this succeeds and freed when it fails. *)
Definition find_target (vn : vnode) (name : list Z)
  : op (Z * kfs_inode * list Z * Z * kfs_dirent * kfs_inode) :=
  do c1 <- local (strcmp name DOT);
  do c2 <- local (strcmp name DOTDOT);
  if (c1 =? 0) || (c2 =? 0) then fail (- EINVAL)
  else
  let dir_ino := u32 (fs_private vn) in
  do dir_inode <- kfs_read_inode dir_ino;
  if negb (in_type dir_inode =? KFS_TYPE_DIR) then fail (- ENOTDIR)
  else if in_size dir_inode =? 0 then fail (- ENOENT)
  else
  do! p <- kmalloc (in_size dir_inode);
  if p =? 0 then fail (- ENOMEM)
  else
  do! r <- (do data <- read_dir vn (in_size dir_inode);
            do found <- local (find_dirent (scan_fuel (in_size dir_inode)) data (in_size dir_inode) name 0);
            match found with
            | None => fail (- ENOENT)
            | Some (target_offset, ent) =>
              do target_inode <- kfs_read_inode (de_inode ent);
              ret (p, dir_inode, data, target_offset, ent, target_inode)
            end);
  match r with
  | inl e => do! _ <- kfree p; fail e
  | inr x => ret x
  end.

(** The common end of [unlink] and [rmdir]: the inode is emptied and freed with
    errors ignored, then the entry is removed. *)
Definition remove_target (vn : vnode) (p : Z) (dir_inode : kfs_inode) (data : list Z)
  (target_offset : Z) (ent : kfs_dirent) (target_inode : kfs_inode) : op unit :=
  do target_inode <- kfs_free_inode_blocks target_inode;
  let target_inode := with_links (with_itype (with_isize target_inode 0) 0) 0 in
  do! _ <- kfs_write_inode (de_inode ent) target_inode;
  do! _ <- kfs_free_inode (de_inode ent);
  do! r <- kfs_remove_dirent (u32 (fs_private vn)) dir_inode target_offset (de_reclen ent) data;
  do! _ <- kfree p;
  sret r.

Definition kfs_vnode_unlink (vn : vnode) (name : list Z) : op unit :=
  do x <- find_target vn name;
  let '(p, dir_inode, data, target_offset, ent, target_inode) := x in
  if in_type target_inode =? KFS_TYPE_DIR then do! _ <- kfree p; fail (- EISDIR)
  else remove_target vn p dir_inode data target_offset ent target_inode.

(** The scan of a directory that is to be removed: does it hold an entry other
    than "." and ".."? *)
Fixpoint has_entries (fuel : nat) (data : list Z) (size offset : Z) : outcome bool :=
  if size <=? offset then Ok false
  else
    match fuel with
    | O => Stop NoFuel
    | S k =>
      let* e := dirent_at data offset in
      if (de_reclen e =? 0) || negb (de_reclen e mod 4 =? 0) then Ok false
      else
        let* c1 := strcmp (de_name e) DOT in
        let* c2 := (if c1 =? 0 then Ok 0 else strcmp (de_name e) DOTDOT) in
        if negb (c1 =? 0) && negb (c2 =? 0) then Ok true
        else has_entries k data size (u32 (offset + de_reclen e))
    end.

Definition kfs_vnode_rmdir (vn : vnode) (name : list Z) : op unit :=
  do x <- find_target vn name;
  let '(p, dir_inode, data, target_offset, ent, target_inode) := x in
  if negb (in_type target_inode =? KFS_TYPE_DIR) then do! _ <- kfree p; fail (- ENOTDIR)
  else
  do! r <-
    (if 0 <? in_size target_inode then
       do! q <- kmalloc (in_size target_inode);
       if q =? 0 then fail (- ENOMEM)
       else
       do! r <- (do sub <- read_dir (mkVnode (de_inode ent) VNODE_TYPE_DIR) (in_size target_inode);
                 do full <- local (has_entries (scan_fuel (in_size target_inode)) sub (in_size target_inode) 0);
                 if full then fail (- ENOTEMPTY) else ret tt);
       do! _ <- kfree q;
       sret r
     else ret tt);
  match r with
  | inl e => do! _ <- kfree p; fail e
  | inr _ => remove_target vn p dir_inode data target_offset ent target_inode
  end.

(** ** Creating *)

(** The bytes of a directory entry of [reclen] bytes. *)
Definition encode_dirent (ino reclen type : Z) (name : list Z) : list Z :=
  blit (replicate (Z.to_nat reclen) 0) 0 (le32 ino ++ le16 reclen ++ [u8 type] ++ name).

(** The block of a new directory: "." and "..". *)
Definition dir_block (new_ino dir_ino : Z) : list Z :=
  blit (blit zero_buf 0 (le32 new_ino ++ le16 12 ++ [KFS_TYPE_DIR] ++ DOT))
    12 (le32 dir_ino ++ le16 12 ++ [KFS_TYPE_DIR] ++ DOTDOT).

(** [in_tmp.direct[0]] of the new directory is given back, then its inode. *)
Definition undo_create (is_dir : bool) (new_ino : Z) : op unit :=
  do! _ <- (if is_dir then
              do in_tmp <- kfs_read_inode new_ino;
              do d <- local (load (in_direct in_tmp) 0);
              if negb (d =? 0) then kfs_free_block d else ret tt
            else ret tt);
  do! _ <- kfs_free_inode new_ino;
  ret tt.

(** The block and inode of a new directory. *)
Definition make_dir (new_ino dir_ino : Z) : op unit :=
  do! r <- kfs_alloc_block;
  match r with
  | inl e => do! _ <- kfs_free_inode new_ino; fail e
  | inr dir_blk =>
    do! r <- (do _ <- dev_write dir_blk (dir_block new_ino dir_ino);
              let new_dir_in := mkInode 24 KFS_TYPE_DIR (zset (replicate 10 0) 0 dir_blk) 0 2 (replicate 2 0) in
              kfs_write_inode new_ino new_dir_in);
    match r with
    | inl e =>
      do! _ <- kfs_free_block dir_blk;
      do! _ <- kfs_free_inode new_ino;
      fail e
    | inr _ => ret tt
    end
  end.

(** The part of [kfs_vnode_create] behind the checks: the inode, the entry, and
    the vnode that is returned. *)
Definition create_entry (vn : vnode) (dir_inode : kfs_inode) (name : list Z) (name_len type : Z) : op vnode :=
  let dir_ino := u32 (fs_private vn) in
  let kfs_type := if type =? VNODE_TYPE_DIR then KFS_TYPE_DIR else KFS_TYPE_FILE in
  let is_dir := kfs_type =? KFS_TYPE_DIR in
  do new_ino <- kfs_alloc_inode kfs_type;
  do _ <- (if is_dir then make_dir new_ino dir_ino else ret tt);
  let base_len := 4 + 2 + 1 + name_len + 1 in
  let reclen := Z.land (base_len + 3) (u64 (Z.lnot 3)) in
  do! dirent_buf <- kmalloc reclen;
  if dirent_buf =? 0 then do! _ <- undo_create is_dir new_ino; fail (- ENOMEM)
  else
  let dent := encode_dirent new_ino (u16 reclen) kfs_type (firstn (Z.to_nat (name_len + 1)) name) in
  do! r <- kfs_read_inode dir_ino;
  let dir_inode := match r with inr i => i | inl _ => dir_inode end in
  do! w <- kfs_vnode_write vn (in_size dir_inode) O_WRONLY dent;
  do! _ <- kfree dirent_buf;
  if wr_err w <? 0 then do! _ <- undo_create is_dir new_ino; fail (wr_err w)
  else new_vnode new_ino (if is_dir then VNODE_TYPE_DIR else VNODE_TYPE_FILE).

Definition kfs_vnode_create (vn : vnode) (name : list Z) (type : Z) : op vnode :=
  let dir_ino := u32 (fs_private vn) in
  do dir_inode <- kfs_read_inode dir_ino;
  if negb (in_type dir_inode =? KFS_TYPE_DIR) then fail (- ENOTDIR)
  else
  do name_len <- local (strlen name);
  if (name_len =? 0) || (255 <? name_len) then fail (- EINVAL)
  else
  do c1 <- local (strcmp name DOT);
  do c2 <- local (strcmp name DOTDOT);
  if (c1 =? 0) || (c2 =? 0) then fail (- EEXIST)
  else
  do! existing <- kfs_vnode_lookup vn name;
  match existing with
  | inr e => if type =? VNODE_TYPE_DIR then fail (- EEXIST) else ret e
  | inl _ => create_entry vn dir_inode name name_len type
  end.

(** ** Mounting *)

(** [vfs_mount_root] of src/kernel/fs/vfs.c *)
Definition vfs_mount_root (root : vnode) : op unit :=
  fun s => match k_root s with
           | Some _ => Ok (inl (- EINVAL), s)
           | None => Ok (inr tt, mkKfs (k_sb s) (k_block_bitmap s) (k_inode_bitmap s) (k_dev s) (k_heap s) (Some root))
           end.

(** The device is the one the state holds. *)
Definition kfs_mount : op unit :=
  do _ <- kfs_read_superblock;
  do sb <- the_sb;
  if (sb_total_blocks sb =? 0) || (1000000 <? sb_total_blocks sb) then fail (- EINVAL)
  else if sb_block_bitmap_blks sb =? 0 then fail (- EINVAL)
  else
  do _ <- kfs_load_bitmaps;
  do root_vn <- new_vnode (sb_root_inode sb) VNODE_TYPE_DIR;
  vfs_mount_root root_vn.

End Operations.
