(* ===== verification/KfsProofs.v ===== *)
(** * Correctness of the KFS file system

    The block device is a working one ([BlockDeviceLaws]).  [kfs_ok] says that
    the superblock describes disjoint regions of the device and that the cached
    bitmaps are those on it.  On such a file system the theorems say what the
    operations of [Kfs] do to inodes, to the allocation state and to the content
    of files. *)

From S2P Require Import Prelude Bitmap Interfaces CString Kfs.

Definition sector_ok (b : list Z) : Prop := length b = 512%nat /\ Forall byte b.

(** The regions of the disk lie behind one another, as in src/include/kfs.h. *)
Record geometry (sb : kfs_superblock) (count : Z) : Prop := {
  geo_magic : sb_magic sb = KFS_MAGIC;
  geo_start : 0 <= sb_block_bitmap_start sb;
  geo_bb : 0 < sb_block_bitmap_blks sb;
  geo_ib : 0 < sb_inode_bitmap_blks sb;
  geo_order1 : sb_block_bitmap_start sb + sb_block_bitmap_blks sb <= sb_inode_bitmap_start sb;
  geo_order2 : sb_inode_bitmap_start sb + sb_inode_bitmap_blks sb <= sb_inode_table_start sb;
  geo_order3 : sb_inode_table_start sb + sb_inode_table_blks sb <= sb_data_blocks_start sb;
  geo_data : sb_data_blocks_start sb <= sb_total_blocks sb;
  geo_data_pos : 0 < sb_data_blocks_start sb;
  geo_total : sb_total_blocks sb <= count;
  geo_count : count <= 2 ^ 28;
  geo_block_bits : sb_total_blocks sb <= 8 * 512 * sb_block_bitmap_blks sb;
  geo_inode_bits : sb_inode_count sb <= 8 * 512 * sb_inode_bitmap_blks sb;
  geo_inodes : 0 < sb_inode_count sb <= 8 * sb_inode_table_blks sb;
  geo_root : 0 <= sb_root_inode sb < sb_inode_count sb
}.

Section Disk.
Context {D A : Type} `{BlockDeviceLaws D} `{KernelAlloc A}.
Implicit Types s : kfs D A.

(** Sector [i] of the device. *)
Definition sec s (i : Z) : list Z := bd_sector (k_dev s) i.

(** The cached bitmap [bm] is the one stored from sector [start] on. *)
Definition cached s (bm : list Z) (start blks : Z) : Prop :=
  zlen bm = 512 * blks /\ Forall byte bm /\
  forall i, 0 <= i < blks -> sec s (start + i) = slice bm (512 * i) 512.

Record kfs_ok (sb : kfs_superblock) s : Prop := {
  ok_sb : k_sb s = Some sb;
  ok_geo : geometry sb (bd_count (k_dev s));
  ok_blocks : cached s (k_block_bitmap s) (sb_block_bitmap_start sb) (sb_block_bitmap_blks sb);
  ok_inodes : cached s (k_inode_bitmap s) (sb_inode_bitmap_start sb) (sb_inode_bitmap_blks sb)
}.

(** [s'] is [s] with another device. *)
Definition with_dev s (d : D) : kfs D A :=
  mkKfs (k_sb s) (k_block_bitmap s) (k_inode_bitmap s) d (k_heap s) (k_root s).

(** ** Runs of the elementary operations *)
Lemma run_bind {X Y} (m : kop D A X) (f : X -> kop D A Y) s x s1 :
  m s = Ok (inr x, s1) -> bind m f s = f x s1.
Proof. intros E. unfold bind, sbind. now rewrite E. Qed.

Lemma run_bind_err {X Y} (m : kop D A X) (f : X -> kop D A Y) s e s1 :
  m s = Ok (inl e, s1) -> bind m f s = Ok (inl e, s1).
Proof. intros E. unfold bind, sbind. now rewrite E. Qed.

Lemma run_sbind {X Y} (m : st D A X) (f : X -> st D A Y) s x s1 :
  m s = Ok (x, s1) -> sbind m f s = f x s1.
Proof. intros E. unfold sbind. now rewrite E. Qed.

Lemma run_local {X Y} (o : outcome X) (f : X -> kop D A Y) s x : o = Ok x -> bind (local o) f s = f x s.
Proof. intros ->. reflexivity. Qed.

Lemma run_sb {X} sb (f : kfs_superblock -> kop D A X) s : k_sb s = Some sb -> bind the_sb f s = f sb s.
Proof. intros E. unfold bind, sbind, the_sb. rewrite E. reflexivity. Qed.

Lemma sec_ok s i : 0 <= i < bd_count (k_dev s) -> sector_ok (sec s i).
Proof. intros Hi. destruct (bd_sector_len (k_dev s) i Hi) as [Hl Hb]. split; [exact Hl|exact Hb]. Qed.

Lemma read_sectors_ok s lba :
  0 <= lba < bd_count (k_dev s) -> read_sectors lba 1 s = Ok ((0, sec s lba), s).
Proof.
  intros Hl. unfold read_sectors. rewrite bd_read_law by lia.
  replace (seqZ lba 1) with [lba] by (rewrite seqZ_cons by lia; now rewrite Z.pred_succ || reflexivity).
  cbn. now rewrite app_nil_r.
Qed.

Lemma dev_read_ok s lba : 0 <= lba < bd_count (k_dev s) -> dev_read lba 1 s = Ok (inr (sec s lba), s).
Proof. intros Hl. unfold dev_read. rewrite (run_sbind _ _ _ _ _ (read_sectors_ok s lba Hl)). reflexivity. Qed.

Lemma write_sectors_ok s lba b :
  0 <= lba < bd_count (k_dev s) -> sector_ok b ->
  exists d, write_sectors lba b s = Ok (0, with_dev s d) /\ bd_count d = bd_count (k_dev s) /\
    forall i, bd_sector d i = if i =? lba then b else sec s i.
Proof.
  intros Hl [Hb1 Hb2]. destruct (bd_write_law (k_dev s) lba b Hl Hb1 Hb2) as (d & E & Hc & Hs).
  exists d. unfold write_sectors. rewrite E. split; [reflexivity|]. split; [exact Hc|exact Hs].
Qed.

Lemma dev_write_ok s lba b :
  0 <= lba < bd_count (k_dev s) -> sector_ok b ->
  exists d, dev_write lba b s = Ok (inr tt, with_dev s d) /\ bd_count d = bd_count (k_dev s) /\
    forall i, bd_sector d i = if i =? lba then b else sec s i.
Proof.
  intros Hl Hb. destruct (write_sectors_ok s lba b Hl Hb) as (d & E & Hc & Hs).
  exists d. unfold dev_write. rewrite (run_sbind _ _ _ _ _ E). auto.
Qed.

Lemma sector_blit b p src :
  sector_ok b -> Forall byte src -> 0 <= p -> p + zlen src <= 512 -> sector_ok (blit b p src).
Proof.
  intros [Hl Hb] Hs Hp Hn. assert (Hz : zlen b = 512) by (unfold zlen; lia). split.
  - pose proof (zlen_blit b p src Hp ltac:(lia)) as E. unfold zlen in *. lia.
  - unfold blit. repeat apply Forall_app_2; auto using Forall_take, Forall_drop.
Qed.

Lemma le16_bytes v : Forall byte (le16 v).
Proof. repeat constructor; apply u8_range. Qed.

Lemma le32_bytes v : Forall byte (le32 v).
Proof. apply Forall_app_2; apply le16_bytes. Qed.

Lemma put_words_bytes l : Forall byte (put_words l).
Proof. induction l as [|v l IH]; [constructor|]. apply Forall_app_2; [apply le32_bytes|exact IH]. Qed.

Lemma put_words_len l : zlen (put_words l) = 4 * zlen l.
Proof.
  unfold put_words. induction l as [|v l IH]; [reflexivity|]. cbn [fmap list_fmap concat].
  rewrite zlen_app, IH, le32_len. unfold zlen. cbn [length]. lia.
Qed.

(** ** Inodes on disk *)
Definition word (v : Z) : Prop := 0 <= v < 2 ^ 32.

Record inode_ok (i : kfs_inode) : Prop := {
  io_size : word (in_size i);
  io_type : word (in_type i);
  io_direct_len : length (in_direct i) = 10%nat;
  io_direct : Forall word (in_direct i);
  io_indirect : word (in_indirect i);
  io_links : word (in_link_count i);
  io_pad_len : length (in_pad i) = 2%nat;
  io_pad : Forall word (in_pad i)
}.

Lemma encode_inode_len i : inode_ok i -> zlen (encode_inode i) = 64.
Proof.
  intros I. unfold encode_inode. rewrite !zlen_app, !put_words_len, !le32_len.
  unfold zlen. rewrite (io_direct_len i I), (io_pad_len i I). reflexivity.
Qed.

Lemma encode_inode_bytes i : Forall byte (encode_inode i).
Proof.
  unfold encode_inode. do 5 (apply Forall_app_2; [first [apply le32_bytes|apply put_words_bytes]|]).
  apply put_words_bytes.
Qed.

(** The bytes of [b] from [p] on are [m]. *)
Definition at_ (b : list Z) (p : Z) (m : list Z) : Prop :=
  forall k, 0 <= k < zlen m -> znth b (p + k) = znth m k.

Lemma at_app b p m1 m2 : at_ b p (m1 ++ m2) -> at_ b p m1 /\ at_ b (p + zlen m1) m2.
Proof.
  intros Ha. pose proof (zlen_nonneg m1). pose proof (zlen_nonneg m2). split; intros k Hk.
  - rewrite Ha by (rewrite zlen_app; lia). rewrite znth_app by lia.
    destruct (Z.ltb_spec k (zlen m1)); [reflexivity|lia].
  - replace (p + zlen m1 + k) with (p + (zlen m1 + k)) by lia.
    rewrite Ha by (rewrite zlen_app; lia). rewrite znth_app by lia.
    destruct (Z.ltb_spec (zlen m1 + k) (zlen m1)); [lia|]. f_equal. lia.
Qed.

Lemma at_blit b p m : 0 <= p -> p + zlen m <= zlen b -> at_ (blit b p m) p m.
Proof.
  intros Hp Hl k Hk. rewrite znth_blit by lia.
  destruct (Z.leb_spec p (p + k)), (Z.ltb_spec (p + k) (p + zlen m)); try lia. cbn. f_equal. lia.
Qed.

Lemma get32_at b p v : at_ b p (le32 v) -> word v -> get32 b p = Ok v.
Proof.
  intros Hb Hv. rewrite <- (get32_le32 v [] Hv), app_nil_r. apply get32_ext. intros k Hk. now rewrite Hb.
Qed.

Lemma get_words_at b p l : at_ b p (put_words l) -> Forall word l -> get_words b p (length l) = Ok l.
Proof.
  revert p; induction l as [|v l IH]; intros p Hb HF; [reflexivity|].
  apply Forall_cons_iff in HF as [Hv HF]. cbn [length get_words].
  change (put_words (v :: l)) with (le32 v ++ put_words l) in Hb. apply at_app in Hb as [H1' H2'].
  rewrite (get32_at b p v H1' Hv). cbn [obind]. rewrite le32_len in H2'. now rewrite (IH _ H2' HF).
Qed.

Lemma get_words_ext b b' p n :
  (forall k, 0 <= k < 4 * Z.of_nat n -> znth b (p + k) = znth b' (p + k)) ->
  get_words b p n = get_words b' p n.
Proof.
  revert p; induction n as [|n IH]; intros p Hb; [reflexivity|]. cbn [get_words].
  rewrite (get32_ext b b' p p) by (intros; apply Hb; lia).
  rewrite (IH (p + 4)); [reflexivity|]. intros k Hk. replace (p + 4 + k) with (p + (4 + k)) by lia. apply Hb. lia.
Qed.

Lemma decode_at b k i : at_ b (64 * k) (encode_inode i) -> inode_ok i -> decode_inode b k = Ok i.
Proof.
  intros Hb I. pose proof (put_words_len (in_direct i)) as Ld.
  unfold zlen in Ld. rewrite (io_direct_len i I) in Ld. change (4 * Z.of_nat 10) with 40 in Ld.
  fold (zlen (put_words (in_direct i))) in Ld.
  unfold encode_inode in Hb.
  apply at_app in Hb as [B1 Hb]. apply at_app in Hb as [B2 Hb]. apply at_app in Hb as [B3 Hb].
  apply at_app in Hb as [B4 Hb]. apply at_app in Hb as [B5 B6]. rewrite Ld, !le32_len in *.
  unfold decode_inode. rewrite (get32_at _ _ _ B1 (io_size i I)). cbn [obind].
  rewrite (get32_at _ _ _ B2 (io_type i I)). cbn [obind].
  replace (64 * k + 8) with (64 * k + 4 + 4) by lia.
  rewrite <- (io_direct_len i I), (get_words_at _ _ _ B3 (io_direct i I)). cbn [obind].
  replace (64 * k + 48) with (64 * k + 4 + 4 + 40) by lia.
  rewrite (get32_at _ _ _ B4 (io_indirect i I)). cbn [obind].
  replace (64 * k + 52) with (64 * k + 4 + 4 + 40 + 4) by lia.
  rewrite (get32_at _ _ _ B5 (io_links i I)). cbn [obind].
  replace (64 * k + 56) with (64 * k + 4 + 4 + 40 + 4 + 4) by lia.
  rewrite <- (io_pad_len i I), (get_words_at _ _ _ B6 (io_pad i I)). now destruct i.
Qed.

Lemma decode_ext b b' k :
  (forall j, 64 * k <= j < 64 * k + 64 -> znth b j = znth b' j) -> decode_inode b k = decode_inode b' k.
Proof.
  intros Hb. unfold decode_inode.
  assert (H32 : forall p, 64 * k <= p -> p + 4 <= 64 * k + 64 -> get32 b p = get32 b' p)
    by (intros; apply get32_ext; intros; apply Hb; lia).
  rewrite !H32 by lia.
  rewrite (get_words_ext b b' (64 * k + 8) 10), (get_words_ext b b' (64 * k + 56) 2) by (intros; apply Hb; lia).
  reflexivity.
Qed.

Lemma get32_ok b p : 0 <= p -> p + 4 <= zlen b -> Forall byte b -> exists v, get32 b p = Ok v /\ word v.
Proof.
  intros Hp Hl Hb.
  destruct (znth_is_Some b p) as [b0 E0]; [lia|]. destruct (znth_is_Some b (p + 1)) as [b1 E1]; [lia|].
  destruct (znth_is_Some b (p + 2)) as [b2 E2]; [lia|]. destruct (znth_is_Some b (p + 3)) as [b3 E3]; [lia|].
  rewrite (get32_znth b p b0 b1 b2 b3 E0 E1 E2 E3). eexists. split; [reflexivity|].
  pose proof (Forall_znth byte b p b0 Hb E0). pose proof (Forall_znth byte b _ b1 Hb E1).
  pose proof (Forall_znth byte b _ b2 Hb E2). pose proof (Forall_znth byte b _ b3 Hb E3).
  unfold byte, word in *. lia.
Qed.

Lemma get_words_ok b p n :
  0 <= p -> p + 4 * Z.of_nat n <= zlen b -> Forall byte b ->
  exists l, get_words b p n = Ok l /\ length l = n /\ Forall word l.
Proof.
  revert p; induction n as [|n IH]; intros p Hp Hl Hb; cbn [get_words]; [eexists; eauto|].
  destruct (get32_ok b p) as (v & -> & Hv); auto; [lia|]. cbn [obind].
  destruct (IH (p + 4)) as (l & -> & Hn & HF); auto; try lia. cbn [obind].
  eexists. split; [reflexivity|]. cbn. auto.
Qed.

Lemma decode_ok b k : sector_ok b -> 0 <= k < 8 -> exists i, decode_inode b k = Ok i /\ inode_ok i.
Proof.
  intros [Hl Hb] Hk. assert (Hz : zlen b = 512) by (unfold zlen; lia). unfold decode_inode.
  destruct (get32_ok b (64 * k)) as (v1 & -> & ?); auto; try lia. cbn [obind].
  destruct (get32_ok b (64 * k + 4)) as (v2 & -> & ?); auto; try lia. cbn [obind].
  destruct (get_words_ok b (64 * k + 8) 10) as (l1 & -> & ? & ?); auto; try lia. cbn [obind].
  destruct (get32_ok b (64 * k + 48)) as (v3 & -> & ?); auto; try lia. cbn [obind].
  destruct (get32_ok b (64 * k + 52)) as (v4 & -> & ?); auto; try lia. cbn [obind].
  destruct (get_words_ok b (64 * k + 56) 2) as (l2 & -> & ? & ?); auto; try lia. cbn [obind].
  eexists. split; [reflexivity|]. constructor; assumption.
Qed.

(** The inode stored for number [ino]. *)
Definition inode_at (sb : kfs_superblock) s (ino : Z) : outcome kfs_inode :=
  decode_inode (sec s (sb_inode_table_start sb + ino / 8)) (ino mod 8).

Lemma table_sector sb s ino :
  kfs_ok sb s -> 0 <= ino < sb_inode_count sb ->
  let b := sb_inode_table_start sb + ino / 8 in
  u32 b = b /\ 0 <= b < bd_count (k_dev s) /\ sb_inode_table_start sb <= b < sb_data_blocks_start sb.
Proof.
  intros [_ [] _ _] Hi b. assert (0 <= ino / 8 < sb_inode_table_blks sb) by dlia.
  subst b. split; [apply u32_id; lia|]. lia.
Qed.

Lemma read_inode_spec sb s ino :
  kfs_ok sb s -> 0 <= ino < sb_inode_count sb ->
  exists i, inode_at sb s ino = Ok i /\ inode_ok i /\
    kfs_read_inode ino s = Ok (if bm_bit (k_inode_bitmap s) ino then inr i else inl (- ENOENT), s).
Proof.
  intros K Hi. destruct (table_sector sb s ino K Hi) as (E32 & Hb & _).
  destruct (decode_ok (sec s (sb_inode_table_start sb + ino / 8)) (ino mod 8)) as (i & Ei & Hok);
    [now apply sec_ok|dlia|].
  exists i. split; [exact Ei|]. split; [exact Hok|].
  unfold kfs_read_inode. rewrite (run_sb sb) by apply K. destruct (Z.leb_spec (sb_inode_count sb) ino); [lia|].
  rewrite (run_sbind the_inode_bitmap _ _ _ s eq_refl).
  destruct K as [_ [] _ (Hlen & _)].
  rewrite (run_local _ _ _ (bm_bit (k_inode_bitmap s) ino)) by (rewrite (bm_test_spec _ _ eq_refl) by lia; reflexivity).
  destruct (bm_bit (k_inode_bitmap s) ino); cbn [negb]; [|reflexivity].
  rewrite E32. rewrite (run_bind _ _ _ _ _ (dev_read_ok s _ Hb)). unfold local. now rewrite Ei.
Qed.

Lemma cached_frame s d bm start blks :
  cached s bm start blks -> (forall j, start <= j < start + blks -> bd_sector d j = sec s j) ->
  cached (with_dev s d) bm start blks.
Proof.
  intros (A1 & A2 & A3) Hd. split; [exact A1|]. split; [exact A2|]. intros i Hi.
  unfold sec. cbn [with_dev k_dev]. rewrite Hd by lia. now apply A3.
Qed.

(** Changing sectors outside the bitmaps keeps the invariant. *)
Lemma ok_frame sb s d :
  kfs_ok sb s -> bd_count d = bd_count (k_dev s) ->
  (forall j, j < sb_inode_table_start sb -> bd_sector d j = sec s j) -> kfs_ok sb (with_dev s d).
Proof.
  intros [K1 K2 K3 K4] Hc Hd. pose proof K2 as [].
  constructor; cbn [with_dev k_sb k_dev k_block_bitmap k_inode_bitmap]; [exact K1|now rewrite Hc| |];
    (apply cached_frame; [assumption|]); intros j Hj; apply Hd; lia.
Qed.

Lemma write_inode_spec sb s ino i :
  kfs_ok sb s -> 0 <= ino < sb_inode_count sb -> inode_ok i ->
  exists d, kfs_write_inode ino i s = Ok (inr tt, with_dev s d) /\ kfs_ok sb (with_dev s d) /\
    bd_count d = bd_count (k_dev s) /\
    inode_at sb (with_dev s d) ino = Ok i /\
    (forall ino', 0 <= ino' < sb_inode_count sb -> ino' <> ino -> inode_at sb (with_dev s d) ino' = inode_at sb s ino') /\
    (forall j, sb_data_blocks_start sb <= j -> bd_sector d j = sec s j).
Proof.
  intros K Hi Hok. destruct (table_sector sb s ino K Hi) as (E32 & Hb & Hr).
  pose proof (sec_ok s _ Hb) as Hs. pose proof (encode_inode_len i Hok) as Hel.
  set (b := sb_inode_table_start sb + ino / 8) in *.
  assert (Hz : zlen (sec s b) = 512) by (destruct Hs; unfold zlen; lia).
  assert (Hm : 0 <= ino mod 8 < 8) by dlia.
  assert (Hs' : sector_ok (blit (sec s b) (64 * (ino mod 8)) (encode_inode i)))
    by (apply sector_blit; auto using encode_inode_bytes; lia).
  destruct (dev_write_ok s b _ Hb Hs') as (d & E & Hc & Hd).
  exists d. split; [|split; [|split; [exact Hc|split; [|split]]]].
  - unfold kfs_write_inode. rewrite (run_sb sb) by apply K.
    destruct (Z.leb_spec (sb_inode_count sb) ino); [lia|]. fold b. rewrite E32.
    now rewrite (run_bind _ _ _ _ _ (dev_read_ok s b Hb)).
  - apply ok_frame; auto. intros j Hj. rewrite Hd. destruct (Z.eqb_spec j b); [lia|reflexivity].
  - unfold inode_at, sec. cbn [with_dev k_dev]. fold b. rewrite Hd, Z.eqb_refl.
    apply decode_at; [|exact Hok]. apply at_blit; lia.
  - intros ino' Hi' Hne. unfold inode_at, sec. cbn [with_dev k_dev]. rewrite Hd.
    destruct (Z.eqb_spec (sb_inode_table_start sb + ino' / 8) b) as [Eb|]; [|reflexivity].
    rewrite Eb. fold (sec s b). assert (0 <= ino' mod 8 < 8) by dlia.
    apply decode_ext. intros j Hj. rewrite znth_blit by lia.
    destruct (Z.leb_spec (64 * (ino mod 8)) j), (Z.ltb_spec j (64 * (ino mod 8) + zlen (encode_inode i))); cbn [andb]; try reflexivity.
    subst b. exfalso. assert (ino' / 8 = ino / 8) by lia. assert (ino' mod 8 = ino mod 8) by lia. dlia.
  - intros j Hj. rewrite Hd. destruct (Z.eqb_spec j b); [lia|reflexivity].
Qed.

(** ** Bitmaps *)
Lemma slice_zset m q v p n :
  0 <= p -> 0 <= n -> p + n <= zlen m -> ~ (p <= q < p + n) -> slice (zset m q v) p n = slice m p n.
Proof.
  intros Hp Hn Hl Hq. apply znth_ext; [now rewrite !zlen_slice by (rewrite ?zlen_zset; lia)|].
  intros i Hi. rewrite zlen_slice in Hi by (rewrite ?zlen_zset; lia).
  rewrite !znth_slice by lia. apply znth_zset_ne. lia.
Qed.

Lemma slice_sector m p : 0 <= p -> p + 512 <= zlen m -> Forall byte m -> sector_ok (slice m p 512).
Proof.
  intros Hp Hl Hb. split.
  - pose proof (zlen_slice m p 512 Hp ltac:(lia) Hl) as E. unfold zlen in E. lia.
  - unfold slice. auto using Forall_take, Forall_drop.
Qed.

Lemma bm_set_zset bm i bm' : bm_set bm i = Some bm' -> exists v, byte v /\ bm' = zset bm (i / 8) v.
Proof.
  unfold bm_set. destruct (znth bm (i / 8)); [|discriminate]. intros [= <-].
  eexists. split; [apply u8_range|reflexivity].
Qed.

Lemma bm_clear_zset bm i bm' : bm_clear bm i = Some bm' -> exists v, byte v /\ bm' = zset bm (i / 8) v.
Proof.
  unfold bm_clear. destruct (znth bm (i / 8)); [|discriminate]. intros [= <-].
  eexists. split; [apply u8_range|reflexivity].
Qed.

(** Writing back the sector of the changed byte makes disk and cache agree again. *)
Lemma write_bitmap_spec s bm start blks i v :
  cached s bm start blks -> 0 <= start -> start + blks <= bd_count (k_dev s) -> bd_count (k_dev s) <= 2 ^ 28 ->
  0 <= i < 8 * 512 * blks -> byte v ->
  exists d, write_bitmap_sector start (zset bm (i / 8) v) i s = Ok (inr tt, with_dev s d) /\
    bd_count d = bd_count (k_dev s) /\
    cached (with_dev s d) (zset bm (i / 8) v) start blks /\
    (forall j, ~ (start <= j < start + blks) -> bd_sector d j = sec s j).
Proof.
  intros (C1 & C2 & C3) Hst Hlim H28 Hi Hv. unfold write_bitmap_sector, KFS_BLOCK_SIZE.
  set (k := i / 8 / 512). assert (Hk : 0 <= k < blks) by (subst k; dlia).
  rewrite (u32_id (start + k)) by lia. replace (k * 512) with (512 * k) by lia.
  assert (Hb : Forall byte (zset bm (i / 8) v)) by now apply Forall_zset.
  assert (Hz : zlen (zset bm (i / 8) v) = 512 * blks) by now rewrite zlen_zset.
  destruct (dev_write_ok s (start + k) (slice (zset bm (i / 8) v) (512 * k) 512)) as (d & E & Hc & Hd);
    [lia|apply slice_sector; auto; lia|].
  exists d. split; [exact E|]. split; [exact Hc|]. split.
  - split; [exact Hz|]. split; [exact Hb|]. intros j Hj. unfold sec. cbn [with_dev k_dev]. rewrite Hd.
    destruct (Z.eqb_spec (start + j) (start + k)) as [Ej|Hne]; [now replace j with k by lia|].
    rewrite (C3 j Hj). symmetry. apply slice_zset; try lia. subst k. dlia.
  - intros j Hj. rewrite Hd. destruct (Z.eqb_spec j (start + k)); [lia|reflexivity].
Qed.

Lemma find_clear_spec bm i n :
  0 <= i -> i + Z.of_nat n <= 8 * zlen bm ->
  find_clear bm i n = Ok (firstZ (fun j => negb (bm_bit bm j)) i n).
Proof.
  revert i; induction n as [|n IH]; intros i Hi Hn; [reflexivity|]. cbn [find_clear firstZ].
  rewrite (bm_test_spec _ _ eq_refl) by lia. cbn [of_opt obind]. destruct (bm_bit bm i); cbn [negb]; [apply IH; lia|reflexivity].
Qed.

(** Block [b] is marked in the bitmap. *)
Definition used s (b : Z) : bool := bm_bit (k_block_bitmap s) b.

(** What changes of the state stay within: the bitmap of blocks, its sectors, and
    sectors of the data region. *)
Record same_rest (sb : kfs_superblock) s s' : Prop := {
  sr_ok : kfs_ok sb s';
  sr_inode_bitmap : k_inode_bitmap s' = k_inode_bitmap s;
  sr_heap : k_heap s' = k_heap s;
  sr_root : k_root s' = k_root s;
  sr_count : bd_count (k_dev s') = bd_count (k_dev s);
  sr_meta j : sb_inode_bitmap_start sb <= j < sb_data_blocks_start sb -> sec s' j = sec s j
}.

Lemma same_rest_refl sb s : kfs_ok sb s -> same_rest sb s s.
Proof. intros K. now constructor. Qed.

Lemma same_rest_trans sb s1 s2 s3 : same_rest sb s1 s2 -> same_rest sb s2 s3 -> same_rest sb s1 s3.
Proof.
  intros [] [K B C E G J]. constructor; try congruence. intros j Hj. rewrite J by exact Hj. auto.
Qed.

(** A changed bitmap of blocks, written back. *)
Lemma block_bitmap_spec sb s i v :
  kfs_ok sb s -> 0 <= i < sb_total_blocks sb -> byte v ->
  let bm := zset (k_block_bitmap s) (i / 8) v in
  exists s', (do! _ <- set_block_bitmap bm; write_bitmap_sector (sb_block_bitmap_start sb) bm i)%kfs s = Ok (inr tt, s') /\
    same_rest sb s s' /\ k_block_bitmap s' = bm /\
    forall j, sb_inode_bitmap_start sb <= j -> sec s' j = sec s j.
Proof.
  intros [K1 K2 K3 K4] Hi Hv bm. pose proof K2 as [].
  set (s1 := mkKfs (k_sb s) bm (k_inode_bitmap s) (k_dev s) (k_heap s) (k_root s)).
  destruct (write_bitmap_spec s (k_block_bitmap s) (sb_block_bitmap_start sb) (sb_block_bitmap_blks sb) i v K3)
    as (d & E & Hc & Hb & Hd); auto; try lia.
  exists (with_dev s1 d). rewrite (run_sbind (set_block_bitmap bm) _ s tt s1 eq_refl).
  assert (E1 : write_bitmap_sector (sb_block_bitmap_start sb) bm i s1 = Ok (inr tt, with_dev s1 d)).
  { revert E. unfold write_bitmap_sector, dev_write, sbind, write_sectors. cbn. fold bm.
    destruct (bd_write _ _ _) as [c d']. cbn. destruct (c <? 0); cbn; [discriminate|]. now intros [= ->]. }
  split; [exact E1|]. split; [|split; [reflexivity|intros j Hj; apply Hd; lia]].
  constructor; try reflexivity; [|exact Hc|intros j Hj; apply Hd; lia].
  constructor; cbn; [exact K1|now rewrite Hc|exact Hb|].
  destruct K4 as (C1 & C2 & C3). split; [exact C1|]. split; [exact C2|]. intros j Hj.
  unfold sec. cbn. rewrite Hd by lia. now apply C3.
Qed.

(** The result of a successful allocation of block [b]. *)
Record allocated (sb : kfs_superblock) s s' (b : Z) : Prop := {
  al_rest : same_rest sb s s';
  al_range : sb_data_blocks_start sb <= b < sb_total_blocks sb;
  al_was_free : used s b = false;
  al_used j : used s' j = if j =? b then true else used s j;
  al_zero : sec s' b = zero_buf;
  al_others j : sb_inode_bitmap_start sb <= j -> j <> b -> sec s' j = sec s j
}.

Lemma zero_buf_ok : sector_ok zero_buf.
Proof. split; [reflexivity|]. apply Forall_replicate. unfold byte. lia. Qed.

Lemma znth_zero_buf i : 0 <= i < 512 -> znth zero_buf i = Some 0.
Proof. intros Hi. apply znth_replicate. lia. Qed.

Definition first_free_block (sb : kfs_superblock) s : option Z :=
  firstZ (fun j => negb (used s j)) (sb_data_blocks_start sb)
    (Z.to_nat (sb_total_blocks sb - sb_data_blocks_start sb)).

Lemma alloc_block_spec sb s :
  kfs_ok sb s ->
  match first_free_block sb s with
  | None => kfs_alloc_block s = Ok (inl (- ENOSPC), s)
  | Some b => exists s', kfs_alloc_block s = Ok (inr b, s') /\ allocated sb s s' b
  end.
Proof.
  intros K. pose proof K as [K1 K2 (K3 & K3') K4]. pose proof K2 as [].
  unfold kfs_alloc_block. rewrite (run_sb sb _ s K1).
  rewrite (run_sbind the_block_bitmap _ _ _ s eq_refl).
  rewrite (run_local _ _ _ _ (find_clear_spec (k_block_bitmap s) (sb_data_blocks_start sb)
                             (Z.to_nat (sb_total_blocks sb - sb_data_blocks_start sb)) ltac:(lia) ltac:(lia))).
  unfold first_free_block, used at 1. destruct (firstZ _ _ _) as [b|] eqn:Ef; [|reflexivity].
  apply firstZ_Some in Ef as (Hb & Hfree & _). apply negb_true_iff in Hfree.
  assert (Hr : sb_data_blocks_start sb <= b < sb_total_blocks sb) by lia.
  destruct (bm_set_spec (k_block_bitmap s) _ eq_refl b) as (bm' & Eb & _ & Hbits & _); [lia|].
  destruct (bm_set_zset _ _ _ Eb) as (v & Hv & ->).
  rewrite (run_local _ _ _ (zset (k_block_bitmap s) (b / 8) v)) by now rewrite Eb.
  destruct (block_bitmap_spec sb s b v K ltac:(lia) Hv) as (s1 & E1 & R1 & B1 & S1).
  assert (Hc1 : 0 <= b < bd_count (k_dev s1)) by (rewrite (sr_count _ _ _ R1); lia).
  destruct (dev_write_ok s1 b zero_buf Hc1 zero_buf_ok) as (d & E2 & Hc2 & Hd2).
  exists (with_dev s1 d). split.
  - unfold sbind in E1 |- *. cbn [set_block_bitmap] in E1 |- *.
    rewrite (run_bind _ _ _ _ _ E1), (run_bind _ _ _ _ _ E2). reflexivity.
  - constructor; auto.
    + constructor; cbn; try apply R1; [|now rewrite Hc2; apply R1|].
      * apply ok_frame; [apply R1|exact Hc2|]. intros j Hj. rewrite Hd2.
        destruct (Z.eqb_spec j b); [lia|reflexivity].
      * intros j Hj. unfold sec. cbn. rewrite Hd2. destruct (Z.eqb_spec j b); [lia|]. now apply R1.
    + intros j. unfold used. cbn. rewrite B1. apply Hbits.
    + unfold sec. cbn. now rewrite Hd2, Z.eqb_refl.
    + intros j Hj Hne. unfold sec at 1. cbn. rewrite Hd2. destruct (Z.eqb_spec j b); [done|]. now apply S1.
Qed.

Lemma free_block_spec sb s b :
  kfs_ok sb s -> sb_data_blocks_start sb <= b < sb_total_blocks sb ->
  exists s', kfs_free_block b s = Ok (inr tt, s') /\ same_rest sb s s' /\
    (forall j, used s' j = if j =? b then false else used s j) /\
    (forall j, sb_inode_bitmap_start sb <= j -> sec s' j = sec s j).
Proof.
  intros K Hb. pose proof K as [K1 K2 (K3 & K3') K4]. pose proof K2 as [].
  unfold kfs_free_block. rewrite (run_sb sb _ s K1).
  destruct (Z.ltb_spec b (sb_data_blocks_start sb)), (Z.leb_spec (sb_total_blocks sb) b); try lia. cbn [orb].
  rewrite (run_sbind the_block_bitmap _ _ _ s eq_refl).
  destruct (bm_clear_spec (k_block_bitmap s) _ eq_refl b) as (bm' & Eb & _ & Hbits & _); [lia|].
  destruct (bm_clear_zset _ _ _ Eb) as (v & Hv & ->).
  rewrite (run_local _ _ _ (zset (k_block_bitmap s) (b / 8) v)) by now rewrite Eb.
  destruct (block_bitmap_spec sb s b v K ltac:(lia) Hv) as (s1 & E1 & R1 & B1 & S1).
  exists s1. split; [exact E1|]. split; [exact R1|]. split; [|exact S1].
  intros j. unfold used. rewrite B1. apply Hbits.
Qed.

(** ** The blocks of a file *)

(** The block that holds block [k] of the file, 0 when there is none. *)
Definition bmap s (i : kfs_inode) (k : Z) : Z :=
  if k <? 10 then default 0 (znth (in_direct i) k)
  else if in_indirect i =? 0 then 0
  else match get32 (sec s (in_indirect i)) (4 * (k - 10)) with Ok v => v | Stop _ => 0 end.

(** The largest number of blocks of a file. *)
Definition MAX_BLOCKS : Z := 138.

Definition data_block (sb : kfs_superblock) s (b : Z) : Prop :=
  sb_data_blocks_start sb <= b < sb_total_blocks sb /\ used s b = true.

(** The blocks [f] of a file and its block of pointers [ind] are allocated and
    all different. *)
Record blocks_ok (sb : kfs_superblock) s (f : Z -> Z) (ind : Z) : Prop := {
  bo_data k : 0 <= k < MAX_BLOCKS -> f k <> 0 -> data_block sb s (f k);
  bo_ind : ind <> 0 -> data_block sb s ind;
  bo_inj k k' : 0 <= k < MAX_BLOCKS -> 0 <= k' < MAX_BLOCKS -> f k <> 0 -> f k = f k' -> k = k';
  bo_sep k : 0 <= k < MAX_BLOCKS -> f k <> 0 -> f k <> ind
}.

Definition file_ok (sb : kfs_superblock) s (i : kfs_inode) : Prop :=
  inode_ok i /\ blocks_ok sb s (bmap s i) (in_indirect i).

Lemma blocks_ok_mono sb s s' f f' ind :
  blocks_ok sb s f ind -> (forall j, used s j = true -> used s' j = true) ->
  (forall k, 0 <= k < MAX_BLOCKS -> f' k = f k) -> blocks_ok sb s' f' ind.
Proof.
  intros [B1 B2 B3 B4] Hu Hf. constructor.
  - intros k Hk. rewrite Hf by exact Hk. intros Hn. destruct (B1 k Hk Hn). split; auto.
  - intros Hn. destruct (B2 Hn). split; auto.
  - intros k k' Hk Hk'. rewrite !Hf by assumption. now apply B3.
  - intros k Hk. rewrite Hf by exact Hk. now apply B4.
Qed.

Lemma blocks_ok_add sb s f f' ind k0 b :
  blocks_ok sb s f ind -> data_block sb s b -> (forall k, 0 <= k < MAX_BLOCKS -> f k <> b) -> b <> ind ->
  0 <= k0 < MAX_BLOCKS -> f' k0 = b -> (forall k, 0 <= k < MAX_BLOCKS -> k <> k0 -> f' k = f k) ->
  blocks_ok sb s f' ind.
Proof.
  intros [B1 B2 B3 B4] Hb Hfresh Hbi Hk0 E0 Ek. constructor; [| exact B2| |].
  - intros k Hk. destruct (Z.eq_dec k k0) as [->|Hn]; [now rewrite E0|]. rewrite Ek by assumption. now apply B1.
  - intros k k' Hk Hk' Hn E. destruct (Z.eq_dec k k0) as [->|N], (Z.eq_dec k' k0) as [->|N']; auto.
    + rewrite E0, Ek in E by assumption. now destruct (Hfresh k').
    + rewrite E0, Ek in E by assumption. now destruct (Hfresh k).
    + rewrite !Ek in * by assumption. now apply B3.
  - intros k Hk. destruct (Z.eq_dec k k0) as [->|Hn]; [now rewrite E0|]. rewrite Ek by assumption. now apply B4.
Qed.

Lemma bmap_word s i k : inode_ok i -> (in_indirect i <> 0 -> sector_ok (sec s (in_indirect i))) ->
  0 <= k < MAX_BLOCKS -> word (bmap s i k) /\
  (10 <= k -> in_indirect i <> 0 -> get32 (sec s (in_indirect i)) (4 * (k - 10)) = Ok (bmap s i k)).
Proof.
  intros I Hs Hk. unfold bmap, MAX_BLOCKS in *. destruct (Z.ltb_spec k 10).
  - split; [|lia]. destruct (znth (in_direct i) k) as [v|] eqn:E; cbn; [|unfold word; lia].
    exact (Forall_znth word _ _ _ (io_direct i I) E).
  - destruct (Z.eqb_spec (in_indirect i) 0) as [E|Hn]; [split; [unfold word; lia|done]|].
    destruct (Hs Hn) as [Hl Hb]. destruct (get32_ok (sec s (in_indirect i)) (4 * (k - 10))) as (v & Ev & Hv); auto;
      [lia|unfold zlen; lia|]. rewrite Ev. auto.
Qed.

(** The parts of an inode that mapping blocks leaves alone. *)
Definition same_attrs (i i' : kfs_inode) : Prop :=
  in_size i' = in_size i /\ in_type i' = in_type i /\ in_link_count i' = in_link_count i /\ in_pad i' = in_pad i.

(** What looking up or allocating block [k] does, apart from block [k] itself. *)
Record mapped (sb : kfs_superblock) s s' (i i' : kfs_inode) (k : Z) (dirty dirty' : bool) : Prop := {
  mp_rest : same_rest sb s s';
  mp_file : file_ok sb s' i';
  mp_attrs : same_attrs i i';
  mp_others k' : 0 <= k' < MAX_BLOCKS -> k' <> k -> bmap s' i' k' = bmap s i k';
  mp_used j : used s j = true -> used s' j = true;
  mp_sec j : sb_data_blocks_start sb <= j -> used s j = true -> j <> in_indirect i -> sec s' j = sec s j;
  mp_ind : in_indirect i' = in_indirect i \/ used s (in_indirect i') = false;
  mp_dirty : (i' = i /\ dirty' = dirty) \/ dirty' = true
}.

(** An allocation does not touch a file. *)
Lemma alloc_file sb s s' b i :
  kfs_ok sb s -> allocated sb s s' b -> file_ok sb s i ->
  (forall k, 0 <= k < MAX_BLOCKS -> bmap s' i k = bmap s i k) /\ file_ok sb s' i /\
  (forall k, 0 <= k < MAX_BLOCKS -> bmap s' i k <> b) /\ in_indirect i <> b /\ data_block sb s' b.
Proof.
  intros K [R Hr Hf Hu Hz Ho] [I B]. pose proof (ok_geo _ _ K) as [].
  assert (Hind : in_indirect i <> b).
  { intros E. destruct (Z.eq_dec (in_indirect i) 0) as [E0|Hn]; [lia|]. destruct (bo_ind _ _ _ _ B Hn). congruence. }
  assert (Hm : forall k, 0 <= k < MAX_BLOCKS -> bmap s' i k = bmap s i k).
  { intros k Hk. unfold bmap. destruct (k <? 10); [reflexivity|].
    destruct (Z.eqb_spec (in_indirect i) 0) as [E0|Hn]; [reflexivity|].
    destruct (bo_ind _ _ _ _ B Hn) as [Hd _]. rewrite Ho by lia. reflexivity. }
  assert (Hmono : forall j, used s j = true -> used s' j = true)
    by (intros j Hj; rewrite Hu; destruct (j =? b); auto).
  split; [exact Hm|]. split; [split; [exact I|]|split; [|split; [exact Hind|]]].
  - eapply blocks_ok_mono; eauto.
  - intros k Hk E. rewrite Hm in E by exact Hk.
    assert (bmap s i k <> 0) by lia. destruct (bo_data _ _ _ _ B k Hk); [assumption|congruence].
  - split; [exact Hr|]. now rewrite Hu, Z.eqb_refl.
Qed.

(** What it does to block [k]: found, allocated and zeroed, or the disk is full. *)
Definition map_result (sb : kfs_superblock) s s' (i i' : kfs_inode) (k : Z) (r : Z + Z) : Prop :=
  match r with
  | inl e => e = - ENOSPC /\ first_free_block sb s' = None /\ bmap s i k = 0 /\ bmap s' i' k = 0 /\
      forall k', 0 <= k' < MAX_BLOCKS -> bmap s' i k' = bmap s i k'
  | inr p => bmap s' i' k = p /\ p <> 0 /\ (bmap s i k <> 0 -> p = bmap s i k) /\
      (bmap s i k = 0 -> sec s' p = zero_buf /\ used s p = false)
  end.

Lemma mapped_refl sb s i k dirty : kfs_ok sb s -> file_ok sb s i -> mapped sb s s i i k dirty dirty.
Proof.
  intros K F. constructor; auto; [now apply same_rest_refl|]. now unfold same_attrs.
Qed.

Lemma mapped_trans sb s1 s2 s3 i1 i2 i3 k d1 d2 d3 :
  mapped sb s1 s2 i1 i2 k d1 d2 -> mapped sb s2 s3 i2 i3 k d2 d3 -> mapped sb s1 s3 i1 i3 k d1 d3.
Proof.
  intros [A1 A2 A3 A4 A5 A6 A7 A8] [B1 B2 B3 B4 B5 B6 B7 B8]. constructor; auto.
  - eapply same_rest_trans; eauto.
  - unfold same_attrs in *. destruct A3 as (? & ? & ? & ?), B3 as (? & ? & ? & ?). repeat split; congruence.
  - intros k' Hk Hn. rewrite B4 by assumption. now apply A4.
  - intros j Hj Hu Hn. rewrite B6; auto. destruct A7 as [->|A7]; [assumption|]. intros ->. congruence.
  - destruct B7 as [->|B7]; [assumption|]. right. destruct (used s1 (in_indirect i3)) eqn:E; [|reflexivity].
    apply A5 in E. congruence.
  - destruct A8 as [[-> ->]| ->]; [exact B8|]. destruct B8 as [[-> ->]| ->]; auto.
Qed.

Lemma inode_ok_direct i k b : inode_ok i -> word b -> inode_ok (with_direct i k b).
Proof.
  intros [] Hb. constructor; cbn; auto; [|now apply Forall_zset].
  pose proof (zlen_zset (in_direct i) k b). unfold zlen in *. lia.
Qed.

Lemma bmap_direct s i k b k' :
  inode_ok i -> 0 <= k < 10 -> bmap s (with_direct i k b) k' = if k' =? k then b else bmap s i k'.
Proof.
  intros I Hk. pose proof (io_direct_len i I) as Hl. unfold bmap. cbn [with_direct in_direct in_indirect].
  destruct (Z.ltb_spec k' 10), (Z.eqb_spec k' k) as [->|Hn]; try lia.
  - rewrite znth_zset_eq by (unfold zlen; lia). reflexivity.
  - rewrite znth_zset_ne by lia. reflexivity.
Qed.

(** A block below 10, from the inode. *)
Lemma map_direct sb s i k dirty :
  kfs_ok sb s -> file_ok sb s i -> 0 <= k < 10 ->
  exists r s' i' dirty', kfs_map_or_alloc_block i k dirty s = Ok ((r, i', dirty'), s') /\
    mapped sb s s' i i' k dirty dirty' /\ map_result sb s s' i i' k r.
Proof.
  intros K F Hk. pose proof F as [I B]. unfold kfs_map_or_alloc_block. destruct (Z.ltb_spec k 10); [|lia].
  destruct (znth_is_Some (in_direct i) k) as [d Ed]; [pose proof (io_direct_len i I); unfold zlen; lia|].
  assert (Em : bmap s i k = d) by (unfold bmap; destruct (Z.ltb_spec k 10); [now rewrite Ed|lia]).
  rewrite (run_sbind (local (load (in_direct i) k)) _ s (inr d) s) by (unfold local, load; now rewrite Ed).
  destruct (Z.eqb_spec d 0) as [E0|Hn].
  2:{ exists (inr d), s, i, dirty. split; [reflexivity|]. split; [now apply mapped_refl|]. cbn. lia. }
  pose proof (alloc_block_spec sb s K) as Ha. destruct (first_free_block sb s) as [b|] eqn:Ef.
  2:{ rewrite (run_sbind kfs_alloc_block _ _ _ _ Ha). exists (inl (- ENOSPC)), s, i, dirty. split; [reflexivity|].
      split; [now apply mapped_refl|]. cbn. now rewrite Em. }
  destruct Ha as (s' & Ea & Al). rewrite (run_sbind kfs_alloc_block _ _ _ _ Ea).
  destruct (alloc_file sb s s' b i K Al F) as (Hm & [_ B'] & Hfresh & Hib & Hb).
  pose proof (ok_geo _ _ K) as []. pose proof (al_range _ _ _ _ Al) as Hr.
  exists (inr b), s', (with_direct i k b), true. split; [reflexivity|]. split.
  - constructor; [| |now unfold same_attrs| | | |now left|now right].
    + eapply al_rest; eauto.
    + split; [apply inode_ok_direct; [exact I|unfold word; lia]|].
      apply (blocks_ok_add sb s' (bmap s' i) _ _ k b); auto; [unfold MAX_BLOCKS; lia| |].
      * rewrite bmap_direct by auto. now rewrite Z.eqb_refl.
      * intros k' Hk' Hn. rewrite bmap_direct by auto. now destruct (Z.eqb_spec k' k).
    + intros k' Hk' Hn. rewrite bmap_direct by auto. destruct (Z.eqb_spec k' k); [lia|auto].
    + intros j Hj. rewrite (al_used _ _ _ _ Al). destruct (j =? b); auto.
    + intros j Hj Hu Hn. apply (al_others _ _ _ _ Al); [lia|]. intros ->. rewrite (al_was_free _ _ _ _ Al) in Hu. discriminate.
  - cbn. rewrite bmap_direct by auto. rewrite Z.eqb_refl. repeat split; try lia; apply Al.
Qed.

(** The block of pointers, allocated when there is none. *)
Lemma ensure_indirect sb s i k dirty :
  kfs_ok sb s -> file_ok sb s i -> 10 <= k < MAX_BLOCKS ->
  exists r s1, (if in_indirect i =? 0 then
                  do new_ind <- kfs_alloc_block; ret (with_indirect i new_ind, true)
                else ret (i, dirty))%kfs s = Ok (r, s1) /\
    match r with
    | inl e => e = - ENOSPC /\ s1 = s /\ first_free_block sb s = None /\ bmap s i k = 0
    | inr (i1, dirty1) => mapped sb s s1 i i1 k dirty dirty1 /\ in_indirect i1 <> 0 /\
        (forall k', 0 <= k' < MAX_BLOCKS -> bmap s1 i1 k' = bmap s i k' /\ bmap s1 i k' = bmap s i k')
    end.
Proof.
  intros K F Hk. pose proof F as [I B]. destruct (Z.eqb_spec (in_indirect i) 0) as [E0|Hn].
  2:{ exists (inr (i, dirty)), s. split; [reflexivity|]. split; [now apply mapped_refl|auto]. }
  assert (Hz : forall k', 10 <= k' -> bmap s i k' = 0)
    by (intros k' Hk'; unfold bmap; destruct (Z.ltb_spec k' 10); [lia|]; now rewrite E0).
  pose proof (alloc_block_spec sb s K) as Ha. destruct (first_free_block sb s) as [b|] eqn:Ef.
  2:{ exists (inl (- ENOSPC)), s. rewrite (run_bind_err _ _ _ _ _ Ha). repeat split; auto. apply Hz. lia. }
  destruct Ha as (s' & Ea & Al). exists (inr (with_indirect i b, true)), s'. rewrite (run_bind _ _ _ _ _ Ea).
  split; [reflexivity|]. destruct (alloc_file sb s s' b i K Al F) as (Hm & [_ B'] & Hfresh & Hib & Hb).
  pose proof (ok_geo _ _ K) as []. pose proof (al_range _ _ _ _ Al) as Hr.
  assert (Hm' : forall k', 0 <= k' < MAX_BLOCKS -> bmap s' (with_indirect i b) k' = bmap s i k').
  { intros k' Hk'. unfold bmap at 1. cbn [with_indirect in_direct in_indirect].
    destruct (Z.ltb_spec k' 10); [unfold bmap; destruct (Z.ltb_spec k' 10); [reflexivity|lia]|].
    destruct (Z.eqb_spec b 0); [lia|]. rewrite Hz by lia. rewrite (al_zero _ _ _ _ Al).
    unfold MAX_BLOCKS in Hk'. rewrite (get32_znth zero_buf _ 0 0 0 0); [reflexivity|..]; apply znth_zero_buf; lia. }
  split; [|split; [cbn; lia|auto]].
  constructor; [eapply al_rest; eauto| |now unfold same_attrs|auto| | | |now right].
  - split; [destruct I; constructor; auto; unfold word; cbn; lia|]. constructor; cbn [with_indirect in_indirect].
    + intros k' Hk'. rewrite Hm', <- Hm by exact Hk'. now apply B'.
    + auto.
    + intros k1 k2 H1' H2'. rewrite !Hm', <- !Hm by assumption. now apply B'.
    + intros k' Hk' _. rewrite Hm', <- Hm by exact Hk'. now apply Hfresh.
  - intros j Hj. rewrite (al_used _ _ _ _ Al). destruct (j =? b); auto.
  - intros j Hj Hu Hn. apply (al_others _ _ _ _ Al); [lia|]. intros ->. rewrite (al_was_free _ _ _ _ Al) in Hu. discriminate.
  - right. apply Al.
Qed.

(** Writing a data sector. *)
Lemma write_data sb s b buf :
  kfs_ok sb s -> sb_data_blocks_start sb <= b < sb_total_blocks sb -> sector_ok buf ->
  exists s', dev_write b buf s = Ok (inr tt, s') /\ same_rest sb s s' /\ k_block_bitmap s' = k_block_bitmap s /\
    forall j, sec s' j = if j =? b then buf else sec s j.
Proof.
  intros K Hb Hs. pose proof (ok_geo _ _ K) as [].
  destruct (dev_write_ok s b buf) as (d & E & Hc & Hd); [lia|exact Hs|].
  exists (with_dev s d). split; [exact E|]. split; [|split; [reflexivity|exact Hd]].
  constructor; try reflexivity; [|exact Hc|].
  - apply ok_frame; auto. intros j Hj. rewrite Hd. destruct (Z.eqb_spec j b); [lia|reflexivity].
  - intros j Hj. unfold sec. cbn [with_dev k_dev]. rewrite Hd. destruct (Z.eqb_spec j b); [lia|reflexivity].
Qed.

(** One pointer of a block of pointers replaced. *)
Lemma pointer_blit buf o o' v :
  sector_ok buf -> word v -> 0 <= o < 128 -> 0 <= o' < 128 ->
  get32 (blit buf (4 * o) (le32 v)) (4 * o') = if o' =? o then Ok v else get32 buf (4 * o').
Proof.
  intros [Hl Hb] Hv Ho Ho'. assert (Hz : zlen buf = 512) by (unfold zlen; lia). pose proof (le32_len v) as Hle.
  destruct (Z.eqb_spec o' o) as [->|Hn].
  - apply get32_at; [|exact Hv]. apply at_blit; lia.
  - apply get32_ext. intros k Hk. rewrite znth_blit by lia. rewrite Hle.
    destruct (Z.leb_spec (4 * o) (4 * o' + k)), (Z.ltb_spec (4 * o' + k) (4 * o + 4)); try lia; reflexivity.
Qed.

(** Entering block [b] in the block of pointers. *)
Lemma enter_pointer sb s1 s2 i k b :
  kfs_ok sb s1 -> file_ok sb s1 i -> 10 <= k < MAX_BLOCKS -> in_indirect i <> 0 -> word b ->
  (forall k', 0 <= k' < MAX_BLOCKS -> bmap s1 i k' <> b) -> in_indirect i <> b -> data_block sb s1 b ->
  k_block_bitmap s2 = k_block_bitmap s1 ->
  sec s2 (in_indirect i) = blit (sec s1 (in_indirect i)) (4 * (k - 10)) (le32 b) ->
  (forall k', 0 <= k' < MAX_BLOCKS -> bmap s2 i k' = if k' =? k then b else bmap s1 i k') /\ file_ok sb s2 i.
Proof.
  intros K [I B] Hk Hn Hw Hfresh Hib Hb Hbm Hsec. pose proof (ok_geo _ _ K) as [].
  destruct (bo_ind _ _ _ _ B Hn) as [Hr _]. assert (Hs : sector_ok (sec s1 (in_indirect i))) by (apply sec_ok; lia).
  assert (Hm : forall k', 0 <= k' < MAX_BLOCKS -> bmap s2 i k' = if k' =? k then b else bmap s1 i k').
  { intros k' Hk'. unfold bmap, MAX_BLOCKS in *. destruct (Z.ltb_spec k' 10).
    - destruct (Z.eqb_spec k' k); [lia|reflexivity].
    - destruct (Z.eqb_spec (in_indirect i) 0); [lia|]. rewrite Hsec, pointer_blit by (auto; lia).
      destruct (Z.eqb_spec (k' - 10) (k - 10)), (Z.eqb_spec k' k); try lia; reflexivity. }
  split; [exact Hm|]. split; [exact I|].
  apply (blocks_ok_mono sb s1 s2 (fun k' => if k' =? k then b else bmap s1 i k')); [|unfold used; congruence|exact Hm].
  apply (blocks_ok_add sb s1 (bmap s1 i) _ _ k b); auto; [lia|now rewrite Z.eqb_refl|].
  intros k' _ Hk'. now destruct (Z.eqb_spec k' k).
Qed.

(** A block behind the first 10, from the block of pointers. *)
Lemma map_indirect sb s i k dirty :
  kfs_ok sb s -> file_ok sb s i -> 10 <= k < MAX_BLOCKS -> in_indirect i <> 0 ->
  exists r s', (do ind_buf <- dev_read (in_indirect i) 1;
                do w <- local (get32 ind_buf (4 * (k - 10)));
                if w =? 0 then
                  do new_blk <- kfs_alloc_block;
                  do _ <- dev_write (in_indirect i) (blit ind_buf (4 * (k - 10)) (le32 new_blk));
                  ret new_blk
                else ret w)%kfs s = Ok (r, s') /\
    mapped sb s s' i i k dirty dirty /\ map_result sb s s' i i k r /\ (forall e, r = inl e -> s' = s).
Proof.
  intros K F Hk Hn. pose proof F as [I B]. pose proof (ok_geo _ _ K) as [].
  destruct (bo_ind _ _ _ _ B Hn) as [Hr Hu]. assert (Hs : sector_ok (sec s (in_indirect i))) by (apply sec_ok; lia).
  rewrite (run_bind _ _ _ _ _ (dev_read_ok s (in_indirect i) ltac:(lia))).
  destruct (bmap_word s i k I) as [Hw Hg]; [auto|lia|]. rewrite (run_local _ _ _ _ (Hg ltac:(lia) Hn)).
  destruct (Z.eqb_spec (bmap s i k) 0) as [E0|Hk0].
  2:{ exists (inr (bmap s i k)), s. split; [reflexivity|]. split; [now apply mapped_refl|]. split; [cbn; lia|done]. }
  pose proof (alloc_block_spec sb s K) as Ha. destruct (first_free_block sb s) as [b|] eqn:Ef.
  2:{ exists (inl (- ENOSPC)), s. rewrite (run_bind_err _ _ _ _ _ Ha). split; [reflexivity|].
      split; [now apply mapped_refl|]. split; [cbn; auto|done]. }
  destruct Ha as (s1 & Ea & Al). rewrite (run_bind _ _ _ _ _ Ea).
  destruct (alloc_file sb s s1 b i K Al F) as (Hm & F1 & Hfresh & Hib & Hb).
  pose proof (al_range _ _ _ _ Al) as Hbr. pose proof (al_rest _ _ _ _ Al) as R1.
  assert (Hsi : sec s1 (in_indirect i) = sec s (in_indirect i)) by (apply (al_others _ _ _ _ Al); lia).
  assert (Hwb : word b) by (unfold word; lia).
  destruct (write_data sb s1 (in_indirect i) (blit (sec s (in_indirect i)) (4 * (k - 10)) (le32 b)))
    as (s2 & E2 & R2 & Hbm & Hsec); [apply R1|lia| |].
  { apply sector_blit; auto using le32_bytes; [lia|]. rewrite le32_len. unfold MAX_BLOCKS in Hk. lia. }
  rewrite (run_bind _ _ _ _ _ E2). exists (inr b), s2. split; [reflexivity|].
  destruct (enter_pointer sb s1 s2 i k b) as [Hm2 F2]; auto; [apply R1|now rewrite Hsec, Z.eqb_refl, Hsi|].
  split; [constructor; auto|].
  - eapply same_rest_trans; eauto.
  - now unfold same_attrs.
  - intros k' Hk' Hne. rewrite Hm2 by exact Hk'. destruct (Z.eqb_spec k' k); [lia|auto].
  - intros j Hj. unfold used in *. rewrite Hbm. fold (used s1 j). rewrite (al_used _ _ _ _ Al). destruct (j =? b); auto.
  - intros j Hj Huj Hji. rewrite Hsec. destruct (Z.eqb_spec j (in_indirect i)); [lia|].
    apply (al_others _ _ _ _ Al); [lia|]. intros ->. rewrite (al_was_free _ _ _ _ Al) in Huj. discriminate.
  - split; [|done]. cbn. rewrite Hm2, Z.eqb_refl by lia. repeat split; try lia; [|apply Al].
    rewrite Hsec. destruct (Z.eqb_spec b (in_indirect i)); [congruence|]. apply Al.
Qed.

(** [kfs_map_or_alloc_block] on every block a file can have. *)
Lemma map_or_alloc_spec sb s i k dirty :
  kfs_ok sb s -> file_ok sb s i -> 0 <= k < MAX_BLOCKS ->
  exists r s' i' dirty', kfs_map_or_alloc_block i k dirty s = Ok ((r, i', dirty'), s') /\
    mapped sb s s' i i' k dirty dirty' /\ map_result sb s s' i i' k r.
Proof.
  intros K F Hk. destruct (Z.lt_ge_cases k 10) as [Hd|Hd]; [apply map_direct; auto; lia|].
  unfold kfs_map_or_alloc_block, MAX_BLOCKS in *. destruct (Z.ltb_spec k 10); [lia|]. cbn zeta.
  destruct (Z.leb_spec 128 (k - 10)); [lia|].
  destruct (ensure_indirect sb s i k dirty K F) as (r1 & s1 & E1 & H1'); [unfold MAX_BLOCKS; lia|].
  rewrite (run_sbind _ _ _ _ _ E1). destruct r1 as [e|[i1 dirty1]].
  - destruct H1' as (-> & -> & Hf & Hz). exists (inl (- ENOSPC)), s, i, dirty. split; [reflexivity|].
    split; [now apply mapped_refl|]. cbn. auto.
  - destruct H1' as (M1 & Hn & Hm1).
    destruct (map_indirect sb s1 i1 k dirty1) as (r & s' & E2 & M2 & Hres & Hsame); auto; [apply M1|apply M1|unfold MAX_BLOCKS; lia|].
    rewrite (run_sbind _ _ _ _ _ E2). exists r, s', i1, dirty1. split; [reflexivity|].
    split; [eapply mapped_trans; eauto|]. revert Hres. unfold map_result.
    destruct (Hm1 k) as [-> _]; [unfold MAX_BLOCKS; lia|]. destruct r as [e|p'].
    { rewrite (Hsame e eq_refl). intros (Ha & Hb & Hc & He & _). refine (conj Ha (conj Hb (conj Hc (conj He _)))).
      intros k' Hk'. apply Hm1. exact Hk'. }
    intros (Ha & Hb & Hc & Hz). refine (conj Ha (conj Hb (conj Hc _))). intros E. destruct (Hz E) as [Hz1 Hz2].
    split; [exact Hz1|]. destruct (used s p') eqn:Eu; [|reflexivity]. apply (mp_used _ _ _ _ _ _ _ _ M1) in Eu. congruence.
Qed.

(** ** The content of a file *)

(** Byte [p]; a block that is not there counts as zeroes. *)
Definition content s (i : kfs_inode) (p : Z) : Z :=
  let b := bmap s i (p / 512) in
  if b =? 0 then 0 else default 0 (znth (sec s b) (p mod 512)).

Definition MAX_FILE : Z := 512 * MAX_BLOCKS.

(** [s'], [i'] result from writing [src] at [off] to the file of [i] in [s]: its
    bytes are replaced, blocks are only added, and no other block in use
    changes. *)
Record wrote (sb : kfs_superblock) s s' (i i' : kfs_inode) (off : Z) (src : list Z) (dirty dirty' : bool) : Prop := {
  wr_rest : same_rest sb s s';
  wr_file : file_ok sb s' i';
  wr_size : in_size i' = if zlen src =? 0 then in_size i else Z.max (in_size i) (off + zlen src);
  wr_type : in_type i' = in_type i;
  wr_links : in_link_count i' = in_link_count i;
  wr_pad : in_pad i' = in_pad i;
  wr_kept k : 0 <= k < MAX_BLOCKS -> bmap s i k <> 0 -> bmap s' i' k = bmap s i k;
  wr_mapped p : off <= p < off + zlen src -> bmap s' i' (p / 512) <> 0;
  wr_content p : 0 <= p < MAX_FILE ->
    content s' i' p = if (off <=? p) && (p <? off + zlen src) then default 0 (znth src (p - off)) else content s i p;
  wr_used j : used s j = true -> used s' j = true;
  wr_sec j : sb_data_blocks_start sb <= j -> used s j = true -> j <> in_indirect i ->
    (forall k, 0 <= k < MAX_BLOCKS -> bmap s i k <> j) -> sec s' j = sec s j;
  wr_ind : in_indirect i' = in_indirect i \/ used s (in_indirect i') = false;
  wr_new k : 0 <= k < MAX_BLOCKS -> bmap s' i' k = bmap s i k \/ used s (bmap s' i' k) = false;
  wr_dirty : (i' = i /\ dirty' = dirty) \/ dirty' = true
}.

Lemma block_of p : 0 <= p < MAX_FILE -> 0 <= p / 512 < MAX_BLOCKS.
Proof. unfold MAX_FILE, MAX_BLOCKS. intros Hp. dlia. Qed.

Lemma wrote_trans sb s1 s2 s3 i1 i2 i3 off src1 src2 d1 d2 d3 :
  0 <= off -> off + zlen src1 + zlen src2 <= MAX_FILE ->
  wrote sb s1 s2 i1 i2 off src1 d1 d2 -> wrote sb s2 s3 i2 i3 (off + zlen src1) src2 d2 d3 ->
  wrote sb s1 s3 i1 i3 off (src1 ++ src2) d1 d3.
Proof.
  intros Hoff Hmax [A1 A2 A3 A4 A5 A6 A7 A8 A9 A10 A11 A12 A13 A14] [B1 B2 B3 B4 B5 B6 B7 B8 B9 B10 B11 B12 B13 B14].
  pose proof (zlen_nonneg src1). pose proof (zlen_nonneg src2).
  assert (Hback : forall j, used s2 j = false -> used s1 j = false)
    by (intros j Hj; destruct (used s1 j) eqn:E; [apply A10 in E; congruence|reflexivity]).
  constructor; rewrite ?zlen_app; try congruence; auto.
  - eapply same_rest_trans; eauto.
  - rewrite B3, A3. destruct (Z.eqb_spec (zlen src1) 0), (Z.eqb_spec (zlen src2) 0), (Z.eqb_spec (zlen src1 + zlen src2) 0); lia.
  - intros k Hk Hn. rewrite B7; [auto|exact Hk|]. now rewrite A7.
  - intros p Hp. destruct (Z.lt_ge_cases p (off + zlen src1)); [|apply B8; lia].
    rewrite B7; [apply A8; lia|apply block_of; lia|apply A8; lia].
  - intros p Hp. rewrite B9, A9 by exact Hp.
    destruct (Z.leb_spec off p), (Z.ltb_spec p (off + zlen src1)), (Z.leb_spec (off + zlen src1) p),
      (Z.ltb_spec p (off + zlen src1 + zlen src2)), (Z.ltb_spec p (off + (zlen src1 + zlen src2))); cbn [andb]; try lia; auto.
    all: rewrite znth_app by lia; destruct (Z.ltb_spec (p - off) (zlen src1)); try lia; auto. do 2 f_equal. lia.
  - intros j Hj Hu Hn Hk. rewrite B11; auto.
    + destruct A12 as [->|A12]; [assumption|]. intros ->. congruence.
    + intros k Hkr E. destruct (A13 k Hkr) as [Ek|Ek]; [apply (Hk k Hkr); congruence|congruence].
  - destruct B12 as [->|B12]; auto.
  - intros k Hk. destruct (B13 k Hk) as [->|B13']; auto.
  - destruct A14 as [[-> ->]| ->]; [exact B14|]. destruct B14 as [[-> ->]| ->]; auto.
Qed.

Lemma wrote_nil sb s i off d : kfs_ok sb s -> file_ok sb s i -> wrote sb s s i i off [] d d.
Proof.
  intros K F. constructor; auto; [now apply same_rest_refl|unfold zlen; cbn; lia|].
  intros p Hp. unfold zlen. cbn [length]. destruct (_ && _) eqn:E; [reflect_bools; lia|reflexivity].
Qed.

(** Finding or allocating a block changes no content. *)
Lemma mapped_wrote sb s s' i i' k dirty dirty' r off :
  kfs_ok sb s -> file_ok sb s i -> 0 <= k < MAX_BLOCKS ->
  mapped sb s s' i i' k dirty dirty' -> map_result sb s s' i i' k r -> wrote sb s s' i i' off [] dirty dirty'.
Proof.
  intros K [I B] Hk [A1 A2 (T1 & T2 & T3 & T4) A4 A5 A6 A7 A8] Hr.
  assert (Hkept : forall k', 0 <= k' < MAX_BLOCKS -> bmap s i k' <> 0 -> bmap s' i' k' = bmap s i k').
  { intros k' Hk' Hn. destruct (Z.eq_dec k' k) as [->|Hne]; [|auto].
    destruct r as [e|p]; cbn [map_result] in Hr; [lia|]. destruct Hr as (-> & _ & E & _). auto. }
  constructor; auto.
  - unfold zlen. cbn. lia.
  - intros p Hp. pose proof (block_of p Hp) as Hb. unfold zlen. cbn [length].
    destruct ((off <=? p) && (p <? off + Z.of_nat 0)) eqn:E; [reflect_bools; lia|]. clear E.
    unfold content. cbn zeta. destruct (Z.eqb_spec (bmap s i (p / 512)) 0) as [E0|Hn].
    + destruct (Z.eqb_spec (bmap s' i' (p / 512)) 0) as [|Hn']; [reflexivity|].
      destruct (Z.eq_dec (p / 512) k) as [Ek|Hne]; [|rewrite A4 in Hn' by assumption; lia].
      rewrite Ek in *. destruct r as [e|b]; cbn [map_result] in Hr; [lia|]. destruct Hr as (-> & _ & _ & Hz).
      destruct (Hz E0) as [-> _]. rewrite znth_zero_buf; [reflexivity|]. dlia.
    + rewrite Hkept by assumption. destruct (Z.eqb_spec (bmap s i (p / 512)) 0); [lia|].
      destruct (bo_data _ _ _ _ B _ Hb Hn) as [Hd Hu]. rewrite A6; [reflexivity|lia|exact Hu|].
      now apply (bo_sep _ _ _ _ B).
  - intros k' Hk'. destruct (Z.eq_dec k' k) as [->|Hne]; [|auto]. destruct r as [e|p]; cbn [map_result] in Hr; [left; lia|].
    destruct Hr as (-> & _ & H3 & H4). destruct (Z.eq_dec (bmap s i k) 0) as [E0|Hn]; [right; now apply H4|left; auto].
Qed.

(** The size and the flag after writing up to [o]. *)
Definition grown (i : kfs_inode) (o : Z) : kfs_inode := if in_size i <? o then with_isize i (u32 o) else i.
Definition grown_dirty (i : kfs_inode) (o : Z) (dirty : bool) : bool := if in_size i <? o then true else dirty.

Lemma bmap_grown s i o k : bmap s (grown i o) k = bmap s i k.
Proof. unfold grown. now destruct (_ <? _). Qed.

Lemma content_grown s i o p : content s (grown i o) p = content s i p.
Proof. unfold content. now rewrite bmap_grown. Qed.

(** Replacing bytes of one block that the file has. *)
Lemma patch_wrote sb s s' i off src dirty :
  let b := bmap s i (off / 512) in
  kfs_ok sb s -> file_ok sb s i -> b <> 0 -> 0 <= off -> 0 < zlen src -> off mod 512 + zlen src <= 512 ->
  off + zlen src <= MAX_FILE -> same_rest sb s s' -> k_block_bitmap s' = k_block_bitmap s ->
  (forall j, sec s' j = if j =? b then blit (sec s b) (off mod 512) src else sec s j) ->
  wrote sb s s' i (grown i (off + zlen src)) off src dirty (grown_dirty i (off + zlen src) dirty).
Proof.
  intros b K [I B] Hb Hoff Hlen Hfit Hmax R Hbm Hsec. pose proof (ok_geo _ _ K) as [].
  assert (Hbk : 0 <= off / 512 < MAX_BLOCKS) by (apply block_of; lia).
  destruct (bo_data _ _ _ _ B _ Hbk Hb) as [Hbr Hbu]. fold b in Hbr, Hbu.
  assert (Hm : forall k, 0 <= k < MAX_BLOCKS -> bmap s' i k = bmap s i k).
  { intros k Hk. unfold bmap. destruct (k <? 10); [reflexivity|]. destruct (Z.eqb_spec (in_indirect i) 0); [reflexivity|].
    rewrite Hsec. destruct (Z.eqb_spec (in_indirect i) b) as [E|]; [|reflexivity].
    now destruct (bo_sep _ _ _ _ B _ Hbk Hb). }
  assert (Hsz : zlen (sec s b) = 512) by (unfold zlen; destruct (sec_ok s b) as [-> _]; lia).
  constructor; auto.
  - split; [|apply (blocks_ok_mono sb s s' (bmap s i)); auto].
    + destruct I. unfold grown. destruct (_ <? _); constructor; auto. cbn [with_isize in_size]. apply u32_range.
    + unfold grown. now destruct (_ <? _).
    + unfold used. now rewrite Hbm.
    + intros k Hk. now rewrite bmap_grown, Hm.
  - unfold MAX_FILE, MAX_BLOCKS in Hmax. destruct (Z.eqb_spec (zlen src) 0); [lia|]. unfold grown.
    destruct (Z.ltb_spec (in_size i) (off + zlen src)); cbn [with_isize in_size]; [rewrite u32_id; lia|lia].
  - unfold grown. now destruct (_ <? _).
  - unfold grown. now destruct (_ <? _).
  - unfold grown. now destruct (_ <? _).
  - intros k Hk _. now rewrite bmap_grown, Hm.
  - intros p Hp. rewrite bmap_grown. assert (E : p / 512 = off / 512) by dlia. rewrite E, Hm by exact Hbk. exact Hb.
  - intros p Hp. rewrite content_grown. pose proof (block_of p Hp) as Hpk. unfold content. cbn zeta. rewrite Hm by exact Hpk.
    destruct (Z.eq_dec (p / 512) (off / 512)) as [E|Hne].
    + rewrite E. fold b. destruct (Z.eqb_spec b 0); [lia|]. rewrite Hsec, Z.eqb_refl, znth_blit by dlia.
      assert (p - off = p mod 512 - off mod 512) as -> by dlia.
      rewrite (same_block_range p off (zlen src) E). now destruct (_ && _).
    + destruct ((off <=? p) && (p <? off + zlen src)) eqn:Er; [reflect_bools; exfalso; dlia|].
      destruct (Z.eqb_spec (bmap s i (p / 512)) 0) as [|Hn]; [reflexivity|].
      rewrite Hsec. destruct (Z.eqb_spec (bmap s i (p / 512)) b) as [Eb|]; [|reflexivity].
      destruct Hne. now apply (bo_inj _ _ _ _ B).
  - intros j. unfold used. now rewrite Hbm.
  - intros j Hj Hu Hi Hk. rewrite Hsec. destruct (Z.eqb_spec j b) as [->|]; [|reflexivity]. now destruct (Hk _ Hbk).
  - left. unfold grown. now destruct (_ <? _).
  - intros k Hk. left. now rewrite bmap_grown, Hm.
  - unfold grown, grown_dirty. destruct (_ <? _); auto.
Qed.

(** Why a write stops at offset [o]: the disk is full, or the file is as large as
    a file can be. *)
Definition stuck (sb : kfs_superblock) s (o e : Z) : Prop :=
  (e = - ENOSPC /\ first_free_block sb s = None) \/ (e = - EFBIG /\ MAX_FILE <= o).

(** The block that a write patches: a whole block needs no read. *)
Lemma fetch_block s b o src :
  0 <= b < bd_count (k_dev s) -> 0 <= o -> o + zlen src <= 512 ->
  exists buf, (if (0 <? o) || (zlen src <? 512) then dev_read b 1 else ret zero_buf) s = Ok (inr buf, s) /\
    blit buf o src = blit (sec s b) o src.
Proof.
  intros Hb Ho Hl. destruct ((0 <? o) || (zlen src <? 512)) eqn:E.
  - exists (sec s b). split; [now apply dev_read_ok|reflexivity].
  - apply orb_false_iff in E as [E1 E2]. apply Z.ltb_ge in E1, E2. assert (o = 0) as -> by lia.
    exists zero_buf. split; [reflexivity|]. destruct (sec_ok s b Hb) as [Hs _]. unfold blit, zlen in *. cbn [firstn].
    rewrite !drop_ge; [reflexivity| |]; rewrite ?Hs; unfold zero_buf; rewrite ?length_replicate; lia.
Qed.

Lemma write_block_spec sb s w src :
  kfs_ok sb s -> file_ok sb s (ws_inode w) -> 0 <= ws_offset w < 2 ^ 32 -> 0 < zlen src -> Forall byte src ->
  let o := ws_offset w in let n := chunk_at o (zlen src) in
  exists r i' d' s', write_block w src s = Ok ((r, i', d'), s') /\
    match r with
    | inl e => stuck sb s' o e /\ (forall k, 0 <= k < MAX_BLOCKS -> bmap s' (ws_inode w) k = bmap s (ws_inode w) k) /\
        wrote sb s s' (ws_inode w) i' o [] (ws_dirty w) d'
    | inr c => c = n /\ o + n <= MAX_FILE /\
        wrote sb s s' (ws_inode w) (grown i' (o + n)) o (slice src 0 n) (ws_dirty w) (grown_dirty i' (o + n) d')
    end.
Proof.
  intros K F Ho Hl Hb o n. unfold write_block. fold o. unfold KFS_BLOCK_SIZE.
  destruct (chunk_at_spec o (zlen src) Hl) as (Hn & Hfit & _). fold n in Hn, Hfit.
  rewrite (u32_id (o / 512)) by dlia. cbn zeta.
  destruct (Z.lt_ge_cases (o / 512) MAX_BLOCKS) as [Hk|Hk].
  2:{ exists (inl (- EFBIG)), (ws_inode w), (ws_dirty w), s.
      assert (E : kfs_map_or_alloc_block (ws_inode w) (o / 512) (ws_dirty w) s = Ok ((inl (- EFBIG), ws_inode w, ws_dirty w), s)).
      { unfold kfs_map_or_alloc_block, MAX_BLOCKS in *. destruct (Z.ltb_spec (o / 512) 10); [lia|]. cbn zeta.
        destruct (Z.leb_spec 128 (o / 512 - 10)); [reflexivity|lia]. }
      rewrite (run_sbind _ _ _ _ _ E). split; [reflexivity|]. split; [right; split; [reflexivity|]; unfold MAX_FILE; dlia|].
      split; [done|now apply wrote_nil]. }
  destruct (map_or_alloc_spec sb s (ws_inode w) (o / 512) (ws_dirty w) K F) as (r & s1 & i1 & d1 & E1 & M & Hr); [dlia|].
  rewrite (run_sbind _ _ _ _ _ E1).
  pose proof (mapped_wrote sb s s1 (ws_inode w) i1 (o / 512) _ _ r o K F ltac:(dlia) M Hr) as W1.
  destruct r as [e|b]; cbn [map_result] in Hr.
  { exists (inl e), i1, d1, s1. split; [reflexivity|]. split; [left; tauto|]. split; [apply Hr|exact W1]. }
  destruct Hr as (Eb & Hb0 & _). pose proof (sr_ok _ _ _ (mp_rest _ _ _ _ _ _ _ _ M)) as K1.
  pose proof (mp_file _ _ _ _ _ _ _ _ M) as F1. pose proof F1 as [I1 B1]. pose proof (ok_geo _ _ K1) as [].
  destruct (bo_data _ _ _ _ B1 (o / 512)) as [Hbr _]; [dlia|lia|]. rewrite Eb in Hbr.
  fold (chunk_at o (zlen src)). fold n. assert (Hs : sector_ok (sec s1 b)) by (apply sec_ok; lia).
  assert (Hsl : zlen (slice src 0 n) = n) by (apply zlen_slice; lia).
  destruct (write_data sb s1 b (blit (sec s1 b) (o mod 512) (slice src 0 n))) as (s2 & E2 & R2 & Hbm & Hsec);
    [exact K1|exact Hbr|apply sector_blit; auto using Forall_slice; dlia|].
  exists (inr n), i1, d1, s2.
  destruct (fetch_block s1 b (o mod 512) (slice src 0 n)) as (buf & Ef & Hbuf); [lia|dlia|lia|]. rewrite Hsl in Ef.
  erewrite run_sbind by (erewrite run_bind by exact Ef; rewrite Hbuf; erewrite run_bind by exact E2; reflexivity).
  split; [reflexivity|]. split; [reflexivity|].
  assert (o + n <= MAX_FILE) by (unfold MAX_FILE, MAX_BLOCKS in *; dlia). split; [assumption|].
  assert (W2 : wrote sb s1 s2 i1 (grown i1 (o + n)) o (slice src 0 n) d1 (grown_dirty i1 (o + n) d1)).
  { rewrite <- Hsl at 1 3. apply patch_wrote; rewrite ?Eb, ?Hsl; auto; lia. }
  change (slice src 0 n) with ([] ++ slice src 0 n). eapply wrote_trans; [lia|change (zlen []) with 0; lia|exact W1|].
  change (zlen []) with 0. now rewrite Z.add_0_r.
Qed.

(** The loop writes a prefix of [src], all of it unless it gets stuck; it fails
    only when it is stuck at once. *)
Lemma write_loop_spec sb fuel : forall s w src,
  kfs_ok sb s -> file_ok sb s (ws_inode w) -> 0 <= ws_offset w < 2 ^ 32 -> 0 <= ws_total w -> Forall byte src ->
  (0 < zlen src -> ws_offset w mod 512 + zlen src <= 512 * Z.of_nat fuel) ->
  exists r s', write_loop fuel w src s = Ok (r, s') /\
    match r with
    | inl e => ws_total w = 0 /\ stuck sb s' (ws_offset w) e /\
        (forall k, 0 <= k < MAX_BLOCKS -> bmap s' (ws_inode w) k = bmap s (ws_inode w) k) /\
        exists i' d', wrote sb s s' (ws_inode w) i' (ws_offset w) [] (ws_dirty w) d'
    | inr w' => exists n, 0 <= n <= zlen src /\ ws_total w' = ws_total w + n /\ ws_offset w' = ws_offset w + n /\
        (n < zlen src -> exists e, stuck sb s' (ws_offset w') e) /\ (0 < zlen src -> 0 < ws_total w') /\
        (0 < n -> ws_offset w + n <= MAX_FILE) /\
        wrote sb s s' (ws_inode w) (ws_inode w') (ws_offset w) (slice src 0 n) (ws_dirty w) (ws_dirty w')
    end.
Proof.
  induction fuel as [|fuel IH]; intros s w src K F Ho Ht Hb Hfuel; pose proof (zlen_nonneg src) as Hnn;
    pose proof (Z.mod_pos_bound (ws_offset w) 512 ltac:(lia)) as Hmod; cbn [write_loop].
  all: destruct (Z.eqb_spec (zlen src) 0) as [E0|Hn];
    [exists (inr w), s; split; [reflexivity|]; exists 0; repeat apply conj; try lia; now apply wrote_nil|].
  { lia. }
  destruct (write_block_spec sb s w src K F Ho) as (r & i1 & d1 & s1 & E1 & H1'); [lia|exact Hb|].
  rewrite (run_sbind _ _ _ _ _ E1). destruct r as [e|c].
  { destruct H1' as (Hst & Hsame & W1). destruct (Z.ltb_spec 0 (ws_total w)).
    - eexists (inr _), s1. split; [reflexivity|]. exists 0. cbn [ws_total ws_offset ws_inode ws_dirty].
      rewrite !Z.add_0_r. repeat apply conj; try lia; eauto.
    - exists (inl e), s1. split; [reflexivity|]. split; [lia|]. eauto. }
  destruct H1' as (-> & Hmax & W1). set (n1 := chunk_at (ws_offset w) (zlen src)) in *.
  destruct (chunk_at_spec (ws_offset w) (zlen src) ltac:(lia)) as (Hn1 & Hfit & Hend). fold n1 in Hn1, Hfit, Hend.
  assert (MAX_FILE = 70656) as HM by reflexivity. rewrite u64_id by lia.
  assert (Eg : (if in_size i1 <? ws_offset w + n1 then (with_isize i1 (u32 (ws_offset w + n1)), true) else (i1, d1))
    = (grown i1 (ws_offset w + n1), grown_dirty i1 (ws_offset w + n1) d1)) by (unfold grown, grown_dirty; now destruct (_ <? _)).
  rewrite Eg. clear Eg. set (w1 := mkWs _ _ _ _). set (src1 := skipn (Z.to_nat n1) src).
  assert (Hl1 : zlen src1 = zlen src - n1) by (unfold src1, zlen in *; rewrite length_skipn; lia).
  assert (Hs1 : zlen (slice src 0 n1) = n1) by (apply zlen_slice; lia).
  assert (Hm1 : 0 < zlen src1 -> (ws_offset w + n1) mod 512 + zlen src1 <= 512 * Z.of_nat fuel)
    by (intros Hp; destruct Hend as [E|E]; [lia|dlia]).
  destruct (IH s1 w1 src1) as (r & s' & E2 & H2'); cbn [w1 ws_inode ws_offset ws_total]; auto; try lia;
    [apply W1|apply W1|now apply Forall_drop|].
  exists r, s'. split; [exact E2|]. destruct r as [e|w']; cbn [w1 ws_inode ws_offset ws_total ws_dirty] in H2'; [lia|].
  destruct H2' as (n & Hnr & Ht' & Ho' & Hst & Hpos & Hbig & W2). exists (n1 + n). repeat apply conj; try lia.
  - intros Hlt. apply Hst. lia.
  - assert (slice src 0 (n1 + n) = slice src 0 n1 ++ slice src1 0 n) as -> by (apply slice_split; lia).
    eapply wrote_trans; [lia| |exact W1|now rewrite Hs1]. rewrite Hs1, zlen_slice by lia. lia.
Qed.

End Disk.
