(* ===== verification/KfsFiles.v ===== *)
(** * KFS: files as sequences of bytes

    [fs_ok] is the invariant of a consistent file system: the bitmaps match the
    disk, the blocks of every allocated inode are allocated and no block belongs
    to two files.  The theorems say what [read], [write] and [truncate] of
    src/kernel/fs/kfs.c do to the content of the file, that they keep the
    invariant, and that they leave the content of every other file alone. *)

From S2P Require Import Prelude Bitmap Interfaces CString Kfs KfsProofs.

Section Files.
Context {D A : Type} `{BlockDeviceLaws D} `{KernelAlloc A}.
Implicit Types s : kfs D A.

(** The inode [ino] is in use. *)
Definition live (sb : kfs_superblock) s (ino : Z) : Prop :=
  0 <= ino < sb_inode_count sb /\ bm_bit (k_inode_bitmap s) ino = true.

(** Block [b] belongs to the file of [i]. *)
Definition owned s (i : kfs_inode) (b : Z) : Prop :=
  b <> 0 /\ (b = in_indirect i \/ exists k, 0 <= k < MAX_BLOCKS /\ bmap s i k = b).

Record fs_ok (sb : kfs_superblock) s : Prop := {
  fs_kfs : kfs_ok sb s;
  fs_file ino i : live sb s ino -> inode_at sb s ino = Ok i -> file_ok sb s i;
  fs_disjoint ino i ino' i' b : live sb s ino -> live sb s ino' -> ino <> ino' ->
    inode_at sb s ino = Ok i -> inode_at sb s ino' = Ok i' -> owned s i b -> ~ owned s i' b
}.

(** [n] bytes of the file from [off] on. *)
Definition bytes s (i : kfs_inode) (off n : Z) : list Z := content s i <$> seqZ off n.

(** The part of the file that [n] bytes from [off] on touch has no holes. *)
Definition filled s (i : kfs_inode) (off n : Z) : Prop :=
  forall p, off <= p < off + n -> bmap s i (p / 512) <> 0.

Lemma zlen_bytes s i off n : 0 <= n -> zlen (bytes s i off n) = n.
Proof. intros Hn. unfold zlen, bytes. rewrite length_fmap, length_seqZ. lia. Qed.

Lemma znth_bytes s i off n p : 0 <= p < n -> znth (bytes s i off n) p = Some (content s i (off + p)).
Proof.
  intros Hp. unfold znth, bytes. destruct (Z.leb_spec 0 p); [|lia].
  rewrite list_lookup_fmap, (lookup_seqZ_lt off n) by lia. cbn. do 2 f_equal. lia.
Qed.

Lemma bytes_app s i off n m : 0 <= n -> 0 <= m -> bytes s i off (n + m) = bytes s i off n ++ bytes s i (off + n) m.
Proof. intros Hn Hm. unfold bytes. now rewrite seqZ_app, fmap_app by lia. Qed.

Lemma bytes_ext s i s' i' off n :
  (forall p, off <= p < off + n -> content s i p = content s' i' p) -> bytes s i off n = bytes s' i' off n.
Proof.
  intros Hp. apply list_fmap_ext. intros k p Hk. apply lookup_seqZ in Hk. apply Hp. lia.
Qed.

(** ** Reading *)
Lemma map_block_spec sb s i k :
  kfs_ok sb s -> file_ok sb s i -> 0 <= k < MAX_BLOCKS ->
  kfs_map_block i k s = Ok (if bmap s i k =? 0 then inl (- ENOENT) else inr (bmap s i k), s).
Proof.
  intros K [I B] Hk. pose proof (ok_geo _ _ K) as []. unfold kfs_map_block.
  destruct (Z.ltb_spec k 10).
  - destruct (znth_is_Some (in_direct i) k) as [d Ed]; [pose proof (io_direct_len i I); unfold zlen; lia|].
    rewrite (run_local (load (in_direct i) k) _ s d) by (unfold load; now rewrite Ed). unfold bmap.
    destruct (Z.ltb_spec k 10); [|lia]. rewrite Ed. change (default 0 (Some d)) with d. now destruct (d =? 0).
  - destruct (Z.eqb_spec (in_indirect i) 0) as [E0|Hn].
    + unfold bmap. destruct (Z.ltb_spec k 10); [lia|]. now rewrite E0.
    + destruct (bo_ind _ _ _ _ B Hn) as [Hr _].
      destruct (bmap_word s i k I) as [_ Hg]; [intros _; apply sec_ok; lia|exact Hk|].
      unfold MAX_BLOCKS in Hk. rewrite u32_id by lia. cbn zeta. destruct (Z.leb_spec 128 (k - 10)); [lia|].
      erewrite run_bind by (apply dev_read_ok; lia).
      rewrite (run_local _ _ _ _ (Hg ltac:(lia) Hn)). now destruct (bmap s i k =? 0).
Qed.

Lemma block_bytes sb s i off c :
  kfs_ok sb s -> file_ok sb s i -> 0 <= off < MAX_FILE -> 0 <= c -> off mod 512 + c <= 512 -> bmap s i (off / 512) <> 0 ->
  slice (sec s (bmap s i (off / 512))) (off mod 512) c = bytes s i off c.
Proof.
  intros K [I B] Ho Hc Hfit Hn. pose proof (ok_geo _ _ K) as [].
  destruct (bo_data _ _ _ _ B _ (block_of off Ho) Hn) as [Hr _].
  assert (Hl : zlen (sec s (bmap s i (off / 512))) = 512) by (unfold zlen; destruct (sec_ok s (bmap s i (off / 512))) as [-> _]; lia).
  assert (Hsl : zlen (slice (sec s (bmap s i (off / 512))) (off mod 512) c) = c) by (apply zlen_slice; dlia).
  apply znth_ext; [rewrite Hsl, zlen_bytes; lia|]. intros p Hp. rewrite Hsl in Hp. rewrite znth_slice, znth_bytes by dlia.
  assert (E1 : (off + p) / 512 = off / 512) by dlia. assert (E2 : (off + p) mod 512 = off mod 512 + p) by dlia.
  unfold content. cbn zeta. rewrite E1, E2. destruct (Z.eqb_spec (bmap s i (off / 512)) 0); [lia|].
  destruct (znth_is_Some (sec s (bmap s i (off / 512))) (off mod 512 + p)) as [x ->]; [dlia|reflexivity].
Qed.

(** The loop copies the bytes of the file. *)
Lemma read_loop_spec sb s i fuel : forall off n out,
  kfs_ok sb s -> file_ok sb s i -> 0 <= off -> 0 <= n -> off + n <= MAX_FILE -> filled s i off n ->
  (0 < n -> off mod 512 + n <= 512 * Z.of_nat fuel) ->
  read_loop fuel i off n out s = Ok (mkRead 0 (out ++ bytes s i off n) (off + n), s).
Proof.
  induction fuel as [|fuel IH]; intros off n out K F Ho Hn Hmax Hfill Hfuel; cbn [read_loop].
  all: pose proof (Z.mod_pos_bound off 512 ltac:(lia)); destruct (Z.eqb_spec n 0) as [->|Hn0];
    [unfold bytes; rewrite seqZ_nil by lia; cbn; now rewrite app_nil_r, Z.add_0_r|].
  { lia. }
  destruct (chunk_at_spec off n ltac:(lia)) as (Hc & Hfit & Hend). unfold KFS_BLOCK_SIZE.
  assert (Hoff : 0 <= off < MAX_FILE) by lia. pose proof (block_of off Hoff) as Hk.
  assert (HM : MAX_FILE = 70656) by reflexivity. rewrite (u32_id (off / 512)) by dlia. cbn zeta.
  assert (Hb : bmap s i (off / 512) <> 0) by (apply Hfill; lia).
  pose proof F as [I B]. pose proof (ok_geo _ _ K) as []. destruct (bo_data _ _ _ _ B _ Hk Hb) as [Hr _].
  pose proof (map_block_spec sb s i (off / 512) K F Hk) as Em. destruct (Z.eqb_spec (bmap s i (off / 512)) 0); [lia|].
  erewrite run_sbind by (erewrite run_bind by exact Em; apply dev_read_ok; lia).
  fold (chunk_at off n). set (c := chunk_at off n) in *.
  cbv iota beta.
  rewrite (block_bytes sb s i off c) by (auto; lia). rewrite u64_id by lia.
  rewrite IH; [| |assumption|lia|lia|lia| |].
  - rewrite <- app_assoc, <- bytes_app by lia. do 3 f_equal; [do 2 f_equal; lia|lia].
  - exact K.
  - intros p Hp. apply Hfill. lia.
  - intros Hpos. destruct Hend; [lia|dlia].
Qed.

(** The bytes that a read of [count] bytes at [off] gets. *)
Definition readable (i : kfs_inode) (off count : Z) : Z := Z.max 0 (Z.min (in_size i - off) count).

Lemma read_spec sb s vn i off count :
  kfs_ok sb s -> live sb s (fs_private vn) -> inode_at sb s (fs_private vn) = Ok i -> file_ok sb s i ->
  in_size i <= MAX_FILE -> 0 <= off -> 0 <= count -> off + count < 2 ^ 64 ->
  filled s i off (readable i off count) ->
  kfs_vnode_read vn off count s =
    Ok (mkRead 0 (bytes s i off (readable i off count)) (off + readable i off count), s).
Proof.
  intros K [Hino Hlive] Ei F Hsz Ho Hc H64 Hfill. pose proof (ok_geo _ _ K) as [].
  assert (HM : MAX_FILE = 70656) by reflexivity. unfold kfs_vnode_read. rewrite (u32_id (fs_private vn)) by lia. cbn zeta.
  destruct (read_inode_spec sb s _ K Hino) as (i' & Ei' & _ & Er). rewrite Ei in Ei'. injection Ei' as <-.
  rewrite Hlive in Er. rewrite (run_sbind _ _ _ _ _ Er). unfold readable in *.
  destruct (Z.leb_spec (in_size i) off).
  { rewrite Z.max_l by lia. unfold bytes. rewrite seqZ_nil by lia. now rewrite Z.add_0_r. }
  rewrite u64_id by lia.
  assert (E : (if in_size i <? off + count then in_size i - off else count) = Z.max 0 (Z.min (in_size i - off) count))
    by (destruct (Z.ltb_spec (in_size i) (off + count)); lia).
  rewrite E. set (n := Z.max 0 (Z.min (in_size i - off) count)) in *.
  rewrite (read_loop_spec sb); auto; try lia. intros Hn. unfold read_fuel, KFS_BLOCK_SIZE.
  rewrite !Nat2Z.inj_succ, Z2Nat.id by dlia. dlia.
Qed.

(** ** Changing one file *)

(** [s'] results from [s] by changing the file [ino], whose inode is now [i']. *)
Record updated (sb : kfs_superblock) s s' (ino : Z) (i' : kfs_inode) : Prop := {
  up_ok : fs_ok sb s';
  up_bitmap : k_inode_bitmap s' = k_inode_bitmap s;
  up_heap : k_heap s' = k_heap s;
  up_root : k_root s' = k_root s;
  up_inode : inode_at sb s' ino = Ok i';
  up_others ino' : 0 <= ino' < sb_inode_count sb -> ino' <> ino -> inode_at sb s' ino' = inode_at sb s ino';
  up_content ino' i2 p : live sb s ino' -> ino' <> ino -> inode_at sb s ino' = Ok i2 -> 0 <= p < MAX_FILE ->
    bmap s' i2 (p / 512) = bmap s i2 (p / 512) /\ content s' i2 p = content s i2 p
}.

Lemma owned_used sb s i b : kfs_ok sb s -> file_ok sb s i -> owned s i b -> data_block sb s b.
Proof.
  intros K [I B] [Hn [->|(k & Hk & <-)]]; [now apply (bo_ind _ _ _ _ B)|now apply (bo_data _ _ _ _ B)].
Qed.

(** The sectors of a file determine its blocks and its content. *)
Lemma file_frame sb s s' i :
  kfs_ok sb s -> file_ok sb s i -> (forall b, owned s i b -> sec s' b = sec s b) ->
  (forall k, 0 <= k < MAX_BLOCKS -> bmap s' i k = bmap s i k) /\
  (forall p, 0 <= p < MAX_FILE -> content s' i p = content s i p).
Proof.
  intros K F Hsec.
  assert (Hm : forall k, 0 <= k < MAX_BLOCKS -> bmap s' i k = bmap s i k).
  { intros k Hk. unfold bmap. destruct (k <? 10); [reflexivity|]. destruct (Z.eqb_spec (in_indirect i) 0); [reflexivity|].
    rewrite Hsec; [reflexivity|]. split; auto. }
  split; [exact Hm|]. intros p Hp. pose proof (block_of p Hp) as Hk. unfold content. rewrite Hm by exact Hk. cbn zeta.
  destruct (Z.eqb_spec (bmap s i (p / 512)) 0) as [|Hn]; [reflexivity|]. rewrite Hsec; [reflexivity|]. split; eauto.
Qed.

Lemma owned_same s s' i b :
  (forall k, 0 <= k < MAX_BLOCKS -> bmap s' i k = bmap s i k) -> owned s' i b <-> owned s i b.
Proof.
  intros Hm. unfold owned. split; intros [Hn [E|(k & Hk & E)]]; (split; [exact Hn|]); auto; right; exists k;
    (split; [exact Hk|]); [now rewrite <- Hm|now rewrite Hm].
Qed.

(** The blocks of a file stay in order when they stay allocated. *)
Lemma blocks_ok_move sb s s' i :
  blocks_ok sb s (bmap s i) (in_indirect i) -> (forall k, 0 <= k < MAX_BLOCKS -> bmap s' i k = bmap s i k) ->
  (forall b, owned s i b -> used s' b = true) -> blocks_ok sb s' (bmap s' i) (in_indirect i).
Proof.
  intros [B1 B2 B3 B4] Hm Hu. constructor.
  - intros k Hk Hn. rewrite Hm in * by exact Hk. destruct (B1 k Hk Hn) as [Hr _]. split; [exact Hr|].
    apply Hu. split; eauto.
  - intros Hn. destruct (B2 Hn) as [Hr _]. split; [exact Hr|]. apply Hu. split; auto.
  - intros k k' Hk Hk'. rewrite !Hm by assumption. now apply B3.
  - intros k Hk. rewrite Hm by exact Hk. now apply B4.
Qed.

(** Changing one file only in blocks that it owns or that were free: the
    invariant is kept, and the other files are as before. *)
Lemma file_replaced sb s s' ino i i' :
  fs_ok sb s -> live sb s ino -> inode_at sb s ino = Ok i ->
  kfs_ok sb s' -> k_inode_bitmap s' = k_inode_bitmap s -> k_heap s' = k_heap s -> k_root s' = k_root s ->
  inode_at sb s' ino = Ok i' ->
  (forall ino', 0 <= ino' < sb_inode_count sb -> ino' <> ino -> inode_at sb s' ino' = inode_at sb s ino') ->
  file_ok sb s' i' -> (forall b, owned s' i' b -> owned s i b \/ used s b = false) ->
  (forall j, sb_data_blocks_start sb <= j -> used s j = true -> ~ owned s i j -> used s' j = true /\ sec s' j = sec s j) ->
  updated sb s s' ino i'.
Proof.
  intros Fs Hl Ei K' Hib Hh Hroot Ei' Hoth F' Hown Hkeep. pose proof (fs_kfs _ _ Fs) as K.
  assert (Hlive : forall x, live sb s' x <-> live sb s x) by (intros x; unfold live; now rewrite Hib).
  assert (Hb2 : forall ino2 i2 b, live sb s ino2 -> ino2 <> ino -> inode_at sb s ino2 = Ok i2 -> owned s i2 b ->
    ~ owned s i b /\ data_block sb s b /\ used s' b = true /\ sec s' b = sec s b).
  { intros ino2 i2 b Hl2 Hne Ei2 Hb. pose proof (owned_used sb s i2 b K (fs_file _ _ Fs _ _ Hl2 Ei2) Hb) as [Hr Hu].
    assert (Ho : ~ owned s i b) by (intros Ho; exact (fs_disjoint _ _ Fs _ _ _ _ b Hl2 Hl Hne Ei2 Ei Hb Ho)).
    destruct (Hkeep b) as [Hu' Hs']; [lia|assumption..|]. repeat split; auto; lia. }
  assert (Ho : forall ino2 i2, live sb s ino2 -> ino2 <> ino -> inode_at sb s ino2 = Ok i2 ->
    (forall k, 0 <= k < MAX_BLOCKS -> bmap s' i2 k = bmap s i2 k) /\
    (forall p, 0 <= p < MAX_FILE -> content s' i2 p = content s i2 p)).
  { intros ino2 i2 Hl2 Hne Ei2. apply (file_frame sb); [exact K|eapply fs_file; eauto|].
    intros b Hb. now apply (Hb2 ino2 i2 b). }
  assert (Hcross : forall ino2 i2 b, live sb s ino2 -> ino2 <> ino -> inode_at sb s ino2 = Ok i2 ->
    owned s' i2 b -> ~ owned s' i' b).
  { intros ino2 i2 b Hl2 Hne Ei2 Hb Hb'. apply (owned_same s s' i2) in Hb; [|now apply (Ho ino2)].
    destruct (Hb2 ino2 i2 b Hl2 Hne Ei2 Hb) as (Hno & [_ Hu] & _). destruct (Hown b Hb'); [auto|congruence]. }
  constructor; auto.
  2:{ intros ino' i2 p Hl2 Hne Ei2 Hp. destruct (Ho ino' i2 Hl2 Hne Ei2) as [Ho1 Ho2].
      split; [apply Ho1, block_of, Hp|now apply Ho2]. }
  constructor; [exact K'| |].
  - intros ino2 i2 Hl2 Ei2. rewrite Hlive in Hl2. destruct (Z.eq_dec ino2 ino) as [->|Hne]; [congruence|].
    rewrite Hoth in Ei2 by (auto; apply Hl2). destruct (fs_file _ _ Fs _ _ Hl2 Ei2) as [I2 B2]. split; [exact I2|].
    apply (blocks_ok_move sb s s' i2); [exact B2|now apply (Ho ino2)|]. intros b Hb. now apply (Hb2 ino2 i2 b).
  - intros a ia c ic b Ha Hc' Hne Ea Ec Hb Hb'. rewrite Hlive in Ha, Hc'.
    destruct (Z.eq_dec a ino) as [->|Na], (Z.eq_dec c ino) as [->|Nc]; [congruence| | |].
    + rewrite Ei' in Ea. injection Ea as <-. rewrite Hoth in Ec by (auto; apply Hc'). now apply (Hcross c ic b).
    + rewrite Ei' in Ec. injection Ec as <-. rewrite Hoth in Ea by (auto; apply Ha). now apply (Hcross a ia b).
    + rewrite Hoth in Ea by (auto; apply Ha). rewrite Hoth in Ec by (auto; apply Hc').
      apply (owned_same s s' ia) in Hb; [|now apply (Ho a)]. apply (owned_same s s' ic) in Hb'; [|now apply (Ho c)].
      exact (fs_disjoint _ _ Fs _ _ _ _ b Ha Hc' Hne Ea Ec Hb Hb').
Qed.

Lemma wrote_owned sb s s1 i i' off src d d' b :
  wrote sb s s1 i i' off src d d' -> owned s1 i' b -> owned s i b \/ used s b = false.
Proof.
  intros W [Hn [->|(k & Hk & <-)]].
  - destruct (wr_ind _ _ _ _ _ _ _ _ _ W) as [E|E]; [|auto]. left. rewrite E in *. split; auto.
  - destruct (wr_new _ _ _ _ _ _ _ _ _ W k Hk) as [E|E]; [|auto]. left. rewrite E in *. split; eauto.
Qed.

(** A write whose inode then is on the disk: the invariant is kept, and the other
    files are as before. *)
Lemma wrote_updated sb s s1 s' ino i i' off src d d' :
  fs_ok sb s -> live sb s ino -> inode_at sb s ino = Ok i -> wrote sb s s1 i i' off src d d' ->
  kfs_ok sb s' -> k_block_bitmap s' = k_block_bitmap s1 -> k_inode_bitmap s' = k_inode_bitmap s ->
  k_heap s' = k_heap s -> k_root s' = k_root s ->
  (forall j, sb_data_blocks_start sb <= j -> sec s' j = sec s1 j) -> inode_at sb s' ino = Ok i' ->
  (forall ino', 0 <= ino' < sb_inode_count sb -> ino' <> ino -> inode_at sb s' ino' = inode_at sb s ino') ->
  updated sb s s' ino i' /\
  (forall k, 0 <= k < MAX_BLOCKS -> bmap s' i' k = bmap s1 i' k) /\
  (forall p, 0 <= p < MAX_FILE -> content s' i' p = content s1 i' p).
Proof.
  intros Fs Hl Ei W K' Hbb Hib Hh Hroot Hsec Ei' Hoth.
  pose proof (wr_file _ _ _ _ _ _ _ _ _ W) as F1. pose proof (sr_ok _ _ _ (wr_rest _ _ _ _ _ _ _ _ _ W)) as K1.
  destruct (file_frame sb s1 s' i' K1 F1) as [Hm Hc].
  { intros b Hb. apply Hsec. apply (owned_used sb s1 i' b K1 F1 Hb). }
  split; [|split; assumption]. apply (file_replaced sb s s' ino i i'); auto.
  - destruct F1 as [I1 B1]. split; [exact I1|]. apply (blocks_ok_mono sb s1 s' (bmap s1 i')); auto.
    unfold used. now rewrite Hbb.
  - intros b Hb. apply (owned_same s1 s' i' b Hm) in Hb. eapply wrote_owned; eauto.
  - intros j Hj Hu Hno. unfold used at 1. rewrite Hbb, Hsec by exact Hj.
    assert (Hj0 : j <> 0) by (pose proof (ok_geo _ _ K') as []; lia).
    split; [now apply (wr_used _ _ _ _ _ _ _ _ _ W)|]. apply (wr_sec _ _ _ _ _ _ _ _ _ W); auto.
    + intros E. apply Hno. split; auto.
    + intros k Hk E. apply Hno. split; eauto.
Qed.

(** ** Writing *)

(** The outcome [r] of writing [buf] at [o]: a prefix of [buf], all of it unless
    the disk is full or the file has its largest size, replaces the bytes there;
    an error means that nothing was written. *)
Record write_done (sb : kfs_superblock) s s' (i i' : kfs_inode) (o : Z) (buf : list Z) (r : write_result) : Prop := {
  wd_count : 0 <= wr_written r <= zlen buf;
  wd_offset : wr_offset r = o + wr_written r;
  wd_success : wr_err r = 0 -> 0 < wr_written r;
  wd_error : wr_err r <> 0 -> wr_written r = 0 /\ stuck sb s' o (wr_err r) /\ i' = i;
  wd_short : wr_written r < zlen buf -> exists e, stuck sb s' (o + wr_written r) e;
  wd_max : 0 < wr_written r -> o + wr_written r <= MAX_FILE;
  wd_size : in_size i' = if wr_written r =? 0 then in_size i else Z.max (in_size i) (o + wr_written r);
  wd_type : in_type i' = in_type i;
  wd_bytes : bytes s' i' o (wr_written r) = slice buf 0 (wr_written r);
  wd_filled : filled s' i' o (wr_written r);
  wd_kept k : 0 <= k < MAX_BLOCKS -> bmap s i k <> 0 -> bmap s' i' k <> 0;
  wd_rest p : 0 <= p < MAX_FILE -> ~ o <= p < o + wr_written r -> content s' i' p = content s i p
}.

Lemma wrote_same sb s s1 i ix off d dx :
  kfs_ok sb s -> file_ok sb s i -> wrote sb s s1 i ix off [] d dx ->
  (forall k, 0 <= k < MAX_BLOCKS -> bmap s1 i k = bmap s i k) -> wrote sb s s1 i i off [] d d.
Proof.
  intros K [I B] W Hm. constructor; auto; try apply W.
  - split; [exact I|]. apply (blocks_ok_mono sb s s1 (bmap s i)); auto. apply W.
  - unfold zlen. cbn. lia.
  - intros p Hp. rewrite <- (wr_content _ _ _ _ _ _ _ _ _ W p Hp). unfold content. cbn zeta.
    pose proof (block_of p Hp) as Hk. rewrite Hm by exact Hk.
    destruct (Z.eqb_spec (bmap s i (p / 512)) 0) as [E0|Hn].
    + pose proof (wr_content _ _ _ _ _ _ _ _ _ W p Hp) as E. unfold content in E. rewrite E0 in E. cbn zeta in E.
      destruct (_ && _) eqn:Er in E; [reflect_bools; unfold zlen in *; cbn in *; lia|]. now rewrite E.
    + rewrite (wr_kept _ _ _ _ _ _ _ _ _ W _ Hk Hn). now destruct (Z.eqb_spec (bmap s i (p / 512)) 0).
Qed.

(** What a [wrote] on the disk means for the bytes. *)
Lemma wrote_done sb s s1 s' i i' o buf n d d' :
  wrote sb s s1 i i' o (slice buf 0 n) d d' -> 0 <= o -> 0 < n <= zlen buf -> o + n <= MAX_FILE ->
  (n < zlen buf -> exists e, stuck sb s' (o + n) e) ->
  (forall k, 0 <= k < MAX_BLOCKS -> bmap s' i' k = bmap s1 i' k) ->
  (forall p, 0 <= p < MAX_FILE -> content s' i' p = content s1 i' p) ->
  write_done sb s s' i i' o buf (mkWrite 0 n (o + n)).
Proof.
  intros W Ho Hn Hmax Hst Hm Hc. assert (Hl : zlen (slice buf 0 n) = n) by (apply zlen_slice; lia).
  destruct W as [_ _ Hsize Htype _ _ Hkept Hmapped Hcont _ _ _ _ _]. rewrite Hl in *.
  constructor; cbn [wr_err wr_written wr_offset]; auto; try lia.
  - apply znth_ext; [rewrite zlen_bytes; lia|]. intros p Hp. rewrite zlen_bytes in Hp by lia. rewrite znth_bytes by lia.
    rewrite Hc, Hcont by lia. destruct (Z.leb_spec o (o + p)), (Z.ltb_spec (o + p) (o + n)); try lia. cbn [andb].
    replace (o + p - o) with p by lia. destruct (znth_is_Some (slice buf 0 n) p) as [x ->]; [lia|reflexivity].
  - intros p Hp. rewrite Hm by (apply block_of; lia). now apply Hmapped.
  - intros k Hk Hb. rewrite Hm, Hkept by assumption. exact Hb.
  - intros p Hp Hout. rewrite Hc, Hcont by exact Hp. destruct (_ && _) eqn:E; [reflect_bools; lia|reflexivity].
Qed.

Lemma inode_after_wrote sb s s1 i i' off src d d' ino :
  kfs_ok sb s -> wrote sb s s1 i i' off src d d' -> 0 <= ino < sb_inode_count sb -> inode_at sb s1 ino = inode_at sb s ino.
Proof.
  intros K W Hi. destruct (table_sector sb s ino K Hi) as (_ & _ & Hr). unfold inode_at.
  rewrite (sr_meta _ _ _ (wr_rest _ _ _ _ _ _ _ _ _ W)); [reflexivity|]. pose proof (ok_geo _ _ K) as []. lia.
Qed.

(** A write that leaves the inode as it is. *)
Lemma wrote_in_place sb s s1 ino i off src d :
  fs_ok sb s -> live sb s ino -> inode_at sb s ino = Ok i -> wrote sb s s1 i i off src d d -> updated sb s s1 ino i.
Proof.
  intros Fs Hl Ei W. pose proof (fs_kfs _ _ Fs) as K.
  apply (wrote_updated sb s s1 s1 ino i i off src d d); auto; try apply W.
  - rewrite <- Ei. eapply inode_after_wrote; eauto. apply Hl.
  - intros ino' Hi' _. eapply inode_after_wrote; eauto.
Qed.

(** Writing the inode of a file after its blocks. *)
Lemma store_inode sb s s1 ino i i' off src d d' :
  fs_ok sb s -> live sb s ino -> inode_at sb s ino = Ok i -> wrote sb s s1 i i' off src d d' ->
  exists s', kfs_write_inode ino i' s1 = Ok (inr tt, s') /\ updated sb s s' ino i' /\
    k_block_bitmap s' = k_block_bitmap s1 /\
    (forall k, 0 <= k < MAX_BLOCKS -> bmap s' i' k = bmap s1 i' k) /\
    (forall p, 0 <= p < MAX_FILE -> content s' i' p = content s1 i' p).
Proof.
  intros Fs Hl Ei W. pose proof (wr_rest _ _ _ _ _ _ _ _ _ W) as R. pose proof (fs_kfs _ _ Fs) as K.
  destruct (write_inode_spec sb s1 ino i') as (dv & Ew & Kd & Hc & Eino & Eoth & Hdata);
    [apply R|apply Hl|apply (wr_file _ _ _ _ _ _ _ _ _ W)|].
  exists (with_dev s1 dv). split; [exact Ew|].
  destruct (wrote_updated sb s s1 (with_dev s1 dv) ino i i' off src d d') as (U & Hm & Hcn); auto; try apply R.
  intros ino' Hi' Hne. rewrite Eoth by assumption. eapply inode_after_wrote; eauto.
Qed.

Lemma stuck_same sb s s' o e : k_block_bitmap s' = k_block_bitmap s -> stuck sb s o e -> stuck sb s' o e.
Proof. unfold stuck, first_free_block, used. now intros ->. Qed.

Lemma write_spec sb s vn i off flags buf :
  fs_ok sb s -> live sb s (fs_private vn) -> inode_at sb s (fs_private vn) = Ok i ->
  Z.land flags (Z.lor O_WRONLY O_RDWR) <> 0 -> 0 < zlen buf -> Forall byte buf ->
  let o := if has flags O_APPEND then in_size i else off in
  0 <= o < 2 ^ 32 ->
  exists r s' i', kfs_vnode_write vn off flags buf s = Ok (r, s') /\ updated sb s s' (fs_private vn) i' /\
    write_done sb s s' i i' o buf r.
Proof.
  intros Fs Hl Ei Hfl Hlen Hb o Ho. pose proof (fs_kfs _ _ Fs) as K. pose proof (ok_geo _ _ K) as [].
  pose proof (fs_file _ _ Fs _ _ Hl Ei) as F. destruct Hl as [Hino Hbit] eqn:EHl. clear EHl.
  unfold kfs_vnode_write. rewrite (proj2 (Z.eqb_neq _ _) Hfl).
  destruct (Z.eqb_spec (zlen buf) 0) as [?|_]; [lia|]. rewrite (u32_id (fs_private vn)) by lia. cbn zeta.
  destruct (read_inode_spec sb s _ K Hino) as (i0 & Ei0 & _ & Er). rewrite Ei in Ei0. injection Ei0 as <-.
  rewrite Hbit in Er. rewrite (run_sbind _ _ _ _ _ Er). cbv iota beta. fold o.
  destruct (write_loop_spec sb (read_fuel (zlen buf)) s (mkWs i o 0 false) buf) as (r & s1 & El & Hr); auto;
    cbn [ws_offset ws_total ws_inode ws_dirty] in *; try lia.
  { intros _. unfold read_fuel, KFS_BLOCK_SIZE. rewrite !Nat2Z.inj_succ, Z2Nat.id by dlia. dlia. }
  rewrite (run_sbind _ _ _ _ _ El). destruct r as [e|w].
  - destruct Hr as (_ & Hst & Hm & ix & dx & W). apply wrote_same in W; [|assumption..].
    exists (mkWrite e 0 o), s1, i. split; [reflexivity|].
    split; [now apply (wrote_in_place sb s s1 (fs_private vn) i o [] false)|]. assert (He : e <> 0) by (destruct Hst as [[-> _]|[-> _]]; discriminate).
    constructor; cbn [wr_err wr_written wr_offset]; auto; try lia.
    + rewrite Z.add_0_r. eauto.
    + intros p Hp. lia.
    + intros k Hk. now rewrite Hm.
    + intros p Hp _. rewrite (wr_content _ _ _ _ _ _ _ _ _ W p Hp). destruct (_ && _) eqn:E; [|reflexivity].
      reflect_bools. unfold zlen in *. cbn in *. lia.
  - destruct Hr as (n & Hn & Et & Eo & Hst & Hpos & Hmax & W). rewrite Et, Eo in *. rewrite Z.add_0_l in *.
    specialize (Hpos Hlen). destruct (ws_dirty w) eqn:Edirty.
    + destruct (store_inode sb s s1 (fs_private vn) i (ws_inode w) o (slice buf 0 n) false true)
        as (s' & Ew & U & Hbm & Hm & Hc); auto.
      rewrite (run_sbind _ _ _ _ _ Ew). eexists _, s', (ws_inode w). split; [reflexivity|]. split; [exact U|].
      eapply wrote_done; eauto; try lia. intros Hlt. destruct (Hst Hlt) as [e He]. exists e. now apply (stuck_same sb s1).
    + destruct (wr_dirty _ _ _ _ _ _ _ _ _ W) as [[Ei' _]|?]; [|discriminate]. rewrite Ei' in W.
      eexists _, s1, i. split; [reflexivity|].
      split; [now apply (wrote_in_place sb s s1 (fs_private vn) i o (slice buf 0 n) false)|].
      eapply wrote_done; eauto; lia.
Qed.

(** What was written can be read back. *)
Lemma written_read sb s s' vn i i' o buf r :
  updated sb s s' (fs_private vn) i' -> write_done sb s s' i i' o buf r -> live sb s (fs_private vn) ->
  in_size i <= MAX_FILE -> 0 <= o -> wr_err r = 0 ->
  kfs_vnode_read vn o (wr_written r) s' = Ok (mkRead 0 (slice buf 0 (wr_written r)) (o + wr_written r), s').
Proof.
  intros U W Hl Hsz Ho Herr. assert (HM : MAX_FILE = 70656) by reflexivity.
  pose proof (wd_success _ _ _ _ _ _ _ _ W Herr) as Hpos. pose proof (wd_max _ _ _ _ _ _ _ _ W Hpos) as Hmax.
  pose proof (wd_size _ _ _ _ _ _ _ _ W) as Hsize. destruct (Z.eqb_spec (wr_written r) 0) as [|_]; [lia|].
  assert (Er : readable i' o (wr_written r) = wr_written r) by (unfold readable; lia).
  assert (Hl' : live sb s' (fs_private vn)) by (unfold live; rewrite (up_bitmap _ _ _ _ _ U); exact Hl).
  pose proof (up_ok _ _ _ _ _ U) as Fs'. pose proof (up_inode _ _ _ _ _ U) as Ei'.
  rewrite (read_spec sb s' vn i'); rewrite ?Er; auto; try lia.
  - now rewrite (wd_bytes _ _ _ _ _ _ _ _ W).
  - apply Fs'.
  - now apply (fs_file _ _ Fs' (fs_private vn)).
  - apply W.
Qed.

(** ** Freeing *)

(** [s'] is [s] with exactly the blocks [P] freed. *)
Record freed (sb : kfs_superblock) s s' (P : Z -> Prop) : Prop := {
  fr_rest : same_rest sb s s';
  fr_used j : used s' j = true <-> used s j = true /\ ~ P j;
  fr_sec j : sb_inode_bitmap_start sb <= j -> sec s' j = sec s j
}.

Lemma freed_trans sb s1 s2 s3 P Q :
  freed sb s1 s2 P -> freed sb s2 s3 Q -> freed sb s1 s3 (fun j => P j \/ Q j).
Proof.
  intros [A1 A2 A3] [B1 B2 B3]. constructor; [eapply same_rest_trans; eauto| |].
  - intros j. rewrite B2, A2. tauto.
  - intros j Hj. rewrite B3, A3 by exact Hj. reflexivity.
Qed.

Lemma freed_ext sb s s' P Q : (forall j, P j <-> Q j) -> freed sb s s' P -> freed sb s s' Q.
Proof. intros E [A1 A2 A3]. constructor; auto. intros j. rewrite A2, E. reflexivity. Qed.

Lemma freed_none sb s : kfs_ok sb s -> freed sb s s (fun _ => False).
Proof. intros K. constructor; [now apply same_rest_refl|tauto|auto]. Qed.

Lemma free_one sb s b :
  kfs_ok sb s -> sb_data_blocks_start sb <= b < sb_total_blocks sb ->
  exists s', kfs_free_block b s = Ok (inr tt, s') /\ freed sb s s' (fun j => j = b).
Proof.
  intros K Hb. destruct (free_block_spec sb s b K Hb) as (s' & E & R & Hu & Hs). exists s'. split; [exact E|].
  constructor; auto. intros j. rewrite Hu. destruct (Z.eqb_spec j b); [split; [discriminate|tauto]|tauto].
Qed.

Lemma free_words_spec sb l : forall s,
  kfs_ok sb s -> (forall b, In b l -> b <> 0 -> sb_data_blocks_start sb <= b < sb_total_blocks sb) ->
  exists s', free_words l s = Ok (tt, s') /\ freed sb s s' (fun j => j <> 0 /\ In j l).
Proof.
  induction l as [|b l IH]; intros s K Hl.
  - exists s. split; [reflexivity|]. eapply freed_ext; [|now apply freed_none]. cbn. tauto.
  - cbn [free_words]. destruct (Z.eqb_spec b 0) as [E0|Hn]; cbn [negb].
    + erewrite run_sbind by reflexivity. destruct (IH s K) as (s' & E & Fr); [intros; apply Hl; cbn; auto|].
      exists s'. split; [exact E|]. eapply freed_ext; [|exact Fr]. intros j. cbn. split; [tauto|]. intros [Hj [->|?]]; tauto.
    + destruct (free_one sb s b K) as (s1 & E1 & F1); [apply Hl; cbn; auto|]. rewrite (run_sbind _ _ _ _ _ E1).
      destruct (IH s1) as (s' & E & Fr); [apply F1|intros; apply Hl; cbn; auto|]. exists s'. split; [exact E|].
      eapply freed_ext; [|exact (freed_trans _ _ _ _ _ _ F1 Fr)]. intros j. cbn.
      split; [intros [->|[? ?]]; auto|intros [? [->|?]]; auto].
Qed.

(** The words of the block of pointers. *)
Lemma pointer_words buf l p : get_words buf p (length l) = Ok l ->
  forall k v, l !! k = Some v -> get32 buf (p + 4 * Z.of_nat k) = Ok v.
Proof.
  revert p. induction l as [|x l IH]; intros p E k v Hk; [discriminate|]. cbn [length get_words] in E.
  destruct (get32 buf p) as [y|] eqn:Ey; [|discriminate]. cbn [obind] in E.
  destruct (get_words buf (p + 4) (length l)) as [l'|] eqn:El; [|discriminate]. injection E as -> ->.
  destruct k as [|k]; cbn in Hk.
  - rewrite Z.add_0_r. congruence.
  - replace (p + 4 * Z.of_nat (S k)) with (p + 4 + 4 * Z.of_nat k) by lia. now apply IH.
Qed.

(** The blocks of a file, as [kfs_free_inode_blocks] goes through them. *)
Lemma owned_lists sb s i l :
  kfs_ok sb s -> file_ok sb s i -> (in_indirect i <> 0 -> get_words (sec s (in_indirect i)) 0 128 = Ok l) -> length l = 128%nat ->
  forall b, owned s i b <->
    (b <> 0 /\ In b (in_direct i)) \/ (in_indirect i <> 0 /\ ((b <> 0 /\ In b l) \/ b = in_indirect i)).
Proof.
  intros K [I B] Hl Hlen b. pose proof (io_direct_len i I) as Hd.
  assert (Hdir : forall k, 0 <= k < 10 -> znth (in_direct i) k = Some (bmap s i k)).
  { intros k Hk. destruct (znth_is_Some (in_direct i) k) as [v E]; [unfold zlen; lia|]. unfold bmap.
    destruct (Z.ltb_spec k 10); [|lia]. now rewrite E. }
  assert (Hind : in_indirect i <> 0 -> forall k v, l !! k = Some v -> bmap s i (10 + Z.of_nat k) = v).
  { intros Hn k v E. pose proof (lookup_lt_Some _ _ _ E). unfold bmap. destruct (Z.ltb_spec (10 + Z.of_nat k) 10); [lia|].
    destruct (Z.eqb_spec (in_indirect i) 0); [lia|]. replace (10 + Z.of_nat k - 10) with (Z.of_nat k) by lia.
    rewrite <- Hlen in Hl. pose proof (pointer_words _ _ _ (Hl Hn) k v E) as E'. rewrite Z.add_0_l in E'. now rewrite E'. }
  rewrite <- !list_elem_of_In. split.
  - intros [Hb [->|(k & Hk & E)]]; [auto|]. unfold MAX_BLOCKS in Hk. destruct (Z.lt_ge_cases k 10).
    + left. split; [exact Hb|]. specialize (Hdir k ltac:(lia)). unfold znth in Hdir.
      destruct (Z.leb_spec 0 k); [|lia]. rewrite E in Hdir. now apply list_elem_of_lookup_2 in Hdir.
    + assert (Hn : in_indirect i <> 0)
        by (intros E0; unfold bmap in E; rewrite E0 in E; destruct (Z.ltb_spec k 10); [lia|]; cbn in E; congruence).
      right. split; [exact Hn|]. left. split; [exact Hb|]. destruct (lookup_lt_is_Some_2 l (Z.to_nat (k - 10))) as [v Ev]; [lia|].
      pose proof (Hind Hn _ _ Ev) as E'. replace (10 + Z.of_nat (Z.to_nat (k - 10))) with k in E' by lia.
      rewrite E in E'. subst v. now apply list_elem_of_lookup_2 in Ev.
  - intros [[Hb Hin]|[Hn [[Hb Hin]|Hb]]].
    + apply list_elem_of_lookup in Hin as [k Ek]. pose proof (lookup_lt_Some _ _ _ Ek). split; [exact Hb|]. right.
      exists (Z.of_nat k). split; [unfold MAX_BLOCKS; lia|]. specialize (Hdir (Z.of_nat k) ltac:(lia)).
      unfold znth in Hdir. destruct (Z.leb_spec 0 (Z.of_nat k)); [|lia]. rewrite Nat2Z.id in Hdir. congruence.
    + apply list_elem_of_lookup in Hin as [k Ek]. pose proof (lookup_lt_Some _ _ _ Ek). split; [exact Hb|]. right.
      exists (10 + Z.of_nat k). split; [unfold MAX_BLOCKS; lia|]. now apply Hind.
    + subst b. split; auto.
Qed.

Definition no_blocks (i : kfs_inode) : kfs_inode :=
  mkInode (in_size i) (in_type i) (replicate 10 0) 0 (in_link_count i) (in_pad i).

Lemma no_blocks_bmap s i k : 0 <= k -> bmap s (no_blocks i) k = 0.
Proof.
  intros Hk. unfold bmap. cbn [no_blocks in_direct in_indirect]. destruct (Z.ltb_spec k 10); [|reflexivity].
  now rewrite znth_replicate by lia.
Qed.

Lemma owned_range sb s i b : kfs_ok sb s -> file_ok sb s i -> owned s i b -> sb_data_blocks_start sb <= b < sb_total_blocks sb.
Proof. intros K F Hb. apply (owned_used sb s i b K F Hb). Qed.

(** [kfs_free_inode_blocks] frees the blocks of the file and no others. *)
Lemma free_inode_blocks_spec sb s i :
  kfs_ok sb s -> file_ok sb s i ->
  exists s', kfs_free_inode_blocks i s = Ok (inr (no_blocks i), s') /\ freed sb s s' (owned s i).
Proof.
  intros K F. pose proof (ok_geo _ _ K) as []. unfold kfs_free_inode_blocks.
  assert (Hl : exists l, (in_indirect i <> 0 -> get_words (sec s (in_indirect i)) 0 128 = Ok l) /\ length l = 128%nat).
  { destruct (Z.eq_dec (in_indirect i) 0) as [E|Hn]; [exists (replicate 128 0); now rewrite length_replicate|].
    destruct (bo_ind _ _ _ _ (proj2 F) Hn) as [Hr _]. destruct (sec_ok s (in_indirect i)) as [Hlen Hby]; [lia|].
    destruct (get_words_ok (sec s (in_indirect i)) 0 128) as (l & E & El & _); auto; [lia|unfold zlen; lia|]. eauto. }
  destruct Hl as (l & Hl & Hlen). pose proof (owned_lists sb s i l K F Hl Hlen) as Hown.
  assert (Hrange : forall b, owned s i b -> sb_data_blocks_start sb <= b < sb_total_blocks sb) by eauto using owned_range.
  destruct (free_words_spec sb (in_direct i) s K) as (s1 & E1 & F1); [intros b Hb Hn; apply Hrange, Hown; auto|].
  rewrite (run_sbind _ _ _ _ _ E1). cbn [in_indirect in_size in_type in_link_count in_pad]. cbn zeta.
  destruct (Z.eqb_spec (in_indirect i) 0) as [E0|Hn]; cbn [negb].
  { exists s1. unfold no_blocks. rewrite E0. split; [reflexivity|]. eapply freed_ext; [|exact F1].
    intros j. rewrite Hown. tauto. }
  assert (Hir : sb_data_blocks_start sb <= in_indirect i < sb_total_blocks sb) by (apply Hrange, Hown; auto).
  assert (K1 : kfs_ok sb s1) by apply F1.
  assert (Er : read_sectors (in_indirect i) 1 s1 = Ok ((0, sec s1 (in_indirect i)), s1))
    by (apply read_sectors_ok; rewrite (sr_count _ _ _ (fr_rest _ _ _ _ F1)); lia).
  rewrite (run_sbind _ _ _ _ _ Er). cbn [fst snd Z.eqb]. rewrite (fr_sec _ _ _ _ F1) by lia.
  destruct (free_words_spec sb l s1 K1) as (s2 & E2 & F2); [intros b Hb Hnb; apply Hrange, Hown; auto|].
  erewrite run_sbind by (rewrite (run_local _ _ _ _ (Hl Hn)), (run_sbind _ _ _ _ _ E2); reflexivity).
  destruct (free_one sb s2 (in_indirect i)) as (s3 & E3 & F3); [apply F2|lia|].
  rewrite (run_sbind _ _ _ _ _ E3). exists s3. split; [reflexivity|].
  eapply freed_ext; [|exact (freed_trans _ _ _ _ _ _ (freed_trans _ _ _ _ _ _ F1 F2) F3)].
  intros j. cbn beta. rewrite Hown. tauto.
Qed.

(** The file after a truncation: no blocks, size 0. *)
Definition truncated (i : kfs_inode) : kfs_inode := with_isize (no_blocks i) 0.

Lemma truncate_spec sb s vn i :
  fs_ok sb s -> live sb s (fs_private vn) -> inode_at sb s (fs_private vn) = Ok i ->
  exists s', kfs_vnode_truncate vn s = Ok (inr tt, s') /\ updated sb s s' (fs_private vn) (truncated i) /\
    forall b, used s' b = true <-> used s b = true /\ ~ owned s i b.
Proof.
  intros Fs Hl Ei. pose proof (fs_kfs _ _ Fs) as K. pose proof (fs_file _ _ Fs _ _ Hl Ei) as F.
  pose proof (ok_geo _ _ K) as []. pose proof Hl as [Hino Hbit]. unfold kfs_vnode_truncate.
  rewrite (u32_id (fs_private vn)) by lia. cbn zeta.
  destruct (read_inode_spec sb s _ K Hino) as (i0 & Ei0 & _ & Er). rewrite Ei in Ei0. injection Ei0 as <-.
  rewrite Hbit in Er. rewrite (run_bind _ _ _ _ _ Er).
  destruct (free_inode_blocks_spec sb s i K F) as (s1 & E1 & Fr). rewrite (run_bind _ _ _ _ _ E1).
  pose proof (fr_rest _ _ _ _ Fr) as R.
  assert (It : inode_ok (truncated i)).
  { destruct F as [[] _]. constructor; auto; cbn; [unfold word; lia| |unfold word; lia].
    repeat (constructor; [unfold word; lia|]). constructor. }
  destruct (write_inode_spec sb s1 (fs_private vn) (truncated i)) as (dv & Ew & Kd & Hc & Eino & Eoth & Hdata);
    [apply R|exact Hino|exact It|].
  exists (with_dev s1 dv). split; [exact Ew|]. split; [|apply (fr_used _ _ _ _ Fr)].
  assert (Hb0 : forall k, 0 <= k -> bmap (with_dev s1 dv) (truncated i) k = 0)
    by exact (no_blocks_bmap (with_dev s1 dv) i).
  apply (file_replaced sb s _ _ i); auto; try apply R.
  - intros ino' Hi' Hne. rewrite Eoth by assumption. unfold inode_at. rewrite (fr_sec _ _ _ _ Fr); [reflexivity|].
    destruct (table_sector sb s ino' K Hi') as (_ & _ & Ht). lia.
  - split; [exact It|]. constructor; [intros k Hk|done|intros k k' Hk _|intros k Hk]; rewrite Hb0 by lia; done.
  - intros b [Hn [E|(k & Hk & E)]]; [cbn in E; congruence|]. rewrite Hb0 in E by lia. congruence.
  - intros j Hj Hu Hno. split; [now apply (fr_used _ _ _ _ Fr)|]. unfold sec. cbn [with_dev k_dev]. rewrite Hdata by exact Hj.
    apply (fr_sec _ _ _ _ Fr). lia.
Qed.

End Files.
