(* ===== verification/KfsCheck.v ===== *)
(** * A consistency checker for KFS and a disk in memory

    [fsck] decides the invariant [fs_ok] of [KfsFiles] on a file system; it is
    proved sound and used to show that concrete file systems satisfy the
    hypotheses of the theorems.  [ram] is a block device kept in memory and
    [bump] an allocator that only counts up in a megabyte of memory; [image] is a small file system with
    a root directory and one empty file. *)

From S2P Require Import Prelude Bitmap Interfaces CString Kfs KfsProofs KfsFiles.

#[export] Instance kfs_superblock_eq_dec : EqDecision kfs_superblock.
Proof. solve_decision. Defined.

(** ** The checker *)
Section Check.
Context {D A : Type} `{BlockDeviceLaws D} `{KernelAlloc A}.
Implicit Types s : kfs D A.

Definition owned_list s (i : kfs_inode) : list Z :=
  List.filter (fun b => negb (b =? 0)) (in_indirect i :: (bmap s i <$> seqZ 0 MAX_BLOCKS)).

Definition blocks_of (sb : kfs_superblock) s (ino : Z) : list Z :=
  if bm_bit (k_inode_bitmap s) ino then
    match inode_at sb s ino with Ok i => owned_list s i | Stop _ => [] end
  else [].

(** All blocks of all files. *)
Definition all_blocks (sb : kfs_superblock) s : list Z :=
  concat (blocks_of sb s <$> seqZ 0 (sb_inode_count sb)).

Definition geometryb (sb : kfs_superblock) (count : Z) : bool :=
  (sb_magic sb =? KFS_MAGIC) && (0 <=? sb_block_bitmap_start sb) && (0 <? sb_block_bitmap_blks sb) &&
  (0 <? sb_inode_bitmap_blks sb) &&
  (sb_block_bitmap_start sb + sb_block_bitmap_blks sb <=? sb_inode_bitmap_start sb) &&
  (sb_inode_bitmap_start sb + sb_inode_bitmap_blks sb <=? sb_inode_table_start sb) &&
  (sb_inode_table_start sb + sb_inode_table_blks sb <=? sb_data_blocks_start sb) &&
  (sb_data_blocks_start sb <=? sb_total_blocks sb) && (0 <? sb_data_blocks_start sb) &&
  (sb_total_blocks sb <=? count) && (count <=? 2 ^ 28) &&
  (sb_total_blocks sb <=? 8 * 512 * sb_block_bitmap_blks sb) &&
  (sb_inode_count sb <=? 8 * 512 * sb_inode_bitmap_blks sb) &&
  (0 <? sb_inode_count sb) && (sb_inode_count sb <=? 8 * sb_inode_table_blks sb) &&
  (0 <=? sb_root_inode sb) && (sb_root_inode sb <? sb_inode_count sb).

Definition byteb (v : Z) : bool := (0 <=? v) && (v <? 2 ^ 8).

Definition cachedb s (bm : list Z) (start blks : Z) : bool :=
  (zlen bm =? 512 * blks) && forallb byteb bm &&
  forallb (fun i => bool_decide (sec s (start + i) = slice bm (512 * i) 512)) (seqZ 0 blks).

Definition fsck (sb : kfs_superblock) s : bool :=
  bool_decide (k_sb s = Some sb) && geometryb sb (bd_count (k_dev s)) &&
  cachedb s (k_block_bitmap s) (sb_block_bitmap_start sb) (sb_block_bitmap_blks sb) &&
  cachedb s (k_inode_bitmap s) (sb_inode_bitmap_start sb) (sb_inode_bitmap_blks sb) &&
  forallb (fun b => (sb_data_blocks_start sb <=? b) && (b <? sb_total_blocks sb) && used s b) (all_blocks sb s) &&
  bool_decide (NoDup (all_blocks sb s)).

Lemma geometryb_sound sb count : geometryb sb count = true -> geometry sb count.
Proof. unfold geometryb. intros E. reflect_bools. constructor; try assumption; lia. Qed.

Lemma byteb_sound l : forallb byteb l = true -> Forall byte l.
Proof.
  intros E. apply Forall_forall. intros x Hx. rewrite forallb_forall in E.
  specialize (E x Hx). unfold byteb in E. reflect_bools. unfold byte. lia.
Qed.

Lemma cachedb_sound s bm start blks : cachedb s bm start blks = true -> cached s bm start blks.
Proof.
  unfold cachedb. intros E. apply andb_true_iff in E as [E E3]. apply andb_true_iff in E as [E1 E2].
  split; [lia|]. split; [now apply byteb_sound|]. intros i Hi. rewrite forallb_forall in E3.
  specialize (E3 i). apply bool_decide_eq_true in E3; [exact E3|]. apply list_elem_of_In, elem_of_seqZ. lia.
Qed.

Lemma owned_list_spec s i b : In b (owned_list s i) <-> owned s i b.
Proof.
  unfold owned_list, owned. rewrite filter_In. cbn [In]. rewrite <- list_elem_of_In, list_elem_of_fmap. split.
  - intros [[->|(k & -> & Hk)] Hn]; apply negb_true_iff, Z.eqb_neq in Hn; (split; [exact Hn|]); auto.
    apply elem_of_seqZ in Hk. right. exists k. split; [lia|reflexivity].
  - intros [Hn [->|(k & Hk & <-)]]; (split; [|now apply negb_true_iff, Z.eqb_neq]); auto.
    right. exists k. split; [reflexivity|]. apply elem_of_seqZ. lia.
Qed.

(** In a list without duplicates among its non-zero values, a non-zero value has
    one position. *)
Lemma filter_inj (f : Z -> Z) l k k' :
  NoDup (List.filter (fun b => negb (b =? 0)) (f <$> l)) -> In k l -> In k' l -> f k <> 0 -> f k = f k' -> k = k'.
Proof.
  assert (Hin : forall l k, In k l -> f k <> 0 -> f k ∈ List.filter (fun b => negb (b =? 0)) (f <$> l)).
  { clear. intros l k Hk Hn. apply list_elem_of_In, filter_In. split; [|now apply negb_true_iff, Z.eqb_neq].
    apply list_elem_of_In, list_elem_of_fmap. exists k. split; [reflexivity|now apply list_elem_of_In]. }
  induction l as [|x l IH]; cbn [fmap list_fmap List.filter In]; [tauto|]. intros ND Hk Hk' Hn E.
  destruct (Z.eqb_spec (f x) 0) as [E0|Hx]; cbn [negb] in ND.
  - destruct Hk as [<-|Hk]; [congruence|]. destruct Hk' as [<-|Hk']; [congruence|]. auto.
  - apply list.NoDup_cons in ND as [Hnot ND]. destruct Hk as [<-|Hk], Hk' as [<-|Hk']; auto; destruct Hnot.
    + rewrite E. apply Hin; congruence.
    + rewrite <- E. apply Hin; congruence.
Qed.

Lemma NoDup_concat_inv (f : Z -> list Z) l :
  NoDup (concat (f <$> l)) ->
  (forall i, In i l -> NoDup (f i)) /\
  (forall i j x, In i l -> In j l -> i <> j -> In x (f i) -> ~ In x (f j)).
Proof.
  induction l as [|a l IH]; cbn [fmap list_fmap concat In]; intros ND; [split; tauto|].
  apply list.NoDup_app in ND as (N1 & N2 & N3). destruct (IH N3) as [IH1 IH2].
  assert (Hcross : forall j x, In j l -> In x (f a) -> ~ In x (f j)).
  { intros j x Hj Ha Hx. apply (N2 x); [now apply list_elem_of_In|]. apply elem_of_concat_map. exists j.
    split; now apply list_elem_of_In. }
  split; [intros i [<-|Hi]; auto|]. intros i j x [<-|Hi] [<-|Hj] Hne Hx Hx'.
  - now apply Hne.
  - exact (Hcross j x Hj Hx Hx').
  - exact (Hcross i x Hi Hx' Hx).
  - exact (IH2 i j x Hi Hj Hne Hx Hx').
Qed.

Lemma nonzero_cons x l :
  NoDup (List.filter (fun b => negb (b =? 0)) (x :: l)) ->
  NoDup (List.filter (fun b => negb (b =? 0)) l) /\ (forall b, b <> 0 -> In b l -> b <> x).
Proof.
  cbn [List.filter]. destruct (Z.eqb_spec x 0) as [->|Hn]; cbn [negb]; intros ND; [auto|].
  apply list.NoDup_cons in ND as [Hnot ND]. split; [exact ND|]. intros b Hb Hin ->.
  apply Hnot, list_elem_of_In, filter_In. split; [exact Hin|]. now apply negb_true_iff, Z.eqb_neq.
Qed.

Lemma check_file sb s i :
  inode_ok i -> (forall b, In b (owned_list s i) -> data_block sb s b) -> NoDup (owned_list s i) -> file_ok sb s i.
Proof.
  intros I Hd ND. split; [exact I|].
  assert (Hin : forall k, 0 <= k < MAX_BLOCKS -> In k (seqZ 0 MAX_BLOCKS))
    by (intros k Hk; apply list_elem_of_In, elem_of_seqZ; lia).
  destruct (nonzero_cons _ _ ND) as [ND' Hsep]. constructor.
  - intros k Hk Hn. apply Hd, owned_list_spec. split; eauto.
  - intros Hn. apply Hd, owned_list_spec. split; auto.
  - intros k k' Hk Hk' Hn E. apply (filter_inj (bmap s i) (seqZ 0 MAX_BLOCKS)); auto.
  - intros k Hk Hn. apply Hsep; [exact Hn|].
    apply list_elem_of_In, list_elem_of_fmap. exists k. split; [reflexivity|]. now apply list_elem_of_In, Hin.
Qed.

(** The checker accepts only consistent file systems. *)
Lemma fsck_sound sb s : fsck sb s = true -> fs_ok sb s.
Proof.
  unfold fsck. intros E. repeat rewrite andb_true_iff in E. destruct E as (((((E1 & E2) & E3) & E4) & E5) & E6).
  apply bool_decide_eq_true in E1. apply bool_decide_eq_true in E6.
  assert (K : kfs_ok sb s) by (constructor; auto using geometryb_sound, cachedb_sound).
  destruct (NoDup_concat_inv _ _ E6) as [ND Hdis].
  assert (Hblocks : forall ino i, live sb s ino -> inode_at sb s ino = Ok i ->
    In ino (seqZ 0 (sb_inode_count sb)) /\ blocks_of sb s ino = owned_list s i).
  { intros ino i [Hr Hb] Ei. split; [apply list_elem_of_In, elem_of_seqZ; lia|]. unfold blocks_of. now rewrite Hb, Ei. }
  constructor; [exact K| |].
  - intros ino i Hl Ei. destruct (Hblocks ino i Hl Ei) as [Hin Eb].
    destruct (read_inode_spec sb s ino K (proj1 Hl)) as (i0 & Ei0 & I & _). rewrite Ei in Ei0. injection Ei0 as <-.
    apply check_file; [exact I| |rewrite <- Eb; now apply ND].
    intros b Hb. rewrite forallb_forall in E5. assert (Ha : In b (all_blocks sb s)).
    { apply list_elem_of_In, elem_of_concat_map. exists ino. rewrite Eb. split; now apply list_elem_of_In. }
    specialize (E5 b Ha). apply andb_true_iff in E5 as [E5 Hu]. split; [reflect_bools; lia|exact Hu].
  - intros a ia c ic b Ha Hc Hne Ea Ec Hb Hb'. destruct (Hblocks a ia Ha Ea) as [Ha1 Ha2].
    destruct (Hblocks c ic Hc Ec) as [Hc1 Hc2]. apply (Hdis a c b Ha1 Hc1 Hne).
    + rewrite Ha2. now apply owned_list_spec.
    + rewrite Hc2. now apply owned_list_spec.
Qed.

End Check.

(** ** A disk in memory *)
Abbreviation ram := (gmap Z (list Z)).
Definition ram_count : Z := 80.

Definition sector_okb (b : list Z) : bool := (length b =? 512)%nat && forallb byteb b.

(** Sectors never written hold zeroes. *)
Definition ram_sector (d : ram) (i : Z) : list Z :=
  match d !! i with
  | Some b => if sector_okb b then b else zero_buf
  | None => zero_buf
  end.

#[export] Instance ram_device : BlockDevice ram := {
  bd_read lba n d :=
    if (0 <=? lba) && (lba + n <=? ram_count) then (0, concat (ram_sector d <$> seqZ lba n)) else (- EIO, []);
  bd_write lba b d :=
    if (0 <=? lba) && (lba <? ram_count) then (0, <[lba := b]> d) else (- EIO, d);
  bd_sector := ram_sector;
  bd_count _ := ram_count
}.

Lemma ram_sector_ok d i : sector_ok (ram_sector d i).
Proof.
  unfold ram_sector. destruct (d !! i) as [b|]; [|apply zero_buf_ok].
  destruct (sector_okb b) eqn:E; [|apply zero_buf_ok]. unfold sector_okb in E. apply andb_true_iff in E as [E1 E2].
  split; [now apply Nat.eqb_eq|now apply byteb_sound].
Qed.

#[export] Instance ram_laws : BlockDeviceLaws ram.
Proof.
  constructor.
  - intros d i _. apply ram_sector_ok.
  - intros d lba n Hl Hn Hc. cbn in *. destruct (Z.leb_spec 0 lba), (Z.leb_spec (lba + n) ram_count); try lia. reflexivity.
  - intros d lba b Hl Hb1 Hb2. cbn in *. destruct (Z.leb_spec 0 lba), (Z.ltb_spec lba ram_count); try lia.
    eexists. split; [reflexivity|]. split; [reflexivity|]. intros i. unfold ram_sector.
    destruct (Z.eqb_spec i lba) as [->|Hn]; [|now rewrite lookup_insert_ne by congruence].
    rewrite lookup_insert_eq. assert (E : sector_okb b = true); [|now rewrite E].
    unfold sector_okb. rewrite Hb1. cbn. apply forallb_forall. intros x Hx. rewrite Forall_forall in Hb2.
    specialize (Hb2 x). unfold byteb. apply andb_true_iff. rewrite Z.leb_le, Z.ltb_lt. apply Hb2.
    first [exact Hx | now apply list_elem_of_In].
Qed.

(** An allocator that hands out the megabyte from 4096 on and never reuses memory,
    with a note of the requests it refused. *)
Definition arena : Type := Z.
#[export] Instance arena_alloc : KernelAlloc arena := {
  ka_alloc n a := if (n =? 0) || (2 ^ 20 <? a + n) then (0, a) else (a, a + n);
  ka_free _ a := a
}.

#[export] Instance arena_laws : KernelAllocLaws arena.
Proof. constructor. reflexivity. Qed.

Definition bump : Type := logged arena.
#[export] Instance bump_alloc : KernelAlloc bump := logged_alloc.
#[export] Instance bump_laws : KernelAllocLaws bump := logged_laws.
#[export] Instance bump_log : RefusalLog bump := logged_log.
#[export] Instance bump_log_laws : RefusalLogLaws bump := logged_log_laws.

Definition free_memory : bump := (4096, false).

(** ** A small file system: inode 1 is the root directory, inode 2 an empty file
    "a" in it. *)
Definition image_sb : kfs_superblock := mkSb KFS_MAGIC 80 8 65 1 66 1 67 1 68 1.

Definition pad_sector (l : list Z) : list Z := l ++ replicate (512 - length l) 0.

Definition image_root : kfs_inode := mkInode 12 KFS_TYPE_DIR (68 :: replicate 9 0) 0 2 [0; 0].
Definition image_file : kfs_inode := mkInode 0 KFS_TYPE_FILE (replicate 10 0) 0 1 [0; 0].

Definition image_disk : ram :=
  list_to_map
    [(65, pad_sector (replicate 8 255 ++ [31]));
     (66, pad_sector [7]);
     (67, pad_sector (encode_inode zero_inode ++ encode_inode image_root ++ encode_inode image_file));
     (68, pad_sector (encode_dirent 2 12 KFS_TYPE_FILE (str [97])))].

Definition image : kfs ram bump :=
  mkKfs (Some image_sb) (pad_sector (replicate 8 255 ++ [31])) (pad_sector [7]) image_disk free_memory
    (Some (mkVnode 1 VNODE_TYPE_DIR)).

Lemma image_ok : fs_ok image_sb image.
Proof. apply fsck_sound. vm_compute. reflexivity. Qed.
