(* ===== verification/KfsDirs.v ===== *)
(** * KFS: directories

    A directory is a file whose content is a sequence of entries.  [dir_ok] says
    that it holds a list of well-formed entries; on such a directory
    [kfs_vnode_lookup] finds the first entry of a name and
    [kfs_vnode_create] appends an entry for a fresh, empty inode. *)

From S2P Require Import Prelude Bitmap Interfaces CString Kfs KfsProofs KfsFiles.

Section Inodes.
Context {D A : Type} `{BlockDeviceLaws D} `{KernelAlloc A}.
Implicit Types s : kfs D A.

(** ** Allocating inodes *)
Lemma inode_bitmap_spec sb s i v :
  kfs_ok sb s -> 0 <= i < sb_inode_count sb -> byte v ->
  let bm := zset (k_inode_bitmap s) (i / 8) v in
  exists s', (do! _ <- set_inode_bitmap bm; write_bitmap_sector (sb_inode_bitmap_start sb) bm i)%kfs s = Ok (inr tt, s') /\
    kfs_ok sb s' /\ k_inode_bitmap s' = bm /\ k_block_bitmap s' = k_block_bitmap s /\
    k_heap s' = k_heap s /\ k_root s' = k_root s /\ bd_count (k_dev s') = bd_count (k_dev s) /\
    forall j, sb_inode_table_start sb <= j -> sec s' j = sec s j.
Proof.
  intros [K1 K2 K3 K4] Hi Hv bm. pose proof K2 as [].
  set (s1 := mkKfs (k_sb s) (k_block_bitmap s) bm (k_dev s) (k_heap s) (k_root s)).
  destruct (write_bitmap_spec s (k_inode_bitmap s) (sb_inode_bitmap_start sb) (sb_inode_bitmap_blks sb) i v K4)
    as (d & E & Hc & Hb & Hd); auto; try lia.
  exists (with_dev s1 d). rewrite (run_sbind (set_inode_bitmap bm) _ s tt s1 eq_refl).
  assert (E1 : write_bitmap_sector (sb_inode_bitmap_start sb) bm i s1 = Ok (inr tt, with_dev s1 d)).
  { revert E. unfold write_bitmap_sector, dev_write, sbind, write_sectors. cbn. fold bm.
    destruct (bd_write _ _ _) as [c d']. cbn. destruct (c <? 0); cbn; [discriminate|]. now intros [= ->]. }
  split; [exact E1|]. split; [|repeat split; auto; intros j Hj; apply Hd; lia].
  constructor; cbn; [exact K1|now rewrite Hc| |exact Hb].
  destruct K3 as (C1 & C2 & C3). split; [exact C1|]. split; [exact C2|]. intros j Hj.
  unfold sec. cbn. rewrite Hd by lia. now apply C3.
Qed.

Definition first_free_inode (sb : kfs_superblock) s : option Z :=
  firstZ (fun j => negb (bm_bit (k_inode_bitmap s) j)) 1 (Z.to_nat (sb_inode_count sb - 1)).

Definition fresh_inode (type : Z) : kfs_inode := with_links (with_itype zero_inode type) 1.

(** [s'] is [s] with the inode [ino] allocated for an empty file of [type]. *)
Record inode_allocated (sb : kfs_superblock) s s' (ino type : Z) : Prop := {
  ia_range : 1 <= ino < sb_inode_count sb;
  ia_free : bm_bit (k_inode_bitmap s) ino = false;
  ia_kfs : kfs_ok sb s';
  ia_bits j : bm_bit (k_inode_bitmap s') j = if j =? ino then true else bm_bit (k_inode_bitmap s) j;
  ia_blocks : k_block_bitmap s' = k_block_bitmap s;
  ia_heap : k_heap s' = k_heap s;
  ia_root : k_root s' = k_root s;
  ia_inode : inode_at sb s' ino = Ok (fresh_inode type);
  ia_others ino' : 0 <= ino' < sb_inode_count sb -> ino' <> ino -> inode_at sb s' ino' = inode_at sb s ino';
  ia_sec j : sb_data_blocks_start sb <= j -> sec s' j = sec s j
}.

Lemma fresh_inode_ok type : word type -> inode_ok (fresh_inode type).
Proof.
  intros Ht. constructor; cbn; auto; unfold word; try lia; repeat (constructor; [unfold word; lia|]); constructor.
Qed.

Lemma alloc_inode_spec sb s type :
  kfs_ok sb s -> word type ->
  match first_free_inode sb s with
  | None => kfs_alloc_inode type s = Ok (inl (- ENOSPC), s)
  | Some ino => exists s', kfs_alloc_inode type s = Ok (inr ino, s') /\ inode_allocated sb s s' ino type
  end.
Proof.
  intros K Ht. pose proof K as [K1 K2 K3 (K4 & _)]. pose proof K2 as [].
  unfold kfs_alloc_inode. rewrite (run_sb sb _ s K1).
  rewrite (run_sbind the_inode_bitmap _ _ _ s eq_refl).
  rewrite (run_local _ _ s (first_free_inode sb s)) by (apply find_clear_spec; lia).
  destruct (first_free_inode sb s) as [b|] eqn:Ef; [|reflexivity].
  apply firstZ_Some in Ef as (Hb & Hfree & _). apply negb_true_iff in Hfree.
  assert (Hr : 1 <= b < sb_inode_count sb) by lia.
  destruct (bm_set_spec (k_inode_bitmap s) _ eq_refl b) as (bm' & Eb & _ & Hbits & _); [lia|].
  destruct (bm_set_zset _ _ _ Eb) as (v & Hv & ->).
  rewrite (run_local _ _ s (zset (k_inode_bitmap s) (b / 8) v)) by now rewrite Eb.
  destruct (inode_bitmap_spec sb s b v K ltac:(lia) Hv) as (s1 & E1 & Kc1 & B1 & B2 & B3 & B4 & B5 & S1).
  destruct (write_inode_spec sb s1 b (fresh_inode type)) as (d & E2 & Kd & Hc & Eino & Eoth & Hdata);
    [exact Kc1|lia|now apply fresh_inode_ok|].
  exists (with_dev s1 d). split.
  - unfold sbind in E1 |- *. cbn [set_inode_bitmap] in E1 |- *. rewrite (run_bind _ _ _ _ _ E1).
    fold (fresh_inode type). rewrite (run_bind _ _ _ _ _ E2). reflexivity.
  - constructor; auto.
    + intros j. cbn. rewrite B1. apply Hbits.
    + intros ino' Hi Hne. rewrite Eoth by assumption. unfold inode_at.
      destruct (table_sector sb s ino' K Hi) as (_ & _ & Htab). now rewrite S1 by lia.
    + intros j Hj. unfold sec at 1. cbn. rewrite Hdata by exact Hj. apply S1. lia.
Qed.

(** The fresh inode has no blocks, so the invariant holds with it. *)
Lemma fresh_bmap s type k : 0 <= k -> bmap s (fresh_inode type) k = 0.
Proof.
  intros Hk. unfold bmap. cbn [fresh_inode with_links with_itype zero_inode in_direct in_indirect].
  destruct (Z.ltb_spec k 10); [|reflexivity]. now rewrite znth_replicate by lia.
Qed.

Lemma fresh_owned s type b : ~ owned s (fresh_inode type) b.
Proof.
  intros [Hn [E|(k & Hk & E)]]; [cbn in E; congruence|]. rewrite fresh_bmap in E by lia. congruence.
Qed.

Lemma inode_allocated_fs sb s s' ino type :
  fs_ok sb s -> word type -> inode_allocated sb s s' ino type ->
  fs_ok sb s' /\
  forall i, file_ok sb s i -> file_ok sb s' i /\ (forall k, 0 <= k < MAX_BLOCKS -> bmap s' i k = bmap s i k) /\
    (forall p, 0 <= p < MAX_FILE -> content s' i p = content s i p).
Proof.
  intros Fs Ht [Hr Hfree K' Hbits Hblk Hh Hroot Ei Eoth Hsec]. pose proof (fs_kfs _ _ Fs) as K.
  assert (Hkeep : forall i, file_ok sb s i -> file_ok sb s' i /\ (forall k, 0 <= k < MAX_BLOCKS -> bmap s' i k = bmap s i k) /\
    (forall p, 0 <= p < MAX_FILE -> content s' i p = content s i p)).
  { intros i F. destruct (file_frame sb s s' i K F) as [Hm Hc].
    { intros b Hb. apply Hsec. apply (owned_range sb s i b K F Hb). }
    split; [|auto]. destruct F as [I B]. split; [exact I|]. apply (blocks_ok_mono sb s s' (bmap s i)); auto.
    intros j. unfold used. now rewrite Hblk. }
  assert (Hold : forall x, live sb s' x -> x <> ino -> live sb s x /\ inode_at sb s' x = inode_at sb s x).
  { intros x [Hx Hb] Hne. rewrite Hbits in Hb. destruct (Z.eqb_spec x ino); [congruence|]. split; [split; auto|auto]. }
  split; [|exact Hkeep]. constructor; [exact K'| |].
  - intros x i Hl Ex. destruct (Z.eq_dec x ino) as [->|Hne].
    + rewrite Ei in Ex. injection Ex as <-. split; [now apply fresh_inode_ok|].
      constructor; [intros k Hk|done|intros k k' Hk _|intros k Hk]; rewrite fresh_bmap by lia; done.
    + destruct (Hold x Hl Hne) as [Hl0 E0]. rewrite E0 in Ex. now apply Hkeep, (fs_file _ _ Fs x).
  - intros a ia c ic b Ha Hc Hne Ea Ec Hb Hb'.
    destruct (Z.eq_dec a ino) as [->|Na]; [rewrite Ei in Ea; injection Ea as <-; now apply fresh_owned in Hb|].
    destruct (Z.eq_dec c ino) as [->|Nc]; [rewrite Ei in Ec; injection Ec as <-; now apply fresh_owned in Hb'|].
    destruct (Hold a Ha Na) as [Ha0 Ea0], (Hold c Hc Nc) as [Hc0 Ec0]. rewrite Ea0 in Ea. rewrite Ec0 in Ec.
    apply (owned_same s s' ia) in Hb; [|now apply Hkeep, (fs_file _ _ Fs a)].
    apply (owned_same s s' ic) in Hb'; [|now apply Hkeep, (fs_file _ _ Fs c)].
    exact (fs_disjoint _ _ Fs _ _ _ _ b Ha0 Hc0 Hne Ea Ec Hb Hb').
Qed.

End Inodes.

(** ** Entries *)
Record entry : Type := mkEntry { e_ino : Z; e_type : Z; e_name : list Z }.

(** The length of the record of a name, rounded up to 4. *)
Definition reclen (name : list Z) : Z := 4 * ((zlen name + 11) / 4).

Definition name_ok (name : list Z) : Prop := Forall (fun c => 1 <= c < 2 ^ 8) name /\ 0 < zlen name <= 255.

Record entry_ok (e : entry) : Prop := {
  eo_ino : word (e_ino e);
  eo_type : byte (e_type e);
  eo_name : name_ok (e_name e)
}.

Definition entry_bytes (e : entry) : list Z :=
  encode_dirent (e_ino e) (reclen (e_name e)) (e_type e) (str (e_name e)).

Definition dir_bytes (es : list entry) : list Z := concat (entry_bytes <$> es).

Lemma reclen_range name : 0 <= zlen name <= 255 -> zlen name + 8 <= reclen name <= zlen name + 11.
Proof. unfold reclen. intros Hn. dlia. Qed.

Lemma reclen_code n : 0 <= n <= 255 -> Z.land (4 + 2 + 1 + n + 1 + 3) (u64 (Z.lnot 3)) = 4 * ((n + 11) / 4).
Proof.
  intros Hn. replace (4 + 2 + 1 + n + 1 + 3) with (n + 11) by lia.
  assert (E : u64 (Z.lnot 3) = Z.ldiff (Z.ones 64) (Z.ones 2)) by reflexivity. rewrite E.
  apply Z.bits_inj'. intros k Hk. rewrite Z.land_spec, Z.ldiff_spec.
  change 4 with (2 ^ 2) at 1. rewrite Z.mul_comm, <- Z.shiftl_mul_pow2 by lia. change 4 with (2 ^ 2).
  rewrite <- Z.shiftr_div_pow2, Z.shiftl_spec by lia.
  destruct (Z.lt_ge_cases k 2) as [Hk2|Hk2].
  - rewrite (Z.testbit_neg_r _ (k - 2)) by lia. rewrite (Z.ones_spec_low 2 k) by lia. now rewrite !andb_false_r.
  - rewrite Z.shiftr_spec by lia. replace (k - 2 + 2) with k by lia. rewrite (Z.ones_spec_high 2 k) by lia.
    destruct (Z.lt_ge_cases k 64); [rewrite Z.ones_spec_low by lia; apply andb_true_r|].
    rewrite (Z.bits_above_log2 (n + 11) k); [reflexivity|lia|].
    apply Z.log2_lt_pow2; [lia|]. apply Z.lt_le_trans with (2 ^ 9); [lia|]. apply Z.pow_le_mono_r; lia.
Qed.

(** The bytes of an entry: the header, the name and the padding. *)
Lemma entry_bytes_eq e :
  entry_ok e -> exists pad, entry_bytes e =
    le32 (e_ino e) ++ le16 (reclen (e_name e)) ++ [e_type e] ++ str (e_name e) ++ pad /\
    zlen (entry_bytes e) = reclen (e_name e) /\ Forall byte (entry_bytes e).
Proof.
  intros [Hi Ht [Hn Hl]]. pose proof (reclen_range (e_name e) ltac:(lia)) as Hr.
  set (src := le32 (e_ino e) ++ le16 (reclen (e_name e)) ++ [u8 (e_type e)] ++ str (e_name e)).
  assert (Hs : zlen src = zlen (e_name e) + 8).
  { unfold src, str. rewrite !zlen_app, le32_len. unfold zlen. cbn. lia. }
  assert (Hu : u8 (e_type e) = e_type e) by (apply u8_id; exact Ht).
  assert (Hb : Forall byte src).
  { unfold src. rewrite Hu. apply Forall_app_2; [apply le32_bytes|]. apply Forall_app_2; [apply le16_bytes|].
    constructor; [exact Ht|]. apply Forall_app_2; [|repeat constructor; unfold byte; lia].
    revert Hn. apply Forall_impl. intros c Hc. unfold byte. lia. }
  set (rl := reclen (e_name e)) in *. set (pad := skipn (length src) (replicate (Z.to_nat rl) 0)).
  assert (E : entry_bytes e = src ++ pad) by reflexivity. exists pad. split; [|split].
  - rewrite E. unfold src. rewrite Hu, <- !app_assoc. reflexivity.
  - rewrite E, zlen_app, Hs. unfold pad, zlen in *. rewrite length_skipn, length_replicate. lia.
  - rewrite E. apply Forall_app_2; [exact Hb|]. apply Forall_drop, Forall_replicate. unfold byte. lia.
Qed.

Lemma get16_at b p v : at_ b p (le16 v) -> 0 <= v < 2 ^ 16 -> get16 b p = Ok v.
Proof.
  intros Ha Hv. unfold get16, load. unfold at_, zlen in Ha.
  pose proof (Ha 0 ltac:(cbn; lia)) as E0. pose proof (Ha 1 ltac:(cbn; lia)) as E1.
  change (znth (le16 v) 0) with (Some (u8 v)) in E0. change (znth (le16 v) 1) with (Some (u8 (v / 2 ^ 8))) in E1.
  rewrite Z.add_0_r in E0. rewrite E0, E1. cbn [of_opt obind]. f_equal. unfold u8. dlia.
Qed.

Lemma cstr_str n rest : Forall (fun c => 1 <= c < 2 ^ 8) n -> cstr (str n ++ rest) = Some n.
Proof.
  unfold str. intros Hn. rewrite <- app_assoc. cbn [app]. apply cstr_app. revert Hn.
  apply Forall_impl. intros c Hc. lia.
Qed.

(** Decoding the entry at its place in the data. *)
Lemma dirent_at_spec pre e post :
  entry_ok e -> exists rest,
    dirent_at (pre ++ entry_bytes e ++ post) (zlen pre) =
      Ok (mkDirent (e_ino e) (reclen (e_name e)) (e_type e) (str (e_name e) ++ rest)).
Proof.
  intros He. destruct (entry_bytes_eq e He) as (pad & E & _). pose proof He as [Hi Ht [Hn Hl]].
  pose proof (reclen_range (e_name e) ltac:(lia)) as Hr. exists (pad ++ post).
  set (data := pre ++ entry_bytes e ++ post). pose proof (zlen_nonneg pre) as Hp.
  assert (Hat : at_ data (zlen pre) (entry_bytes e)).
  { intros k Hk. unfold data. rewrite znth_app by lia. destruct (Z.ltb_spec (zlen pre + k) (zlen pre)); [lia|].
    replace (zlen pre + k - zlen pre) with k by lia. rewrite znth_app by lia.
    destruct (Z.ltb_spec k (zlen (entry_bytes e))); [reflexivity|lia]. }
  rewrite E in Hat. apply at_app in Hat as [A1 Hat]. rewrite le32_len in Hat. apply at_app in Hat as [A2 Hat].
  change (zlen (le16 (reclen (e_name e)))) with 2 in Hat. apply at_app in Hat as [A3 _].
  unfold dirent_at. rewrite (get32_at _ _ _ A1 Hi). cbn [obind]. rewrite (get16_at _ _ _ A2) by lia. cbn [obind].
  specialize (A3 0 ltac:(unfold zlen; cbn; lia)). unfold CString.load. replace (zlen pre + 6) with (zlen pre + 4 + 2 + 0) by lia.
  rewrite A3. cbn [znth Z.leb Z.compare Z.to_nat lookup list_lookup of_opt obind]. do 2 f_equal.
  unfold data. rewrite E. rewrite <- !app_assoc. rewrite skipn_app, skipn_all2 by (unfold zlen; lia). cbn [app].
  replace (Z.to_nat (zlen pre + 7) - length pre)%nat with 7%nat by (unfold zlen; lia). reflexivity.
Qed.

Lemma entry_strcmp e rest name :
  entry_ok e -> name_ok name ->
  exists d, strcmp (str (e_name e) ++ rest) (str name) = Ok d /\ (d = 0 <-> e_name e = name).
Proof.
  intros [_ _ [He _]] [Hn _]. apply strcmp_spec; [now apply cstr_str|]. rewrite <- (app_nil_r (str name)). now apply cstr_str.
Qed.

(** The entry that a scan for [name] finds: the first one of that name. *)
Fixpoint find_entry (es : list entry) (name : list Z) : option (list entry * entry) :=
  match es with
  | [] => None
  | e :: r =>
    if bool_decide (e_name e = name) then Some ([], e)
    else match find_entry r name with Some (before, x) => Some (e :: before, x) | None => None end
  end.

(** The first entry of a name that was not there before. *)
Lemma find_entry_snoc es e : find_entry es (e_name e) = None -> find_entry (es ++ [e]) (e_name e) = Some (es, e).
Proof.
  induction es as [|x es IH]; cbn; intros E; [case_bool_decide; [reflexivity|congruence]|].
  case_bool_decide; [discriminate|]. destruct (find_entry es (e_name e)) as [[]|]; [discriminate|]. now rewrite IH.
Qed.

Lemma dir_bytes_cons e es : dir_bytes (e :: es) = entry_bytes e ++ dir_bytes es.
Proof. reflexivity. Qed.

Lemma dir_bytes_app es es' : dir_bytes (es ++ es') = dir_bytes es ++ dir_bytes es'.
Proof. unfold dir_bytes. now rewrite fmap_app, concat_app. Qed.

Lemma find_dirent_spec name es : name_ok name -> Forall entry_ok es -> forall fuel pre,
  let data := pre ++ dir_bytes es in
  zlen data < 2 ^ 32 -> zlen (dir_bytes es) <= 4 * Z.of_nat fuel ->
  exists r, find_dirent fuel data (zlen data) (str name) (zlen pre) = Ok r /\
    match find_entry es name with
    | None => r = None
    | Some (before, e) => exists rest, r = Some (zlen pre + zlen (dir_bytes before),
        mkDirent (e_ino e) (reclen (e_name e)) (e_type e) rest)
    end.
Proof.
  intros Hname. induction 1 as [|e es He Hes IH]; intros fuel pre data H32 Hfuel.
  - exists None. split; [|reflexivity]. unfold data. cbn. rewrite app_nil_r.
    destruct fuel; cbn [find_dirent]; now rewrite Z.leb_refl.
  - destruct (entry_bytes_eq e He) as (pad & _ & Hlen & _). destruct He as [Hi Ht Hn] eqn:EHe. clear EHe.
    pose proof (reclen_range (e_name e) ltac:(destruct Hn; lia)) as Hr. pose proof (zlen_nonneg (dir_bytes es)) as Hnn.
    assert (Edata : data = pre ++ entry_bytes e ++ dir_bytes es) by reflexivity. clearbody data.
    rewrite dir_bytes_cons, zlen_app in Hfuel. pose proof (zlen_nonneg pre) as Hp. pose proof Hn as [_ Hnl].
    assert (Hz : zlen data = zlen pre + reclen (e_name e) + zlen (dir_bytes es)) by (rewrite Edata, !zlen_app; lia).
    destruct fuel as [|fuel]; [lia|]. cbn [find_dirent]. destruct (Z.leb_spec (zlen data) (zlen pre)); [lia|].
    destruct (dirent_at_spec pre e (dir_bytes es) (Build_entry_ok e Hi Ht Hn)) as [rest Ed]. rewrite <- Edata in Ed. rewrite Ed.
    cbn [obind de_reclen de_name]. destruct (Z.eqb_spec (reclen (e_name e)) 0); [lia|].
    assert (Hm : reclen (e_name e) mod 4 = 0) by (unfold reclen; rewrite Z.mul_comm; now apply Z_mod_mult). rewrite Hm. cbn [orb negb Z.eqb].
    destruct (entry_strcmp e rest name (Build_entry_ok e Hi Ht Hn) Hname) as (d & -> & Hd). cbn [obind find_entry].
    case_bool_decide as En.
    + rewrite (proj2 Hd En). cbn [Z.eqb]. eexists. split; [reflexivity|]. eexists. rewrite Z.add_0_r. reflexivity.
    + destruct (Z.eqb_spec d 0) as [E0|_]; [tauto|]. rewrite u32_id by lia.
      specialize (IH fuel (pre ++ entry_bytes e)). cbn zeta in IH. rewrite <- app_assoc, <- Edata in IH.
      rewrite zlen_app, Hlen in IH. destruct IH as (r & Er & Hres); [exact H32|lia|]. exists r. split; [exact Er|].
      destruct (find_entry es name) as [[before x]|]; [|exact Hres]. destruct Hres as [rest' ->]. exists rest'.
      now rewrite dir_bytes_cons, zlen_app, Hlen, Z.add_assoc.
Qed.

Section Dirs.
Context {D A : Type} `{BlockDeviceLaws D} `{KernelAlloc A}.
Implicit Types s : kfs D A.

(** The directory [ino] holds the entries [es]. *)
Record dir_ok (sb : kfs_superblock) s (ino : Z) (i : kfs_inode) (es : list entry) : Prop := {
  do_live : live sb s ino;
  do_inode : inode_at sb s ino = Ok i;
  do_type : in_type i = KFS_TYPE_DIR;
  do_entries : Forall entry_ok es;
  do_size : in_size i = zlen (dir_bytes es);
  do_max : in_size i <= MAX_FILE;
  do_filled : filled s i 0 (in_size i);
  do_bytes : bytes s i 0 (in_size i) = dir_bytes es
}.

Definition with_heap s (h : A) : kfs D A :=
  mkKfs (k_sb s) (k_block_bitmap s) (k_inode_bitmap s) (k_dev s) h (k_root s).

Lemma fs_ok_heap sb s h : fs_ok sb s -> fs_ok sb (with_heap s h).
Proof.
  intros [[K1 K2 K3 K4] F1 F2]. constructor; [now constructor| |exact F2].
  intros ino i Hl Ei. destruct (F1 ino i Hl Ei) as [I [B1 B2 B3 B4]]. split; [exact I|]. now constructor.
Qed.

Lemma kmalloc_run s n : kmalloc n s = Ok (fst (ka_alloc n (k_heap s)), with_heap s (snd (ka_alloc n (k_heap s)))).
Proof. unfold kmalloc, with_heap. now destruct (ka_alloc n (k_heap s)). Qed.

Lemma new_vnode_run s private type :
  new_vnode private type s =
    Ok (if fst (ka_alloc sizeof_vnode (k_heap s)) =? 0 then inl (- ENOMEM) else inr (mkVnode private type),
        with_heap s (snd (ka_alloc sizeof_vnode (k_heap s)))).
Proof. unfold new_vnode. rewrite (run_sbind _ _ _ _ _ (kmalloc_run s sizeof_vnode)). now destruct (_ =? 0). Qed.

(** [kfs_read_inode] on an inode in use. *)
Lemma read_live sb s ino i :
  kfs_ok sb s -> live sb s ino -> inode_at sb s ino = Ok i -> kfs_read_inode ino s = Ok (inr i, s).
Proof.
  intros K [Hr Hb] Ei. destruct (read_inode_spec sb s ino K Hr) as (i0 & Ei0 & _ & Er).
  rewrite Ei in Ei0. injection Ei0 as <-. now rewrite Hb in Er.
Qed.

Lemma strcmp_str n n' :
  Forall (fun c => 1 <= c < 2 ^ 8) n -> Forall (fun c => 1 <= c < 2 ^ 8) n' ->
  exists d, strcmp (str n) (str n') = Ok d /\ (d = 0 <-> n = n').
Proof.
  intros Hn Hn'. apply strcmp_spec; [rewrite <- (app_nil_r (str n))|rewrite <- (app_nil_r (str n'))]; now apply cstr_str.
Qed.

Lemma read_dir_spec sb s vn i es :
  fs_ok sb s -> dir_ok sb s (fs_private vn) i es -> read_dir vn (in_size i) s = Ok (inr (dir_bytes es), s).
Proof.
  intros Fs [Hl Ei Ht He Hs Hm Hf Hb]. assert (HM : MAX_FILE = 70656) by reflexivity.
  pose proof (zlen_nonneg (dir_bytes es)) as Hnn.
  assert (Er : readable i 0 (in_size i) = in_size i) by (unfold readable; lia). unfold read_dir.
  erewrite run_sbind by (apply (read_spec sb s vn i); rewrite ?Er; eauto using fs_kfs, fs_file; lia).
  rewrite Er. cbn [rr_err rr_data]. now rewrite Hb.
Qed.

(** What a lookup returns: [p] and [q] are the results of its allocations. *)
Definition lookup_result (es : list entry) (name : list Z) (p q : Z) : Z + vnode :=
  if p =? 0 then inl (- ENOMEM)
  else match find_entry es name with
       | None => inl (- ENOENT)
       | Some (_, e) =>
         if q =? 0 then inl (- ENOMEM)
         else inr (mkVnode (e_ino e) (if e_type e =? KFS_TYPE_DIR then VNODE_TYPE_DIR else VNODE_TYPE_FILE))
       end.

(** The heap after it. *)
Definition lookup_heap (es : list entry) (name : list Z) (p : Z) (h1 h2 : A) : A :=
  if p =? 0 then h1
  else match find_entry es name with None => ka_free p h1 | Some _ => ka_free p h2 end.

Lemma lookup_spec sb s vn i es name :
  fs_ok sb s -> dir_ok sb s (fs_private vn) i es -> name_ok name ->
  name <> [46] -> (fs_private vn = sb_root_inode sb -> name <> [46; 46]) ->
  let '(p, h1) := ka_alloc (in_size i) (k_heap s) in
  let '(q, h2) := ka_alloc sizeof_vnode h1 in
  kfs_vnode_lookup vn (str name) s = Ok (lookup_result es name p q, with_heap s (lookup_heap es name p h1 h2)).
Proof.
  intros Fs Hd Hn Hdot Hdd. pose proof Hd as [Hl Ei Ht He Hs Hm Hf Hb]. pose proof (fs_kfs _ _ Fs) as K.
  pose proof (ok_geo _ _ K) as []. assert (HM : MAX_FILE = 70656) by reflexivity.
  pose proof (zlen_nonneg (dir_bytes es)) as Hnn. pose proof (kmalloc_run s (in_size i)) as Em.
  destruct (ka_alloc (in_size i) (k_heap s)) as [p h1] eqn:Ep. destruct (ka_alloc sizeof_vnode h1) as [q h2] eqn:Eq.
  cbn [fst snd] in Em. pose proof Hl as [Hino _]. unfold kfs_vnode_lookup. rewrite (u32_id (fs_private vn)) by lia. cbn zeta.
  rewrite (run_bind _ _ _ _ _ (read_live sb s _ i K Hl Ei)). rewrite Ht. cbn [negb Z.eqb KFS_TYPE_DIR Pos.eqb].
  destruct (strcmp_str name [46]) as (d & Ed & Hd0); [apply Hn|repeat constructor; lia|].
  rewrite (run_local _ _ s d Ed). destruct (Z.eqb_spec d 0) as [E|_]; [tauto|].
  rewrite (run_sb sb _ s (ok_sb _ _ K)).
  assert (Er : exists d, (if fs_private vn =? sb_root_inode sb then strcmp (str name) DOTDOT else Ok 1) = Ok d /\ d <> 0).
  { destruct (Z.eqb_spec (fs_private vn) (sb_root_inode sb)) as [E|]; [|exists 1; split; [reflexivity|lia]].
    destruct (strcmp_str name [46; 46]) as (d' & Ed' & Hd'); [apply Hn|repeat constructor; lia|].
    exists d'. split; [exact Ed'|]. specialize (Hdd E). tauto. }
  destruct Er as (d' & Ed' & Hd'). rewrite (run_local _ _ s d' Ed'). rewrite (proj2 (Z.eqb_neq d' 0) Hd').
  rewrite (run_sbind _ _ _ _ _ Em). unfold lookup_result, lookup_heap.
  destruct (Z.eqb_spec p 0) as [E0|Hp0]; [reflexivity|].
  assert (Hdh : dir_ok sb (with_heap s h1) (fs_private vn) i es) by (constructor; assumption).
  rewrite (run_sbind _ _ _ _ _ (read_dir_spec sb (with_heap s h1) vn i es (fs_ok_heap sb s h1 Fs) Hdh)).
  destruct (find_dirent_spec name es Hn He (scan_fuel (in_size i)) []) as (r & Er & Hr);
    [cbn [app]; lia|unfold scan_fuel; rewrite Nat2Z.inj_succ, Z2Nat.id by dlia; dlia|].
  cbn [app] in Er. rewrite <- Hs in Er. change (zlen []) with 0 in Er. rewrite (run_local _ _ _ _ Er).
  destruct (find_entry es name) as [[before e]|].
  - destruct Hr as [rest ->]. erewrite run_sbind by apply new_vnode_run. cbn [with_heap k_heap de_inode de_type]. rewrite Eq. cbn [fst snd].
    erewrite run_sbind by reflexivity. reflexivity.
  - subst r. erewrite run_sbind by reflexivity. reflexivity.
Qed.

End Dirs.

Section Create.
Context {D A : Type} `{BlockDeviceLaws D} `{KernelAlloc A}.
Implicit Types s : kfs D A.

(** [s'] is [s] with the inode [ino] given back. *)
Record inode_freed (sb : kfs_superblock) s s' (ino : Z) : Prop := {
  if_kfs : kfs_ok sb s';
  if_bits j : bm_bit (k_inode_bitmap s') j = if j =? ino then false else bm_bit (k_inode_bitmap s) j;
  if_blocks : k_block_bitmap s' = k_block_bitmap s;
  if_heap : k_heap s' = k_heap s;
  if_root : k_root s' = k_root s;
  if_sec j : sb_inode_table_start sb <= j -> sec s' j = sec s j
}.

Lemma free_inode_spec sb s ino :
  kfs_ok sb s -> 1 <= ino < sb_inode_count sb ->
  exists s', kfs_free_inode ino s = Ok (inr tt, s') /\ inode_freed sb s s' ino.
Proof.
  intros K Hi. pose proof K as [K1 K2 K3 (K4 & _)]. pose proof K2 as [].
  unfold kfs_free_inode. rewrite (run_sb sb _ s K1).
  destruct (Z.eqb_spec ino 0), (Z.leb_spec (sb_inode_count sb) ino); try lia. cbn [orb].
  rewrite (run_sbind the_inode_bitmap _ _ _ s eq_refl).
  destruct (bm_clear_spec (k_inode_bitmap s) _ eq_refl ino) as (bm' & Eb & _ & Hbits & _); [lia|].
  destruct (bm_clear_zset _ _ _ Eb) as (v & Hv & ->).
  rewrite (run_local _ _ s (zset (k_inode_bitmap s) (ino / 8) v)) by now rewrite Eb.
  destruct (inode_bitmap_spec sb s ino v K ltac:(lia) Hv) as (s1 & E1 & K' & B1 & B2 & B3 & B4 & _ & S1).
  exists s1. split; [exact E1|]. constructor; auto. intros j. rewrite B1. apply Hbits.
Qed.

Lemma inode_freed_fs sb s s' ino :
  fs_ok sb s -> inode_freed sb s s' ino ->
  fs_ok sb s' /\
  (forall x, 0 <= x < sb_inode_count sb -> inode_at sb s' x = inode_at sb s x) /\
  forall x i, live sb s x -> inode_at sb s x = Ok i ->
    forall p, 0 <= p < MAX_FILE -> bmap s' i (p / 512) = bmap s i (p / 512) /\ content s' i p = content s i p.
Proof.
  intros Fs [K' Hbits Hblk Hh Hroot Hsec]. pose proof (fs_kfs _ _ Fs) as K. pose proof (ok_geo _ _ K) as [].
  assert (Ei : forall x, 0 <= x < sb_inode_count sb -> inode_at sb s' x = inode_at sb s x).
  { intros x Hx. unfold inode_at. destruct (table_sector sb s x K Hx) as (_ & _ & Htab). now rewrite Hsec by lia. }
  assert (Hkeep : forall x i, live sb s x -> inode_at sb s x = Ok i -> file_ok sb s' i /\
    (forall k, 0 <= k < MAX_BLOCKS -> bmap s' i k = bmap s i k) /\ (forall p, 0 <= p < MAX_FILE -> content s' i p = content s i p)).
  { intros x i Hl Ex. pose proof (fs_file _ _ Fs x i Hl Ex) as F. destruct (file_frame sb s s' i K F) as [Hm Hc].
    { intros b Hb. apply Hsec. pose proof (owned_range sb s i b K F Hb). lia. }
    split; [|auto]. destruct F as [I B]. split; [exact I|]. apply (blocks_ok_mono sb s s' (bmap s i)); auto.
    intros j. unfold used. now rewrite Hblk. }
  assert (Hold : forall x, live sb s' x -> live sb s x).
  { intros x [Hx Hb]. rewrite Hbits in Hb. split; [exact Hx|]. now destruct (x =? ino). }
  split; [|split; [exact Ei|]].
  - constructor; [exact K'| |].
    + intros x i Hl Ex. rewrite Ei in Ex by apply Hl. now apply (Hkeep x), Ex; apply Hold.
    + intros a ia c ic b Ha Hc Hne Ea Ec Hb Hb'. rewrite Ei in Ea by apply Ha. rewrite Ei in Ec by apply Hc. apply Hold in Ha, Hc.
      apply (owned_same s s' ia) in Hb; [|now apply (Hkeep a)]. apply (owned_same s s' ic) in Hb'; [|now apply (Hkeep c)].
      exact (fs_disjoint _ _ Fs _ _ _ _ b Ha Hc Hne Ea Ec Hb Hb').
  - intros x i Hl Ex p Hp. destruct (Hkeep x i Hl Ex) as (_ & Hm & Hc). split; [apply Hm, block_of; lia|now apply Hc].
Qed.

(** The name and the record that [kfs_vnode_create] builds. *)
Lemma strlen_str name : name_ok name -> strlen (str name) = Ok (zlen name).
Proof.
  intros [Hn Hl]. apply strlen_spec; [|unfold zlen in Hl; lia]. rewrite <- (app_nil_r (str name)). now apply cstr_str.
Qed.

Lemma created_record ino name :
  name_ok name ->
  encode_dirent ino (u16 (4 * ((zlen name + 11) / 4))) KFS_TYPE_FILE (firstn (Z.to_nat (zlen name + 1)) (str name)) =
  entry_bytes (mkEntry ino KFS_TYPE_FILE name).
Proof.
  intros [Hn Hl]. unfold entry_bytes. cbn [e_ino e_type e_name]. fold (reclen name).
  pose proof (reclen_range name ltac:(lia)). replace (u16 (reclen name)) with (reclen name) by (unfold u16; rewrite Z.mod_small; lia). f_equal. apply take_ge.
  unfold str, zlen. rewrite length_app. cbn. lia.
Qed.

(** A directory with one more entry written behind it. *)
Lemma dir_appended sb s s' ino i i' es e r :
  dir_ok sb s ino i es -> entry_ok e -> updated sb s s' ino i' ->
  write_done sb s s' i i' (in_size i) (entry_bytes e) r -> wr_err r = 0 -> wr_written r = zlen (entry_bytes e) ->
  dir_ok sb s' ino i' (es ++ [e]).
Proof.
  intros [Hl Ei Ht He Hs Hm Hf Hb] Heo U W Herr Hfull. pose proof (zlen_nonneg (dir_bytes es)) as Hnn.
  pose proof (wd_success _ _ _ _ _ _ _ _ W Herr) as Hpos. rewrite Hfull in Hpos.
  pose proof (wd_max _ _ _ _ _ _ _ _ W) as Hmax. rewrite Hfull in Hmax. specialize (Hmax Hpos).
  assert (Hsize : in_size i' = in_size i + zlen (entry_bytes e)).
  { rewrite (wd_size _ _ _ _ _ _ _ _ W), Hfull. destruct (Z.eqb_spec (zlen (entry_bytes e)) 0); lia. }
  assert (Hdb : dir_bytes (es ++ [e]) = dir_bytes es ++ entry_bytes e).
  { rewrite dir_bytes_app. f_equal. unfold dir_bytes. cbn. apply app_nil_r. }
  constructor.
  - unfold live. rewrite (up_bitmap _ _ _ _ _ U). exact Hl.
  - apply U.
  - now rewrite (wd_type _ _ _ _ _ _ _ _ W).
  - apply Forall_app_2; auto.
  - rewrite Hdb, zlen_app. lia.
  - lia.
  - intros p Hp. destruct (Z.lt_ge_cases p (in_size i)).
    + apply (wd_kept _ _ _ _ _ _ _ _ W); [apply block_of; lia|apply Hf; lia].
    + apply (wd_filled _ _ _ _ _ _ _ _ W). rewrite Hfull. lia.
  - rewrite Hsize, bytes_app, Hdb by lia. f_equal.
    + rewrite <- Hb. apply bytes_ext. intros p Hp. apply (wd_rest _ _ _ _ _ _ _ _ W); lia.
    + rewrite Z.add_0_l. pose proof (wd_bytes _ _ _ _ _ _ _ _ W) as E. rewrite Hfull in E. rewrite E.
      unfold slice, zlen. rewrite drop_0. apply take_ge. lia.
Qed.

(** A directory is not affected by changes of another file. *)
Lemma dir_ok_updated sb s s' ino i es ino' i' :
  dir_ok sb s ino i es -> updated sb s s' ino' i' -> ino <> ino' -> dir_ok sb s' ino i es.
Proof.
  intros [Hl Ei Ht He Hs Hm Hf Hb] U Hne. pose proof (zlen_nonneg (dir_bytes es)) as Hnn.
  assert (Hc := up_content _ _ _ _ _ U ino i). constructor; auto.
  - unfold live. rewrite (up_bitmap _ _ _ _ _ U). exact Hl.
  - rewrite (up_others _ _ _ _ _ U); [exact Ei|apply Hl|exact Hne].
  - intros p Hp. destruct (Hc p Hl Hne Ei ltac:(lia)) as [-> _]. apply Hf. lia.
  - rewrite <- Hb. apply bytes_ext. intros p Hp. apply Hc; auto. lia.
Qed.

(** The directory and the other files after an inode was allocated. *)
Lemma dir_ok_allocated sb s s' ino i es new type :
  fs_ok sb s -> word type -> inode_allocated sb s s' new type -> dir_ok sb s ino i es ->
  dir_ok sb s' ino i es /\ ino <> new.
Proof.
  intros Fs Ht Al [Hl Ei Hty He Hs Hm Hf Hb].
  destruct (inode_allocated_fs sb s s' new type Fs Ht Al) as [_ Hk].
  destruct (Hk i (fs_file _ _ Fs _ _ Hl Ei)) as (_ & Hbm & Hc). destruct Al as [_ Hfree _ Hbits _ _ _ _ Hoth _].
  pose proof (zlen_nonneg (dir_bytes es)) as Hnn.
  assert (Hne : ino <> new) by (intros ->; destruct Hl; congruence). split; [|exact Hne]. constructor; auto.
  - destruct Hl as [Hr Hbit]. split; [exact Hr|]. rewrite Hbits. now destruct (ino =? new).
  - rewrite Hoth; auto. apply Hl.
  - intros p Hp. rewrite Hbm by (apply block_of; lia). apply Hf. lia.
  - rewrite <- Hb. apply bytes_ext. intros p Hp. apply Hc. lia.
Qed.

Lemma dir_ok_heap sb s ino i es h : dir_ok sb s ino i es -> dir_ok sb (with_heap s h) ino i es.
Proof. intros []. now constructor. Qed.

(** All files but the one of [dir] are as before. *)
Definition others_kept (sb : kfs_superblock) s s' (dir : Z) : Prop := forall ino i2,
  live sb s ino -> ino <> dir -> inode_at sb s ino = Ok i2 ->
  live sb s' ino /\ inode_at sb s' ino = Ok i2 /\ forall p, 0 <= p < MAX_FILE -> content s' i2 p = content s i2 p.

Lemma others_trans sb s s1 s2 dir : others_kept sb s s1 dir -> others_kept sb s1 s2 dir -> others_kept sb s s2 dir.
Proof.
  intros H1' H2' x i Hl Hne Ex. destruct (H1' x i Hl Hne Ex) as (Hl1 & E1 & C1). destruct (H2' x i Hl1 Hne E1) as (Hl2 & E2 & C2).
  repeat (split; [assumption|]). intros p Hp. now rewrite C2, C1.
Qed.

Lemma others_allocated sb s s' new type dir :
  fs_ok sb s -> word type -> inode_allocated sb s s' new type -> others_kept sb s s' dir.
Proof.
  intros Fs Ht Al x i [Hx Hb] _ Ex. destruct (inode_allocated_fs sb s s' new type Fs Ht Al) as [_ Hk].
  assert (Hne : x <> new) by (intros ->; pose proof (ia_free _ _ _ _ _ Al); congruence).
  split; [split; [exact Hx|]; rewrite (ia_bits _ _ _ _ _ Al); now destruct (x =? new)|].
  split; [now rewrite (ia_others _ _ _ _ _ Al)|]. apply (Hk i). apply (fs_file _ _ Fs x); [now split|exact Ex].
Qed.

Lemma others_updated sb s s' dir i' : updated sb s s' dir i' -> others_kept sb s s' dir.
Proof.
  intros U x i Hl Hne Ex. split; [unfold live; now rewrite (up_bitmap _ _ _ _ _ U)|].
  split; [rewrite (up_others _ _ _ _ _ U); [exact Ex|apply Hl|exact Hne]|]. intros p Hp. now apply (up_content _ _ _ _ _ U x i p).
Qed.

Lemma others_freed sb s s1 s2 new dir :
  others_kept sb s s1 dir -> fs_ok sb s1 -> bm_bit (k_inode_bitmap s) new = false -> inode_freed sb s1 s2 new ->
  others_kept sb s s2 dir.
Proof.
  intros Ho Fs1 Hfree Fr x i Hl Hne Ex. destruct (Ho x i Hl Hne Ex) as (Hl1 & E1 & C1).
  destruct (inode_freed_fs sb s1 s2 new Fs1 Fr) as (_ & Ei & Hc). assert (Hxn : x <> new) by (intros ->; destruct Hl; congruence).
  split; [split; [apply Hl|]; rewrite (if_bits _ _ _ _ Fr); destruct (Z.eqb_spec x new); [congruence|apply Hl1]|].
  split; [rewrite Ei; [exact E1|apply Hl]|]. intros p Hp. destruct (Hc x i Hl1 E1 p Hp) as [_ ->]. now apply C1.
Qed.

(** The file system of [s'] is the one of [s]. *)
Record same_files (sb : kfs_superblock) s s' : Prop := {
  sf_fs : fs_ok sb s';
  sf_root : k_root s' = k_root s;
  sf_inodes j : bm_bit (k_inode_bitmap s') j = bm_bit (k_inode_bitmap s) j;
  sf_blocks : k_block_bitmap s' = k_block_bitmap s;
  sf_files dir : others_kept sb s s' dir
}.

(** [s'] results from [s] by creating the empty file [new] as [name] in [dir]. *)
Record file_created (sb : kfs_superblock) s s' (dir : Z) (es : list entry) (name : list Z) (new : Z) : Prop := {
  fc_fs : fs_ok sb s';
  fc_dir : exists i', dir_ok sb s' dir i' (es ++ [mkEntry new KFS_TYPE_FILE name]);
  fc_root : k_root s' = k_root s;
  fc_free : bm_bit (k_inode_bitmap s) new = false;
  fc_live : live sb s' new;
  fc_inode : inode_at sb s' new = Ok (fresh_inode KFS_TYPE_FILE);
  fc_others : others_kept sb s s' dir
}.

Lemma word_file : word KFS_TYPE_FILE.
Proof. unfold word, KFS_TYPE_FILE. lia. Qed.

Lemma create_done sb s s2 s3 dir i i' es name new r h1 h2 h3 :
  fs_ok sb s -> dir_ok sb s dir i es -> name_ok name ->
  inode_allocated sb (with_heap s h1) s2 new KFS_TYPE_FILE -> updated sb (with_heap s2 h2) s3 dir i' ->
  write_done sb (with_heap s2 h2) s3 i i' (in_size i) (entry_bytes (mkEntry new KFS_TYPE_FILE name)) r ->
  wr_err r = 0 -> wr_written r = zlen (entry_bytes (mkEntry new KFS_TYPE_FILE name)) ->
  file_created sb s (with_heap s3 h3) dir es name new.
Proof.
  intros Fs Hd Hn Al U W Herr Hfull. pose proof (ok_geo _ _ (fs_kfs _ _ Fs)) as [].
  destruct (dir_ok_allocated sb _ s2 dir i es new _ (fs_ok_heap sb s h1 Fs) word_file Al (dir_ok_heap _ _ _ _ _ h1 Hd)) as [Hd2 Hne].
  pose proof (ia_range _ _ _ _ _ Al) as Hr.
  assert (Heo : entry_ok (mkEntry new KFS_TYPE_FILE name)) by (constructor; cbn; auto; unfold word, byte, KFS_TYPE_FILE; lia).
  constructor.
  - apply fs_ok_heap, U.
  - exists i'. apply dir_ok_heap. apply (dir_appended sb (with_heap s2 h2) s3 dir i i' es _ r); auto.
    now apply dir_ok_heap.
  - cbn. rewrite (up_root _ _ _ _ _ U). cbn. apply (ia_root _ _ _ _ _ Al).
  - apply (ia_free _ _ _ _ _ Al).
  - split; [lia|]. cbn. rewrite (up_bitmap _ _ _ _ _ U). cbn. now rewrite (ia_bits _ _ _ _ _ Al), Z.eqb_refl.
  - change (inode_at sb s3 new = Ok (fresh_inode KFS_TYPE_FILE)).
    rewrite (up_others _ _ _ _ _ U); [|lia|congruence]. apply (ia_inode _ _ _ _ _ Al).
  - apply (others_trans sb s s2 s3); [exact (others_allocated sb (with_heap s h1) s2 new _ dir (fs_ok_heap _ _ _ Fs) word_file Al)|].
    exact (others_updated sb (with_heap s2 h2) s3 dir i' U).
Qed.

(** The checks and the lookup before anything is allocated. *)
Lemma create_checks sb s vn i es name type :
  fs_ok sb s -> dir_ok sb s (fs_private vn) i es -> name_ok name -> name <> [46] -> name <> [46; 46] ->
  find_entry es name = None ->
  let '(p, h1) := ka_alloc (in_size i) (k_heap s) in
  kfs_vnode_create vn (str name) type s =
    create_entry vn i (str name) (zlen name) type (with_heap s (if p =? 0 then h1 else ka_free p h1)).
Proof.
  intros Fs Hd Hn N1 N2 Hf. pose proof Hd as [Hl Ei Ht He Hs Hm _ Hb].
  pose proof (ok_geo _ _ (fs_kfs _ _ Fs)) as []. pose proof (proj1 Hl) as Hino.
  pose proof (lookup_spec sb s vn i es name Fs Hd Hn N1 (fun _ => N2)) as HL.
  destruct (ka_alloc (in_size i) (k_heap s)) as [p h1]. destruct (ka_alloc sizeof_vnode h1) as [q h2].
  unfold lookup_heap in HL. rewrite Hf in HL. unfold kfs_vnode_create. rewrite (u32_id (fs_private vn)) by lia. cbn zeta.
  rewrite (run_bind _ _ _ _ _ (read_live sb s _ i (fs_kfs _ _ Fs) Hl Ei)). rewrite Ht. cbn [negb Z.eqb KFS_TYPE_DIR Pos.eqb].
  rewrite (run_local _ _ s _ (strlen_str name Hn)). destruct Hn as [Hc Hlen].
  destruct (Z.eqb_spec (zlen name) 0), (Z.ltb_spec 255 (zlen name)); try lia. cbn [orb].
  destruct (strcmp_str name [46]) as (d1 & E1 & H1'); [exact Hc|repeat constructor; lia|].
  destruct (strcmp_str name [46; 46]) as (d2 & E2 & H2'); [exact Hc|repeat constructor; lia|].
  rewrite (run_local _ _ s _ E1), (run_local _ _ s _ E2).
  destruct (Z.eqb_spec d1 0), (Z.eqb_spec d2 0); try tauto. cbn [orb].
  rewrite (run_sbind _ _ _ _ _ HL). unfold lookup_result. rewrite Hf. now destruct (p =? 0).
Qed.

(** A file without blocks is given back. *)
Lemma undo_create_spec sb s new :
  fs_ok sb s -> 1 <= new < sb_inode_count sb ->
  exists s', undo_create false new s = Ok (inr tt, s') /\ inode_freed sb s s' new /\ fs_ok sb s'.
Proof.
  intros Fs Hr. destruct (free_inode_spec sb s new (fs_kfs _ _ Fs) Hr) as (s' & E & Fr). exists s'.
  unfold undo_create. erewrite run_sbind by reflexivity. rewrite (run_sbind _ _ _ _ _ E).
  split; [reflexivity|]. split; [exact Fr|]. now apply (inode_freed_fs sb s s' new).
Qed.

(** Allocating an inode and giving it back changes no file. *)
Lemma undone_same sb s s2 s' new h1 h2 :
  fs_ok sb s -> inode_allocated sb (with_heap s h1) s2 new KFS_TYPE_FILE -> fs_ok sb s2 ->
  inode_freed sb (with_heap s2 h2) s' new -> fs_ok sb s' -> same_files sb s s'.
Proof.
  intros Fs Al Fs2 Fr Fs'. pose proof (ia_free _ _ _ _ _ Al) as Hfree. cbn in Hfree. constructor; [exact Fs'| | | |].
  - rewrite (if_root _ _ _ _ Fr). cbn. now rewrite (ia_root _ _ _ _ _ Al).
  - intros j. rewrite (if_bits _ _ _ _ Fr). cbn. rewrite (ia_bits _ _ _ _ _ Al). cbn. now destruct (Z.eqb_spec j new) as [->|].
  - rewrite (if_blocks _ _ _ _ Fr). cbn. now rewrite (ia_blocks _ _ _ _ _ Al).
  - intros dir. apply (others_freed sb s (with_heap s2 h2) s' new dir); auto using fs_ok_heap.
    exact (others_allocated sb (with_heap s h1) s2 new _ dir (fs_ok_heap _ _ _ Fs) word_file Al).
Qed.

(** The end of the creation of a file: [w] is the result of writing the entry. *)
Lemma create_tail sb s s2 s3 dir i i' es name new w h1 h2 h :
  fs_ok sb s -> dir_ok sb s dir i es -> name_ok name ->
  inode_allocated sb (with_heap s h1) s2 new KFS_TYPE_FILE -> updated sb (with_heap s2 h2) s3 dir i' ->
  write_done sb (with_heap s2 h2) s3 i i' (in_size i) (entry_bytes (mkEntry new KFS_TYPE_FILE name)) w ->
  zlen (entry_bytes (mkEntry new KFS_TYPE_FILE name)) = reclen name ->
  let '(v, h4) := ka_alloc sizeof_vnode h in
  exists r s', (if wr_err w <? 0 then do! _ <- undo_create false new; fail (wr_err w) else new_vnode new VNODE_TYPE_FILE)%kfs (with_heap s3 h) = Ok (r, s') /\
    fs_ok sb s' /\ others_kept sb s s' dir /\
    (first_free_block sb s' = None \/ MAX_FILE < in_size i + reclen name \/
     r = (if v =? 0 then inl (- ENOMEM) else inr (mkVnode new VNODE_TYPE_FILE)) /\ k_heap s' = h4 /\ file_created sb s s' dir es name new).
Proof.
  intros Fs Hd Hn Al U W Hel. destruct (ka_alloc sizeof_vnode h) as [v h4] eqn:Ev.
  assert (Ho : others_kept sb s s3 dir).
  { apply (others_trans sb s s2 s3); [exact (others_allocated sb (with_heap s h1) s2 new _ dir (fs_ok_heap _ _ _ Fs) word_file Al)|].
    exact (others_updated sb (with_heap s2 h2) s3 dir i' U). }
  pose proof (fs_ok_heap sb s3 h (up_ok _ _ _ _ _ U)) as Fs3. pose proof (ia_free _ _ _ _ _ Al) as Hfree.
  assert (Hshort : forall o e, stuck sb s3 o e -> o < in_size i + reclen name ->
    first_free_block sb s3 = None \/ MAX_FILE < in_size i + reclen name) by (intros o x [[_ ?]|[_ ?]] ?; auto; lia).
  pose proof (reclen_range name ltac:(destruct Hn; lia)) as Hr. pose proof (zlen_nonneg name) as Hnn.
  destruct (Z.ltb_spec (wr_err w) 0) as [Hneg|Hnn'].
  - destruct (wd_error _ _ _ _ _ _ _ _ W ltac:(lia)) as (_ & Hst & _).
    destruct (undo_create_spec sb (with_heap s3 h) new Fs3 (ia_range _ _ _ _ _ Al)) as (s5 & E5 & Fr & Fs5).
    erewrite run_sbind by exact E5. eexists _, s5. split; [reflexivity|]. split; [exact Fs5|].
    split; [exact (others_freed sb s (with_heap s3 h) s5 new dir Ho Fs3 Hfree Fr)|].
    destruct (Hshort _ _ Hst ltac:(lia)) as [Hff|?]; [left|auto].
    revert Hff. unfold first_free_block, used. now rewrite (if_blocks _ _ _ _ Fr).
  - rewrite new_vnode_run. cbn [with_heap k_heap]. rewrite Ev. cbn [fst snd].
    eexists _, _. split; [reflexivity|]. split; [exact (fs_ok_heap sb s3 h4 (up_ok _ _ _ _ _ U))|]. split; [exact Ho|].
    destruct (Z.eq_dec (wr_written w) (reclen name)) as [Efull|Hshort'].
    + right. right. split; [reflexivity|]. split; [reflexivity|].
      apply (create_done sb s s2 s3 _ i i' es name new w h1 h2 _); auto; [|now rewrite Hel].
      destruct (Z.eq_dec (wr_err w) 0) as [|Hne]; [assumption|]. destruct (wd_error _ _ _ _ _ _ _ _ W Hne) as (_ & [[E _]|[E _]] & _);
        unfold ENOSPC, EFBIG in E; lia.
    + pose proof (wd_count _ _ _ _ _ _ _ _ W). destruct (wd_short _ _ _ _ _ _ _ _ W ltac:(lia)) as [x Hst].
      destruct (Hshort _ _ Hst ltac:(lia)); auto.
Qed.

(** The rest of the creation of a file, from a state with memory [h1]: [q] and [v]
    are the answers to its two requests for memory. *)
Lemma create_entry_spec sb s h1 vn i es name new :
  fs_ok sb s -> dir_ok sb s (fs_private vn) i es -> name_ok name -> first_free_inode sb s = Some new ->
  let '(q, h2) := ka_alloc (reclen name) h1 in
  let '(v, h4) := ka_alloc sizeof_vnode (ka_free q h2) in
  exists r s', create_entry vn i (str name) (zlen name) VNODE_TYPE_FILE (with_heap s h1) = Ok (r, s') /\
    if q =? 0 then r = inl (- ENOMEM) /\ k_heap s' = h2 /\ same_files sb s s'
    else fs_ok sb s' /\ others_kept sb s s' (fs_private vn) /\
      (first_free_block sb s' = None \/ MAX_FILE < in_size i + reclen name \/
       r = (if v =? 0 then inl (- ENOMEM) else inr (mkVnode new VNODE_TYPE_FILE)) /\ k_heap s' = h4 /\
       file_created sb s s' (fs_private vn) es name new).
Proof.
  intros Fs Hd Hn Hfree. pose proof Hd as [Hl Ei Ht He Hs Hm _ _]. pose proof Hn as [Hc Hlen].
  pose proof (ok_geo _ _ (fs_kfs _ _ Fs)) as []. pose proof (proj1 Hl) as Hino.
  assert (HM : MAX_FILE = 70656) by reflexivity. pose proof (zlen_nonneg (dir_bytes es)) as Hnn.
  destruct (ka_alloc (reclen name) h1) as [q h2] eqn:Eq. pose proof (create_tail sb s) as Tail.
  unfold create_entry. rewrite (u32_id (fs_private vn)) by lia. cbn zeta. change (VNODE_TYPE_FILE =? VNODE_TYPE_DIR) with false.
  cbv iota. change (KFS_TYPE_FILE =? KFS_TYPE_DIR) with false. cbv iota.
  pose proof (alloc_inode_spec sb (with_heap s h1) KFS_TYPE_FILE (fs_kfs _ _ (fs_ok_heap sb s h1 Fs)) word_file) as Ha.
  change (first_free_inode sb (with_heap s h1)) with (first_free_inode sb s) in Ha. rewrite Hfree in Ha.
  destruct Ha as (s2 & Ea & Al). rewrite (run_bind _ _ _ _ _ Ea). erewrite run_bind by reflexivity.
  rewrite reclen_code by lia. fold (reclen name).
  pose proof (kmalloc_run s2 (reclen name)) as Em. rewrite (ia_heap _ _ _ _ _ Al) in Em. cbn [with_heap k_heap] in Em. rewrite Eq in Em.
  rewrite (run_sbind _ _ _ _ _ Em). cbn [fst snd].
  destruct (inode_allocated_fs sb _ s2 new _ (fs_ok_heap sb s h1 Fs) word_file Al) as [Fs2 _].
  destruct (dir_ok_allocated sb _ s2 _ i es new _ (fs_ok_heap sb s h1 Fs) word_file Al (dir_ok_heap _ _ _ _ _ h1 Hd)) as [Hd2 _].
  specialize (fun s3 i' w => Tail s2 s3 (fs_private vn) i i' es name new w h1 h2 (ka_free q h2) Fs Hd Hn Al).
  destruct (ka_alloc sizeof_vnode (ka_free q h2)) as [v h4]. destruct (Z.eqb_spec q 0) as [->|Hq].
  { destruct (undo_create_spec sb (with_heap s2 h2) new (fs_ok_heap _ _ _ Fs2) (ia_range _ _ _ _ _ Al)) as (s5 & E5 & Fr & Fs5).
    erewrite run_sbind by exact E5. eexists _, s5. split; [reflexivity|]. split; [reflexivity|].
    split; [apply (if_heap _ _ _ _ Fr)|]. exact (undone_same sb s s2 s5 new h1 h2 Fs Al Fs2 Fr Fs5). }
  apply (fs_ok_heap sb s2 h2) in Fs2. apply (dir_ok_heap sb s2 _ _ _ h2) in Hd2.
  pose proof Hd2 as [Hl2 Ei2 _ _ _ _ _ _]. rewrite (run_sbind _ _ _ _ _ (read_live sb _ _ i (fs_kfs _ _ Fs2) Hl2 Ei2)).
  cbv iota. unfold reclen at 1. rewrite created_record by exact Hn. set (e := mkEntry new KFS_TYPE_FILE name) in *.
  assert (Heo : entry_ok e) by (destruct Al; constructor; cbn; auto; unfold word, byte, KFS_TYPE_FILE; lia).
  destruct (entry_bytes_eq e Heo) as (_ & _ & Hel & Heb). change (e_name e) with name in Hel. pose proof (reclen_range name ltac:(lia)) as Hr.
  destruct (write_spec sb (with_heap s2 h2) vn i (in_size i) O_WRONLY (entry_bytes e)) as (w & s3 & i' & Ew & U & W);
    auto; [first [lia|now vm_compute]|change (has O_WRONLY O_APPEND) with false; cbv iota; lia|].
  change (has O_WRONLY O_APPEND) with false in W. cbv iota in W.
  rewrite (run_sbind _ _ _ _ _ Ew). erewrite run_sbind by (unfold kfree; rewrite (up_heap _ _ _ _ _ U); reflexivity).
  exact (Tail s3 i' w U W Hel).
Qed.

End Create.
