(* ===== verification/KfsTheorems.v ===== *)
(** * KFS: the theorems

    The properties of src/kernel/fs/kfs.c, each with an instance on the small file
    system [image] of [KfsCheck]. *)

From S2P Require Import Prelude Bitmap Interfaces CString Kfs KfsProofs KfsFiles KfsCheck KfsDirs.

Section Theorems.
Context {D A : Type} `{BlockDeviceLaws D} `{KernelAlloc A}.
Implicit Types s : kfs D A.

(** C35: On a consistent file system [kfs_vnode_write] replaces the bytes of the
    file from the offset on (from the end with [O_APPEND]) by a prefix of the
    buffer.  The prefix is the whole buffer unless no block is free or the file
    has its largest size of 138 blocks; an error is returned only if that stops
    the first byte.  All other bytes of the file, and the inodes and contents of
    all other files, are unchanged, and the file system stays consistent. *)
Theorem kfs_vnode_write_correct sb s vn i off flags buf :
  fs_ok sb s -> live sb s (fs_private vn) -> inode_at sb s (fs_private vn) = Ok i ->
  Z.land flags (Z.lor O_WRONLY O_RDWR) <> 0 -> 0 < zlen buf -> Forall byte buf ->
  let o := if has flags O_APPEND then in_size i else off in
  0 <= o < 2 ^ 32 ->
  exists r s' i', kfs_vnode_write vn off flags buf s = Ok (r, s') /\ updated sb s s' (fs_private vn) i' /\
    write_done sb s s' i i' o buf r.
Proof. apply write_spec. Qed.

(** C36: What [kfs_vnode_write] reports as written is read back by
    [kfs_vnode_read] at the same offset. *)
Theorem kfs_write_read_roundtrip sb s vn i off flags buf r s' :
  fs_ok sb s -> live sb s (fs_private vn) -> inode_at sb s (fs_private vn) = Ok i -> in_size i <= MAX_FILE ->
  has flags O_APPEND = false -> 0 <= off < 2 ^ 32 -> 0 < zlen buf -> Forall byte buf ->
  kfs_vnode_write vn off flags buf s = Ok (r, s') -> wr_err r = 0 ->
  kfs_vnode_read vn off (wr_written r) s' = Ok (mkRead 0 (slice buf 0 (wr_written r)) (off + wr_written r), s').
Proof.
  intros Fs Hl Ei Hsz Happ Ho Hlen Hb Ew Herr.
  destruct (Z.eqb_spec (Z.land flags (Z.lor O_WRONLY O_RDWR)) 0) as [E0|Hfl].
  { unfold kfs_vnode_write in Ew. rewrite E0 in Ew. injection Ew as <- <-. discriminate. }
  destruct (write_spec sb s vn i off flags buf) as (r0 & s0 & i' & Ew' & U & W); auto; [now rewrite Happ|].
  rewrite Ew in Ew'. injection Ew' as <- <-. rewrite Happ in W. eapply written_read; eauto. lia.
Qed.

(** [kfs_vnode_read] returns the bytes of the file from the offset on, as many
    as asked for and as the file has, advances the offset by their number, and
    changes nothing, when that part of the file has no holes. *)
Theorem kfs_vnode_read_correct sb s vn i off count :
  fs_ok sb s -> live sb s (fs_private vn) -> inode_at sb s (fs_private vn) = Ok i ->
  in_size i <= MAX_FILE -> 0 <= off -> 0 <= count -> off + count < 2 ^ 64 ->
  filled s i off (readable i off count) ->
  kfs_vnode_read vn off count s =
    Ok (mkRead 0 (bytes s i off (readable i off count)) (off + readable i off count), s).
Proof. intros Fs Hl Ei. intros. apply (read_spec sb); auto; [apply Fs|now apply (fs_file _ _ Fs (fs_private vn))]. Qed.

(** [kfs_vnode_truncate] succeeds and leaves an empty file: exactly the blocks
    that belonged to it become free, its inode has size 0 and no blocks, and the
    other files are unchanged. *)
Theorem kfs_vnode_truncate_correct sb s vn i :
  fs_ok sb s -> live sb s (fs_private vn) -> inode_at sb s (fs_private vn) = Ok i ->
  exists s', kfs_vnode_truncate vn s = Ok (inr tt, s') /\ updated sb s s' (fs_private vn) (truncated i) /\
    forall b, used s' b = true <-> used s b = true /\ ~ owned s i b.
Proof. apply truncate_spec. Qed.

(** [kfs_alloc_block] returns the first free block of the data region, marks
    it in the bitmap in memory and on the disk, fills it with zeroes and touches no
    other block; without a free block it returns -ENOSPC and changes nothing. *)
Theorem kfs_alloc_block_correct sb s :
  kfs_ok sb s ->
  match first_free_block sb s with
  | None => kfs_alloc_block s = Ok (inl (- ENOSPC), s)
  | Some b => exists s', kfs_alloc_block s = Ok (inr b, s') /\ allocated sb s s' b
  end.
Proof. apply alloc_block_spec. Qed.

(** On a well-formed directory [kfs_vnode_lookup] returns a vnode for the
    first entry of the given name, -ENOENT if there is none, and -ENOMEM if one of
    its two allocations fails; only the kernel heap changes. *)
Theorem kfs_vnode_lookup_correct sb s vn i es name :
  fs_ok sb s -> dir_ok sb s (fs_private vn) i es -> name_ok name ->
  name <> [46] -> (fs_private vn = sb_root_inode sb -> name <> [46; 46]) ->
  let '(p, h1) := ka_alloc (in_size i) (k_heap s) in
  let '(q, h2) := ka_alloc sizeof_vnode h1 in
  kfs_vnode_lookup vn (str name) s = Ok (lookup_result es name p q, with_heap s (lookup_heap es name p h1 h2)).
Proof. apply lookup_spec. Qed.

(** In a directory without entries every lookup of a name fails with -ENOMEM,
    not -ENOENT, since [kmalloc(0)] returns no memory. *)
Theorem kfs_lookup_in_empty_directory `{!KernelAllocLaws A} sb s vn i name :
  fs_ok sb s -> dir_ok sb s (fs_private vn) i [] -> name_ok name ->
  name <> [46] -> (fs_private vn = sb_root_inode sb -> name <> [46; 46]) ->
  exists h, kfs_vnode_lookup vn (str name) s = Ok (inl (- ENOMEM), with_heap s h).
Proof.
  intros Fs Hd Hn N1 N2. pose proof (lookup_spec sb s vn i [] name Fs Hd Hn N1 N2) as HL.
  rewrite (do_size _ _ _ _ _ Hd) in HL. change (zlen (dir_bytes [])) with 0 in HL. rewrite ka_alloc_zero in HL.
  destruct (ka_alloc sizeof_vnode (k_heap s)) as [q h2]. eexists. exact HL.
Qed.

End Theorems.

(** C39: [kfs_vnode_create] of a file in a well-formed directory without that name,
    on a disk with a free inode.  It asks the kernel heap for memory three times: for
    the directory in its lookup (given back again, and ignored if refused), for the
    record of the new entry ([q]) and for the vnode ([v]).  If [q] is refused it returns
    -ENOMEM and all files, the free inodes and the free blocks are as before.
    Otherwise, unless the disk has no free block left or the directory would exceed the
    largest file size, the first free inode is now an empty file whose entry is appended
    to the directory, and the call returns a vnode for it, or -ENOMEM (with the file
    created all the same) if [v] is refused; a lookup of the name then finds it if its
    own two requests are granted.  In every case the file system stays consistent and
    the other files are unchanged. *)
Theorem kfs_vnode_create_correct {D A : Type} `{BlockDeviceLaws D} `{KernelAlloc A} sb (s : kfs D A) vn i es name new :
  fs_ok sb s -> dir_ok sb s (fs_private vn) i es -> name_ok name -> name <> [46] -> name <> [46; 46] ->
  find_entry es name = None -> first_free_inode sb s = Some new ->
  let '(p, h1) := ka_alloc (in_size i) (k_heap s) in
  let '(q, h2) := ka_alloc (reclen name) (if p =? 0 then h1 else ka_free p h1) in
  let '(v, h3) := ka_alloc sizeof_vnode (ka_free q h2) in
  exists r s', kfs_vnode_create vn (str name) VNODE_TYPE_FILE s = Ok (r, s') /\
    if q =? 0 then r = inl (- ENOMEM) /\ k_heap s' = h2 /\ same_files sb s s'
    else fs_ok sb s' /\ others_kept sb s s' (fs_private vn) /\
      (first_free_block sb s' = None \/ MAX_FILE < in_size i + reclen name \/
       r = (if v =? 0 then inl (- ENOMEM) else inr (mkVnode new VNODE_TYPE_FILE)) /\ k_heap s' = h3 /\
       file_created sb s s' (fs_private vn) es name new /\
       exists i', dir_ok sb s' (fs_private vn) i' (es ++ [mkEntry new KFS_TYPE_FILE name]) /\
         let '(p', h4) := ka_alloc (in_size i') (k_heap s') in
         let '(q', h5) := ka_alloc sizeof_vnode h4 in
         p' <> 0 -> q' <> 0 ->
         kfs_vnode_lookup vn (str name) s' = Ok (inr (mkVnode new VNODE_TYPE_FILE), with_heap s' (ka_free p' h5))).
Proof.
  intros Fs Hd Hn N1 N2 Hf Hfree. pose proof (create_checks sb s vn i es name VNODE_TYPE_FILE Fs Hd Hn N1 N2 Hf) as Ec.
  destruct (ka_alloc (in_size i) (k_heap s)) as [p h1].
  pose proof (create_entry_spec sb s (if p =? 0 then h1 else ka_free p h1) vn i es name new Fs Hd Hn Hfree) as He.
  destruct (ka_alloc (reclen name) _) as [q h2]. destruct (ka_alloc sizeof_vnode (ka_free q h2)) as [v h3].
  destruct He as (r & s' & E & Hr). exists r, s'. rewrite Ec. split; [exact E|]. destruct (q =? 0); [exact Hr|].
  destruct Hr as (Fs' & Ho & Hr). split; [exact Fs'|]. split; [exact Ho|]. destruct Hr as [?|[?|(-> & Eh & Hc)]]; auto. right. right.
  split; [reflexivity|]. split; [exact Eh|]. split; [exact Hc|]. destruct (fc_dir _ _ _ _ _ _ _ Hc) as [i' Hd']. exists i'. split; [exact Hd'|].
  pose proof (lookup_spec sb s' vn i' _ name Fs' Hd' Hn N1 (fun _ => N2)) as HL.
  destruct (ka_alloc (in_size i') (k_heap s')) as [p' h4]. destruct (ka_alloc sizeof_vnode h4) as [q' h5]. intros Hp Hq.
  rewrite HL. unfold lookup_result, lookup_heap. rewrite (proj2 (Z.eqb_neq _ _) Hp), (proj2 (Z.eqb_neq _ _) Hq).
  pose proof (find_entry_snoc es (mkEntry new KFS_TYPE_FILE name) Hf) as Efind. cbn [e_name] in Efind. now rewrite Efind.
Qed.

(** ** Instances *)
Definition file_vn : vnode := mkVnode 2 VNODE_TYPE_FILE.
Definition root_vn : vnode := mkVnode 1 VNODE_TYPE_DIR.
Definition name_a : list Z := [97].
Definition name_b : list Z := [98].

Lemma image_file_live : live image_sb image 2 /\ inode_at image_sb image 2 = Ok image_file.
Proof. split; [split; [cbn; lia|reflexivity]|vm_compute; reflexivity]. Qed.

Lemma name_ok_a : name_ok name_a.
Proof. split; [constructor; [lia|constructor]|unfold zlen; cbn; lia]. Qed.

Lemma name_ok_b : name_ok name_b.
Proof. split; [constructor; [lia|constructor]|unfold zlen; cbn; lia]. Qed.

Lemma image_dir : dir_ok image_sb image 1 image_root [mkEntry 2 KFS_TYPE_FILE name_a].
Proof.
  constructor; try (vm_compute; reflexivity).
  - split; [cbn; lia|reflexivity].
  - constructor; [|constructor]. constructor; [unfold word; cbn; lia|unfold byte, KFS_TYPE_FILE; cbn; lia|exact name_ok_a].
  - vm_compute. discriminate.
  - intros p Hp. change (in_size image_root) with 12 in Hp. rewrite Z.div_small by lia. vm_compute. discriminate.
Qed.

Lemma kfs_vnode_write_correct_witness :
  exists r s' i', kfs_vnode_write file_vn 0 O_WRONLY [104; 105] image = Ok (r, s') /\ updated image_sb image s' 2 i' /\
    write_done image_sb image s' image_file i' 0 [104; 105] r.
Proof.
  destruct image_file_live as [Hl Ei].
  apply (kfs_vnode_write_correct image_sb image file_vn image_file 0 O_WRONLY [104; 105] image_ok Hl Ei);
    [discriminate|reflexivity|repeat constructor; unfold byte; lia|vm_compute; split; [discriminate|reflexivity]].
Defined.

(** The result of an operation, without the state. *)
Definition result_of {X} (o : outcome (X * kfs ram bump)) : option X :=
  match o with Ok (x, _) => Some x | Stop _ => None end.

Lemma result_of_Ok {X} (o : outcome (X * kfs ram bump)) x : result_of o = Some x -> exists s', o = Ok (x, s').
Proof. destruct o as [[y s']|]; [|discriminate]. intros [= ->]. eauto. Qed.

Lemma kfs_write_read_roundtrip_witness :
  exists s', kfs_vnode_write file_vn 0 O_WRONLY [104; 105] image = Ok (mkWrite 0 2 2, s') /\
    kfs_vnode_read file_vn 0 2 s' = Ok (mkRead 0 [104; 105] 2, s').
Proof.
  destruct (result_of_Ok (kfs_vnode_write file_vn 0 O_WRONLY [104; 105] image) (mkWrite 0 2 2)) as [s' E];
    [vm_compute; reflexivity|]. exists s'. split; [exact E|]. destruct image_file_live as [Hl Ei].
  apply (kfs_write_read_roundtrip image_sb image file_vn image_file 0 O_WRONLY [104; 105] (mkWrite 0 2 2) s' image_ok Hl Ei);
    first [exact E | reflexivity | repeat constructor; unfold byte; lia | lia | vm_compute; discriminate].
Defined.

Lemma kfs_vnode_read_correct_witness :
  kfs_vnode_read root_vn 4 3 image = Ok (mkRead 0 (bytes image image_root 4 3) 7, image).
Proof.
  destruct image_dir as [Hl Ei _ _ _ Hm Hf _].
  apply (kfs_vnode_read_correct image_sb image root_vn image_root 4 3 image_ok Hl Ei Hm); try (cbn; lia).
  intros p Hp. apply Hf. revert Hp. unfold readable. cbn. lia.
Defined.

Lemma kfs_vnode_truncate_correct_witness :
  exists s', kfs_vnode_truncate root_vn image = Ok (inr tt, s') /\ updated image_sb image s' 1 (truncated image_root) /\
    forall b, used s' b = true <-> used image b = true /\ ~ owned image image_root b.
Proof.
  destruct image_dir as [Hl Ei _ _ _ _ _ _].
  exact (kfs_vnode_truncate_correct image_sb image root_vn image_root image_ok Hl Ei).
Defined.

Lemma kfs_alloc_block_correct_witness :
  exists s', kfs_alloc_block image = Ok (inr 69, s') /\ allocated image_sb image s' 69.
Proof.
  pose proof (kfs_alloc_block_correct image_sb image (fs_kfs _ _ image_ok)) as Ha.
  assert (E : first_free_block image_sb image = Some 69) by (vm_compute; reflexivity). rewrite E in Ha. exact Ha.
Defined.

Lemma kfs_vnode_lookup_correct_witness :
  exists h, kfs_vnode_lookup root_vn (str name_a) image = Ok (inr (mkVnode 2 VNODE_TYPE_FILE), with_heap image h).
Proof.
  pose proof (kfs_vnode_lookup_correct image_sb image root_vn image_root _ name_a image_ok image_dir name_ok_a
                ltac:(discriminate) ltac:(discriminate)) as Hl.
  eexists. exact Hl.
Defined.

(** The same file system with an empty root directory. *)
Definition empty_root : kfs_inode := mkInode 0 KFS_TYPE_DIR (replicate 10 0) 0 2 [0; 0].
Definition empty_image : kfs ram bump :=
  mkKfs (Some image_sb) (k_block_bitmap image) (k_inode_bitmap image)
    (<[67 := pad_sector (encode_inode zero_inode ++ encode_inode empty_root ++ encode_inode image_file)]> image_disk)
    free_memory (Some root_vn).

Lemma empty_image_ok : fs_ok image_sb empty_image.
Proof. apply fsck_sound. vm_compute. reflexivity. Qed.

Lemma empty_image_dir : dir_ok image_sb empty_image 1 empty_root [].
Proof.
  constructor; try (vm_compute; reflexivity).
  - split; [cbn; lia|reflexivity].
  - constructor.
  - vm_compute. discriminate.
  - intros p Hp. cbn in Hp. lia.
Qed.

Lemma kfs_lookup_in_empty_directory_witness :
  exists h, kfs_vnode_lookup root_vn (str name_a) empty_image = Ok (inl (- ENOMEM), with_heap empty_image h).
Proof.
  exact (kfs_lookup_in_empty_directory image_sb empty_image root_vn empty_root name_a empty_image_ok empty_image_dir
           name_ok_a ltac:(discriminate) ltac:(discriminate)).
Defined.

Lemma kfs_vnode_create_correct_witness :
  exists s', kfs_vnode_create root_vn (str name_b) VNODE_TYPE_FILE image = Ok (inr (mkVnode 3 VNODE_TYPE_FILE), s') /\
    file_created image_sb image s' 1 [mkEntry 2 KFS_TYPE_FILE name_a] name_b 3.
Proof.
  destruct (kfs_vnode_create_correct image_sb image root_vn image_root [mkEntry 2 KFS_TYPE_FILE name_a] name_b 3
              image_ok image_dir name_ok_b ltac:(discriminate) ltac:(discriminate) ltac:(reflexivity) ltac:(vm_compute; reflexivity))
    as (r & s' & E & _ & _ & Hr).
  assert (Hfree : match kfs_vnode_create root_vn (str name_b) VNODE_TYPE_FILE image with
                  | Ok (_, s') => first_free_block image_sb s' | Stop _ => None end = Some 69) by (vm_compute; reflexivity).
  rewrite E in Hfree. destruct Hr as [Hr|[Hr|(-> & _ & Hc & _)]]; [rewrite Hr in Hfree; discriminate Hfree|vm_compute in Hr; discriminate Hr|].
  exists s'. split; [exact E|exact Hc].
Defined.

(** [kfs_vnode_getdents] stores a whole record however small the buffer of
    [count] bytes is: here [count] and the buffer are 16 bytes. *)
Lemma kfs_getdents_small_buffer : kfs_vnode_getdents root_vn 0 16 16 image = Stop BadAccess.
Proof. vm_compute. reflexivity. Qed.
