(* ===== verification/Blk.v ===== *)
(** * Block devices as files (src/kernel/fs/blk.c)

    The table of registered devices, and reading and writing a device as one
    sequence of bytes through a sector-sized buffer.  The driver is a
    [BlockDevice]; [sector_count] is the field of [struct blk_dev]. *)

From S2P Require Import Prelude Bitmap Interfaces CString Kfs KfsCheck.

(** ** Reading and writing *)
Section Device.
Context {D : Type} `{BlockDevice D}.

Fixpoint blk_read_loop (fuel : nat) (d : D) (sector_count lba offset_in_sector count offset : Z) (out : list Z)
  : outcome read_result :=
  if (0 <? count) && (lba <? sector_count) then
    match fuel with
    | O => Stop NoFuel
    | S k =>
      let '(c, bounce) := bd_read lba 1 d in
      if negb (c =? 0) then Ok (mkRead 0 out offset)
      else
        let to_copy := BLK_SECTOR_SIZE - offset_in_sector in
        let to_copy := if count <? to_copy then count else to_copy in
        blk_read_loop k d sector_count (lba +64 1) 0 (count - to_copy) (offset +64 to_copy)
          (out ++ slice bounce offset_in_sector to_copy)
    end
  else Ok (mkRead 0 out offset).

(** Every iteration but the first copies from the start of a sector. *)
Definition blk_fuel (count : Z) : nat := S (S (Z.to_nat (count / BLK_SECTOR_SIZE))).

Definition blk_vnode_read (sector_count offset count : Z) (d : D) : outcome read_result :=
  blk_read_loop (blk_fuel count) d sector_count (offset / BLK_SECTOR_SIZE) (offset mod BLK_SECTOR_SIZE) count offset [].

(** [bounce] keeps its bytes from one iteration to the next. *)
Fixpoint blk_write_loop (fuel : nat) (d : D) (sector_count lba offset_in_sector offset : Z) (buf bounce : list Z)
  (total_written : Z) : outcome (write_result * D) :=
  if (0 <? zlen buf) && (lba <? sector_count) then
    match fuel with
    | O => Stop NoFuel
    | S k =>
      let partial := (0 <? offset_in_sector) || (zlen buf <? BLK_SECTOR_SIZE) in
      let '(c, bounce) := if partial then bd_read lba 1 d else (0, bounce) in
      if negb (c =? 0) then Ok (mkWrite 0 total_written offset, d)
      else
        let to_copy := BLK_SECTOR_SIZE - offset_in_sector in
        let to_copy := if zlen buf <? to_copy then zlen buf else to_copy in
        let bounce := blit bounce offset_in_sector (slice buf 0 to_copy) in
        let '(c, d') := bd_write lba bounce d in
        if negb (c =? 0) then Ok (mkWrite 0 total_written offset, d')
        else
          blk_write_loop k d' sector_count (lba +64 1) 0 (offset +64 to_copy) (skipn (Z.to_nat to_copy) buf) bounce
            (total_written + to_copy)
    end
  else Ok (mkWrite 0 total_written offset, d).

(** [bounce] is what the buffer holds at the start. *)
Definition blk_vnode_write (sector_count offset : Z) (buf bounce : list Z) (d : D) : outcome (write_result * D) :=
  blk_write_loop (blk_fuel (zlen buf)) d sector_count (offset / BLK_SECTOR_SIZE) (offset mod BLK_SECTOR_SIZE) offset
    buf bounce 0.

End Device.

(** ** The table of devices *)
Definition MAX_BLK_DEVS : Z := 8.

(** The registered devices, by their names and a handle. *)
Definition blk_table : Type := list (list Z * Z).

Definition blk_init : blk_table := [].

Definition blk_register (dev : list Z * Z) (devs : blk_table) : blk_table :=
  if MAX_BLK_DEVS <=? zlen devs then devs else devs ++ [dev].

Fixpoint blk_get_dev (name : list Z) (devs : blk_table) : outcome (option Z) :=
  match devs with
  | [] => Ok None
  | (n, dev) :: r =>
    let* d := strcmp n name in
    if d =? 0 then Ok (Some dev) else blk_get_dev name r
  end.

(** The device a vnode stands for; [None] without the device or without memory. *)
Definition blk_get_vnode {A : Type} `{KernelAlloc A} (devs : blk_table) (name : list Z) (a : A) : outcome (option Z * A) :=
  let* dev := blk_get_dev name devs in
  match dev with
  | None => Ok (None, a)
  | Some dev => let '(vn, a) := ka_alloc sizeof_vnode a in Ok (if vn =? 0 then None else Some dev, a)
  end.

(** ** The bytes of a device *)
Section Correct.
Context {D : Type} `{BlockDeviceLaws D}.

Definition disk_byte (d : D) (p : Z) : Z := default 0 (znth (bd_sector d (p / 512)) (p mod 512)).
Definition disk_bytes (d : D) (off n : Z) : list Z := disk_byte d <$> seqZ off n.

Lemma zlen_disk_bytes d off n : 0 <= n -> zlen (disk_bytes d off n) = n.
Proof. intros Hn. unfold zlen, disk_bytes. rewrite length_fmap, length_seqZ. lia. Qed.

Lemma znth_disk_bytes d off n p : 0 <= p < n -> znth (disk_bytes d off n) p = Some (disk_byte d (off + p)).
Proof.
  intros Hp. unfold znth, disk_bytes. destruct (Z.leb_spec 0 p); [|lia].
  rewrite list_lookup_fmap, (lookup_seqZ_lt off n) by lia. cbn. do 2 f_equal. lia.
Qed.

Lemma disk_bytes_app d off n m : 0 <= n -> 0 <= m -> disk_bytes d off (n + m) = disk_bytes d off n ++ disk_bytes d (off + n) m.
Proof. intros Hn Hm. unfold disk_bytes. now rewrite seqZ_app, fmap_app by lia. Qed.

Lemma sector_bytes d off c :
  0 <= off / 512 < bd_count d -> 0 <= c -> off mod 512 + c <= 512 ->
  slice (bd_sector d (off / 512)) (off mod 512) c = disk_bytes d off c.
Proof.
  intros Hl Hc Hfit. destruct (bd_sector_len d _ Hl) as [Hlen _].
  assert (Hz : zlen (bd_sector d (off / 512)) = 512) by (unfold zlen; rewrite Hlen; reflexivity).
  assert (Hsl : zlen (slice (bd_sector d (off / 512)) (off mod 512) c) = c) by (apply zlen_slice; dlia).
  apply znth_ext; [now rewrite Hsl, zlen_disk_bytes|]. intros p Hp. rewrite Hsl in Hp. rewrite znth_slice, znth_disk_bytes by dlia.
  unfold disk_byte. replace ((off + p) / 512) with (off / 512) by dlia. replace ((off + p) mod 512) with (off mod 512 + p) by dlia.
  destruct (znth_is_Some (bd_sector d (off / 512)) (off mod 512 + p)) as [x ->]; [dlia|reflexivity].
Qed.

(** What is left of the device behind [off]. *)
Definition blk_avail (sector_count off count : Z) : Z := Z.max 0 (Z.min count (512 * sector_count - off)).

Lemma read_one d lba : 0 <= lba < bd_count d -> bd_read lba 1 d = (0, bd_sector d lba).
Proof.
  intros Hl. rewrite bd_read_law by lia.
  replace (seqZ lba 1) with [lba] by (rewrite seqZ_cons by lia; now rewrite Z.pred_succ || reflexivity).
  cbn. now rewrite app_nil_r.
Qed.

Lemma blk_read_loop_spec d sc fuel : forall off count out,
  sc <= bd_count d -> bd_count d < 2 ^ 54 -> 0 <= off < 2 ^ 63 -> 0 <= count ->
  (0 < count -> off mod 512 + count <= 512 * Z.of_nat fuel) ->
  blk_read_loop fuel d sc (off / 512) (off mod 512) count off out =
    Ok (mkRead 0 (out ++ disk_bytes d off (blk_avail sc off count)) (off + blk_avail sc off count)).
Proof.
  induction fuel as [|fuel IH]; intros off count out Hsc H54 Ho Hc Hf; cbn [blk_read_loop];
    pose proof (Z.mod_pos_bound off 512 ltac:(lia)); destruct (Z.ltb_spec 0 count), (Z.ltb_spec (off / 512) sc); cbn [andb].
  1: lia.
  4:{ rewrite read_one by dlia. cbn [Z.eqb negb]. unfold BLK_SECTOR_SIZE. fold (chunk_at off count).
      destruct (chunk_at_spec off count ltac:(lia)) as (Hch & Hfit & Hend). set (c := chunk_at off count) in *.
      rewrite sector_bytes by dlia. rewrite (u64_id (off + c)), (u64_id (off / 512 + 1)) by dlia.
      destruct Hend as [E|E].
      - replace (count - c) with 0 by lia. assert (Hn : blk_avail sc off count = c) by (unfold blk_avail; dlia). rewrite Hn.
        destruct fuel; cbn [blk_read_loop]; reflexivity.
      - replace (off / 512 + 1) with ((off + c) / 512) by dlia. replace 0 with ((off + c) mod 512) at 1 by dlia.
        assert (Hn : blk_avail sc off count = c + blk_avail sc (off + c) (count - c)) by (unfold blk_avail; dlia).
        rewrite IH; [|lia|lia|dlia|lia|dlia]. rewrite Hn, disk_bytes_app, <- app_assoc by (unfold blk_avail; lia).
        do 2 f_equal. lia. }
  all: assert (Hn : blk_avail sc off count = 0) by (unfold blk_avail; dlia); rewrite Hn; unfold disk_bytes; rewrite seqZ_nil by lia;
    cbn [fmap list_fmap]; now rewrite app_nil_r, Z.add_0_r.
Qed.

(** ** Writing *)
Definition buffer_ok (b : list Z) : Prop := length b = 512%nat /\ Forall byte b.

(** [d'] is [d] with the bytes [src] at [off]. *)
Record patched (d d' : D) (off : Z) (src : list Z) : Prop := {
  pa_count : bd_count d' = bd_count d;
  pa_bytes p : 0 <= p < 512 * bd_count d ->
    disk_byte d' p = if (off <=? p) && (p <? off + zlen src) then default 0 (znth src (p - off)) else disk_byte d p
}.

Lemma patched_trans d1 d2 d3 off s1 s2 :
  0 <= off -> patched d1 d2 off s1 -> patched d2 d3 (off + zlen s1) s2 -> patched d1 d3 off (s1 ++ s2).
Proof.
  intros Ho [A1 A2] [B1 B2]. pose proof (zlen_nonneg s1). pose proof (zlen_nonneg s2). constructor; [congruence|].
  intros p Hp. rewrite B2, A2, zlen_app by lia.
  destruct (Z.leb_spec off p), (Z.ltb_spec p (off + zlen s1)), (Z.leb_spec (off + zlen s1) p),
    (Z.ltb_spec p (off + zlen s1 + zlen s2)), (Z.ltb_spec p (off + (zlen s1 + zlen s2))); cbn [andb]; try lia; auto.
  all: rewrite znth_app by lia; destruct (Z.ltb_spec (p - off) (zlen s1)); try lia; auto. do 2 f_equal. lia.
Qed.

Lemma patched_nil d off : patched d d off [].
Proof.
  constructor; [reflexivity|]. intros p Hp. change (zlen []) with 0.
  destruct (_ && _) eqn:E; [reflect_bools; lia|reflexivity].
Qed.

(** One sector written. *)
Lemma write_sector d off src bounce :
  0 <= off -> 0 <= off / 512 < bd_count d -> Forall byte src -> 0 < zlen src -> off mod 512 + zlen src <= 512 ->
  buffer_ok bounce -> ((0 <? off mod 512) || (zlen src <? 512) = true -> bounce = bd_sector d (off / 512)) ->
  let b := blit bounce (off mod 512) src in
  exists d', bd_write (off / 512) b d = (0, d') /\ buffer_ok b /\ patched d d' off src.
Proof.
  intros Ho Hl Hs Hpos Hfit [Hbl Hbb] Hread b. pose proof (Z.mod_pos_bound off 512 ltac:(lia)) as Hm.
  assert (Hzb : zlen bounce = 512) by (unfold zlen; rewrite Hbl; reflexivity).
  assert (Hb : buffer_ok b).
  { split; [pose proof (zlen_blit bounce (off mod 512) src ltac:(lia) ltac:(lia)) as E; unfold b, zlen in *; lia|].
    unfold b, blit. repeat apply Forall_app_2; auto using Forall_take, Forall_drop. }
  destruct (bd_write_law d (off / 512) b Hl (proj1 Hb) (proj2 Hb)) as (d' & E & Hc & Hsec).
  exists d'. split; [exact E|]. split; [exact Hb|]. constructor; [exact Hc|]. intros p Hp. unfold disk_byte. rewrite Hsec.
  destruct (Z.eqb_spec (p / 512) (off / 512)) as [Ep|Hne].
  - unfold b. rewrite znth_blit by dlia. rewrite Ep.
    assert (Hr : (off <=? p) && (p <? off + zlen src) = (off mod 512 <=? p mod 512) && (p mod 512 <? off mod 512 + zlen src))
      by now apply same_block_range. rewrite Hr.
    destruct ((off mod 512 <=? p mod 512) && (p mod 512 <? off mod 512 + zlen src)) eqn:Ein.
    + do 2 f_equal. clear - Ep. dlia.
    + rewrite Hread; [reflexivity|]. apply orb_true_iff. rewrite !Z.ltb_lt.
      destruct (Z.eq_dec (off mod 512) 0) as [E0|]; [|left; lia]. right. destruct (Z.lt_ge_cases (zlen src) 512); [assumption|].
      exfalso. assert (p mod 512 < 512) by dlia. assert (0 <= p mod 512) by dlia. lia.
  - destruct (_ && _) eqn:Ein; [|reflexivity]. exfalso. apply andb_true_iff in Ein as [E1 E2].
    apply Z.leb_le in E1. apply Z.ltb_lt in E2. apply Hne. clear - Ho Hfit E1 E2 Hm. dlia.
Qed.

Lemma blk_write_loop_spec sc fuel : forall d off buf bounce tot,
  sc <= bd_count d -> bd_count d < 2 ^ 54 -> 0 <= off < 2 ^ 63 -> Forall byte buf -> buffer_ok bounce ->
  (0 < zlen buf -> off mod 512 + zlen buf <= 512 * Z.of_nat fuel) ->
  let n := blk_avail sc off (zlen buf) in
  exists d', blk_write_loop fuel d sc (off / 512) (off mod 512) off buf bounce tot =
      Ok (mkWrite 0 (tot + n) (off + n), d') /\ patched d d' off (slice buf 0 n).
Proof.
  induction fuel as [|fuel IH]; intros d off buf bounce tot Hsc H54 Ho Hb Hbn Hf n; cbn [blk_write_loop]; pose proof (zlen_nonneg buf) as Hnn;
    pose proof (Z.mod_pos_bound off 512 ltac:(lia)); destruct (Z.ltb_spec 0 (zlen buf)), (Z.ltb_spec (off / 512) sc); cbn [andb].
  1: lia.
  4:{ unfold BLK_SECTOR_SIZE. fold (chunk_at off (zlen buf)).
      destruct (chunk_at_spec off (zlen buf) ltac:(lia)) as (Hch & Hfit & Hend). set (c := chunk_at off (zlen buf)) in *.
      assert (Hsl : zlen (slice buf 0 c) = c) by (apply zlen_slice; lia).
      set (partial := (0 <? off mod 512) || (zlen buf <? 512)).
      assert (Hrd : exists b0, (if partial then bd_read (off / 512) 1 d else (0, bounce)) = (0, b0) /\ buffer_ok b0 /\
        ((0 <? off mod 512) || (c <? 512) = true -> b0 = bd_sector d (off / 512))).
      { assert (Hpc : (0 <? off mod 512) || (c <? 512) = true -> partial = true).
        { unfold partial. rewrite !orb_true_iff, !Z.ltb_lt. intros [|]; [auto|]. destruct Hend; [right; lia|left; lia]. }
        destruct partial; [exists (bd_sector d (off / 512)); split; [apply read_one; dlia|]; split; [apply bd_sector_len; dlia|auto]|].
        exists bounce. split; [reflexivity|]. split; [exact Hbn|]. intros Hx. specialize (Hpc Hx). discriminate. }
      destruct Hrd as (b0 & -> & Hb0 & Hpart). cbn [Z.eqb negb].
      destruct (write_sector d off (slice buf 0 c) b0) as (d1 & E1 & Hb1 & P1); try (rewrite ?Hsl; auto using Forall_slice; dlia).
      rewrite E1. cbn [Z.eqb negb]. rewrite (u64_id (off + c)), (u64_id (off / 512 + 1)) by dlia.
      set (buf' := skipn (Z.to_nat c) buf). assert (Hl' : zlen buf' = zlen buf - c) by (unfold buf', zlen in *; rewrite length_skipn; lia).
      pose proof (pa_count _ _ _ _ P1) as Hc1.
      destruct Hend as [E|E].
      - assert (Hn : n = c) by (unfold n, blk_avail; dlia). rewrite Hn. exists d1.
        destruct fuel; cbn [blk_write_loop]; rewrite Hl'; replace (zlen buf - c) with 0 by lia; cbn [Z.ltb Z.compare andb]; auto.
      - assert (Hn : n = c + blk_avail sc (off + c) (zlen buf')) by (unfold n, blk_avail; rewrite Hl'; dlia).
        destruct (IH d1 (off + c) buf' (blit b0 (off mod 512) (slice buf 0 c)) (tot + c)) as (d2 & E2 & P2); auto; try lia;
          [dlia|now apply Forall_drop|rewrite Hl'; dlia|].
        exists d2. replace (off / 512 + 1) with ((off + c) / 512) by dlia. replace 0 with ((off + c) mod 512) at 1 by dlia.
        rewrite E2. split; [rewrite Hn, !Z.add_assoc; reflexivity|]. rewrite Hn, slice_split by (unfold blk_avail; lia).
        apply (patched_trans d d1 d2); auto; [lia|]. now rewrite Hsl. }
  all: assert (Hn : n = 0) by (unfold n, blk_avail; dlia); rewrite Hn; exists d; rewrite !Z.add_0_r; split; [reflexivity|]; apply patched_nil.
Qed.

Lemma blk_fuel_enough off n : 0 <= n -> off mod 512 + n <= 512 * Z.of_nat (blk_fuel n).
Proof. intros Hn. unfold blk_fuel, BLK_SECTOR_SIZE. rewrite !Nat2Z.inj_succ, Z2Nat.id by dlia. dlia. Qed.

(** C38: Writing a block device as a file stores the part of the buffer that fits
    on the device at the byte offset, in whichever way it straddles sectors, and
    changes no other byte of the device; reading the same range gives it back. *)
Theorem blk_write_read_roundtrip d sector_count off buf bounce :
  sector_count <= bd_count d -> bd_count d < 2 ^ 54 -> 0 <= off < 2 ^ 63 -> Forall byte buf -> buffer_ok bounce ->
  let n := blk_avail sector_count off (zlen buf) in
  exists d', blk_vnode_write sector_count off buf bounce d = Ok (mkWrite 0 n (off + n), d') /\
    patched d d' off (slice buf 0 n) /\
    blk_vnode_read sector_count off n d' = Ok (mkRead 0 (slice buf 0 n) (off + n)).
Proof.
  intros Hsc H54 Ho Hb Hbn n. pose proof (zlen_nonneg buf) as Hnn.
  destruct (blk_write_loop_spec sector_count (blk_fuel (zlen buf)) d off buf bounce 0 Hsc H54 Ho Hb Hbn) as (d' & E & P);
    [intros _; now apply blk_fuel_enough|]. fold n in E, P. exists d'. split; [exact E|]. split; [exact P|].
  assert (Hn : 0 <= n <= zlen buf) by (unfold n, blk_avail; lia). pose proof (pa_count _ _ _ _ P) as Hc.
  unfold blk_vnode_read, BLK_SECTOR_SIZE. rewrite blk_read_loop_spec; try lia; [|intros _; apply blk_fuel_enough; lia].
  assert (Ha : blk_avail sector_count off n = n) by (unfold n, blk_avail; lia). rewrite Ha. cbn [app]. do 2 f_equal.
  assert (Hsl : zlen (slice buf 0 n) = n) by (apply zlen_slice; lia).
  apply znth_ext; [rewrite zlen_disk_bytes; lia|]. intros p Hp. rewrite zlen_disk_bytes in Hp by lia. rewrite znth_disk_bytes by lia.
  rewrite (pa_bytes _ _ _ _ P), Hsl by (unfold n, blk_avail in *; lia).
  destruct (Z.leb_spec off (off + p)), (Z.ltb_spec (off + p) (off + n)); try lia. cbn [andb].
  replace (off + p - off) with p by lia. destruct (znth_is_Some (slice buf 0 n) p) as [x ->]; [lia|reflexivity].
Qed.

End Correct.

(** Two bytes across the border of the first sectors of a disk. *)
Lemma blk_write_read_roundtrip_witness :
  exists d' : ram, blk_vnode_write 80 511 [1; 2] zero_buf ∅ = Ok (mkWrite 0 2 513, d') /\
    patched ∅ d' 511 [1; 2] /\ blk_vnode_read 80 511 2 d' = Ok (mkRead 0 [1; 2] 513).
Proof.
  apply (blk_write_read_roundtrip (∅ : ram) 80 511 [1; 2] zero_buf); try (cbn; unfold ram_count; lia).
  - repeat constructor; unfold byte; lia.
  - split; [reflexivity|]. apply Forall_replicate. unfold byte. lia.
Defined.
