(* ===== verification/Vfs.v ===== *)
(** * The virtual file system switch (src/kernel/fs/vfs.c)

    A vnode carries its type and the table of operations of its file system, any
    of which may be missing; [VnodeSystem] is what the switch needs of the file
    systems below it.  Paths are C strings: the bytes from the pointer to the end
    of the object, or no bytes for a null pointer. *)

From S2P Require Import Prelude Interfaces CString Kfs.

(** ** Interface to the file systems (src/include/vfs.h) *)

(** [struct vnode_ops] over vnodes [V] and a world [W] of file system state;
    error codes come back as [inl]. *)
Record vnode_ops (V W : Type) : Type := mkOps {
  op_read : option (V -> Z -> Z -> W -> outcome (read_result * W));
  op_write : option (V -> Z -> Z -> list Z -> W -> outcome (write_result * W));
  op_lookup : option (V -> list Z -> W -> outcome ((Z + V) * W));
  op_create : option (V -> list Z -> Z -> W -> outcome ((Z + V) * W));
  op_truncate : option (V -> W -> outcome ((Z + unit) * W));
  op_unlink : option (V -> list Z -> W -> outcome ((Z + unit) * W));
  op_rmdir : option (V -> list Z -> W -> outcome ((Z + unit) * W));
  op_getdents : option (V -> Z -> Z -> Z -> W -> outcome ((Z + (Z * option dirent * Z)) * W));
  op_close : option (V -> W -> outcome W)
}.
Arguments mkOps {V W}.
Arguments op_read {V W}.
Arguments op_write {V W}.
Arguments op_lookup {V W}.
Arguments op_create {V W}.
Arguments op_truncate {V W}.
Arguments op_unlink {V W}.
Arguments op_rmdir {V W}.
Arguments op_getdents {V W}.
Arguments op_close {V W}.

Class VnodeSystem (V W : Type) : Type := {
  vtype : V -> Z;
  vops : V -> option (vnode_ops V W);
  (** the variable [root_vnode] *)
  root_of : W -> option V;
  clear_root : W -> W;
  (** [tty_get_vnode] of src/kernel/fs/tty.c for the terminals 0 to 3 *)
  tty_get_vnode : Z -> V;
  (** [blk_get_vnode] of src/kernel/fs/blk.c *)
  blk_get_vnode : list Z -> W -> outcome (option V * W)
}.

(** [struct file] *)
Record file (V : Type) : Type := mkFile { f_vnode : V; f_offset : Z; f_flags : Z }.
Arguments mkFile {V}.
Arguments f_vnode {V}.
Arguments f_offset {V}.
Arguments f_flags {V}.
Definition sizeof_file : Z := 32.

Definition SLASH : Z := 47.

(** [while ( *path == '/') path++] *)
Fixpoint skip_slashes (p : list Z) : outcome (list Z) :=
  match p with
  | [] => Stop BadAccess
  | c :: r => if c =? SLASH then skip_slashes r else Ok p
  end.

(** [p[0] == pre[0] && p[1] == pre[1] && ...] *)
Fixpoint match_prefix (p pre : list Z) {struct pre} : outcome bool :=
  match pre with
  | [] => Ok true
  | x :: pre =>
    match p with
    | [] => Stop BadAccess
    | c :: r => if c =? x then match_prefix r pre else Ok false
    end
  end.

(** One component into [comp], which holds 255 characters and the terminator;
    [None] when it is longer. *)
Fixpoint take_comp (p : list Z) (len : Z) : outcome (option (list Z * list Z)) :=
  match p with
  | [] => Stop BadAccess
  | c :: r =>
    if (c =? 0) || (c =? SLASH) then Ok (Some ([], p))
    else if 255 <=? len then Ok None
    else
      let* t := take_comp r (len + 1) in
      Ok (match t with Some (comp, p') => Some (c :: comp, p') | None => None end)
  end.

Section Switch.
Context {V W : Type} `{VnodeSystem V W} `{KernelAlloc W}.

Definition res (X : Type) : Type := outcome ((Z + X) * W).

Definition vfs_init (w : W) : W := clear_root w.

(** The loop over the components. *)
Fixpoint walk (fuel : nat) (curr : V) (p : list Z) (w : W) : res V :=
  let* c := load p 0 in
  if c =? 0 then Ok (inr curr, w)
  else
    match fuel with
    | O => Stop NoFuel
    | S k =>
      let* t := take_comp p 0 in
      match t with
      | None => Ok (inl (- ENAMETOOLONG), w)
      | Some (comp, p) =>
        let* p := skip_slashes p in
        let* d := (if zlen comp =? 0 then Ok 0 else strcmp (str comp) DOT) in
        if d =? 0 then walk k curr p w
        else if negb (vtype curr =? VNODE_TYPE_DIR) then Ok (inl (- ENOTDIR), w)
        else
          match vops curr with
          | Some (mkOps _ _ (Some lookup) _ _ _ _ _ _) =>
            let* r := lookup curr (str comp) w in
            let '(next, w) := r in
            match next with
            | inl e => Ok (inl e, w)
            | inr next => walk k next p w
            end
          | _ => Ok (inl (- ENOTDIR), w)
          end
      end
    end.

Definition DEV_ : list Z := [100; 101; 118; 47].
Definition TTY : list Z := [116; 116; 121].
Definition HDA : list Z := str [104; 100; 97].

(** The paths below [dev/] that name devices. *)
Definition device_vnode (path : list Z) (w : W) : outcome (option V * W) :=
  let* dev := match_prefix path DEV_ in
  if dev then
    let* tty := match_prefix (skipn 4 path) TTY in
    let* n := (if tty then
                 let* c := load path 7 in
                 let tty_num := c - 48 in
                 if (0 <=? tty_num) && (tty_num <=? 3) then
                   let* z := load path 8 in
                   Ok (if z =? 0 then Some tty_num else None)
                 else Ok None
               else Ok None) in
    match n with
    | Some tty_num => Ok (Some (tty_get_vnode tty_num), w)
    | None =>
      let* d := strcmp (skipn 4 path) HDA in
      if d =? 0 then blk_get_vnode HDA w else Ok (None, w)
    end
  else Ok (None, w).

Definition vfs_resolve_path (path : option (list Z)) (w : W) : res V :=
  match root_of w with
  | None => Ok (inl (- ENOENT), w)
  | Some root =>
    match path with
    | None => Ok (inl (- EFAULT), w)
    | Some path =>
      let* plen := strlen path in
      let* trailing_slash := (if 0 <? plen then let* c := load path (plen - 1) in Ok (c =? SLASH) else Ok false) in
      let* path := skip_slashes path in
      let* c := load path 0 in
      if c =? 0 then Ok (inr root, w)
      else
      let* d := device_vnode path w in
      match d with
      | (Some vn, w) => Ok (inr vn, w)
      | (None, w) =>
        let* r := walk (length path) root path w in
        let '(r, w) := r in
        match r with
        | inl e => Ok (inl e, w)
        | inr curr =>
          if trailing_slash && negb (vtype curr =? VNODE_TYPE_DIR) then Ok (inl (- ENOTDIR), w)
          else Ok (inr curr, w)
        end
      end
    end
  end.

(** [while (end > 0 && path[end - 1] == '/') end--] *)
Fixpoint strip_slashes (path : list Z) (end_ : nat) : outcome nat :=
  match end_ with
  | O => Ok O
  | S k => let* c := load path (Z.of_nat k) in if c =? SLASH then strip_slashes path k else Ok end_
  end.

(** The search for the last slash among the first [n] bytes. *)
Fixpoint last_slash (path : list Z) (n : nat) : outcome (option nat) :=
  match n with
  | O => Ok None
  | S k => let* c := load path (Z.of_nat k) in if c =? SLASH then Ok (Some k) else last_slash path k
  end.

(** The parent vnode and the name, terminated, in a buffer of 256 bytes. *)
Definition vfs_resolve_parent (path : option (list Z)) (w : W) : res (V * list Z) :=
  match root_of w with
  | None => Ok (inl (- ENOENT), w)
  | Some root =>
    match path with
    | None => Ok (inl (- EFAULT), w)
    | Some path =>
      let* path := skip_slashes path in
      let* c := load path 0 in
      if c =? 0 then Ok (inl (- EINVAL), w)
      else
      let* n := strlen path in
      let* end_ := strip_slashes path (Z.to_nat n) in
      if (end_ =? 0)%nat then Ok (inl (- EINVAL), w)
      else
      let* ls := last_slash path end_ in
      match ls with
      | None =>
        if 256 <=? Z.of_nat end_ then Ok (inl (- ENAMETOOLONG), w)
        else Ok (inr (root, str (firstn end_ path)), w)
      | Some ls =>
        let name_len := Z.of_nat end_ - (Z.of_nat ls + 1) in
        if (name_len =? 0) || (256 <=? name_len) then Ok (inl (- EINVAL), w)
        else
        let name := slice path (Z.of_nat ls + 1) name_len in
        let* dir_len := strip_slashes path ls in
        if (dir_len =? 0)%nat then Ok (inr (root, str name), w)
        else if 256 <=? Z.of_nat dir_len then Ok (inl (- ENAMETOOLONG), w)
        else
        let* r := vfs_resolve_path (Some (str (firstn dir_len path))) w in
        let '(r, w) := r in
        match r with
        | inl e => Ok (inl e, w)
        | inr parent =>
          if negb (vtype parent =? VNODE_TYPE_DIR) then Ok (inl (- ENOTDIR), w)
          else Ok (inr (parent, str name), w)
        end
      end
    end
  end.

(** [strcmp(name, ".") == 0 || strcmp(name, "..") == 0] *)
Definition is_dots (name : list Z) : outcome bool :=
  let* d := strcmp name DOT in
  if d =? 0 then Ok true else let* d := strcmp name DOTDOT in Ok (d =? 0).

Definition DEV : list Z := str [100; 101; 118].

(** The creation of a file that [vfs_open] did not find. *)
Definition open_create (path : list Z) (w : W) : res V :=
  let* r := vfs_resolve_parent (Some path) w in
  let '(r, w) := r in
  match r with
  | inl e => Ok (inl e, w)
  | inr (parent, name) =>
    let* dots := is_dots name in
    if (dots : bool) then Ok (inl (- EINVAL), w)
    else
    let* d1 := strncmp name DEV_ 4 in
    let* d2 := (if d1 =? 0 then Ok 0 else strcmp name DEV) in
    if d2 =? 0 then Ok (inl (- EACCES), w)
    else
      match vops parent with
      | Some (mkOps _ _ _ (Some create) _ _ _ _ _) => create parent name VNODE_TYPE_FILE w
      | _ => Ok (inl (- ENOTSUP), w)
      end
  end.

(** [O_CREAT | O_EXCL] and [O_TRUNC] on a file that exists. *)
Definition open_existing (vn : V) (flags : Z) (w : W) : res V :=
  if Z.land flags (Z.lor O_CREAT O_EXCL) =? Z.lor O_CREAT O_EXCL then Ok (inl (- EEXIST), w)
  else if has flags O_TRUNC && negb (Z.land flags (Z.lor O_WRONLY O_RDWR) =? 0) then
    match vops vn with
    | Some (mkOps _ _ _ _ (Some truncate) _ _ _ _) =>
      let* r := truncate vn w in
      let '(r, w) := r in
      match r with inl e => Ok (inl e, w) | inr _ => Ok (inr vn, w) end
    | _ => Ok (inr vn, w)
    end
  else Ok (inr vn, w).

(** The result is the address of the new [struct file] and its content. *)
Definition vfs_open (path : option (list Z)) (flags : Z) (w : W) : res (Z * file V) :=
  match path with
  | None => Ok (inl (- EFAULT), w)
  | Some path =>
    let* r := vfs_resolve_path (Some path) w in
    let '(r, w) := r in
    let* r :=
      match r with
      | inl e => if (e =? - ENOENT) && has flags O_CREAT then open_create path w else Ok (inl e, w)
      | inr vn => open_existing vn flags w
      end in
    let '(r, w) := r in
    match r with
    | inl e => Ok (inl e, w)
    | inr vn =>
      if negb (vtype vn =? VNODE_TYPE_FILE) && negb (vtype vn =? VNODE_TYPE_DIR) then Ok (inl (- EINVAL), w)
      else
        let '(f, w) := ka_alloc sizeof_file w in
        if f =? 0 then Ok (inl (- ENOMEM), w) else Ok (inr (f, mkFile vn 0 flags), w)
    end
  end.

(** The parent and name of [path], the names "." and ".." refused. *)
Definition named_parent (path : option (list Z)) (w : W) : res (V * list Z) :=
  match path with
  | None => Ok (inl (- EFAULT), w)
  | Some path =>
    let* r := vfs_resolve_parent (Some path) w in
    let '(r, w) := r in
    match r with
    | inl e => Ok (inl e, w)
    | inr (parent, name) =>
      let* dots := is_dots name in
      if (dots : bool) then Ok (inl (- EINVAL), w) else Ok (inr (parent, name), w)
    end
  end.

Definition vfs_mkdir (path : option (list Z)) (w : W) : res unit :=
  let* r := named_parent path w in
  let '(r, w) := r in
  match r with
  | inl e => Ok (inl e, w)
  | inr (parent, name) =>
    let* l :=
      match vops parent with
      | Some (mkOps _ _ (Some lookup) _ _ _ _ _ _) =>
        let* l := lookup parent name w in
        Ok (match fst l with inr _ => true | inl _ => false end, snd l)
      | _ => Ok (false, w)
      end in
    let '(exists_, w) := l in
    if (exists_ : bool) then Ok (inl (- EEXIST), w)
    else
      match vops parent with
      | Some (mkOps _ _ _ (Some create) _ _ _ _ _) =>
        let* c := create parent name VNODE_TYPE_DIR w in
        Ok (match fst c with inl e => inl e | inr _ => inr tt end, snd c)
      | _ => Ok (inl (- ENOTSUP), w)
      end
  end.

Definition vfs_unlink (path : option (list Z)) (w : W) : res unit :=
  let* r := named_parent path w in
  let '(r, w) := r in
  match r with
  | inl e => Ok (inl e, w)
  | inr (parent, name) =>
    match vops parent with
    | Some (mkOps _ _ _ _ _ (Some unlink) _ _ _) => unlink parent name w
    | _ => Ok (inl (- ENOTSUP), w)
    end
  end.

Definition vfs_rmdir (path : option (list Z)) (w : W) : res unit :=
  let* r := named_parent path w in
  let '(r, w) := r in
  match r with
  | inl e => Ok (inl e, w)
  | inr (parent, name) =>
    match vops parent with
    | Some (mkOps _ _ _ _ _ _ (Some rmdir) _ _) => rmdir parent name w
    | _ => Ok (inl (- ENOTSUP), w)
    end
  end.

(** [dirp] points to [dirp_size] bytes. *)
Definition vfs_getdents (f : option (file V)) (dirp_size count : Z) (w : W) : res (Z * option dirent * Z) :=
  match f with
  | None => Ok (inl (- EBADF), w)
  | Some f =>
    if negb (vtype (f_vnode f) =? VNODE_TYPE_DIR) then Ok (inl (- ENOTDIR), w)
    else
      match vops (f_vnode f) with
      | None => Stop BadAccess
      | Some ops =>
        match op_getdents ops with
        | None => Ok (inl (- EINVAL), w)
        | Some getdents => getdents (f_vnode f) (f_offset f) dirp_size count w
        end
      end
  end.

Definition vfs_read (f : option (file V)) (count : Z) (w : W) : outcome (read_result * W) :=
  match f with
  | None => Ok (mkRead (- EBADF) [] 0, w)
  | Some f =>
    match vops (f_vnode f) with
    | None => Stop BadAccess
    | Some ops =>
      match op_read ops with
      | None => Ok (mkRead (- EINVAL) [] (f_offset f), w)
      | Some read => read (f_vnode f) (f_offset f) count w
      end
    end
  end.

Definition vfs_write (f : option (file V)) (buf : list Z) (w : W) : outcome (write_result * W) :=
  match f with
  | None => Ok (mkWrite (- EBADF) 0 0, w)
  | Some f =>
    match vops (f_vnode f) with
    | None => Stop BadAccess
    | Some ops =>
      match op_write ops with
      | None => Ok (mkWrite (- EINVAL) 0 (f_offset f), w)
      | Some write => write (f_vnode f) (f_offset f) (f_flags f) buf w
      end
    end
  end.

(** [p] is the address of [f]. *)
Definition vfs_close (p : Z) (f : option (file V)) (w : W) : res unit :=
  match f with
  | None => Ok (inl (- EBADF), w)
  | Some f =>
    match vops (f_vnode f) with
    | None => Stop BadAccess
    | Some ops =>
      let* w := match op_close ops with Some close => close (f_vnode f) w | None => Ok w end in
      Ok (inr tt, ka_free p w)
    end
  end.

End Switch.
