(* ===== verification/VfsProofs.v ===== *)
(** * Correctness of the virtual file system switch

    A path denotes the list of its components.  [walk_spec] looks the components
    up one after the other; [vfs_resolve_path] is shown to do that for every
    terminated path, and [vfs_resolve_parent] to split off the last component. *)

From S2P Require Import Prelude Interfaces CString Kfs Vfs.

(** ** Paths *)

(** The pieces between slashes; empty ones do not count. *)
Fixpoint split_path (t : list Z) : list (list Z) :=
  match t with
  | [] => [[]]
  | c :: r =>
    if c =? SLASH then [] :: split_path r
    else match split_path r with comp :: rest => (c :: comp) :: rest | [] => [[c]] end
  end.

Definition nonempty (l : list Z) : bool := match l with [] => false | _ => true end.
Definition components (t : list Z) : list (list Z) := List.filter nonempty (split_path t).

Fixpoint drop_slashes (t : list Z) : list Z :=
  match t with [] => [] | c :: r => if c =? SLASH then drop_slashes r else t end.

(** The first component and what follows it. *)
Fixpoint head_comp (t : list Z) : list Z * list Z :=
  match t with
  | [] => ([], [])
  | c :: r => if c =? SLASH then ([], t) else let '(a, b) := head_comp r in (c :: a, b)
  end.

Definition no_slash (t : list Z) : Prop := Forall (fun c => c <> SLASH) t.

Lemma split_path_nonnil t : split_path t <> [].
Proof. destruct t as [|c t]; cbn; [done|]. destruct (c =? SLASH); [done|]. now destruct (split_path t). Qed.

Lemma split_path_app_slash a b : split_path (a ++ SLASH :: b) = split_path a ++ split_path b.
Proof.
  induction a as [|c a IH]; cbn [app split_path]; [reflexivity|]. destruct (c =? SLASH); [now rewrite IH|].
  rewrite IH. destruct (split_path a) eqn:E; [now apply split_path_nonnil in E|reflexivity].
Qed.

Lemma split_path_no_slash t : no_slash t -> split_path t = [t].
Proof.
  induction 1 as [|c t Hc Ht IH]; [reflexivity|]. cbn [split_path]. rewrite IH.
  destruct (Z.eqb_spec c SLASH); [congruence|reflexivity].
Qed.

Lemma components_slash a b : components (a ++ SLASH :: b) = components a ++ components b.
Proof. unfold components. rewrite split_path_app_slash. apply filter_app. Qed.

Lemma components_drop t : components (drop_slashes t) = components t.
Proof.
  induction t as [|c t IH]; [reflexivity|]. cbn [drop_slashes]. destruct (Z.eqb_spec c SLASH) as [->|]; [|reflexivity].
  rewrite IH. change (SLASH :: t) with ([] ++ SLASH :: t). now rewrite components_slash.
Qed.

Lemma components_one t : no_slash t -> t <> [] -> components t = [t].
Proof. intros Hn Ht. unfold components. rewrite split_path_no_slash by exact Hn. destruct t; [congruence|reflexivity]. Qed.

Lemma head_comp_spec t : let '(a, b) := head_comp t in
  t = a ++ b /\ no_slash a /\ (b = [] \/ exists r, b = SLASH :: r) /\ (t <> [] -> drop_slashes t = t -> a <> []).
Proof.
  induction t as [|c t IH]; cbn [head_comp]; [repeat split; auto; constructor|].
  destruct (Z.eqb_spec c SLASH) as [->|Hc].
  - split; [reflexivity|]. split; [constructor|]. split; [eauto|]. intros _ E. exfalso. cbn in E. apply (f_equal (@length Z)) in E.
    assert (length (drop_slashes t) <= length t)%nat; [|cbn in E; lia].
    clear. induction t as [|x t IH]; cbn; [lia|]. destruct (x =? SLASH); cbn; lia.
  - destruct (head_comp t) as [a b]. destruct IH as (E & Hn & Hb & _).
    split; [cbn; congruence|]. split; [now constructor|]. split; [exact Hb|done].
Qed.

(** The component in front. *)
Lemma components_step t :
  t <> [] -> drop_slashes t = t ->
  components t = fst (head_comp t) :: components (drop_slashes (snd (head_comp t))).
Proof.
  intros Ht Hd. pose proof (head_comp_spec t) as Hh. destruct (head_comp t) as [a b]. cbn [fst snd].
  destruct Hh as (E & Hn & Hb & Ha). specialize (Ha Ht Hd). rewrite components_drop. subst t. destruct Hb as [->|[r ->]].
  - rewrite app_nil_r. now rewrite components_one.
  - rewrite components_slash, components_one by assumption.
    change (SLASH :: r) with ([] ++ SLASH :: r). rewrite components_slash. reflexivity.
Qed.

Lemma drop_slashes_idem t : drop_slashes (drop_slashes t) = drop_slashes t.
Proof. induction t as [|c t IH]; [reflexivity|]. cbn. destruct (c =? SLASH) eqn:E; [exact IH|]. cbn. now rewrite E. Qed.

Lemma drop_slashes_length t : (length (drop_slashes t) <= length t)%nat.
Proof. induction t as [|c t IH]; cbn; [lia|]. destruct (c =? SLASH); cbn; lia. Qed.

(** ** The character loops *)
Lemma skip_slashes_spec p t : cstr p = Some t -> exists p', skip_slashes p = Ok p' /\ cstr p' = Some (drop_slashes t).
Proof.
  revert t. induction p as [|c p IH]; intros t; [discriminate|]. cbn [cstr skip_slashes].
  destruct (Z.eqb_spec c 0) as [->|Hc].
  - intros [= <-]. change (0 =? SLASH) with false. exists (0 :: p). auto.
  - destruct (cstr p) as [u|] eqn:Eu; [|discriminate]. intros [= <-]. cbn [drop_slashes].
    destruct (c =? SLASH) eqn:Es; [now apply IH|]. exists (c :: p). split; [reflexivity|]. cbn [cstr].
    destruct (Z.eqb_spec c 0); [congruence|]. now rewrite Eu.
Qed.

Lemma load_0 p t : cstr p = Some t -> load p 0 = Ok (match t with [] => 0 | c :: _ => c end) /\ (t <> [] -> hd 0 t <> 0).
Proof.
  destruct p as [|c p]; [discriminate|]. cbn [cstr]. destruct (Z.eqb_spec c 0) as [->|Hc]; [intros [= <-]; now split|].
  destruct (cstr p); [|discriminate]. intros [= <-]. now split.
Qed.

Lemma take_comp_spec p t len :
  cstr p = Some t -> let '(a, b) := head_comp t in
  if 255 <? len + zlen a then len <= 255 -> take_comp p len = Ok None
  else exists p', take_comp p len = Ok (Some (a, p')) /\ cstr p' = Some b.
Proof.
  revert t len. induction p as [|c p IH]; intros t len; [discriminate|]. cbn [cstr take_comp].
  destruct (Z.eqb_spec c 0) as [->|Hc]; cbn [orb].
  - intros [= <-]. cbn [head_comp]. change (zlen []) with 0. rewrite Z.add_0_r. destruct (Z.ltb_spec 255 len); [lia|].
    exists (0 :: p). auto.
  - destruct (cstr p) as [u|] eqn:Eu; [|discriminate]. intros [= <-]. cbn [head_comp]. destruct (Z.eqb_spec c SLASH) as [->|Hs].
    + change (zlen []) with 0. rewrite Z.add_0_r. destruct (Z.ltb_spec 255 len); [lia|]. eexists. split; [reflexivity|].
      cbn [cstr]. destruct (Z.eqb_spec SLASH 0); [congruence|]. now rewrite Eu.
    + specialize (IH u (len + 1) eq_refl). destruct (head_comp u) as [a b].
      assert (Hz : zlen (c :: a) = zlen a + 1) by (unfold zlen; cbn; lia). pose proof (zlen_nonneg a).
      rewrite Hz. replace (len + (zlen a + 1)) with (len + 1 + zlen a) by lia.
      destruct (Z.ltb_spec 255 (len + 1 + zlen a)).
      * intros Hle. destruct (Z.leb_spec 255 len); [reflexivity|]. now rewrite IH by lia.
      * destruct IH as (p' & Ep & Hp'). destruct (Z.leb_spec 255 len); [lia|]. rewrite Ep. eauto.
Qed.

Lemma cstr_cons c p t : cstr (c :: p) = Some t -> c = 0 /\ t = [] \/ c <> 0 /\ exists u, cstr p = Some u /\ t = c :: u.
Proof.
  cbn [cstr]. destruct (Z.eqb_spec c 0) as [->|Hc]; [intros [= <-]; auto|].
  destruct (cstr p) as [u|]; [|discriminate]. intros [= <-]. right. eauto.
Qed.

(** [match_prefix] decides whether the string starts with [pre]; what follows is
    again a string. *)
Lemma match_prefix_spec pre : Forall (fun c => c <> 0) pre -> forall p t, cstr p = Some t ->
  (exists u, t = pre ++ u /\ match_prefix p pre = Ok true /\ cstr (skipn (length pre) p) = Some u) \/
  (match_prefix p pre = Ok false /\ forall u, t <> pre ++ u).
Proof.
  induction 1 as [|x pre Hx Hpre IH]; intros p t Hp; [left; exists t; split; [reflexivity|split; [reflexivity|exact Hp]]|].
  destruct p as [|c p]; [discriminate|]. cbn [match_prefix length skipn].
  destruct (cstr_cons c p t Hp) as [[-> ->]|[Hc (u & Eu & ->)]].
  - right. destruct (Z.eqb_spec 0 x); [congruence|]. split; [reflexivity|discriminate].
  - destruct (Z.eqb_spec c x) as [->|Hne].
    + destruct (IH p u Eu) as [(v & -> & E & Ev)|[E Hno]]; [left; eauto|]. right. split; [exact E|].
      intros v [= Hv]. now apply (Hno v).
    + right. split; [reflexivity|]. intros v [= Hv _]. congruence.
Qed.

(** ** Devices *)
Inductive device : Type := Tty (n : Z) | Hda.

Definition device_of (t : list Z) : option device :=
  if bool_decide (t = DEV_ ++ [104; 100; 97]) then Some Hda
  else if bool_decide (firstn 7 t = DEV_ ++ TTY) then
    match skipn 7 t with
    | [d] => if (48 <=? d) && (d <=? 51) then Some (Tty (d - 48)) else None
    | _ => None
    end
  else None.

Section Switch.
Context {V W : Type} `{VnodeSystem V W} `{KernelAlloc W}.

Definition open_device (d : device) (w : W) : outcome (option V * W) :=
  match d with Tty n => Ok (Some (tty_get_vnode n), w) | Hda => blk_get_vnode HDA w end.

Lemma tty_number path u :
  cstr path = Some (DEV_ ++ TTY ++ u) ->
  (let* c := load path 7 in
   if (0 <=? c - 48) && (c - 48 <=? 3) then
     let* z := load path 8 in Ok (if z =? 0 then Some (c - 48) else None)
   else Ok None) =
  Ok (match u with [d] => if (48 <=? d) && (d <=? 51) then Some (d - 48) else None | _ => None end).
Proof.
  intros Hp. assert (Hsplit : exists q, path = DEV_ ++ TTY ++ q /\ cstr q = Some u).
  { revert Hp. generalize u. cbn [app DEV_ TTY].
    do 7 (destruct path as [|? path]; [discriminate|]; let E := fresh in intros ? E;
      apply cstr_cons in E as [[? ?]|[? (? & E & [= <- ?])]]; [discriminate|]; subst; revert E; generalize dependent u).
    eauto. }
  destruct Hsplit as (q & -> & Hq). destruct q as [|d q]; [discriminate|].
  change (load (DEV_ ++ TTY ++ d :: q) 7) with (Ok d). cbn [obind].
  destruct (cstr_cons d q u Hq) as [[-> ->]|[Hd (v & Ev & ->)]]; [reflexivity|].
  assert (E : (0 <=? d - 48) && (d - 48 <=? 3) = (48 <=? d) && (d <=? 51)) by lia. cbn zeta. rewrite E.
  destruct ((48 <=? d) && (d <=? 51)); [|now destruct v].
  destruct q as [|z q]; [discriminate|]. change (load (DEV_ ++ TTY ++ d :: z :: q) 8) with (Ok z). cbn [obind].
  destruct (cstr_cons z q v Ev) as [[-> ->]|[Hz (x & Ex & ->)]]; [reflexivity|]. destruct (Z.eqb_spec z 0); [congruence|reflexivity].
Qed.

Lemma device_of_tty u :
  device_of (DEV_ ++ TTY ++ u) =
  match u with [d] => if (48 <=? d) && (d <=? 51) then Some (Tty (d - 48)) else None | _ => None end.
Proof.
  unfold device_of. rewrite bool_decide_eq_false_2 by (cbn; congruence). cbn [app DEV_ TTY firstn].
  rewrite bool_decide_eq_true_2 by reflexivity. reflexivity.
Qed.

Lemma device_of_hda u : (forall v, u <> TTY ++ v) -> device_of (DEV_ ++ u) = if bool_decide (u = [104; 100; 97]) then Some Hda else None.
Proof.
  intros Hu. unfold device_of. destruct (decide (u = [104; 100; 97])) as [->|Hn]; [reflexivity|].
  rewrite (bool_decide_eq_false_2 (u = _)) by exact Hn.
  rewrite bool_decide_eq_false_2 by (intros [= E]; congruence).
  rewrite bool_decide_eq_false_2; [reflexivity|]. cbn [app DEV_ TTY firstn]. intros [= E]. apply (Hu (skipn 3 u)).
  rewrite <- (firstn_skipn 3 u) at 1. now rewrite E.
Qed.

Lemma device_of_none t : (forall u, t <> DEV_ ++ u) -> device_of t = None.
Proof.
  intros Ht. unfold device_of. rewrite bool_decide_eq_false_2 by apply Ht. rewrite bool_decide_eq_false_2; [reflexivity|].
  intros E. apply (Ht (TTY ++ skipn 7 t)). rewrite app_assoc, <- E. now rewrite firstn_skipn.
Qed.

(** The test for device names, on every string. *)
Lemma device_vnode_spec path t w :
  cstr path = Some t ->
  device_vnode path w = match device_of t with Some d => open_device d w | None => Ok (None, w) end.
Proof.
  intros Hp. unfold device_vnode.
  destruct (match_prefix_spec DEV_ ltac:(repeat constructor; lia) path t Hp) as [(u & -> & E & Hu)|[E Hno]]; rewrite E, obind_Ok; cbv iota.
  2:{ now rewrite device_of_none. }
  change (length DEV_) with 4%nat in Hu.
  destruct (match_prefix_spec TTY ltac:(repeat constructor; lia) _ u Hu) as [(v & -> & Et & _)|[Et Hno]]; rewrite Et, obind_Ok; cbv iota.
  - rewrite (tty_number path v) by exact Hp. rewrite obind_Ok. rewrite device_of_tty.
    assert (Hc : exists d, strcmp (skipn 4 path) HDA = Ok d /\ d <> 0).
    { destruct (strcmp_spec (skipn 4 path) HDA (TTY ++ v) [104; 100; 97] Hu eq_refl) as (d & Ed & Hd).
      exists d. split; [exact Ed|]. intros E0. apply Hd in E0. discriminate. }
    destruct Hc as (d & Ed & Hd). destruct v as [|x [|y v]].
    + rewrite Ed. cbn [obind]. now rewrite (proj2 (Z.eqb_neq _ _) Hd).
    + destruct ((48 <=? x) && (x <=? 51)); [reflexivity|]. rewrite Ed. cbn [obind]. now rewrite (proj2 (Z.eqb_neq _ _) Hd).
    + rewrite Ed. cbn [obind]. now rewrite (proj2 (Z.eqb_neq _ _) Hd).
  - rewrite device_of_hda by exact Hno.
    destruct (strcmp_spec (skipn 4 path) HDA u [104; 100; 97] Hu eq_refl) as (d & -> & Hd). cbn [obind].
    case_bool_decide as Eu; [rewrite (proj2 Hd Eu); cbn [Z.eqb open_device]; reflexivity|].
    destruct (Z.eqb_spec d 0) as [E0|]; [now apply Hd in E0|reflexivity].
Qed.

(** ** The walk *)

(** Looking the components up one after the other. *)
Fixpoint walk_spec (curr : V) (cs : list (list Z)) (w : W) : res V :=
  match cs with
  | [] => Ok (inr curr, w)
  | c :: cs =>
    if 255 <? zlen c then Ok (inl (- ENAMETOOLONG), w)
    else if bool_decide (c = [46]) then walk_spec curr cs w
    else if negb (vtype curr =? VNODE_TYPE_DIR) then Ok (inl (- ENOTDIR), w)
    else
      match vops curr with
      | Some (mkOps _ _ (Some lookup) _ _ _ _ _ _) =>
        let* r := lookup curr (str c) w in
        let '(next, w) := r in
        match next with inl e => Ok (inl e, w) | inr next => walk_spec next cs w end
      | _ => Ok (inl (- ENOTDIR), w)
      end
  end.

Lemma walk_spec_ok fuel : forall curr p t w,
  cstr p = Some t -> drop_slashes t = t -> (length t <= fuel)%nat ->
  walk fuel curr p w = walk_spec curr (components t) w.
Proof.
  induction fuel as [|fuel IH]; intros curr p t w Hp Hd Hf; cbn [walk]; destruct (load_0 p t Hp) as [-> Hnz]; cbn [obind].
  all: destruct t as [|c t]; [reflexivity|].
  { cbn in Hf. lia. }
  specialize (Hnz ltac:(done)). cbn [hd] in Hnz. destruct (Z.eqb_spec c 0) as [|_]; [congruence|].
  pose proof (head_comp_spec (c :: t)) as Hh. pose proof (take_comp_spec p (c :: t) 0 Hp) as Ht.
  rewrite (components_step (c :: t)) by (exact Hd || done). destruct (head_comp (c :: t)) as [a b] eqn:Eh. cbn [fst snd].
  destruct Hh as (E & Hns & Hb & Ha). specialize (Ha ltac:(done) Hd). rewrite Z.add_0_l in Ht. cbn [walk_spec].
  destruct (Z.ltb_spec 255 (zlen a)); [now rewrite Ht by lia|]. destruct Ht as (p1 & -> & Hp1). cbn [obind].
  destruct (skip_slashes_spec p1 b Hp1) as (p2 & -> & Hp2). cbn [obind].
  assert (Hlen : (length (drop_slashes b) <= fuel)%nat).
  { pose proof (drop_slashes_length b). apply (f_equal (@length Z)) in E. rewrite length_app in E.
    destruct a; [congruence|]. cbn in E, Hf. lia. }
  assert (Hz : Forall (fun x => x <> 0) (c :: t)) by (eapply cstr_nonzero; eauto).
  assert (Hcmp : exists d, (if zlen a =? 0 then Ok 0 else strcmp (str a) DOT) = Ok d /\ (d = 0 <-> a = [46])).
  { destruct (Z.eqb_spec (zlen a) 0); [destruct a; [congruence|unfold zlen in *; cbn in *; lia]|].
    apply strcmp_spec; [|reflexivity]. apply cstr_app. rewrite E in Hz. now apply Forall_app in Hz as [Hz _]. }
  destruct Hcmp as (d & -> & Hdot). cbn [obind]. case_bool_decide as Edot.
  - rewrite (proj2 Hdot Edot). cbn [Z.eqb]. apply IH; auto using drop_slashes_idem.
  - destruct (Z.eqb_spec d 0) as [E0|_]; [now apply Hdot in E0|]. destruct (negb (vtype curr =? VNODE_TYPE_DIR)); [reflexivity|].
    destruct (vops curr) as [[? ? [lookup|] ? ? ? ? ? ?]|]; try reflexivity.
    destruct (lookup curr (str a) w) as [[[e|next] w']|]; cbn [obind]; try reflexivity. apply IH; auto using drop_slashes_idem.
Qed.

(** ** Paths to vnodes *)

Definition trailing (t : list Z) : bool := match list.last t with Some c => c =? SLASH | None => false end.

(** Resolving the components of [t] from the root, the type checked if the path
    ends in a slash. *)
Definition resolve_walk (root : V) (t : list Z) (w : W) : res V :=
  let* r := walk_spec root (components t) w in
  let '(r, w) := r in
  match r with
  | inl e => Ok (inl e, w)
  | inr curr => if trailing t && negb (vtype curr =? VNODE_TYPE_DIR) then Ok (inl (- ENOTDIR), w) else Ok (inr curr, w)
  end.

Definition resolve_spec (root : V) (t : list Z) (w : W) : res V :=
  match drop_slashes t with
  | [] => Ok (inr root, w)
  | t' =>
    match device_of t' with
    | Some d =>
      let* o := open_device d w in
      match o with (Some vn, w) => Ok (inr vn, w) | (None, w) => resolve_walk root t w end
    | None => resolve_walk root t w
    end
  end.

Lemma last_char p t : cstr p = Some t -> 0 < zlen t -> exists c, load p (zlen t - 1) = Ok c /\ list.last t = Some c.
Proof.
  revert t. induction p as [|c p IH]; intros t Hp Hl; [discriminate|].
  destruct (cstr_cons c p t Hp) as [[-> ->]|[Hc (u & Eu & ->)]]; [unfold zlen in Hl; cbn in Hl; lia|].
  destruct u as [|x u].
  - exists c. split; reflexivity.
  - destruct (IH (x :: u) Eu) as (y & Ey & Hy); [unfold zlen; cbn; lia|]. exists y. split; [|exact Hy].
    rewrite <- Ey. unfold load, znth, zlen. cbn [length]. destruct (Z.leb_spec 0 (Z.of_nat (S (S (length u))) - 1)); [|lia].
    destruct (Z.leb_spec 0 (Z.of_nat (S (length u)) - 1)); [|lia].
    replace (Z.to_nat (Z.of_nat (S (S (length u))) - 1)) with (S (length u)) by lia.
    replace (Z.to_nat (Z.of_nat (S (length u)) - 1)) with (length u) by lia. reflexivity.
Qed.

Lemma resolve_path_ok path t w root :
  cstr path = Some t -> zlen t < 2 ^ 64 -> root_of w = Some root ->
  vfs_resolve_path (Some path) w = resolve_spec root t w.
Proof.
  intros Hp Hl Hr. unfold vfs_resolve_path, resolve_spec. rewrite Hr.
  rewrite (strlen_spec path t Hp Hl), obind_Ok.
  assert (Et : (if 0 <? zlen t then let* c := load path (zlen t - 1) in Ok (c =? SLASH) else Ok false) = Ok (trailing t)).
  { destruct (Z.ltb_spec 0 (zlen t)).
    - destruct (last_char path t Hp) as (c & -> & Ec); [assumption|]. cbn [obind]. unfold trailing. now rewrite Ec.
    - destruct t; [reflexivity|]. unfold zlen in *. cbn in *. lia. }
  rewrite Et, obind_Ok. destruct (skip_slashes_spec path t Hp) as (p' & -> & Hp'). rewrite obind_Ok.
  destruct (load_0 p' _ Hp') as [-> Hnz]. rewrite obind_Ok. destruct (drop_slashes t) as [|c t'] eqn:Ed; [reflexivity|].
  specialize (Hnz ltac:(done)). cbn [hd] in Hnz. destruct (Z.eqb_spec c 0) as [|_]; [congruence|].
  rewrite (device_vnode_spec p' (c :: t') w Hp').
  assert (Hwalk : forall w, walk (length p') root p' w = walk_spec root (components t) w).
  { intros w'. rewrite <- (components_drop t), Ed. apply walk_spec_ok; [exact Hp'|rewrite <- Ed; apply drop_slashes_idem|].
    pose proof (cstr_length _ _ Hp'). lia. }
  destruct (device_of (c :: t')) as [d|]; [destruct (open_device d w) as [[[vn|] w']|]; rewrite ?obind_Ok; [reflexivity| |reflexivity]|];
    rewrite ?obind_Ok; unfold resolve_walk; now rewrite Hwalk.
Qed.

(** ** Parents *)

(** The path without its last component, and that component; both without
    slashes around them. *)
Definition split_parent (t : list Z) : list Z * list Z :=
  let '(n, rest) := head_comp (drop_slashes (rev (drop_slashes t))) in
  (rev (drop_slashes rest), rev n).

Lemma cstr_split p t : cstr p = Some t -> exists q, p = t ++ 0 :: q.
Proof.
  revert t; induction p as [|c p IH]; intros t Hp; [discriminate|].
  destruct (cstr_cons c p t Hp) as [[-> ->]|[Hc (u & Eu & ->)]]; [now exists p|].
  destruct (IH u Eu) as [q ->]. now exists q.
Qed.

Lemma firstn_load t q k : (k < length t)%nat ->
  exists c, load (t ++ q) (Z.of_nat k) = Ok c /\ rev (firstn (S k) t) = c :: rev (firstn k t).
Proof.
  intros Hk. destruct (lookup_lt_is_Some_2 t k Hk) as [c Ec]. exists c. split.
  - unfold load, znth. destruct (Z.leb_spec 0 (Z.of_nat k)); [|lia]. rewrite Nat2Z.id, lookup_app_l by exact Hk. now rewrite Ec.
  - rewrite (take_S_r t k c Ec), rev_app_distr. reflexivity.
Qed.

Lemma strip_slashes_spec t q n : (n <= length t)%nat ->
  strip_slashes (t ++ q) n = Ok (length (drop_slashes (rev (firstn n t)))).
Proof.
  induction n as [|k IH]; intros Hn; [reflexivity|]. cbn [strip_slashes].
  destruct (firstn_load t q k) as (c & -> & Er); [lia|]. rewrite obind_Ok, Er. cbn [drop_slashes].
  destruct (c =? SLASH); [apply IH; lia|]. cbn [length]. rewrite length_rev, length_firstn. do 2 f_equal. lia.
Qed.

Lemma last_slash_spec t q n : (n <= length t)%nat ->
  last_slash (t ++ q) n = Ok (match snd (head_comp (rev (firstn n t))) with [] => None | _ :: r => Some (length r) end).
Proof.
  induction n as [|k IH]; intros Hn; [reflexivity|]. cbn [last_slash].
  destruct (firstn_load t q k) as (c & -> & Er); [lia|]. rewrite obind_Ok, Er. cbn [head_comp].
  destruct (c =? SLASH); [cbn [snd]; rewrite length_rev, length_firstn; do 3 f_equal; lia|].
  rewrite IH by lia. now destruct (head_comp (rev (firstn k t))).
Qed.

Lemma drop_slashes_suffix t : exists s, t = s ++ drop_slashes t /\ Forall (fun c => c = SLASH) s.
Proof.
  induction t as [|c t IH]; [exists []; split; [reflexivity|constructor]|]. cbn [drop_slashes]. destruct (Z.eqb_spec c SLASH) as [->|].
  - destruct IH as (s & E & Hs). exists (SLASH :: s). split; [cbn; congruence|now constructor].
  - exists []. split; [reflexivity|constructor].
Qed.

(** Cutting the slashes off the end. *)
Lemma rstrip_prefix u : let e := rev (drop_slashes (rev u)) in exists s, u = e ++ s /\ Forall (fun c => c = SLASH) s.
Proof.
  cbn zeta. destruct (drop_slashes_suffix (rev u)) as (s & E & Hs). exists (rev s). split; [|now apply Forall_rev].
  apply (f_equal (@rev Z)) in E. now rewrite rev_involutive, rev_app_distr in E.
Qed.

(** What [vfs_resolve_parent] computes. *)
Definition parent_spec (root : V) (t : list Z) (w : W) : res (V * list Z) :=
  let '(d, name) := split_parent t in
  match name, d with
  | [], _ => Ok (inl (- EINVAL), w)
  | _, [] => if 256 <=? zlen name then Ok (inl (- ENAMETOOLONG), w) else Ok (inr (root, str name), w)
  | _, _ =>
    if 256 <=? zlen name then Ok (inl (- EINVAL), w)
    else if 256 <=? zlen d then Ok (inl (- ENAMETOOLONG), w)
    else
      let* r := resolve_spec root d w in
      let '(r, w) := r in
      match r with
      | inl e => Ok (inl e, w)
      | inr parent => if negb (vtype parent =? VNODE_TYPE_DIR) then Ok (inl (- ENOTDIR), w) else Ok (inr (parent, str name), w)
      end
  end.

Definition slashes (s : list Z) : Prop := Forall (fun c => c = SLASH) s.

Lemma no_leading_slash u a b : drop_slashes u = u -> u = a ++ b -> Forall (fun c => c = SLASH) a -> a = [].
Proof.
  intros Hd E Ha. destruct a as [|c a]; [reflexivity|]. apply Forall_cons_iff in Ha as [-> _]. exfalso.
  rewrite E in Hd. cbn in Hd. apply (f_equal (@length Z)) in Hd. pose proof (drop_slashes_length (a ++ b)). cbn in Hd. lia.
Qed.

(** The shape of a path without leading slashes that is not empty. *)
Lemma split_parent_shape u :
  u <> [] -> drop_slashes u = u ->
  let R := drop_slashes (rev u) in
  let '(n, rest) := head_comp R in
  n <> [] /\ R = n ++ rest /\
  match rest with
  | [] => exists s, u = rev n ++ s /\ slashes s
  | c :: r => drop_slashes r <> [] /\ drop_slashes rest = drop_slashes r /\
      (exists s, u = rev r ++ SLASH :: rev n ++ s /\ slashes s) /\ exists s', rev r = rev (drop_slashes r) ++ s' /\ slashes s'
  end.
Proof.
  intros Hu Hd R. pose proof (head_comp_spec R) as Hh. destruct (rstrip_prefix u) as (s & Es & Hs). fold R in Es.
  assert (HR : R <> []).
  { intros E. rewrite E in Es. cbn in Es. apply Hu. rewrite Es. apply (no_leading_slash u s []); [exact Hd|now rewrite app_nil_r|exact Hs]. }
  destruct (head_comp R) as [n rest]. destruct Hh as (E & _ & Hrest & Hn).
  split; [apply Hn; [exact HR|apply drop_slashes_idem]|]. split; [exact E|].
  destruct Hrest as [->|[r ->]].
  - exists s. rewrite E, app_nil_r in Es. split; [exact Es|exact Hs].
  - rewrite E, rev_app_distr in Es. cbn [rev] in Es. rewrite <- !app_assoc in Es. cbn [app] in Es.
    destruct (rstrip_prefix (rev r)) as (s' & Es' & Hs'). rewrite rev_involutive in Es'.
    assert (Hr : drop_slashes r <> []).
    { intros E0. rewrite E0 in Es'. cbn in Es'. rewrite Es' in Es.
      assert (E1 : s' ++ [SLASH] = []); [|destruct s'; discriminate].
      apply (no_leading_slash u (s' ++ [SLASH]) (rev n ++ s)); [exact Hd| |].
      - rewrite Es, <- app_assoc. reflexivity.
      - apply Forall_app_2; [exact Hs'|repeat constructor]. }
    split; [exact Hr|]. split; [reflexivity|]. split; [exists s|exists s']; split; assumption.
Qed.

(** The bytes of the name and of the directory, when the path has a slash. *)
Lemma parent_slices u q n r s :
  u = rev r ++ SLASH :: rev n ++ s ->
  slice (u ++ 0 :: q) (Z.of_nat (length r) + 1) (zlen n) = rev n /\ firstn (length r) u = rev r.
Proof.
  intros ->. split.
  - unfold slice, zlen. replace (Z.to_nat (Z.of_nat (length r) + 1)) with (length (rev r ++ [SLASH]))%nat
      by (rewrite length_app, length_rev; cbn; lia). rewrite Nat2Z.id, <- (length_rev n).
    replace ((rev r ++ SLASH :: rev n ++ s) ++ 0 :: q) with ((rev r ++ [SLASH]) ++ rev n ++ s ++ 0 :: q)
      by (rewrite <- !app_assoc; cbn [app]; now rewrite <- app_assoc).
    now rewrite drop_app_length, take_app_length.
  - rewrite <- (length_rev r). apply take_app_length.
Qed.

Lemma rev_nonnil (l : list Z) : l <> [] -> rev l <> [].
Proof. intros Hl E. apply (f_equal (@rev Z)) in E. now rewrite rev_involutive in E. Qed.

Lemma rstrip_firstn u : firstn (length (drop_slashes (rev u))) u = rev (drop_slashes (rev u)).
Proof.
  destruct (rstrip_prefix u) as (s & Es & _). set (R := drop_slashes (rev u)) in *. rewrite Es at 1.
  rewrite firstn_app, length_rev, Nat.sub_diag, firstn_O, app_nil_r. apply firstn_all2. rewrite length_rev. lia.
Qed.

Lemma resolve_parent_ok path t w root :
  cstr path = Some t -> zlen t < 2 ^ 64 -> root_of w = Some root ->
  vfs_resolve_parent (Some path) w = parent_spec root t w.
Proof.
  intros Hp Hl Hr. unfold vfs_resolve_parent, parent_spec, split_parent. rewrite Hr.
  destruct (skip_slashes_spec path t Hp) as (p & -> & Hp'). rewrite obind_Ok. set (u := drop_slashes t) in *.
  destruct (load_0 p u Hp') as [-> Hnz]. rewrite obind_Ok.
  destruct (list_eq_dec Z.eq_dec u []) as [E0|Hu]; [rewrite E0; reflexivity|]. specialize (Hnz Hu).
  assert (Hul : (length u <= length t)%nat) by apply drop_slashes_length. assert (Hzu : zlen u < 2 ^ 64) by (unfold zlen in *; lia).
  rewrite (proj2 (Z.eqb_neq _ 0)) by (destruct u; [congruence|exact Hnz]).
  rewrite (strlen_spec p u Hp' Hzu), obind_Ok.
  assert (Hz : Forall (fun x => x <> 0) u) by (eapply cstr_nonzero; eauto).
  destruct (cstr_split p u Hp') as [q ->]. replace (Z.to_nat (zlen u)) with (length u) by (unfold zlen; lia).
  rewrite strip_slashes_spec, firstn_all, obind_Ok by lia.
  pose proof (split_parent_shape u Hu (drop_slashes_idem t)) as Hs. cbn zeta in Hs. set (R := drop_slashes (rev u)) in *.
  destruct (head_comp R) as [n rest] eqn:Eh. destruct Hs as (Hn & ER & Hs).
  destruct (Nat.eqb_spec (length R) 0) as [E|_]; [rewrite ER in E; destruct n; [congruence|discriminate]|].
  assert (HRu : (length R <= length u)%nat) by (pose proof (drop_slashes_length (rev u)) as E; rewrite length_rev in E; exact E).
  pose proof (rstrip_firstn u) as Hfirst. fold R in Hfirst.
  rewrite last_slash_spec by exact HRu. rewrite Hfirst, rev_involutive, Eh, obind_Ok. cbn [snd].
  case_eq (rev n); [intros Ern; now apply rev_nonnil in Ern|].
  intros n0 n' Ern. rewrite <- Ern.
  assert (Hnl : length (rev n) = length n) by apply length_rev.
  destruct rest as [|c r].
  - rewrite app_nil_r in ER. cbn [drop_slashes rev]. rewrite firstn_app, Hfirst.
    replace (length R - length u)%nat with O by lia. rewrite firstn_O, app_nil_r, ER.
    unfold zlen. rewrite Hnl. reflexivity.
  - destruct Hs as (Hdr & Edr & (s & Es & _) & (s' & Es' & _)). rewrite Edr.
    assert (Hlen : length R = (length n + S (length r))%nat) by (rewrite ER, length_app; reflexivity).
    replace (Z.of_nat (length R) - (Z.of_nat (length r) + 1)) with (zlen n) by (unfold zlen; lia).
    assert (Hn0 : (zlen n =? 0) = false) by (apply Z.eqb_neq; unfold zlen; destruct n; [congruence|cbn; lia]). rewrite Hn0. cbn [orb].
    destruct (parent_slices u q n r s Es) as [Hname Hfr]. rewrite Hname, strip_slashes_spec, Hfr, rev_involutive, obind_Ok by lia.
    case_eq (rev (drop_slashes r)); [intros Erd; now apply rev_nonnil in Erd|].
    intros d0 d' Erd. rewrite <- Erd. assert (Hdl : length (rev (drop_slashes r)) = length (drop_slashes r)) by apply length_rev.
    destruct (Nat.eqb_spec (length (drop_slashes r)) 0) as [E|_]; [rewrite Erd in Hdl; cbn in Hdl; lia|].
    assert (Hzd : zlen (rev (drop_slashes r)) = Z.of_nat (length (drop_slashes r))) by (unfold zlen; now rewrite Hdl).
    assert (Hdir : firstn (length (drop_slashes r)) (u ++ 0 :: q) = rev (drop_slashes r)).
    { rewrite Es, Es', <- Hdl, <- !app_assoc. apply take_app_length. }
    rewrite Hdir, Hzd. replace (zlen (rev n)) with (zlen n) by (unfold zlen; lia).
    destruct (256 <=? zlen n); [reflexivity|]. destruct (Z.leb_spec 256 (Z.of_nat (length (drop_slashes r)))); [reflexivity|].
    rewrite (resolve_path_ok (str (rev (drop_slashes r))) (rev (drop_slashes r)) w root); [reflexivity| |unfold zlen in *; lia|exact Hr].
    apply cstr_app. rewrite Es, Es', <- app_assoc in Hz. now apply Forall_app in Hz as [Hz _].
Qed.

Lemma components_rstrip a s : slashes s -> components (a ++ s) = components a.
Proof.
  intros Hs. destruct s as [|c s]; [now rewrite app_nil_r|]. apply Forall_cons_iff in Hs as [-> Hs].
  rewrite components_slash. assert (E : components s = []); [|now rewrite E, app_nil_r].
  rewrite <- components_drop. assert (E : drop_slashes s = []); [|now rewrite E].
  induction Hs as [|x s -> _ IH]; [reflexivity|exact IH].
Qed.

(** The last component and the ones before it. *)
Lemma split_parent_components t :
  let '(d, name) := split_parent t in
  components t = match name with [] => [] | _ => components d ++ [name] end /\ no_slash name.
Proof.
  unfold split_parent. rewrite <- (components_drop t). set (u := drop_slashes t).
  destruct (list_eq_dec Z.eq_dec u []) as [->|Hu]; [split; [reflexivity|constructor]|].
  pose proof (split_parent_shape u Hu (drop_slashes_idem t)) as Hs. cbn zeta in Hs.
  pose proof (head_comp_spec (drop_slashes (rev u))) as Hh. destruct (head_comp _) as [n rest]. destruct Hs as (Hn & _ & Hs).
  destruct Hh as (_ & Hno & _). assert (Hno' : no_slash (rev n)) by now apply Forall_rev.
  assert (Hrn : rev n <> []) by (intros E; apply (f_equal (@rev Z)) in E; rewrite rev_involutive in E; now apply Hn).
  split; [|exact Hno'].
  assert (Em : (match rev n with [] => [] | _ => components (rev (drop_slashes rest)) ++ [rev n] end) =
    components (rev (drop_slashes rest)) ++ [rev n]) by (destruct (rev n); [congruence|reflexivity]). rewrite Em. clear Em.
  destruct rest as [|c r].
  - destruct Hs as (s & -> & Hsl). rewrite components_rstrip by exact Hsl. now apply components_one.
  - destruct Hs as (_ & -> & (s & -> & Hsl) & s' & -> & Hsl'). rewrite components_slash, !components_rstrip by assumption.
    now rewrite (components_one (rev n)).
Qed.

(** C37: [vfs_resolve_path] of a terminated path denotes the walk over the components
    of the path: from the root, every component but "." is looked up in the vnode
    reached so far, which must be a directory, and the first error ends the walk;
    repeated slashes do not matter, a path that ends in a slash must lead to a
    directory, and "dev/tty0" to "dev/tty3" and "dev/hda" are the devices. *)
Theorem vfs_resolve_path_correct path t w root :
  cstr path = Some t -> zlen t < 2 ^ 64 -> root_of w = Some root ->
  vfs_resolve_path (Some path) w = resolve_spec root t w.
Proof. apply resolve_path_ok. Qed.

(** [vfs_resolve_parent] splits the last component off a path and resolves the
    components before it to a directory.  It fails with -EINVAL on a path without
    components, and with -ENAMETOOLONG or -EINVAL if a part exceeds 255 bytes. *)
Theorem vfs_resolve_parent_correct path t w root :
  cstr path = Some t -> zlen t < 2 ^ 64 -> root_of w = Some root ->
  let '(dir, name) := split_parent t in
  vfs_resolve_parent (Some path) w = parent_spec root t w /\
  components t = match name with [] => [] | _ => components dir ++ [name] end /\ no_slash name.
Proof.
  intros Hp Hl Hr. pose proof (split_parent_components t) as Hs. pose proof (resolve_parent_ok path t w root Hp Hl Hr).
  destruct (split_parent t). tauto.
Qed.

End Switch.
