(* ===== verification/VfsKfs.v ===== *)
(** * The switch over KFS, terminals and the disk

    [system] is the [VnodeSystem] of the running kernel: vnodes of KFS, of the
    terminals and of the block device that holds KFS.  The theorems about
    [vfs_resolve_path] and [vfs_resolve_parent] hold for every [VnodeSystem]; the
    last one follows a file from its creation through [vfs_open] to reading back
    what was written. *)

From S2P Require Import Prelude Bitmap Interfaces CString Kfs KfsProofs KfsFiles KfsCheck KfsDirs KfsTheorems Blk Vfs VfsProofs.

Inductive sys_vnode : Type := KfsNode (v : vnode) | TtyNode (n : Z) | BlkNode (dev : Z).

Definition map_node {W : Type} (o : outcome ((Z + vnode) * W)) : outcome ((Z + sys_vnode) * W) :=
  match o with
  | Ok (inl e, w) => Ok (inl e, w)
  | Ok (inr v, w) => Ok (inr (KfsNode v), w)
  | Stop e => Stop e
  end.

Section System.
Context {D A : Type} `{BlockDevice D} `{KernelAlloc A}.
(** the operations of src/kernel/fs/tty.c, and the table of block devices, in
    which the only device is the one KFS is mounted on *)
Context (tty_ops : vnode_ops sys_vnode (kfs D A)) (devs : blk_table).

Definition on_kfs {X : Type} (k : vnode -> X) (other : X) (v : sys_vnode) : X :=
  match v with KfsNode v => k v | _ => other end.

(** [kfs_vnode_ops] *)
Definition kfs_vnode_ops : vnode_ops sys_vnode (kfs D A) := {|
  op_read := Some (on_kfs kfs_vnode_read (fun _ _ _ => Stop BadAccess));
  op_write := Some (on_kfs kfs_vnode_write (fun _ _ _ _ => Stop BadAccess));
  op_lookup := Some (on_kfs (fun v n s => map_node (kfs_vnode_lookup v n s)) (fun _ _ => Stop BadAccess));
  op_create := Some (on_kfs (fun v n t s => map_node (kfs_vnode_create v n t s)) (fun _ _ _ => Stop BadAccess));
  op_truncate := Some (on_kfs kfs_vnode_truncate (fun _ => Stop BadAccess));
  op_unlink := Some (on_kfs kfs_vnode_unlink (fun _ _ => Stop BadAccess));
  op_rmdir := Some (on_kfs kfs_vnode_rmdir (fun _ _ => Stop BadAccess));
  op_getdents := Some (on_kfs kfs_vnode_getdents (fun _ _ _ _ => Stop BadAccess));
  op_close := Some (fun _ s => Ok s)
|}.

(** [blk_ops], on the device below KFS *)
Definition blk_ops : vnode_ops sys_vnode (kfs D A) := {|
  op_read := Some (fun _ offset count s =>
    let* r := blk_vnode_read (bd_count (k_dev s)) offset count (k_dev s) in Ok (r, s));
  op_write := Some (fun _ offset _ buf s =>
    let* r := blk_vnode_write (bd_count (k_dev s)) offset buf zero_buf (k_dev s) in
    Ok (fst r, with_dev s (snd r)));
  op_lookup := None;
  op_create := None;
  op_truncate := None;
  op_unlink := None;
  op_rmdir := None;
  op_getdents := None;
  op_close := Some (fun _ s => Ok s)
|}.

#[local] Instance system : VnodeSystem sys_vnode (kfs D A) := {
  vtype v := match v with KfsNode v => vn_type v | _ => VNODE_TYPE_FILE end;
  vops v := Some (match v with KfsNode _ => kfs_vnode_ops | TtyNode _ => tty_ops | BlkNode _ => blk_ops end);
  root_of s := option_map KfsNode (k_root s);
  clear_root s := mkKfs (k_sb s) (k_block_bitmap s) (k_inode_bitmap s) (k_dev s) (k_heap s) None;
  tty_get_vnode := TtyNode;
  blk_get_vnode name s :=
    let* r := Blk.blk_get_vnode devs name (k_heap s) in
    Ok (option_map BlkNode (fst r), with_heap s (snd r))
}.

#[local] Instance system_alloc : KernelAlloc (kfs D A) := {
  ka_alloc n s := (fst (ka_alloc n (k_heap s)), with_heap s (snd (ka_alloc n (k_heap s))));
  ka_free p s := with_heap s (ka_free p (k_heap s))
}.

End System.

(** ** Names in the root directory *)
Section TopLevel.
Context {D A : Type} `{BlockDeviceLaws D} `{RefusalLogLaws A}.
Context (tty_ops : vnode_ops sys_vnode (kfs D A)) (devs : blk_table).
#[local] Existing Instance system.
#[local] Existing Instance system_alloc.
#[local] Instance the_system : VnodeSystem sys_vnode (kfs D A) := system tty_ops devs.

(** "/name" *)
Definition top_path (name : list Z) : list Z := SLASH :: str name.

(** A name that can be created: not "dev", "." or "..". *)
Record plain_name (name : list Z) : Prop := {
  pn_ok : name_ok name;
  pn_slash : no_slash name;
  pn_dot : name <> [46];
  pn_dotdot : name <> [46; 46];
  pn_dev : name <> [100; 101; 118]
}.

Lemma plain_facts name : plain_name name ->
  name <> [] /\ cstr (top_path name) = Some (SLASH :: name) /\ zlen (SLASH :: name) < 2 ^ 64 /\
  drop_slashes (SLASH :: name) = name /\ components (SLASH :: name) = [name] /\ device_of name = None /\
  trailing (SLASH :: name) = false.
Proof.
  intros [[Hc Hl] Hs _ _ _]. assert (Hn : name <> []) by (intros ->; unfold zlen in Hl; cbn in Hl; lia).
  assert (Hd : drop_slashes name = name).
  { destruct name as [|c name]; [reflexivity|]. apply Forall_cons_iff in Hs as [Hs _]. cbn. now destruct (Z.eqb_spec c SLASH). }
  split; [exact Hn|]. split; [|split; [|split; [|split; [|split]]]].
  - unfold top_path. cbn [cstr]. change (SLASH =? 0) with false. cbv iota.
    rewrite <- (app_nil_r (str name)), cstr_str by exact Hc. reflexivity.
  - unfold zlen in *. cbn [length]. lia.
  - cbn [drop_slashes]. change (SLASH =? SLASH) with true. exact Hd.
  - change (SLASH :: name) with ([] ++ SLASH :: name). rewrite components_slash. now apply components_one.
  - apply device_of_none. intros u ->. unfold no_slash, DEV_ in Hs. cbn [app] in Hs.
    do 3 apply Forall_inv_tail in Hs. apply Forall_inv in Hs. now apply Hs.
  - unfold trailing. destruct (list.last (SLASH :: name)) as [c|] eqn:El; [|reflexivity].
    rewrite last_cons in El. destruct (list.last name) as [x|] eqn:Ex; [|now apply last_None in Ex].
    injection El as <-. apply last_Some_elem_of, list_elem_of_In in Ex. unfold no_slash in Hs. rewrite Forall_forall in Hs.
    destruct (Z.eqb_spec x SLASH) as [E|]; [|reflexivity]. now apply Hs in Ex.
Qed.

Lemma resolve_top vn name (s : kfs D A) :
  plain_name name -> k_root s = Some vn -> vn_type vn = VNODE_TYPE_DIR ->
  vfs_resolve_path (Some (top_path name)) s = map_node (kfs_vnode_lookup vn (str name) s).
Proof.
  intros Hp Hr Ht. destruct (plain_facts name Hp) as (Hn & Hc & Hl & Hd & Hcomp & Hdev & Htr).
  rewrite (resolve_path_ok _ (SLASH :: name) s (KfsNode vn) Hc Hl) by (cbn; now rewrite Hr).
  unfold resolve_spec. rewrite Hd. destruct name as [|c0 name0] eqn:En; [congruence|]. rewrite <- En in *. rewrite Hdev.
  unfold resolve_walk. rewrite Hcomp, Htr. cbn [walk_spec]. destruct Hp as [[_ Hz] _ Hdot _ _].
  destruct (Z.ltb_spec 255 (zlen name)); [lia|]. rewrite bool_decide_eq_false_2 by exact Hdot. cbn [vtype the_system system].
  rewrite Ht. cbn [Z.eqb VNODE_TYPE_DIR Pos.eqb negb].
  change (vops (KfsNode vn)) with (Some (kfs_vnode_ops (D := D) (A := A))). unfold kfs_vnode_ops. cbv iota. cbn [on_kfs].
  destruct (kfs_vnode_lookup vn (str name) s) as [[[e|v] s']|]; reflexivity.
Qed.

Lemma parent_top vn name (s : kfs D A) :
  plain_name name -> k_root s = Some vn ->
  vfs_resolve_parent (Some (top_path name)) s = Ok (inr (KfsNode vn, str name), s).
Proof.
  intros Hp Hr. destruct (plain_facts name Hp) as (Hn & Hc & Hl & Hd & _).
  rewrite (resolve_parent_ok _ (SLASH :: name) s (KfsNode vn) Hc Hl) by (cbn; now rewrite Hr).
  unfold parent_spec, split_parent. rewrite Hd.
  assert (Hrev : no_slash (rev name)) by (apply Forall_rev, Hp).
  assert (Hd' : drop_slashes (rev name) = rev name).
  { destruct (rev name) as [|c r]; [reflexivity|]. apply Forall_cons_iff in Hrev as [Hs _]. cbn. now destruct (Z.eqb_spec c SLASH). }
  rewrite Hd'. assert (Hh : head_comp (rev name) = (rev name, [])).
  { clear - Hrev. induction Hrev as [|c r Hc _ IH]; [reflexivity|]. cbn [head_comp]. rewrite IH. now destruct (Z.eqb_spec c SLASH). }
  rewrite Hh, rev_involutive. cbn [drop_slashes rev]. destruct name as [|c0 n0]; [congruence|].
  destruct Hp as [[_ Hz] _ _ _ _]. destruct (Z.leb_spec 256 (zlen (c0 :: n0))); [lia|reflexivity].
Qed.

(** ** Opening *)
Lemma strncmp_dev name : no_slash name -> Forall (fun c => 1 <= c < 2 ^ 8) name ->
  exists d, strncmp (str name) DEV_ 4 = Ok d /\ d <> 0.
Proof.
  intros Hs Hc. unfold str, DEV_, SLASH, no_slash in *.
  do 4 (destruct name as [|? name]; [cbn; eexists; split; [reflexivity|lia]|];
    apply Forall_cons_iff in Hs as [? Hs]; apply Forall_cons_iff in Hc as [? Hc]; cbn [app strncmp];
    match goal with |- context[negb (?x =? 0) && (?x =? ?y)] =>
      destruct (Z.eqb_spec x 0); [lia|]; destruct (Z.eqb_spec x y); cbn [negb andb];
      [|eexists; split; [reflexivity|lia]] end).
  subst. unfold SLASH in *. lia.
Qed.

Lemma plain_not_dots name : plain_name name -> is_dots (str name) = Ok false.
Proof.
  intros [[Hc _] _ H1' H2' _]. unfold is_dots.
  destruct (strcmp_str name [46] Hc) as (d & Ed & Hd); [repeat constructor; lia|].
  change DOT with (str [46]). rewrite Ed. cbn [obind]. destruct (Z.eqb_spec d 0); [tauto|].
  destruct (strcmp_str name [46; 46] Hc) as (d' & Ed' & Hd'); [repeat constructor; lia|].
  change DOTDOT with (str [46; 46]). rewrite Ed'. cbn [obind]. destruct (Z.eqb_spec d' 0); [tauto|reflexivity].
Qed.

(** The creation of a name that the root directory does not have. *)
Lemma open_create_top vn name (s : kfs D A) :
  plain_name name -> k_root s = Some vn ->
  open_create (top_path name) s = map_node (kfs_vnode_create vn (str name) VNODE_TYPE_FILE s).
Proof.
  intros Hp Hr. unfold open_create. rewrite (parent_top vn name s Hp Hr), obind_Ok. cbv iota.
  rewrite (plain_not_dots name Hp), obind_Ok. cbv iota.
  destruct (strncmp_dev name (pn_slash _ Hp) (proj1 (pn_ok _ Hp))) as (d & -> & Hd). rewrite obind_Ok.
  rewrite (proj2 (Z.eqb_neq _ _) Hd).
  destruct (strcmp_str name [100; 101; 118]) as (d' & Ed' & Hd'); [apply Hp|repeat constructor; lia|].
  change DEV with (str [100; 101; 118]). rewrite Ed', obind_Ok. destruct (Z.eqb_spec d' 0) as [E|_]; [now apply Hd', (pn_dev _ Hp) in E|].
  reflexivity.
Qed.

(** A call that returns [r] because the kernel heap refused memory. *)
Definition out_of_memory {X : Type} (r : Z + X) (s : kfs D A) : Prop := r = inl (- ENOMEM) /\ ka_refused (k_heap s) = true.

(** A directory with entries is not empty as a file. *)
Lemma dir_size_pos sb (s : kfs D A) ino i es : dir_ok sb s ino i es -> es <> [] -> 0 < in_size i.
Proof.
  intros Hd Hes. rewrite (do_size _ _ _ _ _ Hd). pose proof (do_entries _ _ _ _ _ Hd) as He. destruct es as [|e es]; [congruence|].
  apply Forall_cons_iff in He as [He _]. destruct (entry_bytes_eq e He) as (_ & _ & Hl & _).
  rewrite dir_bytes_cons, zlen_app, Hl. pose proof (zlen_nonneg (dir_bytes es)). pose proof (eo_name _ He) as [_ Hl'].
  pose proof (reclen_range (e_name e) ltac:(lia)). lia.
Qed.

(** A lookup of a name in a directory with entries. *)
Lemma lookup_memory sb (s : kfs D A) vn i es name :
  fs_ok sb s -> dir_ok sb s (fs_private vn) i es -> es <> [] -> name_ok name ->
  name <> [46] -> name <> [46; 46] ->
  exists r h, kfs_vnode_lookup vn (str name) s = Ok (r, with_heap s h) /\
    (out_of_memory r (with_heap s h) \/
     r = match find_entry es name with
         | None => inl (- ENOENT)
         | Some (_, e) => inr (mkVnode (e_ino e) (if e_type e =? KFS_TYPE_DIR then VNODE_TYPE_DIR else VNODE_TYPE_FILE))
         end).
Proof.
  intros Fs Hd Hes Hn N1 N2. pose proof (lookup_spec sb s vn i es name Fs Hd Hn N1 (fun _ => N2)) as HL.
  pose proof (ka_refused_null (in_size i) (k_heap s) (dir_size_pos sb s _ i es Hd Hes)) as Hp.
  destruct (ka_alloc (in_size i) (k_heap s)) as [p h1].
  pose proof (ka_refused_null sizeof_vnode h1 ltac:(unfold sizeof_vnode; lia)) as Hq. destruct (ka_alloc sizeof_vnode h1) as [q h2].
  cbn [fst snd] in Hp, Hq. eexists _, _. split; [exact HL|]. unfold out_of_memory, lookup_result, lookup_heap. cbn [with_heap k_heap].
  destruct (Z.eqb_spec p 0); [left; auto|]. destruct (find_entry es name) as [[? e]|]; [|now right].
  destruct (Z.eqb_spec q 0); [left; split; [reflexivity|rewrite ka_refused_free; auto]|now right].
Qed.

(** The descriptor that [vfs_open] makes for a vnode of KFS. *)
Definition kfs_file (ino flags : Z) : file sys_vnode := mkFile (KfsNode (mkVnode ino VNODE_TYPE_FILE)) 0 flags.

(** The end of [vfs_open]. *)
Lemma open_tail (v : sys_vnode) flags (s : kfs D A) :
  exists r s1, (if negb (vtype v =? VNODE_TYPE_FILE) && negb (vtype v =? VNODE_TYPE_DIR) then Ok (inl (- EINVAL), s)
      else let '(f, w) := ka_alloc sizeof_file s in
           if f =? 0 then Ok (inl (- ENOMEM), w) else Ok (inr (f, mkFile v 0 flags), w)) = Ok (r, s1) /\
    (exists h, s1 = with_heap s h) /\
    (vtype v = VNODE_TYPE_FILE -> out_of_memory r s1 \/ exists p, r = inr (p, mkFile v 0 flags)).
Proof.
  change (ka_alloc sizeof_file s) with (fst (ka_alloc sizeof_file (k_heap s)), with_heap s (snd (ka_alloc sizeof_file (k_heap s)))).
  pose proof (ka_refused_null sizeof_file (k_heap s) ltac:(unfold sizeof_file; lia)) as Hp.
  destruct (ka_alloc sizeof_file (k_heap s)) as [p h]. cbn [fst snd] in *. unfold out_of_memory.
  destruct (Z.eqb_spec (vtype v) VNODE_TYPE_FILE), (Z.eqb_spec (vtype v) VNODE_TYPE_DIR), (Z.eqb_spec p 0); cbn [negb andb];
    eexists _, _; (split; [reflexivity|]); (split; [first [now exists h | exists (k_heap s); now destruct s]|]); cbn [with_heap k_heap]; try tauto; eauto.
Qed.

(** [vfs_open] of a name that is not there. *)
Lemma open_new sb (s : kfs D A) vn i es name new flags :
  plain_name name -> fs_ok sb s -> k_root s = Some vn -> vn_type vn = VNODE_TYPE_DIR ->
  dir_ok sb s (fs_private vn) i es -> es <> [] -> find_entry es name = None ->
  first_free_inode sb s = Some new -> has flags O_CREAT = true ->
  exists r s1, vfs_open (Some (top_path name)) flags s = Ok (r, s1) /\
    (out_of_memory r s1 \/ first_free_block sb s1 = None \/ MAX_FILE < in_size i + reclen name \/
     file_created sb s s1 (fs_private vn) es name new /\ exists p, r = inr (p, kfs_file new flags)).
Proof.
  intros Hp Fs Hr Ht Hd Hes Hf Hfree Hcr. pose proof Hp as [Hn _ N1 N2 _].
  unfold vfs_open. rewrite (resolve_top vn name s Hp Hr Ht).
  destruct (lookup_memory sb s vn i es name Fs Hd Hes Hn N1 N2) as (r0 & h & EL & Hm). rewrite EL, Hf in *.
  destruct Hm as [[-> Hm]| ->]; cbn [map_node]; rewrite obind_Ok; cbv iota.
  { change (- ENOMEM =? - ENOENT) with false. cbn [andb]. eexists _, _. split; [reflexivity|]. left. now split. }
  rewrite Z.eqb_refl, Hcr. cbn [andb]. rewrite (open_create_top vn) by assumption.
  pose proof (create_checks sb (with_heap s h) vn i es name VNODE_TYPE_FILE (fs_ok_heap _ _ _ Fs) (dir_ok_heap _ _ _ _ _ _ Hd) Hn N1 N2 Hf) as Ec.
  destruct (ka_alloc (in_size i) (k_heap (with_heap s h))) as [p h1]. rewrite Ec.
  set (h' := if p =? 0 then h1 else ka_free p h1). change (with_heap (with_heap s h) h') with (with_heap s h').
  pose proof (create_entry_spec sb s h' vn i es name new Fs Hd Hn Hfree) as He.
  pose proof (reclen_range name ltac:(destruct Hn; lia)). pose proof (zlen_nonneg name).
  pose proof (ka_refused_null (reclen name) h' ltac:(lia)) as Hq. destruct (ka_alloc (reclen name) h') as [q h2].
  pose proof (ka_refused_null sizeof_vnode (ka_free q h2) ltac:(unfold sizeof_vnode; lia)) as Hv.
  destruct (ka_alloc sizeof_vnode (ka_free q h2)) as [v h4]. cbn [fst snd] in Hq, Hv. destruct He as (r & s' & E & Hres). rewrite E.
  destruct r as [e|x]; cbn [map_node]; rewrite obind_Ok; cbv iota.
  { eexists _, s'. split; [reflexivity|]. unfold out_of_memory. destruct (Z.eqb_spec q 0) as [Eq|?].
    - destruct Hres as ([= ->] & -> & _). left. auto.
    - destruct Hres as (_ & _ & [?|[?|(Ee & -> & _)]]); auto. destruct (Z.eqb_spec v 0); [injection Ee as ->; left; auto|discriminate]. }
  destruct (open_tail (KfsNode x) flags s') as (r & s1 & E1 & [h5 ->] & Hr1). rewrite E1. eexists _, _. split; [reflexivity|].
  destruct (Z.eqb_spec q 0); [destruct Hres; discriminate|]. destruct Hres as (_ & _ & [?|[?|(Ee & _ & Hc)]]); auto.
  destruct (Z.eqb_spec v 0); [discriminate|]. injection Ee as ->. destruct (Hr1 eq_refl) as [?|?]; [now left|]. right. right. right. split; [|assumption].
  destruct Hc as [Hc1 [i' Hc2] Hc3 Hc4 Hc5 Hc6 Hc7]. constructor; auto using fs_ok_heap. exists i'. now apply dir_ok_heap.
Qed.

(** [vfs_open] for reading of a file that is there. *)
Lemma open_found sb (s : kfs D A) vn i es name pre e :
  plain_name name -> fs_ok sb s -> k_root s = Some vn -> vn_type vn = VNODE_TYPE_DIR ->
  dir_ok sb s (fs_private vn) i es -> find_entry es name = Some (pre, e) -> e_type e = KFS_TYPE_FILE ->
  exists r h, vfs_open (Some (top_path name)) O_RDONLY s = Ok (r, with_heap s h) /\
    (out_of_memory r (with_heap s h) \/ exists p, r = inr (p, kfs_file (e_ino e) O_RDONLY)).
Proof.
  intros Hp Fs Hr Ht Hd Hf He. pose proof Hp as [Hn _ N1 N2 _]. assert (Hes : es <> []) by (intros ->; discriminate).
  unfold vfs_open. rewrite (resolve_top vn name s Hp Hr Ht).
  destruct (lookup_memory sb s vn i es name Fs Hd Hes Hn N1 N2) as (r0 & h & EL & Hm). rewrite EL, Hf, He in *.
  destruct Hm as [[-> Hm]| ->]; cbn [map_node]; rewrite obind_Ok; cbv iota.
  { change (- ENOMEM =? - ENOENT) with false. cbn [andb]. eexists _, h. split; [reflexivity|]. left. now split. }
  unfold open_existing. change (Z.land O_RDONLY (Z.lor O_CREAT O_EXCL) =? Z.lor O_CREAT O_EXCL) with false.
  change (has O_RDONLY O_TRUNC) with false. cbn [andb]. rewrite obind_Ok. cbv iota.
  change (KFS_TYPE_FILE =? KFS_TYPE_DIR) with false. cbv iota.
  destruct (open_tail (KfsNode (mkVnode (e_ino e) VNODE_TYPE_FILE)) O_RDONLY (with_heap s h)) as (r & s1 & -> & [h1 ->] & Hr1).
  exists r, h1. split; [reflexivity|now apply Hr1].
Qed.

(** Creating, writing and reading a file through the switch.  [vfs_open] with
    [O_CREAT] of a new name in the root directory of a consistent file system gives
    a descriptor at offset 0, unless the kernel heap refuses memory, the disk is full
    or the directory has its largest size.  Whatever [vfs_write] through that
    descriptor reports as written, a later [vfs_open] of the same path, if it gets
    memory, and [vfs_read] return. *)
Theorem vfs_create_write_read sb (s : kfs D A) vn i es name new flags :
  plain_name name -> fs_ok sb s -> k_root s = Some vn -> vn_type vn = VNODE_TYPE_DIR ->
  dir_ok sb s (fs_private vn) i es -> es <> [] -> find_entry es name = None ->
  first_free_inode sb s = Some new -> has flags O_CREAT = true ->
  exists r s1, vfs_open (Some (top_path name)) flags s = Ok (r, s1) /\
    (out_of_memory r s1 \/ first_free_block sb s1 = None \/ MAX_FILE < in_size i + reclen name \/
     exists p f, r = inr (p, f) /\ f_offset f = 0 /\
       forall data w s2, 0 < zlen data -> Forall byte data ->
         vfs_write (Some f) data s1 = Ok (w, s2) -> wr_err w = 0 ->
         exists r3 s3, vfs_open (Some (top_path name)) O_RDONLY s2 = Ok (r3, s3) /\
           (out_of_memory r3 s3 \/ exists q g, r3 = inr (q, g) /\
            vfs_read (Some g) (wr_written w) s3 = Ok (mkRead 0 (slice data 0 (wr_written w)) (wr_written w), s3))).
Proof.
  intros Hp Fs Hr Ht Hd Hes Hf Hfree Hcr.
  destruct (open_new sb s vn i es name new flags) as (r & s1 & E & Hres); auto. exists r, s1. split; [exact E|].
  destruct Hres as [?|[?|[?|[Hc [p ->]]]]]; auto. right. right. right. eexists p, _. split; [reflexivity|]. split; [reflexivity|].
  intros data w s2 Hlen Hb Ew Herr. change (kfs_vnode_write (mkVnode new VNODE_TYPE_FILE) 0 flags data s1 = Ok (w, s2)) in Ew.
  pose proof Hc as [Fs1 [i' Hd1] Hroot Hfr1 Hl1 Ei1 _].
  destruct (Z.eqb_spec (Z.land flags (Z.lor O_WRONLY O_RDWR)) 0) as [E0|Hfl].
  { unfold kfs_vnode_write in Ew. rewrite E0 in Ew. injection Ew as <- <-. discriminate. }
  destruct (write_spec sb s1 (mkVnode new VNODE_TYPE_FILE) _ 0 flags data Fs1 Hl1 Ei1 Hfl Hlen Hb) as (w' & s2' & i2 & Ew' & U & W);
    [destruct (has flags O_APPEND); cbn; lia|].
  rewrite Ew in Ew'. injection Ew' as <- <-.
  assert (Ho : (if has flags O_APPEND then in_size (fresh_inode KFS_TYPE_FILE) else 0) = 0) by now destruct (has flags O_APPEND).
  rewrite Ho in W. assert (Hne : fs_private vn <> new).
  { intros <-. pose proof (proj2 (do_live _ _ _ _ _ Hd)). congruence. }
  pose proof (find_entry_snoc es (mkEntry new KFS_TYPE_FILE name) Hf) as Efind. cbn [e_name] in Efind.
  destruct (open_found sb s2 vn i' (es ++ [mkEntry new KFS_TYPE_FILE name]) name es (mkEntry new KFS_TYPE_FILE name) Hp (up_ok _ _ _ _ _ U)) as (r3 & h & Eo & Hr3); auto.
  { rewrite (up_root _ _ _ _ _ U). congruence. }
  { exact (dir_ok_updated sb s1 s2 _ i' _ new i2 Hd1 U Hne). }
  exists r3, (with_heap s2 h). split; [exact Eo|]. destruct Hr3 as [?|[q ->]]; [now left|]. right. eexists q, _. split; [reflexivity|].
  change (kfs_vnode_read (mkVnode new VNODE_TYPE_FILE) 0 (wr_written w) (with_heap s2 h) =
    Ok (mkRead 0 (slice data 0 (wr_written w)) (wr_written w), with_heap s2 h)).
  apply (written_read sb (with_heap s1 h) (with_heap s2 h) (mkVnode new VNODE_TYPE_FILE) (fresh_inode KFS_TYPE_FILE) i2 0 data w); auto; try lia.
  - destruct U. constructor; auto using fs_ok_heap.
  - destruct W. constructor; auto.
  - vm_compute. discriminate.
Qed.

End TopLevel.

(** ** Instances *)

(** KFS on [image], terminals without operations, and the disk as "hda". *)
Definition no_ops : vnode_ops sys_vnode (kfs ram bump) := mkOps None None None None None None None None None.
Definition one_disk : blk_table := blk_register (str [104; 100; 97], 0) blk_init.
#[local] Instance image_system : VnodeSystem sys_vnode (kfs ram bump) := system no_ops one_disk.
#[local] Instance image_alloc : KernelAlloc (kfs ram bump) := system_alloc.

(** "//a/./" *)
Definition path_a : list Z := [47; 47; 97; 47; 46; 47].

Lemma vfs_resolve_path_correct_witness :
  vfs_resolve_path (Some (str path_a)) image = resolve_spec (KfsNode root_vn) path_a image /\
  result_of (vfs_resolve_path (Some (str path_a)) image) = Some (inl (- ENOTDIR)).
Proof.
  split; [|vm_compute; reflexivity].
  apply (vfs_resolve_path_correct (str path_a) path_a image (KfsNode root_vn)); reflexivity.
Defined.

Lemma vfs_resolve_parent_correct_witness :
  vfs_resolve_parent (Some (str path_a)) image = parent_spec (KfsNode root_vn) path_a image /\
  components path_a = components [97] ++ [[46]] /\ no_slash [46].
Proof.
  exact (vfs_resolve_parent_correct (str path_a) path_a image (KfsNode root_vn) eq_refl eq_refl eq_refl).
Defined.

Lemma plain_b : plain_name name_b.
Proof.
  constructor; try discriminate; [exact name_ok_b|]. constructor; [discriminate|constructor].
Qed.

(** The first free block after an operation, and whether memory was refused. *)
Definition next_free {X} (o : outcome (X * kfs ram bump)) : option Z :=
  match o with Ok (_, s) => first_free_block image_sb s | Stop _ => None end.
Definition short_of_memory {X} (o : outcome (X * kfs ram bump)) : bool :=
  match o with Ok (_, s) => ka_refused (k_heap s) | Stop _ => true end.

Lemma vfs_create_write_read_witness :
  exists r s1, vfs_open (Some (top_path name_b)) (Z.lor O_CREAT O_RDWR) image = Ok (r, s1) /\
    exists p f, r = inr (p, f) /\ f_offset f = 0 /\
      forall data w s2, 0 < zlen data -> Forall byte data ->
        vfs_write (Some f) data s1 = Ok (w, s2) -> wr_err w = 0 ->
        exists r3 s3, vfs_open (Some (top_path name_b)) O_RDONLY s2 = Ok (r3, s3) /\
          (out_of_memory r3 s3 \/ exists q g, r3 = inr (q, g) /\
           vfs_read (Some g) (wr_written w) s3 = Ok (mkRead 0 (slice data 0 (wr_written w)) (wr_written w), s3)).
Proof.
  destruct (vfs_create_write_read no_ops one_disk image_sb image root_vn image_root [mkEntry 2 KFS_TYPE_FILE name_a]
    name_b 3 (Z.lor O_CREAT O_RDWR) plain_b image_ok ltac:(reflexivity) ltac:(reflexivity) image_dir ltac:(discriminate)
    ltac:(reflexivity) ltac:(vm_compute; reflexivity) ltac:(reflexivity)) as (r & s1 & E & Hr).
  assert (Hfree : (next_free (vfs_open (Some (top_path name_b)) (Z.lor O_CREAT O_RDWR) image),
                   short_of_memory (vfs_open (Some (top_path name_b)) (Z.lor O_CREAT O_RDWR) image)) = (Some 69, false)) by (vm_compute; reflexivity).
  pose proof (eq_trans (eq_sym (f_equal (fun o => (next_free o, short_of_memory o)) E)) Hfree) as E'. cbn [next_free short_of_memory] in E'.
  injection E' as E1 E2. exists r, s1. split; [exact E|].
  destruct Hr as [[_ Hr]|[Hr|[Hr|Hr]]]; [discriminate (eq_trans (eq_sym Hr) E2)|discriminate (eq_trans (eq_sym Hr) E1)|vm_compute in Hr; discriminate Hr|exact Hr].
Defined.
