(* ===== verification/Thread.v ===== *)
(** * Threads and the scheduler (src/kernel/thread/thread.c)

    Threads are objects linked in a ring through their field [next]; the ring is
    entered at [head], and [current] is the thread that runs.  Processes are
    objects too, since threads point to them (their operations are in [Process]).
    The fields [wait_queue] of the terminals (src/kernel/fs/tty.c) and
    [tty_remove_waiter] are here because reaping a thread takes it off the queues.
    A pointer is an address, 0 for NULL; following a pointer to no object is
    [BadAccess].  Memory that [kmalloc] returns is not initialised: the value an
    uninitialised field has is the argument [junk]. *)

From S2P Require Import Prelude Interfaces Kfs Vfs.

(** ** Data *)
Inductive thread_state : Set :=
| THREAD_NEW
| THREAD_READY
| THREAD_RUNNING
| THREAD_BLOCKED
| THREAD_WAITING_CHILD
| THREAD_DEAD.

#[global] Instance thread_state_eq : EqDecision thread_state.
Proof. solve_decision. Defined.

Record thread : Type := mkThread {
  t_id : Z;
  t_rsp : Z;
  t_process : Z;
  t_kernel_stack_base : Z;
  t_kernel_stack_size : Z;
  t_user_stack_base : Z;
  t_user_stack_size : Z;
  t_state : thread_state;
  t_next : Z;
  t_next_waiter : Z
}.

Definition set_rsp (v : Z) (t : thread) : thread :=
  mkThread (t_id t) v (t_process t) (t_kernel_stack_base t) (t_kernel_stack_size t) (t_user_stack_base t)
    (t_user_stack_size t) (t_state t) (t_next t) (t_next_waiter t).
Definition set_state (v : thread_state) (t : thread) : thread :=
  mkThread (t_id t) (t_rsp t) (t_process t) (t_kernel_stack_base t) (t_kernel_stack_size t) (t_user_stack_base t)
    (t_user_stack_size t) v (t_next t) (t_next_waiter t).
Definition set_next (v : Z) (t : thread) : thread :=
  mkThread (t_id t) (t_rsp t) (t_process t) (t_kernel_stack_base t) (t_kernel_stack_size t) (t_user_stack_base t)
    (t_user_stack_size t) (t_state t) v (t_next_waiter t).
Definition set_next_waiter (v : Z) (t : thread) : thread :=
  mkThread (t_id t) (t_rsp t) (t_process t) (t_kernel_stack_base t) (t_kernel_stack_size t) (t_user_stack_base t)
    (t_user_stack_size t) (t_state t) (t_next t) v.

Definition sizeof_thread : Z := 80.
Definition STACK_SIZE : Z := 16384.

Inductive process_state : Set := PROCESS_RUNNING | PROCESS_TERMINATED | PROCESS_DEAD | PROCESS_ZOMBIE.

#[global] Instance process_state_eq : EqDecision process_state.
Proof. solve_decision. Defined.

Record process : Type := mkProcess {
  p_pid : Z;
  p_state : process_state;
  p_pml4 : Z;
  p_fd_table : list Z;
  p_parent : Z;
  p_children_head : Z;
  p_next_sibling : Z;
  p_exit_status : Z;
  p_waiter : Z;
  p_brk_start : Z;
  p_brk_current : Z
}.

Definition set_waiter (v : Z) (p : process) : process :=
  mkProcess (p_pid p) (p_state p) (p_pml4 p) (p_fd_table p) (p_parent p) (p_children_head p) (p_next_sibling p)
    (p_exit_status p) v (p_brk_start p) (p_brk_current p).

(** The registers [context_switch] saves and loads. *)
Record cpu : Type := mkCpu {
  rip : Z; rsp : Z; rbp : Z; rbx : Z; r12 : Z; r13 : Z; r14 : Z; r15 : Z; cr3 : Z
}.

(** The addresses of the functions whose addresses the code takes. *)
Record labels : Type := mkLabels {
  l_thread_exit : Z;
  l_thread_start_wrapper : Z;
  l_user_thread_start_wrapper : Z;
  l_jump_to_usermode : Z;
  (** the instruction after the call of [context_switch] in [schedule] *)
  l_after_switch : Z
}.

(** The variables of thread.c and process.c, the objects they point to, the words
    on the kernel stacks, the processor, and the kernel heap [A]. *)
Record tasks (V A : Type) : Type := mkTasks {
  threads : gmap Z thread;
  procs : gmap Z process;
  files : gmap Z (file V);
  stack : gmap Z Z;
  current : Z;
  head : Z;
  next_tid : Z;
  next_pid : Z;
  scheduler_ticks : Z;
  in_scheduler : bool;
  preemption_enabled : bool;
  (** the field [wait_queue] of each terminal *)
  wait_queues : list Z;
  (** [tss.rsp0] *)
  rsp0 : Z;
  regs : cpu;
  heap : A
}.
Arguments mkTasks {V A}.
Arguments threads {V A}.
Arguments procs {V A}.
Arguments files {V A}.
Arguments stack {V A}.
Arguments current {V A}.
Arguments head {V A}.
Arguments next_tid {V A}.
Arguments next_pid {V A}.
Arguments scheduler_ticks {V A}.
Arguments in_scheduler {V A}.
Arguments preemption_enabled {V A}.
Arguments wait_queues {V A}.
Arguments rsp0 {V A}.
Arguments regs {V A}.
Arguments heap {V A}.

Section Updates.
Context {V A : Type}.
Definition with_threads (s : tasks V A) (v : gmap Z thread) : tasks V A :=
  mkTasks v (procs s) (files s) (stack s) (current s) (head s) (next_tid s) (next_pid s) (scheduler_ticks s)
    (in_scheduler s) (preemption_enabled s) (wait_queues s) (rsp0 s) (regs s) (heap s).
Definition with_procs (s : tasks V A) (v : gmap Z process) : tasks V A :=
  mkTasks (threads s) v (files s) (stack s) (current s) (head s) (next_tid s) (next_pid s) (scheduler_ticks s)
    (in_scheduler s) (preemption_enabled s) (wait_queues s) (rsp0 s) (regs s) (heap s).
Definition with_files (s : tasks V A) (v : gmap Z (file V)) : tasks V A :=
  mkTasks (threads s) (procs s) v (stack s) (current s) (head s) (next_tid s) (next_pid s) (scheduler_ticks s)
    (in_scheduler s) (preemption_enabled s) (wait_queues s) (rsp0 s) (regs s) (heap s).
Definition with_stack (s : tasks V A) (v : gmap Z Z) : tasks V A :=
  mkTasks (threads s) (procs s) (files s) v (current s) (head s) (next_tid s) (next_pid s) (scheduler_ticks s)
    (in_scheduler s) (preemption_enabled s) (wait_queues s) (rsp0 s) (regs s) (heap s).
Definition with_current (s : tasks V A) (v : Z) : tasks V A :=
  mkTasks (threads s) (procs s) (files s) (stack s) v (head s) (next_tid s) (next_pid s) (scheduler_ticks s)
    (in_scheduler s) (preemption_enabled s) (wait_queues s) (rsp0 s) (regs s) (heap s).
Definition with_head (s : tasks V A) (v : Z) : tasks V A :=
  mkTasks (threads s) (procs s) (files s) (stack s) (current s) v (next_tid s) (next_pid s) (scheduler_ticks
    s) (in_scheduler s) (preemption_enabled s) (wait_queues s) (rsp0 s) (regs s) (heap s).
Definition with_next_tid (s : tasks V A) (v : Z) : tasks V A :=
  mkTasks (threads s) (procs s) (files s) (stack s) (current s) (head s) v (next_pid s) (scheduler_ticks s)
    (in_scheduler s) (preemption_enabled s) (wait_queues s) (rsp0 s) (regs s) (heap s).
Definition with_next_pid (s : tasks V A) (v : Z) : tasks V A :=
  mkTasks (threads s) (procs s) (files s) (stack s) (current s) (head s) (next_tid s) v (scheduler_ticks s)
    (in_scheduler s) (preemption_enabled s) (wait_queues s) (rsp0 s) (regs s) (heap s).
Definition with_scheduler_ticks (s : tasks V A) (v : Z) : tasks V A :=
  mkTasks (threads s) (procs s) (files s) (stack s) (current s) (head s) (next_tid s) (next_pid s) v
    (in_scheduler s) (preemption_enabled s) (wait_queues s) (rsp0 s) (regs s) (heap s).
Definition with_in_scheduler (s : tasks V A) (v : bool) : tasks V A :=
  mkTasks (threads s) (procs s) (files s) (stack s) (current s) (head s) (next_tid s) (next_pid s)
    (scheduler_ticks s) v (preemption_enabled s) (wait_queues s) (rsp0 s) (regs s) (heap s).
Definition with_preemption_enabled (s : tasks V A) (v : bool) : tasks V A :=
  mkTasks (threads s) (procs s) (files s) (stack s) (current s) (head s) (next_tid s) (next_pid s)
    (scheduler_ticks s) (in_scheduler s) v (wait_queues s) (rsp0 s) (regs s) (heap s).
Definition with_wait_queues (s : tasks V A) (v : list Z) : tasks V A :=
  mkTasks (threads s) (procs s) (files s) (stack s) (current s) (head s) (next_tid s) (next_pid s)
    (scheduler_ticks s) (in_scheduler s) (preemption_enabled s) v (rsp0 s) (regs s) (heap s).
Definition with_rsp0 (s : tasks V A) (v : Z) : tasks V A :=
  mkTasks (threads s) (procs s) (files s) (stack s) (current s) (head s) (next_tid s) (next_pid s)
    (scheduler_ticks s) (in_scheduler s) (preemption_enabled s) (wait_queues s) v (regs s) (heap s).
Definition with_regs (s : tasks V A) (v : cpu) : tasks V A :=
  mkTasks (threads s) (procs s) (files s) (stack s) (current s) (head s) (next_tid s) (next_pid s)
    (scheduler_ticks s) (in_scheduler s) (preemption_enabled s) (wait_queues s) (rsp0 s) v (heap s).
Definition with_heap (s : tasks V A) (v : A) : tasks V A :=
  mkTasks (threads s) (procs s) (files s) (stack s) (current s) (head s) (next_tid s) (next_pid s)
    (scheduler_ticks s) (in_scheduler s) (preemption_enabled s) (wait_queues s) (rsp0 s) (regs s) v.
End Updates.

(** ** The context switch (src/arch/x86_64/thread/switch.S) *)
Section Operations.
Context {V A : Type} `{ObjectHeap A}.
Context (code : labels).
Implicit Types s : tasks V A.

Definition get_thread s (p : Z) : outcome thread := of_opt (threads s !! p).
Definition set_thread s (p : Z) (t : thread) : tasks V A := with_threads s (<[p := t]> (threads s)).
Definition upd_thread s (p : Z) (f : thread -> thread) : outcome (tasks V A) :=
  let* t := get_thread s p in Ok (set_thread s p (f t)).
Definition get_proc s (p : Z) : outcome process := of_opt (procs s !! p).
Definition upd_proc s (p : Z) (f : process -> process) : outcome (tasks V A) :=
  let* x := get_proc s p in Ok (with_procs s (<[p := f x]> (procs s))).

(** [push]: the words below [sp], the first of [vs] on top of the rest. *)
Fixpoint push_all (m : gmap Z Z) (sp : Z) (vs : list Z) : gmap Z Z * Z :=
  match vs with
  | [] => (m, sp)
  | v :: vs => let sp := sp -64 8 in push_all (<[sp := v]> m) sp vs
  end.

(** [pop], as often as there are names. *)
Fixpoint pop_all (m : gmap Z Z) (sp : Z) (n : nat) : outcome (list Z * Z) :=
  match n with
  | O => Ok ([], sp)
  | S n =>
    let* v := of_opt (m !! sp) in
    let* (vs, sp) := pop_all m (sp +64 8) n in
    Ok (v :: vs, sp)
  end.

(** [call context_switch] with its return address. *)
Definition context_switch (old_thread new_thread next_cr3 : Z) s : outcome (tasks V A) :=
  let r := regs s in
  let '(m, sp) := push_all (stack s) (rsp r) [l_after_switch code; rbp r; rbx r; r12 r; r13 r; r14 r; r15 r] in
  let s := with_stack s m in
  let* s := upd_thread s old_thread (set_rsp sp) in
  let* t := get_thread s new_thread in
  let c := if next_cr3 =? 0 then cr3 r else next_cr3 in
  let* (vs, sp) := pop_all (stack s) (t_rsp t) 7 in
  match vs with
  | [v15; v14; v13; v12; vbx; vbp; ip] => Ok (with_regs s (mkCpu ip sp vbp vbx v12 v13 v14 v15 c))
  | _ => Stop BadAccess
  end.

(** ** Creation *)

(** The pointer that [process.c] defines; its object is static. *)
Context (kernel_process : Z).

Definition thread_init (junk : Z) s : outcome (tasks V A) :=
  let* (main_thread, h) := oh_alloc sizeof_thread (heap s) in
  let s := with_heap s h in
  let* _ := kassert (negb (main_thread =? 0)) 27 in
  let s := set_thread s main_thread (mkThread 0 0 kernel_process 0 0 0 0 THREAD_RUNNING main_thread junk) in
  Ok (with_head (with_current s main_thread) main_thread).

Definition thread_current s : Z := current s.

(** [while (tail->next != head) tail = tail->next;] *)
Fixpoint find_tail (fuel : nat) (m : gmap Z thread) (head tail : Z) : outcome Z :=
  let* t := of_opt (m !! tail) in
  if t_next t =? head then Ok tail
  else match fuel with O => Stop NoFuel | S k => find_tail k m head (t_next t) end.

(** No loop over the ring makes more steps than there are threads. *)
Definition ring_fuel s : nat := size (threads s).

(** What the two creation functions have in common: [wrapper] is the entry point
    popped by [ret], [v12] to [v14] the registers it finds, [line] the line of the
    first assertion. *)
Definition make_thread (line wrapper v12 v13 v14 process junk : Z) s : outcome (Z * tasks V A) :=
  let* (t, h) := oh_alloc sizeof_thread (heap s) in
  let s := with_heap s h in
  let* _ := kassert (negb (t =? 0)) line in
  let id := next_tid s in
  let s := with_next_tid s (next_tid s +64 1) in
  let* (base, h) := oh_alloc STACK_SIZE (heap s) in
  let s := with_heap s h in
  let* _ := kassert (negb (base =? 0)) (line + 5) in
  let top := Z.land (base +64 STACK_SIZE) (u64 (Z.lnot 15)) in
  let '(m, sp) := push_all (stack s) top [0; l_thread_exit code; wrapper; 0; 0; v12; v13; v14; 0] in
  let s := with_stack s m in
  let* tail := find_tail (ring_fuel s) (threads s) (head s) (head s) in
  let s := set_thread s t (mkThread id sp process base STACK_SIZE 0 0 THREAD_READY (head s) junk) in
  let* s := upd_thread s tail (set_next t) in
  Ok (t, s).

Definition thread_create_process (entry_point process junk : Z) s : outcome (Z * tasks V A) :=
  make_thread 71 (l_thread_start_wrapper code) entry_point 0 0 process junk s.

Definition thread_create (entry_point junk : Z) s : outcome (Z * tasks V A) :=
  thread_create_process entry_point kernel_process junk s.

Definition thread_create_user (process rip rsp junk : Z) s : outcome (Z * tasks V A) :=
  make_thread 122 (l_user_thread_start_wrapper code) (l_jump_to_usermode code) rip rsp process junk s.

(** ** Reaping *)

(** The inner loop of [tty_remove_waiter]. *)
Fixpoint unlink_waiter (fuel : nat) (m : gmap Z thread) (tw t : Z) : outcome (gmap Z thread) :=
  if tw =? 0 then Ok m
  else
    let* w := of_opt (m !! tw) in
    if t_next_waiter w =? 0 then Ok m
    else if t_next_waiter w =? t then
      let* x := of_opt (m !! t) in
      Ok (<[tw := set_next_waiter (t_next_waiter x) w]> m)
    else match fuel with O => Stop NoFuel | S k => unlink_waiter k m (t_next_waiter w) t end.

(** One terminal with the queue [q]. *)
Definition remove_from_queue (m : gmap Z thread) (q t : Z) : outcome (Z * gmap Z thread) :=
  if q =? t then let* x := of_opt (m !! t) in Ok (t_next_waiter x, m)
  else let* m := unlink_waiter (size m) m q t in Ok (q, m).

Fixpoint remove_from_queues (m : gmap Z thread) (qs : list Z) (t : Z) : outcome (list Z * gmap Z thread) :=
  match qs with
  | [] => Ok ([], m)
  | q :: qs =>
    let* (q, m) := remove_from_queue m q t in
    let* (qs, m) := remove_from_queues m qs t in
    Ok (q :: qs, m)
  end.

Definition tty_remove_waiter (t : Z) s : outcome (tasks V A) :=
  let* (qs, m) := remove_from_queues (threads s) (wait_queues s) t in
  Ok (with_wait_queues (with_threads s m) qs).

(** [if (p) kfree(p);] *)
Definition free_stack (p : Z) s : outcome (tasks V A) :=
  if p =? 0 then Ok s else let* h := oh_free p (heap s) in Ok (with_heap s h).

(** A dead thread [curr] after [prev] leaves the ring and its memory is freed. *)
Definition reap_thread (curr prev next_node : Z) s : outcome (tasks V A) :=
  let* s := upd_thread s prev (set_next next_node) in
  let s := if curr =? head s then with_head s next_node else s in
  let* t := get_thread s curr in
  let* s := free_stack (t_kernel_stack_base t) s in
  let* s := free_stack (t_user_stack_base t) s in
  let* s := tty_remove_waiter curr s in
  let* h := oh_free curr (heap s) in
  Ok (with_threads (with_heap s h) (delete curr (threads s))).

Fixpoint reap_loop (fuel : nat) (curr prev start : Z) s : outcome (tasks V A) :=
  let* t := get_thread s curr in
  let next_node := t_next t in
  if bool_decide (t_state t = THREAD_DEAD) && negb (curr =? current s) then
    let start := if curr =? head s then next_node else start in
    let* s := reap_thread curr prev next_node s in
    if curr =? next_node then Ok (with_head s 0)
    else if next_node =? start then Ok s
    else match fuel with O => Stop NoFuel | S k => reap_loop k next_node prev start s end
  else if next_node =? start then Ok s
  else match fuel with O => Stop NoFuel | S k => reap_loop k next_node curr start s end.

Definition reap_dead_threads s : outcome (tasks V A) :=
  if head s =? 0 then Ok s
  else
    let* tail := find_tail (ring_fuel s) (threads s) (head s) (head s) in
    reap_loop (ring_fuel s) (head s) tail (head s) s.

(** ** The scheduler *)

(** How [schedule] ends: it returns to its caller, it has switched from one thread
    to another, or it has halted the machine. *)
Inductive switch : Set := Returned | Switched (old next : Z) | Halted.

Inductive found : Set := Found (next : Z) | OnlyCurrent | NoneReady.

(** [while (next->state != THREAD_READY)] *)
Fixpoint find_ready (fuel : nat) (m : gmap Z thread) (current next : Z) : outcome found :=
  let* t := of_opt (m !! next) in
  if bool_decide (t_state t = THREAD_READY) then Ok (Found next)
  else if next =? current then
    let* c := of_opt (m !! current) in
    Ok (if bool_decide (t_state c = THREAD_READY) then OnlyCurrent else NoneReady)
  else match fuel with O => Stop NoFuel | S k => find_ready k m current (t_next t) end.

(** The switch to [next]. *)
Definition switch_to (next : Z) s : outcome (switch * tasks V A) :=
  let old := current s in
  let s := with_current s next in
  let* s := upd_thread s next (set_state THREAD_RUNNING) in
  let s := with_in_scheduler s false in
  let* t := get_thread s next in
  let s := if t_kernel_stack_base t =? 0 then s else with_rsp0 s (t_kernel_stack_base t +64 t_kernel_stack_size t) in
  if old =? current s then Ok (Returned, s)
  else
    let* o := get_thread s old in
    let* next_cr3 := (if t_process o =? t_process t then Ok 0 else let* p := get_proc s (t_process t) in Ok (p_pml4 p)) in
    let* s := context_switch old (current s) next_cr3 s in
    Ok (Switched old next, s).

Definition schedule s : outcome (switch * tasks V A) :=
  if in_scheduler s then Ok (Returned, s)
  else
    let s := with_in_scheduler s true in
    let* s := reap_dead_threads s in
    let* c := get_thread s (current s) in
    let s := if bool_decide (t_state c = THREAD_RUNNING) then set_thread s (current s) (set_state THREAD_READY c) else s in
    let* f := find_ready (ring_fuel s) (threads s) (current s) (t_next c) in
    match f with
    | OnlyCurrent =>
      let* s := upd_thread s (current s) (set_state THREAD_RUNNING) in
      Ok (Returned, with_in_scheduler s false)
    | NoneReady => Ok (Halted, s)
    | Found next => switch_to next s
    end.

Definition timer_handler s : outcome (switch * tasks V A) :=
  let s := with_scheduler_ticks s (scheduler_ticks s +64 1) in
  if preemption_enabled s then schedule s else Ok (Returned, s).

Definition thread_yield s : outcome (switch * tasks V A) :=
  let* _ := kassert (negb (current s =? 0)) 288 in schedule s.

(** [schedule] must not return to a dead thread: a failed assertion. *)
Definition thread_exit s : outcome (switch * tasks V A) :=
  let* _ := kassert (negb (current s =? 0)) 295 in
  let* s := upd_thread s (current s) (set_state THREAD_DEAD) in
  let* (r, s) := schedule s in
  match r with Returned => Stop (Panic 302) | _ => Ok (r, s) end.

Definition schedule_after_exit s : outcome (switch * tasks V A) :=
  let* _ := kassert (negb (current s =? 0)) 307 in
  let* (r, s) := schedule s in
  match r with Returned => Stop (Panic 315) | _ => Ok (r, s) end.

(** ** Waking, blocking, killing *)
Definition thread_wake_waiter (t : Z) s : outcome (tasks V A) :=
  if t =? 0 then Ok s
  else
    let* x := get_thread s t in
    Ok (if bool_decide (t_state x = THREAD_WAITING_CHILD) then set_thread s t (set_state THREAD_READY x) else s).

Definition thread_block_on_process (proc : Z) s : outcome (switch * tasks V A) :=
  if proc =? 0 then Ok (Returned, s)
  else
    let* s := upd_proc s proc (set_waiter (current s)) in
    let* s := upd_thread s (current s) (set_state THREAD_WAITING_CHILD) in
    schedule s.

(** The loop of [thread_terminate_process]. *)
Fixpoint terminate_loop (fuel : nat) (m : gmap Z thread) (proc curr start : Z) : outcome (gmap Z thread) :=
  let* t := of_opt (m !! curr) in
  let m := if t_process t =? proc then <[curr := set_state THREAD_DEAD t]> m else m in
  if t_next t =? start then Ok m
  else match fuel with O => Stop NoFuel | S k => terminate_loop k m proc (t_next t) start end.

Definition thread_terminate_process (proc : Z) s : outcome (tasks V A) :=
  if (head s =? 0) || (proc =? 0) then Ok s
  else let* m := terminate_loop (ring_fuel s) (threads s) proc (head s) (head s) in Ok (with_threads s m).

End Operations.
