(* ===== verification/ThreadProofs.v ===== *)
(** * Correctness of the scheduler

    The ring of threads is represented by the list of its threads from [head] on;
    [tasks_ok] is the invariant.  The scheduler refines a round-robin choice on
    that list, and a thread that is ready is chosen within a bounded number of
    calls. *)

From S2P Require Import Prelude Interfaces Kfs Vfs Thread.

(** ** Rings *)

(** The threads of [l] in the order of their links, the last one linked to [e]. *)
Fixpoint linked (m : gmap Z thread) (l : list Z) (e : Z) : Prop :=
  match l with
  | [] => True
  | p :: r => (exists t, m !! p = Some t /\ t_next t = hd e r) /\ linked m r e
  end.

(** The queue that starts at [q]. *)
Fixpoint waiting (m : gmap Z thread) (q : Z) (l : list Z) : Prop :=
  match l with
  | [] => q = 0
  | p :: r => q = p /\ p <> 0 /\ exists t, m !! p = Some t /\ waiting m (t_next_waiter t) r
  end.

Lemma linked_app m a b e : linked m (a ++ b) e <-> linked m a (hd e b) /\ linked m b e.
Proof.
  induction a as [|p a IH]; cbn [app linked]; [tauto|]. rewrite IH.
  assert (E : hd e (a ++ b) = hd (hd e b) a) by now destruct a. rewrite E. tauto.
Qed.

Lemma linked_same m m' l e :
  (forall p t, p ∈ l -> m !! p = Some t -> exists t', m' !! p = Some t' /\ t_next t' = t_next t) ->
  linked m l e -> linked m' l e.
Proof.
  induction l as [|p l IH]; [done|]. intros Hs [(t & Et & Hn) Hl]. split.
  - destruct (Hs p t ltac:(left) Et) as (t' & Et' & Hn'). exists t'. split; [exact Et'|congruence].
  - apply IH; [|exact Hl]. intros q u Hq. apply Hs. now right.
Qed.

Lemma linked_mem m l e p : linked m l e -> p ∈ l -> is_Some (m !! p).
Proof.
  induction l as [|q l IH]; [intros _ Hp; inversion Hp|]. intros [(t & Et & _) Hl] [->|Hp]%elem_of_cons; [now exists t|auto].
Qed.

(** Leaving out [p] by linking its predecessor to its successor. *)
Lemma linked_skip m a z p b e t :
  NoDup (a ++ z :: p :: b) -> linked m (a ++ z :: p :: b) e -> m !! z = Some t ->
  linked (<[z := set_next (hd e b) t]> m) (a ++ z :: b) e.
Proof.
  intros Hnd Hl Hz. apply list.NoDup_app in Hnd as (_ & Ha & Hnd). apply list.NoDup_cons in Hnd as [Hz' _].
  apply linked_app in Hl as [H1 [(t1 & E1 & N1) [_ H2]]]. apply linked_app. split; [|split].
  - revert H1. apply linked_same. intros q u Hq Eq. exists u. split; [|reflexivity].
    rewrite lookup_insert_ne; [exact Eq|]. intros ->. apply (Ha q Hq). left.
  - exists (set_next (hd e b) t). split; [apply lookup_insert_eq|reflexivity].
  - revert H2. apply linked_same. intros q u Hq Eq. exists u. split; [|reflexivity].
    rewrite lookup_insert_ne; [exact Eq|]. intros ->. apply Hz'. now right.
Qed.

(** Leaving out the first thread, whose predecessor is the last one. *)
Lemma linked_tail m p a z e t :
  NoDup (p :: a ++ [z]) -> linked m (p :: a ++ [z]) p -> m !! z = Some t -> e = hd z a ->
  linked (<[z := set_next e t]> m) (a ++ [z]) e.
Proof.
  intros Hnd [_ Hl] Hz ->. apply list.NoDup_cons in Hnd as [_ Hnd]. apply list.NoDup_app in Hnd as (_ & Ha & _).
  apply linked_app in Hl as [H1 _]. apply linked_app. split; [|split; [|done]].
  - revert H1. apply linked_same. intros q u Hq Eq. exists u. split; [|reflexivity].
    rewrite lookup_insert_ne; [exact Eq|]. intros ->. apply (Ha q Hq). left.
  - exists (set_next (hd z a) t). split; [apply lookup_insert_eq|reflexivity].
Qed.

Lemma last_default (b : list Z) : forall q p, List.last (q :: b) p = List.last b q.
Proof. induction b as [|x b IH]; intros q p; [reflexivity|]. change (List.last (x :: b) p = List.last (x :: b) q). now rewrite !IH. Qed.

Lemma find_tail_spec m h b : forall a p fuel,
  NoDup (a ++ p :: b) -> hd h (a ++ p :: b) = h -> linked m (a ++ p :: b) h -> (length b <= fuel)%nat ->
  find_tail fuel m h p = Ok (List.last b p).
Proof.
  induction b as [|q b IH]; intros a p fuel Hnd Hh Hl Hf; pose proof Hl as Hl'; apply linked_app in Hl' as [_ [(t & Et & Hn) _]];
    cbn [hd] in Hn; destruct fuel as [|k]; cbn [find_tail]; rewrite Et; cbn [of_opt obind]; rewrite Hn; cbn [length] in Hf.
  - now rewrite Z.eqb_refl.
  - now rewrite Z.eqb_refl.
  - lia.
  - assert (Hq : q <> h).
    { intros ->. apply list.NoDup_app in Hnd as (_ & Ha & Hnd). destruct a as [|x a].
      - cbn in Hh. subst p. apply list.NoDup_cons in Hnd as [Hnd _]. apply Hnd. left.
      - cbn in Hh. subst x. apply (Ha h); [left|right; left]. }
    destruct (Z.eqb_spec q h); [congruence|]. rewrite (IH (a ++ [p]) q k); [now rewrite last_default|rewrite <- app_assoc..|lia];
      [exact Hnd| |exact Hl]. destruct a; exact Hh.
Qed.

Lemma size_ring (m : gmap Z thread) l : NoDup l -> (forall p, p ∈ l <-> is_Some (m !! p)) -> size m = length l.
Proof.
  intros Hnd Hd. rewrite <- size_dom, <- (size_list_to_set (C := gset Z) l Hnd).
  f_equal. apply leibniz_equiv. intros p. rewrite elem_of_dom, elem_of_list_to_set. symmetry. apply Hd.
Qed.

Lemma filter_all (P : Z -> Prop) `{forall x, Decision (P x)} (l : list Z) : (forall x, x ∈ l -> P x) -> filter P l = l.
Proof.
  induction l as [|x l IH]; intros Hl; [reflexivity|]. rewrite filter_cons_True by (apply Hl; left). f_equal.
  apply IH. intros y Hy. apply Hl. now right.
Qed.

(** ** Wait queues *)
Lemma waiting_mem m l : forall q p, waiting m q l -> p ∈ l -> is_Some (m !! p) /\ p <> 0.
Proof.
  induction l as [|x l IH]; intros q p Hw Hp; [inversion Hp|]. destruct Hw as (-> & Hx & t & Et & Hw).
  apply elem_of_cons in Hp as [->|Hp]; [split; [now exists t|exact Hx]|eapply IH; eauto].
Qed.

Lemma waiting_same m m' l : forall q,
  (forall p t, p ∈ l -> m !! p = Some t -> exists t', m' !! p = Some t' /\ t_next_waiter t' = t_next_waiter t) ->
  waiting m q l -> waiting m' q l.
Proof.
  induction l as [|x l IH]; intros q Hs; [done|]. intros (-> & Hx & t & Et & Hw). split; [reflexivity|]. split; [exact Hx|].
  destruct (Hs x t ltac:(left) Et) as (t' & Et' & Hn). exists t'. split; [exact Et'|]. rewrite Hn.
  apply IH; [|exact Hw]. intros p u Hp. apply Hs. now right.
Qed.

Lemma waiting_length m q l : NoDup l -> waiting m q l -> (length l <= size m)%nat.
Proof.
  intros Hnd Hw. rewrite <- size_dom, <- (size_list_to_set (C := gset Z) l Hnd). apply subseteq_size.
  intros p. rewrite elem_of_list_to_set, elem_of_dom. intros Hp. eapply waiting_mem; eauto.
Qed.

Lemma elem_of_concat_queue m ls : forall qs p, Forall2 (waiting m) qs ls -> p ∈ concat ls -> is_Some (m !! p).
Proof.
  induction ls as [|l ls IH]; intros qs p Hw Hp; [inversion Hp|]. apply Forall2_cons_inv_r in Hw as (q & qs' & Hq & Hw & _).
  cbn [concat] in Hp. apply elem_of_app in Hp as [Hp|Hp]; [eapply waiting_mem; eauto|eauto].
Qed.

(** [m'] is [m] with other links of the queue [l]. *)
Record requeued (m m' : gmap Z thread) (l : list Z) : Prop := {
  rq_same p : p ∉ l -> m' !! p = m !! p;
  rq_body p t : m !! p = Some t -> exists w, m' !! p = Some (set_next_waiter w t);
  rq_none p : m !! p = None -> m' !! p = None
}.

Lemma requeued_refl m l : requeued m m l.
Proof. split; auto. intros p t Et. exists (t_next_waiter t). rewrite Et. now destruct t. Qed.

Lemma requeued_insert m p w t l : m !! p = Some t -> p ∈ l -> requeued m (<[p := set_next_waiter w t]> m) l.
Proof.
  intros Et Hp. split.
  - intros q Hq. apply lookup_insert_ne. congruence.
  - intros q u Eu. destruct (decide (p = q)) as [<-|Hne].
    + exists w. rewrite lookup_insert_eq. congruence.
    + exists (t_next_waiter u). rewrite lookup_insert_ne, Eu by exact Hne. now destruct u.
  - intros q Eq. rewrite lookup_insert_ne; [exact Eq|]. intros ->. congruence.
Qed.

Lemma unlink_absent m t l : forall fuel q,
  waiting m q l -> t ∉ l -> t <> 0 -> (length l <= S fuel)%nat -> unlink_waiter fuel m q t = Ok m.
Proof.
  induction l as [|p l IH]; intros fuel q Hw Ht Ht0 Hf.
  - cbn in Hw. subst q. now destruct fuel.
  - destruct Hw as (-> & Hp & w & Ew & Hw). rewrite not_elem_of_cons in Ht. destruct Ht as [Htp Ht].
    assert (Hn : t_next_waiter w = 0 \/ l <> [] /\ t_next_waiter w <> 0 /\ t_next_waiter w <> t).
    { destruct l as [|y l]; [now left|right]. destruct Hw as (E & Hy & _). rewrite E. split; [done|]. split; [exact Hy|].
      apply not_elem_of_cons in Ht. intuition. }
    destruct fuel as [|k]; cbn [unlink_waiter]; (destruct (Z.eqb_spec p 0); [congruence|]); rewrite Ew; cbn [of_opt obind];
      (destruct Hn as [->|(Hl & H1 & H2)]; [reflexivity|]);
      (destruct (Z.eqb_spec (t_next_waiter w) 0), (Z.eqb_spec (t_next_waiter w) t); try congruence).
    + destruct l; cbn [length] in Hf; [congruence|lia].
    + apply IH; auto. cbn in Hf. lia.
Qed.

Lemma unlink_present m t x b : forall a fuel q,
  waiting m q (a ++ t :: b) -> NoDup (a ++ t :: b) -> a <> [] -> m !! t = Some x -> (length a <= S fuel)%nat ->
  exists m', unlink_waiter fuel m q t = Ok m' /\ waiting m' q (a ++ b) /\ requeued m m' (a ++ b).
Proof.
  induction a as [|p a IH]; intros fuel q Hw Hnd Ha Ht Hf; [congruence|]. destruct Hw as (-> & Hp & w & Ew & Hw).
  cbn [app] in Hnd. apply list.NoDup_cons in Hnd as [Hpn Hnd]. destruct a as [|y a].
  - destruct Hw as (En & Ht0 & x' & Ex' & Hw). rewrite Ht in Ex'. injection Ex' as <-.
    exists (<[p := set_next_waiter (t_next_waiter x) w]> m). split; [|split].
    + destruct fuel; cbn [unlink_waiter]; (destruct (Z.eqb_spec p 0); [congruence|]); rewrite Ew; cbn [of_opt obind];
        rewrite En, Z.eqb_refl, Ht; (destruct (Z.eqb_spec t 0); [congruence|reflexivity]).
    + split; [reflexivity|]. split; [exact Hp|]. eexists. split; [apply lookup_insert_eq|]. cbn [t_next_waiter set_next_waiter].
      revert Hw. apply waiting_same. intros r u Hr Eu. exists u. split; [|reflexivity]. rewrite lookup_insert_ne; [exact Eu|].
      intros ->. apply Hpn. cbn. now right.
    + apply requeued_insert; [exact Ew|left].
  - pose proof Hw as (En & Hy & _). assert (Hyt : y <> t).
    { intros ->. apply list.NoDup_cons in Hnd as [Hnd _]. apply Hnd, elem_of_app. right. left. }
    destruct fuel as [|k]; [cbn in Hf; lia|]. rewrite En in Hw.
    destruct (IH k y Hw Hnd ltac:(done) Ht ltac:(cbn in *; lia)) as (m' & E & Hw' & Hq). exists m'. split; [|split].
    + cbn [unlink_waiter]. destruct (Z.eqb_spec p 0); [congruence|]. rewrite Ew. cbn [of_opt obind]. rewrite En.
      destruct (Z.eqb_spec y 0), (Z.eqb_spec y t); try congruence.
    + split; [reflexivity|]. split; [exact Hp|]. exists w. rewrite (rq_same _ _ _ Hq p), En; [split; [exact Ew|exact Hw']|].
      intros Hin. apply Hpn. rewrite elem_of_app in *. destruct Hin; [now left|right; now right].
    + destruct Hq as [Q1 Q2 Q3]. split; auto. intros r Hr. apply Q1. intros Hin. apply Hr. now right.
Qed.

(** One queue without [t]. *)
Lemma remove_queue_spec m q t x l :
  waiting m q l -> NoDup l -> t <> 0 -> m !! t = Some x ->
  exists q' m', remove_from_queue m q t = Ok (q', m') /\ waiting m' q' (filter (fun r => r <> t) l) /\ requeued m m' l /\
    (t ∉ l -> m' = m) /\ (forall r, r ∈ filter (fun r => r <> t) l -> r ∈ l).
Proof.
  intros Hw Hnd Ht0 Ht. assert (Hsub : forall r, r ∈ filter (fun r => r <> t) l -> r ∈ l) by (intros r Hr; now apply list_elem_of_filter in Hr).
  pose proof (waiting_length m q l Hnd Hw) as Hlen. unfold remove_from_queue.
  destruct (decide (t ∈ l)) as [Hin|Hnot].
  - apply list_elem_of_split in Hin as (a & b & ->).
    assert (Hab : filter (fun r => r <> t) (a ++ t :: b) = a ++ b).
    { apply list.NoDup_app in Hnd as (_ & Ha & Hb). apply list.NoDup_cons in Hb as [Hb _].
      rewrite list.filter_app, filter_cons_False by tauto. f_equal; apply filter_all.
      - intros r Hr ->. apply (Ha t Hr). left.
      - now intros r Hr ->. }
    rewrite Hab in *. destruct a as [|p a].
    + destruct Hw as (-> & _ & x' & Ex & Hw). rewrite Z.eqb_refl, Ht. rewrite Ht in Ex. injection Ex as <-.
      exists (t_next_waiter x), m. split; [reflexivity|]. split; [exact Hw|]. split; [apply requeued_refl|]. auto.
    + pose proof Hw as (-> & _). destruct (Z.eqb_spec p t) as [->|Hpt].
      { apply list.NoDup_cons in Hnd as [Hnd _]. destruct Hnd. apply elem_of_app. right. left. }
      rewrite length_app in Hlen. cbn [length] in Hlen.
      destruct (unlink_present m t x b (p :: a) (size m) p Hw Hnd ltac:(done) Ht ltac:(cbn; lia)) as (m' & -> & Hw' & Hq).
      exists p, m'. split; [reflexivity|]. split; [exact Hw'|]. split; [|split; [|exact Hsub]].
      * destruct Hq as [Q1 Q2 Q3]. split; auto.
      * intros Hn. destruct Hn. apply elem_of_app. right. left.
  - assert (Hf : filter (fun r => r <> t) l = l) by (apply filter_all; now intros r Hr ->).
    rewrite Hf in *. destruct (Z.eqb_spec q t) as [->|Hq].
    { destruct l as [|p l]; [now cbn in Hw|]. destruct Hw as (-> & _). destruct Hnot. left. }
    rewrite (unlink_absent m t l) by (auto; lia). exists q, m. split; [reflexivity|]. split; [exact Hw|].
    split; [apply requeued_refl|auto].
Qed.

Lemma requeued_trans m1 m2 m3 l1 l2 : requeued m1 m2 l1 -> requeued m2 m3 l2 -> requeued m1 m3 (l1 ++ l2).
Proof.
  intros [A1 A2 A3] [B1 B2 B3]. split.
  - intros p Hp. rewrite elem_of_app in Hp. rewrite B1, A1; tauto.
  - intros p t Et. destruct (A2 p t Et) as [w Ew]. destruct (B2 p _ Ew) as [w' Ew']. now exists w'.
  - auto.
Qed.

Lemma queues_same m m' ls : forall qs,
  (forall p t, p ∈ concat ls -> m !! p = Some t -> exists t', m' !! p = Some t' /\ t_next_waiter t' = t_next_waiter t) ->
  Forall2 (waiting m) qs ls -> Forall2 (waiting m') qs ls.
Proof.
  induction ls as [|l ls IH]; intros qs Hs Hw; [apply Forall2_nil_inv_r in Hw as ->; constructor|].
  apply Forall2_cons_inv_r in Hw as (q & qs' & Hq & Hw & ->). cbn [concat] in Hs. constructor.
  - revert Hq. apply waiting_same. intros p t Hp. apply Hs, elem_of_app. now left.
  - apply IH; [|exact Hw]. intros p t Hp. apply Hs, elem_of_app. now right.
Qed.

Lemma remove_queues_spec t ls : forall m qs x,
  Forall2 (waiting m) qs ls -> NoDup (concat ls) -> t <> 0 -> m !! t = Some x ->
  exists qs' m', remove_from_queues m qs t = Ok (qs', m') /\
    Forall2 (waiting m') qs' (filter (fun r => r <> t) <$> ls) /\ requeued m m' (concat ls).
Proof.
  induction ls as [|l ls IH]; intros m qs x Hw Hnd Ht0 Ht.
  - apply Forall2_nil_inv_r in Hw as ->. exists [], m. split; [reflexivity|]. split; [constructor|apply requeued_refl].
  - apply Forall2_cons_inv_r in Hw as (q & qs' & Hq & Hw & ->). rename qs' into qs.
    cbn [concat] in Hnd. apply list.NoDup_app in Hnd as (Hnl & Hdis & Hnd).
    destruct (remove_queue_spec m q t x l Hq Hnl Ht0 Ht) as (q1 & m1 & E1 & Hw1 & Hr1 & _ & Hsub).
    destruct (rq_body _ _ _ Hr1 t x Ht) as [w Et1].
    destruct (IH m1 qs (set_next_waiter w x)) as (qs2 & m2 & E2 & Hw2 & Hr2); auto.
    { revert Hw. apply queues_same. intros p u Hp Eu. exists u. split; [|reflexivity].
      rewrite (rq_same _ _ _ Hr1); [exact Eu|]. intros Hpl. exact (Hdis p Hpl Hp). }
    exists (q1 :: qs2), m2. cbn [remove_from_queues]. rewrite E1. cbn [obind]. rewrite E2. split; [reflexivity|].
    split; [|now apply (requeued_trans m m1 m2)]. cbn. constructor; [|exact Hw2]. revert Hw1. apply waiting_same.
    intros p u Hp Eu. exists u. split; [|reflexivity]. rewrite (rq_same _ _ _ Hr2); [exact Eu|]. auto.
Qed.

(** ** The invariant *)
Definition nz (p : Z) : list Z := if p =? 0 then [] else [p].

(** The memory of a thread: the object and its stacks. *)
Definition thread_objs (m : gmap Z thread) (p : Z) : list Z :=
  p :: match m !! p with Some t => nz (t_kernel_stack_base t) ++ nz (t_user_stack_base t) | None => [] end.

Definition ring_objs (m : gmap Z thread) (l : list Z) : list Z := concat (thread_objs m <$> l).

(** ** Stacks *)

(** The words [vs] lie at [sp], lowest address first. *)
Definition words_at (st : gmap Z Z) (sp : Z) (vs : list Z) : Prop :=
  0 <= sp < 2 ^ 64 /\ forall j v, znth vs j = Some v -> st !! u64 (sp + 8 * j) = Some v.

(** The seven words that [context_switch] pops are there. *)
Definition frame_saved (st : gmap Z Z) (sp : Z) : Prop := exists vs, length vs = 7%nat /\ words_at st sp vs.

Lemma u64_add x y : u64 (u64 x + y) = u64 (x + y).
Proof. unfold u64. apply Zplus_mod_idemp_l. Qed.

Lemma words_at_cons st sp v vs : words_at st sp (v :: vs) -> st !! sp = Some v /\ words_at st (sp +64 8) vs.
Proof.
  intros [Hr Hw]. split.
  - specialize (Hw 0 v eq_refl). now rewrite Z.mul_0_r, Z.add_0_r, u64_id in Hw.
  - split; [apply u64_range|]. intros j x Hj. rewrite u64_add. replace (sp + 8 + 8 * j) with (sp + 8 * (j + 1)) by lia. apply Hw.
    pose proof (znth_Some _ _ _ Hj). unfold znth in *. destruct (Z.leb_spec 0 j), (Z.leb_spec 0 (j + 1)); try lia.
    now replace (Z.to_nat (j + 1)) with (S (Z.to_nat j)) by lia.
Qed.

Lemma pop_all_spec st vs : forall sp, words_at st sp vs -> exists sp', pop_all st sp (length vs) = Ok (vs, sp') /\ sp' = u64 (sp + 8 * zlen vs).
Proof.
  induction vs as [|v vs IH]; intros sp Hw.
  - exists sp. split; [reflexivity|]. change (zlen (A := Z) []) with 0. rewrite Z.mul_0_r, Z.add_0_r, u64_id; [reflexivity|apply Hw].
  - apply words_at_cons in Hw as [E Hw]. destruct (IH _ Hw) as (sp' & E' & Hs). exists sp'. cbn [length pop_all]. rewrite E. cbn [of_opt obind].
    rewrite E'. split; [reflexivity|]. rewrite Hs, u64_add. f_equal. unfold zlen. cbn [length]. lia.
Qed.

(** Below [sp], the first value pushed is the highest. *)
Lemma push_all_spec vs : forall m sp m' sp', push_all m sp vs = (m', sp') -> 8 * zlen vs < 2 ^ 64 -> 0 <= sp < 2 ^ 64 ->
  sp' = u64 (sp - 8 * zlen vs) /\ words_at m' sp' (rev vs) /\
  forall x, (forall j, 0 <= j < zlen vs -> x <> u64 (sp' + 8 * j)) -> m' !! x = m !! x.
Proof.
  induction vs as [|v vs IH]; intros m sp m' sp' E Hn Hsp.
  - injection E as <- <-. change (zlen (A := Z) []) with 0. rewrite Z.mul_0_r, Z.sub_0_r, u64_id by exact Hsp.
    split; [reflexivity|]. split; [|auto]. split; [exact Hsp|]. intros j v Hj. now rewrite znth_None in Hj by (unfold zlen; cbn; lia).
  - cbn [push_all] in E. assert (Hz : zlen (v :: vs) = zlen vs + 1) by (unfold zlen; cbn [length]; lia). rewrite Hz in *.
    pose proof (zlen_nonneg vs) as Hnn.
    destruct (IH _ _ _ _ E ltac:(lia) (u64_range _)) as (Es & Hw & Hf).
    assert (Hsp' : sp' = u64 (sp - 8 * (zlen vs + 1))) by (rewrite Es; unfold u64; rewrite Zminus_mod_idemp_l; f_equal; lia).
    assert (Hk : u64 (sp' + 8 * zlen vs) = sp -64 8) by (rewrite Hsp', u64_add; f_equal; lia).
    assert (Hv : m' !! (sp -64 8) = Some v).
    { rewrite Hf; [apply lookup_insert_eq|]. intros j Hj. rewrite <- Hk, Hsp'. unfold u64. intros Eq.
      rewrite !Zplus_mod_idemp_l in Eq. dlia. }
    split; [exact Hsp'|]. split; [split|].
    + rewrite Hsp'. apply u64_range.
    + intros j x Hj. cbn [rev] in Hj. pose proof (znth_Some _ _ _ Hj) as Hr. unfold zlen in Hr. rewrite length_app, length_rev in Hr. cbn in Hr.
      destruct (Z.eq_dec j (zlen vs)) as [->|Hne].
      * rewrite Hk, Hv. unfold znth, zlen in Hj. destruct (Z.leb_spec 0 (Z.of_nat (length vs))); [|lia].
        rewrite Nat2Z.id, <- (length_rev vs), list_lookup_middle in Hj by reflexivity. exact Hj.
      * apply Hw. rewrite <- Hj. unfold znth, zlen in *. destruct (Z.leb_spec 0 j); [|lia]. symmetry. apply lookup_app_l. rewrite length_rev. lia.
    + intros x Hx. rewrite Hf by (intros j Hj; apply Hx; lia). apply lookup_insert_ne. rewrite <- Hk. intros Ex. apply (Hx (zlen vs)); [lia|congruence].
Qed.

Lemma push_all_present vs m sp m' sp' x :
  push_all m sp vs = (m', sp') -> 8 * zlen vs < 2 ^ 64 -> 0 <= sp < 2 ^ 64 -> is_Some (m !! x) -> is_Some (m' !! x).
Proof.
  intros E Hn Hsp Hx. destruct (push_all_spec _ _ _ _ _ E Hn Hsp) as (_ & [_ Hw] & Hf).
  destruct (decide (Exists (fun j => x = u64 (sp' + 8 * j)) (seqZ 0 (zlen vs)))) as [He|Hne].
  - apply list.Exists_exists in He as (j & Hj & ->). apply elem_of_seqZ in Hj.
    destruct (znth_is_Some (rev vs) j) as [v Ev]; [unfold zlen in *; rewrite length_rev; lia|]. exists v. now apply Hw.
  - rewrite Hf; [exact Hx|]. intros j Hj ->. apply Hne, list.Exists_exists. exists j. split; [apply elem_of_seqZ; lia|reflexivity].
Qed.

Lemma frame_mono st st' sp : (forall x, is_Some (st !! x) -> is_Some (st' !! x)) -> frame_saved st sp -> frame_saved st' sp.
Proof.
  intros Hm (vs & Hl & Hr & Hw). exists ((fun j => default 0 (st' !! u64 (sp + 8 * j))) <$> seqZ 0 7). split; [reflexivity|].
  split; [exact Hr|]. intros j v Hj. pose proof (znth_Some _ _ _ Hj) as Hj'. change (zlen _) with 7 in Hj'.
  unfold znth in Hj. destruct (Z.leb_spec 0 j); [|lia]. rewrite list_lookup_fmap, (lookup_seqZ_lt 0 7) in Hj by lia.
  injection Hj as <-. rewrite Z2Nat.id by lia. rewrite Z.add_0_l.
  destruct (znth_is_Some vs j) as [v Ev]; [unfold zlen; lia|]. destruct (Hm _ (mk_is_Some _ _ (Hw j v Ev))) as [y ->]. reflexivity.
Qed.

Definition queues_ok (m : gmap Z thread) (qs : list Z) : Prop :=
  exists ls, Forall2 (waiting m) qs ls /\ NoDup (concat ls) /\
    forall p t, p ∈ concat ls -> m !! p = Some t -> t_state t = THREAD_BLOCKED \/ t_state t = THREAD_DEAD.

(** Thread [p] is linked in queue [n]. *)
Definition queued_in (m : gmap Z thread) (qs : list Z) (n p : Z) : Prop :=
  exists q li, znth qs n = Some q /\ waiting m q li /\ p ∈ li.

Lemma waiting_unique m x : forall y q, waiting m q x -> waiting m q y -> x = y.
Proof.
  induction x as [|p x IH]; intros [|p' y] q Hx Hy; cbn in *; auto; try (destruct Hx as (-> & Hx & _); congruence); try (destruct Hy as (-> & Hy & _); congruence).
  destruct Hx as (-> & _ & t & Et & Hx), Hy as (<- & _ & t' & Et' & Hy). f_equal. rewrite Et in Et'. injection Et' as <-. eauto.
Qed.

Lemma queued_in_iff m qs ls n p : Forall2 (waiting m) qs ls -> queued_in m qs n p <-> exists li, znth ls n = Some li /\ p ∈ li.
Proof.
  intros Hw. unfold queued_in, znth. destruct (0 <=? n); [|split; [intros (q & li & [=] & _)|intros (li & [=] & _)]]. split.
  - intros (q & li & Eq & Hli & Hp). destruct (Forall2_lookup_l _ _ _ _ _ Hw Eq) as (li' & El & Hli'). pose proof (waiting_unique _ _ _ _ Hli Hli') as <-. eauto.
  - intros (li & El & Hp). destruct (Forall2_lookup_r _ _ _ _ _ Hw El) as (q & Eq & Hli). eauto.
Qed.

Lemma queued_in_same m m' qs n p :
  (forall p t, m !! p = Some t -> exists t', m' !! p = Some t' /\ t_next_waiter t' = t_next_waiter t) ->
  queued_in m qs n p -> queued_in m' qs n p.
Proof. intros Hs (q & li & Eq & Hli & Hp). exists q, li. split; [exact Eq|]. split; [|exact Hp]. revert Hli. apply waiting_same. eauto. Qed.

(** ** Round robin *)

(** What is before and behind [cur]. *)
Fixpoint cut (cur : Z) (l : list Z) : list Z * list Z :=
  match l with
  | [] => ([], [])
  | p :: r => if p =? cur then ([], r) else let '(a, b) := cut cur r in (p :: a, b)
  end.

(** The order in which the threads of a ring get their turn after [cur]. *)
Definition turns (cur : Z) (l : list Z) : list Z := let '(a, b) := cut cur l in b ++ a ++ [cur].

Lemma cut_split cur a b : cur ∉ a -> cut cur (a ++ cur :: b) = (a, b).
Proof.
  induction a as [|p a IH]; intros Ha; cbn [app cut]; [now rewrite Z.eqb_refl|].
  rewrite not_elem_of_cons in Ha. destruct Ha as [Hp Ha]. rewrite IH by exact Ha. destruct (Z.eqb_spec p cur); [congruence|reflexivity].
Qed.

Definition is_ready (m : gmap Z thread) (p : Z) : bool :=
  match m !! p with Some t => bool_decide (t_state t = THREAD_READY) | None => false end.

Lemma find_ready_spec m cur tc cs : forall fuel,
  m !! cur = Some tc -> linked m cs cur -> cur ∉ cs -> (length cs <= fuel)%nat ->
  find_ready fuel m cur (hd cur cs) = Ok (match List.find (is_ready m) (cs ++ [cur]) with Some q => Found q | None => NoneReady end).
Proof.
  induction cs as [|p cs IH]; intros fuel Ec Hl Hcur Hf.
  - assert (E : is_ready m cur = bool_decide (t_state tc = THREAD_READY)) by (unfold is_ready; now rewrite Ec).
    destruct fuel; cbn [hd find_ready app List.find]; rewrite Ec, E; cbn [of_opt obind]; destruct (bool_decide _); rewrite ?Z.eqb_refl, ?Ec; reflexivity.
  - destruct Hl as [(t & Et & Hn) Hl]. apply not_elem_of_cons in Hcur as [Hp Hcur]. destruct fuel as [|k]; [cbn in Hf; lia|].
    assert (E : is_ready m p = bool_decide (t_state t = THREAD_READY)) by (unfold is_ready; now rewrite Et).
    cbn [hd find_ready app List.find]. rewrite Et, E. cbn [of_opt obind]. destruct (bool_decide _); [reflexivity|].
    destruct (Z.eqb_spec p cur); [congruence|]. rewrite Hn. apply IH; auto. cbn in Hf. lia.
Qed.

(** The links of a ring from its thread [cur] on. *)
Lemma linked_turns m h a cur b :
  hd 0 (a ++ cur :: b) = h -> linked m (a ++ cur :: b) h ->
  linked m (b ++ a) cur /\ exists t, m !! cur = Some t /\ t_next t = hd cur (b ++ a).
Proof.
  intros Hh Hl. apply linked_app in Hl as [Ha [(t & Et & Hn) Hb]]. cbn [hd] in Ha.
  assert (E : hd cur a = h) by (destruct a; exact Hh). split.
  - apply linked_app. rewrite E. auto.
  - exists t. split; [exact Et|]. rewrite Hn. destruct b; [cbn; now rewrite E|reflexivity].
Qed.

Section Scheduler.
Context {V A : Type} `{ObjectHeapLaws A}.
Context (code : labels) (kernel_process : Z).
Implicit Types s : tasks V A.

(** [l] is the ring from [head] on. *)
Record tasks_ok s (l : list Z) : Prop := {
  ok_head : hd 0 l = head s;
  ok_linked : linked (threads s) l (head s);
  ok_dom p : p ∈ l <-> is_Some (threads s !! p);
  ok_current : current s ∈ l;
  ok_running p t : threads s !! p = Some t -> t_state t = THREAD_RUNNING -> p = current s;
  ok_heap : oh_ok (heap s);
  ok_objs : NoDup (ring_objs (threads s) l);
  ok_held p : p ∈ ring_objs (threads s) l -> oh_held (heap s) p;
  ok_queues : queues_ok (threads s) (wait_queues s);
  ok_frames p t : threads s !! p = Some t -> p <> current s -> frame_saved (stack s) (t_rsp t);
  ok_procs p t : threads s !! p = Some t -> t_state t <> THREAD_DEAD -> is_Some (procs s !! t_process t);
  ok_rsp : 0 <= rsp (regs s) < 2 ^ 64
}.

Lemma in_ring_objs m l p : p ∈ l -> p ∈ ring_objs m l.
Proof. intros Hp. apply elem_of_concat_map. exists p. split; [exact Hp|left]. Qed.

Lemma ring_objs_app m a b : ring_objs m (a ++ b) = ring_objs m a ++ ring_objs m b.
Proof. unfold ring_objs. now rewrite fmap_app, concat_app. Qed.

Lemma ring_objs_cons m p b : ring_objs m (p :: b) = thread_objs m p ++ ring_objs m b.
Proof. reflexivity. Qed.

Lemma ring_objs_same m m' l :
  (forall p t, p ∈ l -> m !! p = Some t -> exists t', m' !! p = Some t' /\
     t_kernel_stack_base t' = t_kernel_stack_base t /\ t_user_stack_base t' = t_user_stack_base t) ->
  (forall p, p ∈ l -> is_Some (m !! p)) -> ring_objs m' l = ring_objs m l.
Proof.
  intros Hs Hd. unfold ring_objs. f_equal. apply list_fmap_ext. intros i p Hp. apply list_elem_of_lookup_2 in Hp.
  destruct (Hd p Hp) as [t Et]. destruct (Hs p t Hp Et) as (t' & Et' & E1 & E2). unfold thread_objs. now rewrite Et, Et', E1, E2.
Qed.

Lemma ring_nodup m l : NoDup (ring_objs m l) -> NoDup l.
Proof.
  induction l as [|p l IH]; intros Hn; [constructor|]. cbn in Hn. apply list.NoDup_cons in Hn as [Hp Hn].
  apply list.NoDup_app in Hn as (_ & _ & Hn). constructor; [|now apply IH]. intros Hin. apply Hp, elem_of_app. right. now apply in_ring_objs.
Qed.

Lemma ok_nodup s l : tasks_ok s l -> NoDup l.
Proof. intros O. apply (ring_nodup (threads s)), O. Qed.

Lemma ok_size s l : tasks_ok s l -> ring_fuel s = length l.
Proof. intros O. apply size_ring; [eapply ok_nodup; eauto|apply O]. Qed.

Lemma ok_nonnull s l p : tasks_ok s l -> p ∈ l -> p <> 0.
Proof. intros O Hp. apply (oh_held_nonnull (heap s) p); [apply O|]. apply O. now apply in_ring_objs. Qed.

Lemma ok_get s l p : tasks_ok s l -> p ∈ l -> exists t, threads s !! p = Some t.
Proof. intros O Hp. now apply (ok_dom _ _ O). Qed.

Lemma free_stack_spec p s :
  oh_ok (heap s) -> (forall q, q ∈ nz p -> oh_held (heap s) q) ->
  exists h, free_stack p s = Ok (with_heap s h) /\ oh_ok h /\ forall q, oh_held h q <-> (q ∉ nz p) /\ oh_held (heap s) q.
Proof.
  intros Ho Hp. unfold free_stack, nz in *. destruct (p =? 0).
  - exists (heap s). split; [now destruct s|]. split; [exact Ho|]. intros q. split; [|tauto]. intros Hq. split; [intros Hn; inversion Hn|exact Hq].
  - destruct (oh_free_law (heap s) p Ho) as (h & -> & Hok & Hh); [apply Hp; left|]. exists h. split; [reflexivity|]. split; [exact Hok|].
    intros q. rewrite Hh, list_elem_of_singleton. reflexivity.
Qed.

(** What reaping leaves of a state: the threads of [l'], up to their links. *)
Record reaped s s' (l' : list Z) : Prop := {
  rp_body p t : p ∈ l' -> threads s !! p = Some t ->
    exists n w, threads s' !! p = Some (set_next n (set_next_waiter w t));
  rp_rest : s' = mkTasks (threads s') (procs s) (files s) (stack s) (current s) (head s') (next_tid s) (next_pid s)
    (scheduler_ticks s) (in_scheduler s) (preemption_enabled s) (wait_queues s') (rsp0 s) (regs s) (heap s');
  rp_queued n p : p ∈ l' -> queued_in (threads s) (wait_queues s) n p -> queued_in (threads s') (wait_queues s') n p
}.

Lemma reaped_refl s l : reaped s s l.
Proof. split; [|now destruct s|auto]. intros p t _ Et. exists (t_next t), (t_next_waiter t). rewrite Et. now destruct t. Qed.

Lemma reaped_trans s1 s2 s3 l2 l3 :
  reaped s1 s2 l2 -> reaped s2 s3 l3 -> (forall p, p ∈ l3 -> p ∈ l2) -> reaped s1 s3 l3.
Proof.
  intros [B1 R1 Q1] [B2 R2 Q2] Hsub. split; [| |auto].
  - intros p t Hp Et. destruct (B1 p t (Hsub p Hp) Et) as (n & w & E). destruct (B2 p _ Hp E) as (n' & w' & E'). now exists n', w'.
  - rewrite R2. rewrite R1. reflexivity.
Qed.

(** The threads but [p], some with other links. *)
Definition relinked (m m' : gmap Z thread) (p : Z) : Prop :=
  m' !! p = None /\
  forall q, q <> p ->
    match m !! q with
    | None => m' !! q = None
    | Some t => exists n w, m' !! q = Some (set_next n (set_next_waiter w t))
    end.

Lemma relinked_reap m prev n tp m2 l p :
  m !! prev = Some tp -> requeued (<[prev := set_next n tp]> m) m2 l -> relinked m (delete p m2) p.
Proof.
  intros Ep [_ Q2 Q3]. split; [apply lookup_delete_eq|]. intros q Hq. rewrite lookup_delete_ne by congruence.
  destruct (decide (q = prev)) as [->|Hqp].
  - rewrite Ep. destruct (Q2 prev (set_next n tp)) as [w Ew]; [apply lookup_insert_eq|]. exists n, w. rewrite Ew. reflexivity.
  - destruct (m !! q) as [t|] eqn:Eq; [|apply Q3; rewrite lookup_insert_ne by congruence; exact Eq].
    destruct (Q2 q t) as [w Ew]; [rewrite lookup_insert_ne by congruence; exact Eq|]. exists (t_next t), w. rewrite Ew. now destruct t.
Qed.

Lemma relinked_Some m m' p q t' : relinked m m' p -> m' !! q = Some t' ->
  q <> p /\ exists t n w, m !! q = Some t /\ t' = set_next n (set_next_waiter w t).
Proof.
  intros [Hp Hq] E. assert (Hne : q <> p) by (intros ->; congruence). split; [exact Hne|]. specialize (Hq q Hne).
  destruct (m !! q) as [t|]; [|congruence]. destruct Hq as (n & w & E'). exists t, n, w. split; [reflexivity|congruence].
Qed.

(** The queues after a thread was taken off and its object freed. *)
Lemma concat_filter p (ls : list (list Z)) : concat (filter (fun r => r <> p) <$> ls) = filter (fun r => r <> p) (concat ls).
Proof. induction ls as [|l ls IH]; [reflexivity|]. cbn [fmap list_fmap concat]. rewrite list.filter_app. now rewrite <- IH. Qed.

Lemma queues_removed m2 ls qs' p :
  Forall2 (waiting m2) qs' (filter (fun r => r <> p) <$> ls) -> Forall2 (waiting (delete p m2)) qs' (filter (fun r => r <> p) <$> ls).
Proof.
  apply queues_same. rewrite concat_filter. intros q t Hq Eq. exists t. split; [|reflexivity].
  apply list_elem_of_filter in Hq as [Hq _]. now rewrite lookup_delete_ne by congruence.
Qed.

Lemma queues_ok_removed m m2 ls qs' p :
  NoDup (concat ls) -> relinked m (delete p m2) p ->
  (forall q t, q ∈ concat ls -> m !! q = Some t -> t_state t = THREAD_BLOCKED \/ t_state t = THREAD_DEAD) ->
  Forall2 (waiting m2) qs' (filter (fun r => r <> p) <$> ls) ->
  queues_ok (delete p m2) qs'.
Proof.
  intros Hnd Hr Hst Hw2. exists (filter (fun r => r <> p) <$> ls). rewrite concat_filter. split; [|split].
  - now apply queues_removed.
  - now apply list.NoDup_filter.
  - intros q t Hq Eq. apply list_elem_of_filter in Hq as [_ Hq]. destruct (relinked_Some _ _ _ _ _ Hr Eq) as (_ & u & n & w & Eu & ->).
    exact (Hst q u Hq Eu).
Qed.

(** The memory of a thread is given back. *)
Lemma free_objs_spec m p t s :
  m !! p = Some t -> NoDup (thread_objs m p) -> (forall q, q ∈ thread_objs m p -> oh_held (heap s) q) -> oh_ok (heap s) ->
  exists h2 h3,
    (forall k : tasks V A -> outcome (tasks V A),
       (let* s := free_stack (t_kernel_stack_base t) s in let* s := free_stack (t_user_stack_base t) s in k s) = k (with_heap s h2)) /\
    oh_free p h2 = Ok h3 /\ oh_ok h3 /\ forall q, oh_held h3 q <-> (q ∉ thread_objs m p) /\ oh_held (heap s) q.
Proof.
  intros Et Hnd Hh Hok. unfold thread_objs in *. rewrite Et in *. apply list.NoDup_cons in Hnd as [Hp Hnd].
  apply list.NoDup_app in Hnd as (_ & Hdis & _). set (kb := nz (t_kernel_stack_base t)) in *. set (ub := nz (t_user_stack_base t)) in *.
  destruct (free_stack_spec (t_kernel_stack_base t) s Hok) as (h1 & E1 & Ok1 & H1'); [intros q Hq; apply Hh; right; apply elem_of_app; now left|].
  destruct (free_stack_spec (t_user_stack_base t) (with_heap s h1) Ok1) as (h2 & E2 & Ok2 & H2').
  { intros q Hq. cbn. apply H1'. split; [intros Hk; exact (Hdis q Hk Hq)|]. apply Hh. right. apply elem_of_app. now right. }
  rewrite elem_of_app in Hp. cbn [heap with_heap] in H2'. destruct (oh_free_law h2 p Ok2) as (h3 & E3 & Ok3 & H3').
  { apply H2'. split; [tauto|]. apply H1'. split; [tauto|]. apply Hh. left. }
  exists h2, h3. split; [intros k; rewrite E1; cbn [obind]; now rewrite E2|]. split; [exact E3|]. split; [exact Ok3|].
  intros q. rewrite H3', H2', H1'. fold kb ub. rewrite not_elem_of_cons, not_elem_of_app. tauto.
Qed.

Lemma reap_thread_spec s a p b prev next_node t tp :
  tasks_ok s (a ++ p :: b) -> p <> current s -> threads s !! p = Some t -> t_state t = THREAD_DEAD ->
  threads s !! prev = Some tp -> prev <> p ->
  let h := if p =? head s then next_node else head s in
  hd 0 (a ++ b) = h -> linked (<[prev := set_next next_node tp]> (threads s)) (a ++ b) h ->
  exists s', reap_thread p prev next_node s = Ok s' /\ tasks_ok s' (a ++ b) /\ reaped s s' (a ++ b) /\ head s' = h.
Proof.
  intros O Hpc Ep Hdead Eprev Hne h Hh Hl. unfold reap_thread, upd_thread, get_thread. rewrite Eprev. cbn [of_opt obind].
  set (m1 := <[prev := set_next next_node tp]> (threads s)) in *.
  set (s1 := if p =? _ then _ else _).
  assert (Es1 : s1 = with_head (with_threads s m1) h) by (unfold s1, h; cbn; destruct (p =? head s); [reflexivity|now destruct s]).
  rewrite Es1. clear s1 Es1. cbn [threads with_head with_threads].
  assert (Ep1 : m1 !! p = Some t) by (unfold m1; now rewrite lookup_insert_ne). rewrite Ep1. cbn [of_opt obind].
  pose proof (ok_objs _ _ O) as Hnd. pose proof (ok_held _ _ O) as Hheld. rewrite ring_objs_app, ring_objs_cons in Hnd, Hheld.
  assert (Hobj : ring_objs (threads s) a ++ thread_objs (threads s) p ++ ring_objs (threads s) b ≡ₚ
            thread_objs (threads s) p ++ ring_objs (threads s) (a ++ b)) by (rewrite ring_objs_app; solve_Permutation).
  rewrite Hobj in Hnd. apply list.NoDup_app in Hnd as (Hnp & Hdis & Hnd).
  destruct (free_objs_spec (threads s) p t (with_head (with_threads s m1) h) Ep Hnp) as (h2 & h3 & E2 & E3 & Hok3 & Hheld3);
    [intros q Hq; apply Hheld; rewrite Hobj; apply elem_of_app; now left|apply O|].
  rewrite E2. unfold tty_remove_waiter. cbn [threads wait_queues with_head with_threads with_heap].
  destruct (ok_queues _ _ O) as (ls & Hw & Hnls & Hst).
  assert (Hw1 : Forall2 (waiting m1) (wait_queues s) ls).
  { revert Hw. apply queues_same. intros q u _ Eu. unfold m1. destruct (decide (prev = q)) as [<-|Hpq].
    - rewrite lookup_insert_eq. eexists. split; [reflexivity|]. cbn. congruence.
    - rewrite lookup_insert_ne by exact Hpq. eauto. }
  assert (Hp0 : p <> 0) by (apply (ok_nonnull s _ p O), elem_of_app; right; left).
  destruct (remove_queues_spec p ls m1 (wait_queues s) t Hw1 Hnls Hp0 Ep1) as (qs' & m2 & -> & Hw2 & Hrq). cbn [obind].
  cbn [heap with_threads with_wait_queues with_heap]. rewrite E3. cbn [obind]. eexists. split; [reflexivity|].
  pose proof (relinked_reap _ _ _ _ _ _ p Eprev Hrq) as Hr.
  assert (Hin : forall q, q ∈ a ++ b <-> q <> p /\ is_Some (threads s !! q)).
  { intros q. rewrite <- (ok_dom _ _ O). pose proof (ok_nodup _ _ O) as Hn. apply list.NoDup_app in Hn as (_ & Ha & Hb).
    apply list.NoDup_cons in Hb as [Hb _]. rewrite !elem_of_app, elem_of_cons. split; [|tauto].
    intros [Hq|Hq]; (split; [|tauto]); intros ->; [apply (Ha p Hq); left|tauto]. }
  assert (Hsame : ring_objs (delete p m2) (a ++ b) = ring_objs (threads s) (a ++ b)).
  { apply ring_objs_same; [|intros q Hq; now apply Hin in Hq]. intros q u [Hq _]%Hin Eu. destruct Hr as [_ Hr]. specialize (Hr q Hq).
    rewrite Eu in Hr. destruct Hr as (n & w & E). eauto. }
  split; [constructor|split; [split|]]; cbn [threads wait_queues heap head current procs stack with_head with_threads with_wait_queues with_heap].
  - exact Hh.
  - revert Hl. apply linked_same. intros q u Hq Eu. destruct (rq_body _ _ _ Hrq q u Eu) as [w Ew]. exists (set_next_waiter w u).
    split; [|reflexivity]. rewrite lookup_delete_ne; [exact Ew|]. apply Hin in Hq as [Hq _]. congruence.
  - intros q. rewrite Hin. split.
    + intros [Hq [u Eu]]. destruct Hr as [_ Hr]. specialize (Hr q Hq). rewrite Eu in Hr. destruct Hr as (n & w & E). rewrite E. eauto.
    + intros [u Eu]. destruct (relinked_Some _ _ _ _ _ Hr Eu) as (Hq & v & n & w & Ev & _). split; [exact Hq|now exists v].
  - apply Hin. split; [congruence|]. exact (proj1 (ok_dom _ _ O _) (ok_current _ _ O)).
  - intros q u Eu Hst'. destruct (relinked_Some _ _ _ _ _ Hr Eu) as (_ & v & n & w & Ev & ->). exact (ok_running _ _ O q v Ev Hst').
  - exact Hok3.
  - rewrite Hsame. exact Hnd.
  - intros q. rewrite Hsame. intros Hq. apply Hheld3. split; [intros Hq'; exact (Hdis q Hq' Hq)|].
    apply Hheld. rewrite Hobj. apply elem_of_app. now right.
  - exact (queues_ok_removed (threads s) m2 ls qs' p Hnls Hr Hst Hw2).
  - intros q u Eu Hq. destruct (relinked_Some _ _ _ _ _ Hr Eu) as (_ & v & n & w & Ev & ->). exact (ok_frames _ _ O q v Ev Hq).
  - intros q u Eu Hq. destruct (relinked_Some _ _ _ _ _ Hr Eu) as (_ & v & n & w & Ev & ->). exact (ok_procs _ _ O q v Ev Hq).
  - apply O.
  - intros q u Hq Eu. apply Hin in Hq as [Hq _]. destruct Hr as [_ Hr]. specialize (Hr q Hq). now rewrite Eu in Hr.
  - reflexivity.
  - intros n q Hq Hqn. apply Hin in Hq as [Hq _]. apply (queued_in_iff _ _ ls n q Hw) in Hqn as (li & El & Hli).
    apply (queued_in_iff _ _ _ n q (queues_removed m2 ls qs' p Hw2)). exists (filter (fun r => r <> p) li).
    split; [|now apply list_elem_of_filter]. revert El. unfold znth. destruct (0 <=? n); [|discriminate]. intros El. now rewrite list_lookup_fmap, El.
  - reflexivity.
Qed.

(** ** Reaping *)
Definition dead_in s (p : Z) : bool :=
  match threads s !! p with
  | Some t => bool_decide (t_state t = THREAD_DEAD) && negb (p =? current s)
  | None => false
  end.

(** The threads that one call of [reap_dead_threads] leaves: a dead first thread
    is taken off the ring, and then the others have to wait for the next call. *)
Definition reap_list s (l : list Z) : list Z :=
  match l with
  | [] => []
  | h :: r => if dead_in s h then r else h :: List.filter (fun p => negb (dead_in s p)) r
  end.

Lemma reaped_dead s s' l p t : reaped s s' l -> threads s !! p = Some t -> p ∈ l -> dead_in s' p = dead_in s p.
Proof.
  intros [Hb Hr _] Et Hp. destruct (Hb p t Hp Et) as (n & w & E). unfold dead_in. rewrite E, Et.
  rewrite Hr. reflexivity.
Qed.

(** One iteration on a dead thread that is not the first one. *)
Lemma reap_step s a z c b t :
  tasks_ok s (a ++ z :: c :: b) -> threads s !! c = Some t -> dead_in s c = true ->
  exists s', reap_thread c z (hd (head s) b) s = Ok s' /\ tasks_ok s' (a ++ z :: b) /\ reaped s s' (a ++ z :: b) /\
    head s' = head s /\ c <> head s /\ c <> hd (head s) b.
Proof.
  intros O Ec Hd. unfold dead_in in Hd. rewrite Ec in Hd. apply andb_true_iff in Hd as [Hdead Hcur].
  apply bool_decide_eq_true in Hdead. apply negb_true_iff, Z.eqb_neq in Hcur.
  pose proof (ok_nodup _ _ O) as Hnd. pose proof (ok_head _ _ O) as Hh. pose proof (ok_linked _ _ O) as Hl.
  destruct (ok_get s _ z O) as [tz Ez]; [apply elem_of_app; right; left|].
  assert (Hnd' := Hnd). apply list.NoDup_app in Hnd' as (_ & Ha & Hz). apply list.NoDup_cons in Hz as [Hz Hc].
  apply list.NoDup_cons in Hc as [Hc _].
  assert (Hch : c <> head s).
  { intros E. destruct a as [|x a]; cbn in Hh; [subst z; apply Hz; rewrite E; left|subst x].
    apply (Ha (head s)); [left|]. rewrite <- E. right. left. }
  assert (Hlz : linked (<[z := set_next (hd (head s) b) tz]> (threads s)) (a ++ z :: b) (head s)) by now apply linked_skip with (p := c).
  replace (a ++ z :: b) with ((a ++ [z]) ++ b) in * by (now rewrite <- app_assoc).
  replace (a ++ z :: c :: b) with ((a ++ [z]) ++ c :: b) in O by (now rewrite <- app_assoc).
  destruct (reap_thread_spec s (a ++ [z]) c b z (hd (head s) b) t tz O Hcur Ec Hdead Ez) as (s' & E & O' & R & Hh').
  - intros ->. apply Hz. left.
  - rewrite (proj2 (Z.eqb_neq _ _) Hch). destruct a; exact Hh.
  - rewrite (proj2 (Z.eqb_neq _ _) Hch). exact Hlz.
  - rewrite (proj2 (Z.eqb_neq _ _) Hch) in Hh'. exists s'. repeat (split; [assumption|]).
    destruct b as [|d b]; [exact Hch|]. cbn. intros ->. apply Hc. left.
Qed.

Lemma filter_reaped s s1 l b :
  reaped s s1 l -> (forall p, p ∈ b -> p ∈ l) -> (forall p, p ∈ b -> is_Some (threads s !! p)) ->
  List.filter (fun p => negb (dead_in s1 p)) b = List.filter (fun p => negb (dead_in s p)) b.
Proof.
  intros R Hl Hs. apply filter_ext_in. intros p Hp%list_elem_of_In. destruct (Hs p Hp) as [t Et]. f_equal.
  eapply reaped_dead; eauto.
Qed.

Lemma reap_loop_spec b : forall s a z c fuel,
  tasks_ok s (a ++ z :: c :: b) -> (length b <= fuel)%nat ->
  exists s', reap_loop fuel c z (head s) s = Ok s' /\
    tasks_ok s' (a ++ z :: List.filter (fun p => negb (dead_in s p)) (c :: b)) /\
    reaped s s' (a ++ z :: List.filter (fun p => negb (dead_in s p)) (c :: b)).
Proof.
  induction b as [|d b IH]; intros s a z c fuel O Hf; pose proof (ok_linked _ _ O) as Hl;
    apply linked_app in Hl as [_ [_ [(t & Et & Hn) _]]]; pose proof (ok_nodup _ _ O) as Hnd; cbn [hd] in Hn;
    assert (Hdc : dead_in s c = bool_decide (t_state t = THREAD_DEAD) && negb (c =? current s)) by (unfold dead_in; now rewrite Et);
    (destruct fuel as [|k]; [try (cbn in Hf; lia)|]); cbn [reap_loop List.filter]; unfold get_thread; rewrite Et; cbn [of_opt obind];
    rewrite <- Hdc, Hn; case_eq (dead_in s c); intros Hd; cbn [negb].
  5,6: assert (Hdh : d <> head s) by (pose proof (ok_head _ _ O) as Hh; intros ->; apply list.NoDup_app in Hnd as (_ & Ha & Hnd);
    destruct a as [|x a]; cbn in Hh; [subst z; apply list.NoDup_cons in Hnd as [Hnd _]; apply Hnd; right; left|];
    subst x; apply (Ha (head s)); [left|right; right; left]).
  1,3: destruct (reap_step s a z c [] t O Et Hd) as (s' & E & O' & R & _ & Hch & _); cbn [hd] in E;
    rewrite (proj2 (Z.eqb_neq _ _) Hch), E; cbn [obind]; rewrite Z.eqb_refl; exists s'; auto.
  1,2: rewrite Z.eqb_refl; exists s; split; [reflexivity|]; split; [exact O|apply reaped_refl].
  - destruct (reap_step s a z c (d :: b) t O Et Hd) as (s1 & E & O1 & R1 & Hh1 & Hch & Hcd). cbn [hd] in E, Hcd.
    rewrite (proj2 (Z.eqb_neq _ _) Hch), E. cbn [obind]. rewrite (proj2 (Z.eqb_neq _ _) Hcd), (proj2 (Z.eqb_neq _ _) Hdh).
    destruct (IH s1 a z d k O1 ltac:(cbn in Hf; lia)) as (s' & E' & O' & R'). rewrite Hh1 in E'.
    assert (Hfl : List.filter (fun p => negb (dead_in s1 p)) (d :: b) = List.filter (fun p => negb (dead_in s p)) (d :: b)).
    { apply (filter_reaped s s1 (a ++ z :: d :: b) _ R1).
      - intros p Hp. apply elem_of_app. right. now right.
      - intros p Hp. apply (ok_dom _ _ O), elem_of_app. right. right. now right. }
    rewrite Hfl in O', R'. exists s'. split; [exact E'|]. split; [exact O'|]. apply (reaped_trans s s1 s' _ _ R1 R').
    intros p. rewrite !elem_of_app, !(elem_of_cons _ _ z). intros [?|[?|Hp]]; auto. right. right.
    apply list_elem_of_In in Hp. apply filter_In in Hp as [Hp _]. now apply list_elem_of_In.
  - rewrite (proj2 (Z.eqb_neq _ _) Hdh). destruct (IH s (a ++ [z]) c d k) as (s' & E' & O' & R').
    { rewrite <- app_assoc. exact O. }
    { cbn in Hf. lia. }
    rewrite <- app_assoc in O', R'. exists s'. split; [exact E'|]. split; [exact O'|exact R'].
Qed.

Lemma reap_spec s l : tasks_ok s l ->
  exists s', reap_dead_threads s = Ok s' /\ tasks_ok s' (reap_list s l) /\ reaped s s' (reap_list s l).
Proof.
  intros O. pose proof (ok_head _ _ O) as Hh. pose proof (ok_current _ _ O) as Hc. pose proof (ok_nodup _ _ O) as Hnd.
  pose proof (ok_linked _ _ O) as Hl. pose proof (ok_size _ _ O) as Hsz.
  destruct l as [|h r]; [inversion Hc|]. cbn in Hh. subst h. unfold reap_dead_threads.
  rewrite (proj2 (Z.eqb_neq _ _) (ok_nonnull s _ (head s) O ltac:(left))). rewrite Hsz.
  rewrite (find_tail_spec (threads s) (head s) r [] (head s)) by (auto; cbn; lia). cbn [obind].
  pose proof Hl as [(t & Et & Hn) _]. cbn [length]. cbn [reap_loop reap_list]. unfold get_thread. rewrite Et. cbn [of_opt obind].
  rewrite Hn. assert (Hdh : dead_in s (head s) = bool_decide (t_state t = THREAD_DEAD) && negb (head s =? current s)) by (unfold dead_in; now rewrite Et).
  rewrite <- Hdh. case_eq (dead_in s (head s)); intros Hd.
  - rewrite Hdh in Hd. apply andb_true_iff in Hd as [Hdead Hcur]. apply bool_decide_eq_true in Hdead. apply negb_true_iff, Z.eqb_neq in Hcur.
    apply elem_of_cons in Hc as [Hc|Hc]; [congruence|]. rewrite Z.eqb_refl.
    destruct (exists_last (l := r)) as (r0 & z & ->); [intros ->; inversion Hc|]. rewrite List.last_last.
    destruct (ok_get s _ z O) as [tz Ez]; [right; apply elem_of_app; right; left|].
    assert (Hz : z <> head s) by (intros ->; apply list.NoDup_cons in Hnd as [Hnd _]; apply Hnd, elem_of_app; right; left).
    assert (Hhd : hd (head s) (r0 ++ [z]) = hd z r0) by now destruct r0. rewrite Hhd.
    destruct (reap_thread_spec s [] (head s) (r0 ++ [z]) z (hd z r0) t tz O Hcur Et Hdead Ez Hz) as (s' & E & O' & R & _).
    + rewrite Z.eqb_refl. now destruct r0.
    + rewrite Z.eqb_refl. cbn [app]. apply (linked_tail _ (head s)); auto.
    + cbn [app] in O', R. rewrite E. cbn [obind]. destruct (Z.eqb_spec (head s) (hd z r0)) as [Eh|_].
      { apply list.NoDup_cons in Hnd as [Hnd _]. destruct Hnd. rewrite Eh. destruct r0; [left|left]. }
      rewrite Z.eqb_refl. exists s'. auto.
  - destruct r as [|c b]; cbn [hd].
    + rewrite Z.eqb_refl. exists s. split; [reflexivity|]. split; [exact O|apply reaped_refl].
    + destruct (Z.eqb_spec c (head s)) as [->|_]; [apply list.NoDup_cons in Hnd as [Hnd _]; destruct Hnd; left|].
      destruct (reap_loop_spec b s [] (head s) c (length (c :: b)) O ltac:(cbn; lia)) as (s' & E & O' & R). exists s'. auto.
Qed.

(** ** Changes of states *)

(** [m'] is [m] with other states and saved stack pointers. *)
Definition restated (m m' : gmap Z thread) : Prop :=
  forall p, match m !! p with
            | Some t => exists st r, m' !! p = Some (set_rsp r (set_state st t))
            | None => m' !! p = None
            end.

Lemma restated_Some m m' p t : restated m m' -> m !! p = Some t -> exists st r, m' !! p = Some (set_rsp r (set_state st t)).
Proof. intros Hr E. specialize (Hr p). now rewrite E in Hr. Qed.

Lemma restated_back m m' p t' : restated m m' -> m' !! p = Some t' -> exists t st r, m !! p = Some t /\ t' = set_rsp r (set_state st t).
Proof.
  intros Hr E. specialize (Hr p). destruct (m !! p) as [t|]; [|congruence]. destruct Hr as (st & r & E'). exists t, st, r. split; [reflexivity|congruence].
Qed.

Lemma restated_refl m : restated m m.
Proof. intros p. destruct (m !! p) as [t|]; [|reflexivity]. exists (t_state t), (t_rsp t). now destruct t. Qed.

Lemma restated_insert m m' p t st r :
  restated m m' -> m !! p = Some t -> restated m (<[p := set_rsp r (set_state st t)]> m').
Proof.
  intros Hr Et q. destruct (decide (p = q)) as [<-|Hne].
  - rewrite Et, lookup_insert_eq. eauto.
  - rewrite lookup_insert_ne by exact Hne. apply Hr.
Qed.

Lemma queues_restated m m' qs :
  restated m m' -> queues_ok m qs ->
  (forall p t t', m !! p = Some t -> m' !! p = Some t' -> t_state t = THREAD_BLOCKED \/ t_state t = THREAD_DEAD ->
     t_state t' = THREAD_BLOCKED \/ t_state t' = THREAD_DEAD) -> queues_ok m' qs.
Proof.
  intros Hr (ls & Hw & Hnd & Hs) Hst. exists ls. split; [|split; [exact Hnd|]].
  - revert Hw. apply queues_same. intros p t _ Et. destruct (restated_Some _ _ _ _ Hr Et) as (st & r & E). eauto.
  - intros p t' Hp Et'. destruct (restated_back _ _ _ _ Hr Et') as (t & st & r & Et & _). eapply Hst; eauto.
Qed.

Lemma ok_restated s s' l :
  tasks_ok s l -> restated (threads s) (threads s') ->
  head s' = head s -> heap s' = heap s -> current s' ∈ l -> 0 <= rsp (regs s') < 2 ^ 64 ->
  (forall p t, threads s' !! p = Some t -> t_state t = THREAD_RUNNING -> p = current s') ->
  queues_ok (threads s') (wait_queues s') ->
  (forall p t, threads s' !! p = Some t -> p <> current s' -> frame_saved (stack s') (t_rsp t)) ->
  (forall p t, threads s' !! p = Some t -> t_state t <> THREAD_DEAD -> is_Some (procs s' !! t_process t)) ->
  tasks_ok s' l.
Proof.
  intros O Hr Hh Hhp Hc Hrsp Hrun Hq Hfr Hp.
  assert (Hobj : ring_objs (threads s') l = ring_objs (threads s) l).
  { apply ring_objs_same; [|intros p; apply O]. intros p t _ Et. destruct (restated_Some _ _ _ _ Hr Et) as (st & r & E). eauto. }
  constructor; auto; rewrite ?Hh, ?Hhp, ?Hobj; try apply O.
  - apply (linked_same (threads s)); [|apply O]. intros p t _ Et. destruct (restated_Some _ _ _ _ Hr Et) as (st & r & E). eauto.
  - intros p. rewrite (ok_dom _ _ O). specialize (Hr p). destruct (threads s !! p) as [t|].
    + destruct Hr as (st & r & ->). split; eauto.
    + rewrite Hr. split; intros [? ?]; discriminate.
Qed.

(** ** The context switch *)
Definition saved_frame (r : cpu) : list Z := [r15 r; r14 r; r13 r; r12 r; rbx r; rbp r; l_after_switch code].

Lemma context_switch_spec s old new next_cr3 to tn :
  threads s !! old = Some to -> threads s !! new = Some tn -> old <> new ->
  0 <= rsp (regs s) < 2 ^ 64 -> frame_saved (stack s) (t_rsp tn) ->
  exists m sp r, context_switch code old new next_cr3 s =
      Ok (with_regs (with_threads (with_stack s m) (<[old := set_rsp sp to]> (threads s))) r) /\
    words_at m sp (saved_frame (regs s)) /\ sp = u64 (rsp (regs s) - 56) /\
    (forall x, is_Some (stack s !! x) -> is_Some (m !! x)) /\
    (forall x, (forall j, 0 <= j < 7 -> x <> u64 (sp + 8 * j)) -> m !! x = stack s !! x) /\
    0 <= rsp r < 2 ^ 64 /\ cr3 r = (if next_cr3 =? 0 then cr3 (regs s) else next_cr3) /\
    (forall vs, words_at m (t_rsp tn) vs -> length vs = 7%nat ->
       vs = [r15 r; r14 r; r13 r; r12 r; rbx r; rbp r; rip r] /\ rsp r = u64 (t_rsp tn + 56)).
Proof.
  intros Eo En Hne Hsp Hfr. unfold context_switch. set (r0 := regs s) in *.
  destruct (push_all (stack s) (rsp r0) _) as [m sp] eqn:E.
  destruct (push_all_spec _ _ _ _ _ E eq_refl Hsp) as (Es & Hw & Hf).
  assert (Hm : forall x, is_Some (stack s !! x) -> is_Some (m !! x)) by (intros x; eapply push_all_present; eauto; reflexivity).
  unfold upd_thread, get_thread, set_thread. cbn [threads with_stack with_threads]. rewrite Eo.
  cbn [of_opt obind threads with_stack with_threads]. rewrite lookup_insert_ne by exact Hne. rewrite En. cbn [of_opt obind].
  destruct (frame_mono _ m _ Hm Hfr) as (vs & Hl & Hv). destruct (pop_all_spec m vs _ Hv) as (sp' & Ep & Hsp').
  rewrite Hl in Ep. cbn [stack with_threads with_stack]. rewrite Ep. cbn [obind].
  do 7 (destruct vs as [|? vs]; [discriminate Hl|]). destruct vs; [|discriminate Hl].
  exists m, sp. eexists. split; [reflexivity|]. split; [exact Hw|]. split; [exact Es|]. split; [exact Hm|]. split; [exact Hf|].
  cbn [rsp cr3]. split; [rewrite Hsp'; apply u64_range|]. split; [reflexivity|].
  intros vs' Hv' Hl'. destruct (pop_all_spec m vs' _ Hv') as (sp2 & Ep2 & _). rewrite Hl', Ep in Ep2. injection Ep2 as <- <-.
  split; [reflexivity|exact Hsp'].
Qed.

(** ** Scheduling *)

(** The states after the running thread gave up the processor. *)
Definition yielded (st : thread_state) : thread_state := if bool_decide (st = THREAD_RUNNING) then THREAD_READY else st.

Definition runnable s (p : Z) : bool :=
  match threads s !! p with Some t => bool_decide (yielded (t_state t) = THREAD_READY) | None => false end.

(** The address space of the current thread's process is the one in use. *)
Definition loaded s : Prop :=
  forall t p, threads s !! current s = Some t -> procs s !! t_process t = Some p -> p_pml4 p <> 0 -> cr3 (regs s) = p_pml4 p.

Lemma set_state_id t : set_state (t_state t) t = t.
Proof. now destruct t. Qed.

(** [if (current->state == THREAD_RUNNING) current->state = THREAD_READY;] *)
Lemma mark_spec s l c :
  tasks_ok s l -> threads s !! current s = Some c ->
  let s' := if bool_decide (t_state c = THREAD_RUNNING) then set_thread s (current s) (set_state THREAD_READY c) else s in
  tasks_ok s' l /\ s' = with_threads s (threads s') /\
  forall p t, threads s !! p = Some t -> threads s' !! p = Some (set_state (yielded (t_state t)) t).
Proof.
  intros O Ec. cbn zeta. case_bool_decide as Hrun.
  - assert (Hall : forall p t, threads s !! p = Some t ->
      threads (set_thread s (current s) (set_state THREAD_READY c)) !! p = Some (set_state (yielded (t_state t)) t)).
    { intros p t Et. cbn. unfold yielded. destruct (decide (current s = p)) as [<-|Hne].
      - rewrite lookup_insert_eq. rewrite Ec in Et. injection Et as <-. now rewrite bool_decide_eq_true_2.
      - rewrite lookup_insert_ne by exact Hne. rewrite bool_decide_eq_false_2, set_state_id; [exact Et|].
        intros E. apply Hne. symmetry. eapply ok_running; eauto. }
    assert (Hr : restated (threads s) (threads (set_thread s (current s) (set_state THREAD_READY c)))).
    { cbn. replace (set_state THREAD_READY c) with (set_rsp (t_rsp c) (set_state THREAD_READY c)) by now destruct c.
      apply restated_insert; [apply restated_refl|exact Ec]. }
    split; [|split; [reflexivity|exact Hall]].
    assert (Hback : forall p t', threads (set_thread s (current s) (set_state THREAD_READY c)) !! p = Some t' ->
      exists t, threads s !! p = Some t /\ t' = set_state (yielded (t_state t)) t).
    { intros p t' Et'. destruct (restated_back _ _ _ _ Hr Et') as (t & _ & _ & Et & _). exists t. split; [exact Et|].
      pose proof (Hall p t Et). congruence. }
    apply (ok_restated s); auto; [exact (ok_current _ _ O)|exact (ok_rsp _ _ O)|..].
    + intros p t' Et' Hst. destruct (Hback p t' Et') as (t & _ & ->). revert Hst. cbn. unfold yielded. case_bool_decide; [discriminate|congruence].
    + apply (queues_restated (threads s)); [exact Hr|apply O|]. intros p t t' Et Et'. rewrite (Hall p t Et) in Et'. injection Et' as <-.
      cbn. unfold yielded. case_bool_decide; [intros [?|?]; congruence|auto].
    + intros p t' Et' Hp. destruct (Hback p t' Et') as (t & Et & ->). exact (ok_frames _ _ O p t Et Hp).
    + intros p t' Et' Hst. destruct (Hback p t' Et') as (t & Et & ->). apply (ok_procs _ _ O p t Et). intros E. apply Hst. cbn. unfold yielded. now rewrite E.
  - split; [exact O|]. split; [now destruct s|]. intros p t Et. rewrite Et. f_equal. symmetry. unfold yielded.
    rewrite bool_decide_eq_false_2; [apply set_state_id|]. intros E. pose proof (ok_running _ _ O p t Et E) as ->. congruence.
Qed.

(** [s'] is [s] with [next] running. *)
Record switched s s' (next : Z) : Prop := {
  sw_current : current s' = next;
  sw_idle : in_scheduler s' = false;
  sw_rest : procs s' = procs s /\ files s' = files s /\ head s' = head s /\ heap s' = heap s /\ wait_queues s' = wait_queues s /\
    next_tid s' = next_tid s /\ next_pid s' = next_pid s /\ scheduler_ticks s' = scheduler_ticks s /\
    preemption_enabled s' = preemption_enabled s;
  sw_thread p t : threads s !! p = Some t ->
    exists r, threads s' !! p = Some (set_rsp r (set_state (if p =? next then THREAD_RUNNING else t_state t) t));
  sw_loaded : loaded s -> loaded s';
  sw_rsp0 t : threads s !! next = Some t -> t_kernel_stack_base t <> 0 ->
    rsp0 s' = t_kernel_stack_base t +64 t_kernel_stack_size t
}.

(** The states after [next] was marked as running. *)
Lemma marked_threads (m m' : gmap Z thread) old next tn sp :
  m !! next = Some tn -> m' = <[next := set_state THREAD_RUNNING tn]> m ->
  (forall p t, m !! p = Some t -> exists r, m' !! p = Some (set_rsp r (set_state (if p =? next then THREAD_RUNNING else t_state t) t))) /\
  (forall to, m' !! old = Some to -> forall p t, m !! p = Some t ->
     exists r, <[old := set_rsp sp to]> m' !! p = Some (set_rsp r (set_state (if p =? next then THREAD_RUNNING else t_state t) t))).
Proof.
  intros En ->. assert (H1 : forall p t, m !! p = Some t ->
    <[next := set_state THREAD_RUNNING tn]> m !! p = Some (set_state (if p =? next then THREAD_RUNNING else t_state t) t)).
  { intros p t Et. destruct (Z.eqb_spec p next) as [->|Hne].
    - rewrite lookup_insert_eq. congruence.
    - rewrite lookup_insert_ne, set_state_id by congruence. exact Et. }
  split.
  - intros p t Et. rewrite (H1 p t Et). exists (t_rsp t). now destruct t.
  - intros to Eo p t Et. pose proof (H1 p t Et) as E. destruct (decide (old = p)) as [<-|Hne].
    + rewrite lookup_insert_eq. exists sp. congruence.
    + rewrite lookup_insert_ne by exact Hne. rewrite E. exists (t_rsp t). now destruct t.
Qed.

(** The invariant after a switch. *)
Lemma ok_switched s s' l next :
  tasks_ok s l -> switched s s' next -> next ∈ l -> (forall p t, threads s !! p = Some t -> t_state t <> THREAD_RUNNING) ->
  (forall t, threads s !! next = Some t -> t_state t = THREAD_READY) ->
  (forall p, threads s !! p = None -> threads s' !! p = None) -> 0 <= rsp (regs s') < 2 ^ 64 ->
  (forall p t, threads s' !! p = Some t -> p <> next -> frame_saved (stack s') (t_rsp t)) -> tasks_ok s' l.
Proof.
  intros O [Hc _ (Hp & _ & Hh & Hhp & Hq & _) Ht _ _] Hn Hnr Hready Hnone Hrsp Hfr.
  assert (Hr : restated (threads s) (threads s')).
  { intros p. destruct (threads s !! p) as [t|] eqn:Et; [|auto]. destruct (Ht p t Et) as [r E]. eauto. }
  assert (Hback : forall p t', threads s' !! p = Some t' ->
    exists t, threads s !! p = Some t /\ t_state t' = (if p =? next then THREAD_RUNNING else t_state t) /\ t_process t' = t_process t).
  { intros p t' Et'. destruct (restated_back _ _ _ _ Hr Et') as (t & st & r & Et & _). destruct (Ht p t Et) as [r' E].
    rewrite E in Et'. injection Et' as <-. eauto. }
  apply (ok_restated s); auto; rewrite ?Hc, ?Hp, ?Hq; auto.
  - intros p t' Et' Hst. destruct (Hback p t' Et') as (t & Et & E & _). rewrite E in Hst. destruct (Z.eqb_spec p next); [assumption|].
    now apply Hnr in Et.
  - apply (queues_restated (threads s)); [exact Hr|apply O|]. intros p t t' Et Et' Hst. destruct (Hback p t' Et') as (t2 & Et2 & E & _).
    rewrite Et in Et2. injection Et2 as <-. rewrite E. destruct (Z.eqb_spec p next) as [->|]; [|exact Hst].
    pose proof (Hready t Et). destruct Hst; congruence.
  - intros p t' Et' Hst. destruct (Hback p t' Et') as (t & Et & E & ->). apply (ok_procs _ _ O p t Et). rewrite E in Hst.
    destruct (Z.eqb_spec p next) as [->|]; [|exact Hst]. rewrite (Hready t Et). discriminate.
Qed.

Lemma switch_to_spec s l next tn :
  tasks_ok s l -> (forall p t, threads s !! p = Some t -> t_state t <> THREAD_RUNNING) ->
  threads s !! next = Some tn -> t_state tn = THREAD_READY ->
  exists s', switch_to code next s = Ok (if current s =? next then Returned else Switched (current s) next, s') /\
    switched s s' next /\ tasks_ok s' l.
Proof.
  intros O Hnr En Hready. assert (Hn : next ∈ l) by (apply (ok_dom _ _ O); eauto).
  assert (Hready' : forall t, threads s !! next = Some t -> t_state t = THREAD_READY) by (intros t Et; congruence).
  unfold switch_to, upd_thread, get_thread, set_thread. cbn [threads with_current with_threads with_in_scheduler current]. rewrite En.
  cbn [of_opt obind threads with_threads with_current with_in_scheduler]. set (m1 := <[next := set_state THREAD_RUNNING tn]> (threads s)).
  assert (En1 : m1 !! next = Some (set_state THREAD_RUNNING tn)) by apply lookup_insert_eq. rewrite En1.
  cbn [of_opt obind t_kernel_stack_base t_kernel_stack_size t_process set_state].
  set (s1 := if t_kernel_stack_base tn =? 0 then _ else _).
  assert (Es1 : s1 = with_rsp0 (with_in_scheduler (with_threads (with_current s next) m1) false)
     (if t_kernel_stack_base tn =? 0 then rsp0 s else t_kernel_stack_base tn +64 t_kernel_stack_size tn))
    by (unfold s1; destruct (t_kernel_stack_base tn =? 0); [now destruct s|reflexivity]).
  rewrite Es1. clear s1 Es1. set (s1 := with_rsp0 _ _). change (current s1) with next.
  destruct (marked_threads (threads s) m1 (current s) next tn (u64 (rsp (regs s) - 56)) En eq_refl) as [Hm1 Hm2].
  destruct (Z.eqb_spec (current s) next) as [Ecur|Hne].
  - assert (SW : switched s s1 next).
    { split; auto; [repeat split; reflexivity| |].
      - intros L t p Et Ep. cbn in Et. rewrite En1 in Et. injection Et as <-. apply (L tn p); [rewrite Ecur; exact En|exact Ep].
      - intros t Et Hb. rewrite En in Et. injection Et as <-. cbn. now rewrite (proj2 (Z.eqb_neq _ _) Hb). }
    exists s1. split; [reflexivity|]. split; [exact SW|]. apply (ok_switched s s1 l next); auto; [|apply O|].
    + intros p Ep. cbn. unfold m1. rewrite lookup_insert_ne; [exact Ep|congruence].
    + intros p t Et Hp. cbn in Et. unfold m1 in Et. rewrite lookup_insert_ne in Et by congruence. apply (ok_frames _ _ O p t Et). congruence.
  - destruct (ok_get s l _ O (ok_current _ _ O)) as [to Eo].
    assert (Eo1 : m1 !! current s = Some to) by (unfold m1; now rewrite lookup_insert_ne by congruence).
    change (threads s1) with m1. rewrite Eo1. cbn [of_opt obind].
    destruct (ok_procs _ _ O next tn En ltac:(congruence)) as [pn Epn].
    set (c := if t_process to =? t_process tn then 0 else p_pml4 pn).
    assert (Ecr : (if t_process to =? t_process tn then Ok 0 else let* p := get_proc s1 (t_process tn) in Ok (p_pml4 p)) = Ok c)
      by (unfold c, get_proc; change (procs s1) with (procs s); rewrite Epn; now destruct (t_process to =? t_process tn)).
    rewrite Ecr. cbn [obind].
    destruct (context_switch_spec s1 (current s) next c to (set_state THREAD_RUNNING tn) Eo1 En1 Hne (ok_rsp _ _ O)
      (ok_frames _ _ O next tn En ltac:(congruence))) as (m & sp & r & E & Hw & Hsp & Hpres & _ & Hr & Hcr & _).
    rewrite E. cbn [obind]. set (s2 := with_regs _ r).
    assert (SW : switched s s2 next).
    { split; auto; [repeat split; reflexivity| | |].
      - intros p t Et. cbn. rewrite Hsp. exact (Hm2 to Eo1 p t Et).
      - intros L t p Et Ep Hp. cbn in Et, Ep. rewrite lookup_insert_ne, En1 in Et by congruence. injection Et as <-.
        cbn in Ep. rewrite Epn in Ep. injection Ep as <-. cbn. rewrite Hcr. unfold c. cbn.
        destruct (Z.eqb_spec (t_process to) (t_process tn)) as [Et|_].
        + cbn. apply (L to pn Eo); [now rewrite Et|exact Hp].
        + now rewrite (proj2 (Z.eqb_neq _ _) Hp).
      - intros t Et Hb. rewrite En in Et. injection Et as <-. cbn. now rewrite (proj2 (Z.eqb_neq _ _) Hb). }
    exists s2. split; [reflexivity|]. split; [exact SW|]. apply (ok_switched s s2 l next); auto.
    + intros p Ep. cbn. unfold m1. rewrite !lookup_insert_ne; [exact Ep|congruence..].
    + intros p t Et Hp. cbn in Et |- *. destruct (decide (current s = p)) as [<-|Hpc].
      * rewrite lookup_insert_eq in Et. injection Et as <-. cbn. exists (saved_frame (regs s)). split; [reflexivity|exact Hw].
      * unfold m1 in Et. rewrite !lookup_insert_ne in Et by congruence. apply (frame_mono (stack s)); [exact Hpres|]. apply (ok_frames _ _ O p t Et). congruence.
Qed.

(** The thread the round-robin order gives the processor to. *)
Definition choice s (l : list Z) : option Z := List.find (runnable s) (turns (current s) (reap_list s l)).

Record scheduled s s' (l' : list Z) (next : Z) : Prop := {
  sc_ok : tasks_ok s' l';
  sc_current : current s' = next;
  sc_idle : in_scheduler s' = false;
  sc_rest : procs s' = procs s /\ files s' = files s /\ next_tid s' = next_tid s /\ next_pid s' = next_pid s /\
    scheduler_ticks s' = scheduler_ticks s /\ preemption_enabled s' = preemption_enabled s;
  sc_thread p t : p ∈ l' -> threads s !! p = Some t ->
    exists t', threads s' !! p = Some t' /\ t_id t' = t_id t /\ t_process t' = t_process t /\
      t_state t' = (if p =? next then THREAD_RUNNING else yielded (t_state t));
  sc_loaded : loaded s -> loaded s';
  sc_rsp0 t : threads s !! next = Some t -> t_kernel_stack_base t <> 0 ->
    rsp0 s' = t_kernel_stack_base t +64 t_kernel_stack_size t;
  sc_queued n p : p ∈ l' -> queued_in (threads s) (wait_queues s) n p -> queued_in (threads s') (wait_queues s') n p
}.

Lemma reap_list_sub s l p : p ∈ reap_list s l -> p ∈ l.
Proof.
  destruct l as [|h r]; [done|]. cbn [reap_list]. destruct (dead_in s h); [now right|]. rewrite !elem_of_cons. intros [->|Hp]; [now left|right].
  apply list_elem_of_In in Hp. apply filter_In in Hp as [Hp _]. now apply list_elem_of_In.
Qed.

Lemma find_ext (f g : Z -> bool) l : (forall x, x ∈ l -> f x = g x) -> List.find f l = List.find g l.
Proof.
  induction l as [|x l IH]; intros Hl; [reflexivity|]. cbn [List.find]. rewrite (Hl x) by left. destruct (g x); [reflexivity|].
  apply IH. intros y Hy. apply Hl. now right.
Qed.

Lemma turns_mem cur a b p : cur ∉ a -> p ∈ turns cur (a ++ cur :: b) <-> p ∈ a ++ cur :: b.
Proof. intros Ha. unfold turns. rewrite cut_split by exact Ha. rewrite !elem_of_app, !elem_of_cons, elem_of_nil. tauto. Qed.

(** The states a thread goes through in [schedule] before the switch. *)
Lemma marked_thread s s1 s2 l p t :
  reaped s s1 l -> (forall p t, threads s1 !! p = Some t -> threads s2 !! p = Some (set_state (yielded (t_state t)) t)) ->
  p ∈ l -> threads s !! p = Some t ->
  exists t2, threads s2 !! p = Some t2 /\ t_state t2 = yielded (t_state t) /\ t_id t2 = t_id t /\ t_process t2 = t_process t /\
    t_kernel_stack_base t2 = t_kernel_stack_base t /\ t_kernel_stack_size t2 = t_kernel_stack_size t.
Proof.
  intros R Hm Hp Et. destruct (rp_body _ _ _ R p t Hp Et) as (n & w & E). apply Hm in E. eexists. split; [exact E|]. cbn. auto.
Qed.

Lemma schedule_spec s l :
  tasks_ok s l -> in_scheduler s = false ->
  match choice s l with
  | Some next => exists s', schedule code s = Ok (if current s =? next then Returned else Switched (current s) next, s') /\
      scheduled s s' (reap_list s l) next
  | None => exists s', schedule code s = Ok (Halted, s')
  end.
Proof.
  intros O Hidle. unfold schedule. rewrite Hidle. set (s0 := with_in_scheduler s true).
  assert (O0 : tasks_ok s0 l) by (destruct O; now constructor).
  destruct (reap_spec s0 l O0) as (s1 & E1 & O1 & R1). rewrite E1, obind_Ok.
  change (reap_list s0 l) with (reap_list s l) in *. set (l' := reap_list s l) in *.
  assert (Hc1 : current s1 = current s) by (rewrite (rp_rest _ _ _ R1); reflexivity).
  destruct (ok_get s1 l' _ O1 (ok_current _ _ O1)) as [c Ec]. assert (Eg : get_thread s1 (current s1) = Ok c) by (unfold get_thread; now rewrite Ec). rewrite Eg, obind_Ok. clear Eg.
  destruct (mark_spec s1 l' c O1 Ec) as (O2 & Es2 & Hm). set (s2 := if bool_decide _ then _ else _) in *.
  assert (Hc2 : current s2 = current s) by (rewrite Es2; exact Hc1).
  assert (Hold : forall p, p ∈ l' -> is_Some (threads s !! p)) by (intros p Hp; apply (ok_dom _ _ O); now apply (reap_list_sub s)).
  assert (Hback : forall p t, threads s2 !! p = Some t -> exists u, threads s1 !! p = Some u /\ t = set_state (yielded (t_state u)) u).
  { intros p t Et. assert (Hp : p ∈ l') by (apply (ok_dom _ _ O2); eauto). destruct (ok_get s1 l' p O1 Hp) as [u Eu]. exists u. split; [exact Eu|].
    apply Hm in Eu. congruence. }
  pose proof (ok_current _ _ O2) as Hcur. rewrite Hc2 in Hcur. apply list_elem_of_split in Hcur as (a & b & El).
  pose proof (ok_nodup _ _ O2) as Hnd. rewrite El in Hnd. apply list.NoDup_app in Hnd as (_ & Ha & Hnd). apply list.NoDup_cons in Hnd as [Hb _].
  assert (Hca : current s ∉ a) by (intros Hin; apply (Ha _ Hin); left).
  pose proof (ok_head _ _ O2) as Hh. pose proof (ok_linked _ _ O2) as Hl2. pose proof (ok_size _ _ O2) as Hsz. rewrite El in Hh, Hl2, Hsz.
  destruct (linked_turns _ _ a (current s) b Hh Hl2) as [Hlt (c2 & Ec2 & Hn2)].
  assert (Hnext : t_next c = hd (current s) (b ++ a)).
  { rewrite Hc1 in Ec. pose proof (Hm _ _ Ec) as E. rewrite Ec2 in E. injection E as ->. exact Hn2. }
  rewrite Hnext, Hc2, (find_ready_spec _ _ c2 (b ++ a)); auto.
  2:{ rewrite elem_of_app. tauto. }
  2:{ rewrite Hsz, !length_app. cbn [length]. lia. }
  assert (Hch : List.find (is_ready (threads s2)) ((b ++ a) ++ [current s]) = choice s l).
  { unfold choice. fold l'. rewrite <- app_assoc, El. unfold turns. rewrite cut_split by exact Hca. apply find_ext. intros p Hp.
    assert (Hp' : p ∈ l') by (rewrite El; rewrite !elem_of_app, list_elem_of_singleton in Hp; rewrite elem_of_app, elem_of_cons; tauto).
    destruct (Hold p Hp') as [t Et]. destruct (marked_thread s0 s1 s2 l' p t R1 Hm Hp' Et) as (t2 & E2 & Hst & _).
    unfold is_ready, runnable. now rewrite E2, Et, Hst. }
  rewrite Hch, obind_Ok. destruct (choice s l) as [next|] eqn:Hnx; [|eexists; reflexivity].
  assert (Hin : next ∈ l').
  { unfold choice in Hnx. fold l' in Hnx. apply List.find_some in Hnx as [Hin _]. apply list_elem_of_In in Hin.
    rewrite El in Hin |- *. now apply turns_mem in Hin. }
  destruct (Hold next Hin) as [tn En]. destruct (marked_thread s0 s1 s2 l' next tn R1 Hm Hin En) as (t2 & E2 & Hst & _ & _ & Hkb & Hks).
  destruct (switch_to_spec s2 l' next t2 O2) as (s' & E & SW & O'); auto.
  { intros p t Et Hrun. destruct (Hback p t Et) as (u & Eu & ->). revert Hrun. cbn. unfold yielded. case_bool_decide; congruence. }
  { rewrite Hst. unfold choice in Hnx. apply List.find_some in Hnx as [_ Hr]. unfold runnable in Hr. rewrite En in Hr. now apply bool_decide_eq_true in Hr. }
  exists s'. rewrite Hc2 in E. split; [exact E|]. destruct SW as [S1 S2 (S3 & S4 & S5 & S6 & S7 & S8 & S9 & S10 & S11) S12 S13 S14].
  assert (Hrest : procs s2 = procs s /\ files s2 = files s /\ next_tid s2 = next_tid s /\ next_pid s2 = next_pid s /\
    scheduler_ticks s2 = scheduler_ticks s /\ preemption_enabled s2 = preemption_enabled s /\ regs s2 = regs s)
    by (rewrite Es2, (rp_rest _ _ _ R1); repeat split; reflexivity).
  destruct Hrest as (Q1 & Q2 & Q3 & Q4 & Q5 & Q6 & Q7). split; auto.
  - repeat apply conj; congruence.
  - intros p t Hp Et. destruct (marked_thread s0 s1 s2 l' p t R1 Hm Hp Et) as (u & Eu & Hu & Hid & Hpr & _).
    destruct (S12 p u Eu) as [r Er]. eexists. split; [exact Er|]. cbn. rewrite Hu. auto.
  - intros L. apply S13. intros t p Et Ep. rewrite Hc2 in Et. rewrite Q7, Q1 in *. 
    destruct (Hold (current s)) as [u Eu]; [rewrite El, elem_of_app; right; left|].
    destruct (marked_thread s0 s1 s2 l' (current s) u R1 Hm ltac:(rewrite El, elem_of_app; right; left) Eu) as (u2 & Eu2 & _ & _ & Hpr & _).
    rewrite Et in Eu2. injection Eu2 as <-. rewrite Hpr in Ep. exact (L u p Eu Ep).
  - intros t Et Hb'. rewrite En in Et. injection Et as <-. rewrite (S14 t2 E2) by congruence. congruence.
  - intros n p Hp Hq. apply (rp_queued _ _ _ R1 n p Hp) in Hq. rewrite S7. assert (Eq2 : wait_queues s2 = wait_queues s1) by now rewrite Es2. rewrite Eq2.
    revert Hq. apply queued_in_same. intros q u Eu. destruct (S12 q _ (Hm q u Eu)) as [r Er]. eexists. split; [exact Er|reflexivity].
Qed.

(** ** Creation *)

(** The stack of a thread that has not run: registers, entry point and what lies
    behind it, from the lowest word on. *)
Definition first_frame (wrapper v12 v13 v14 : Z) : list Z :=
  [0; v14; v13; v12; 0; 0; wrapper; l_thread_exit code; 0].

Record created s s' (l : list Z) (t process wrapper v12 v13 v14 : Z) (nt : thread) : Prop := {
  cr_ok : tasks_ok s' (l ++ [t]);
  cr_fresh : t ∉ l;
  cr_thread : threads s' !! t = Some nt;
  cr_state : t_state nt = THREAD_READY /\ t_id nt = next_tid s /\ t_process nt = process;
  cr_frame : words_at (stack s') (t_rsp nt) (first_frame wrapper v12 v13 v14);
  cr_aligned : (t_rsp nt + 56) mod 16 = 0 /\ t_kernel_stack_base nt <= t_rsp nt /\
    t_rsp nt + 72 <= t_kernel_stack_base nt + t_kernel_stack_size nt < 2 ^ 64;
  cr_others p u : p ∈ l -> threads s !! p = Some u -> exists n, threads s' !! p = Some (set_next n u);
  cr_rest : current s' = current s /\ in_scheduler s' = in_scheduler s /\ procs s' = procs s /\ regs s' = regs s /\
    wait_queues s' = wait_queues s /\ preemption_enabled s' = preemption_enabled s
}.

Lemma words_at_app st sp a b : words_at st sp (a ++ b) -> words_at st sp a.
Proof.
  intros [Hr Hw]. split; [exact Hr|]. intros j v Hj. apply Hw. rewrite <- Hj. pose proof (znth_Some _ _ _ Hj). unfold znth, zlen in *.
  destruct (Z.leb_spec 0 j); [|lia]. apply lookup_app_l. lia.
Qed.

(** The top of a fresh stack. *)
Lemma stack_top base : 0 < base -> base + STACK_SIZE < 2 ^ 64 ->
  let top := Z.land (base +64 STACK_SIZE) (u64 (Z.lnot 15)) in
  top mod 16 = 0 /\ base + STACK_SIZE - 15 <= top <= base + STACK_SIZE.
Proof.
  unfold STACK_SIZE. intros Hb Hs. cbn zeta. rewrite u64_id by lia. change (Z.lnot 15) with (Z.lnot (2 ^ 4 - 1)).
  rewrite land_not_low by lia. change (2 ^ 4) with 16. dlia.
Qed.

(** A new thread behind the last one. *)
Lemma linked_snoc m l0 z h t tz nt :
  linked m (l0 ++ [z]) h -> NoDup (l0 ++ [z]) -> t ∉ l0 ++ [z] -> m !! z = Some tz -> t_next nt = h ->
  linked (<[z := set_next t tz]> (<[t := nt]> m)) ((l0 ++ [z]) ++ [t]) h.
Proof.
  intros Hl Hnd Ht Ez Hn. rewrite elem_of_app, list_elem_of_singleton in Ht. apply list.NoDup_app in Hnd as (_ & Hz & _).
  apply linked_app in Hl as [Hl _]. cbn [hd] in Hl. rewrite <- app_assoc. apply linked_app. cbn [app hd]. split; [|split; [|split; [|done]]].
  - revert Hl. apply linked_same. intros p u Hp Eu. exists u. split; [|reflexivity]. rewrite !lookup_insert_ne; [exact Eu| |].
    + intros ->. tauto.
    + intros ->. apply (Hz p Hp). left.
  - eexists. split; [apply lookup_insert_eq|reflexivity].
  - exists nt. split; [|exact Hn]. rewrite lookup_insert_ne by (intros ->; tauto). apply lookup_insert_eq.
Qed.

(** The invariant with a new thread [t] that owns the stack [base]. *)
Lemma ok_created s s' l0 z t tz nt base :
  tasks_ok s (l0 ++ [z]) -> threads s !! z = Some tz -> t ∉ l0 ++ [z] ->
  threads s' = <[z := set_next t tz]> (<[t := nt]> (threads s)) ->
  head s' = head s -> current s' = current s -> wait_queues s' = wait_queues s -> procs s' = procs s -> regs s' = regs s ->
  t_next nt = head s -> t_state nt = THREAD_READY -> is_Some (procs s !! t_process nt) ->
  thread_objs (threads s') t = [t; base] -> oh_ok (heap s') ->
  (forall q, oh_held (heap s') q <-> q = base \/ q = t \/ oh_held (heap s) q) ->
  ~ oh_held (heap s) t -> ~ oh_held (heap s) base -> base <> t ->
  (forall x, is_Some (stack s !! x) -> is_Some (stack s' !! x)) -> frame_saved (stack s') (t_rsp nt) ->
  tasks_ok s' ((l0 ++ [z]) ++ [t]).
Proof.
  intros O Ez Ht Em Hh Hc Hq Hp Hr Hn Hst Hproc Hobj Hok Hheld Ht' Hb Htb Hmono Hfr.
  assert (Hzt : z <> t) by (intros <-; apply Ht, elem_of_app; right; left).
  assert (Hlook : forall p, threads s' !! p = if decide (p = t) then Some nt else if decide (p = z) then Some (set_next t tz) else threads s !! p).
  { intros p. rewrite Em. destruct (decide (p = t)) as [->|H1']; [rewrite lookup_insert_ne by exact Hzt; apply lookup_insert_eq|].
    destruct (decide (p = z)) as [->|H2']; [apply lookup_insert_eq|]. now rewrite !lookup_insert_ne by congruence. }
  assert (Hold : forall p u, threads s' !! p = Some u -> p <> t -> exists v, threads s !! p = Some v /\ u = set_next (t_next u) v).
  { intros p u Eu Hpt. rewrite Hlook in Eu. destruct (decide (p = t)); [congruence|]. destruct (decide (p = z)) as [->|].
    - injection Eu as <-. exists tz. auto.
    - exists u. split; [exact Eu|now destruct u]. }
  assert (Hnew : forall p v, p ∈ l0 ++ [z] -> threads s !! p = Some v -> exists n, threads s' !! p = Some (set_next n v)).
  { intros p v Hpl Ev. rewrite Hlook. destruct (decide (p = t)) as [->|]; [tauto|]. destruct (decide (p = z)) as [->|].
    - exists t. congruence.
    - exists (t_next v). rewrite Ev. now destruct v. }
  assert (Hsame : ring_objs (threads s') (l0 ++ [z]) = ring_objs (threads s) (l0 ++ [z])).
  { apply ring_objs_same; [|intros p; apply O]. intros p v Hpl Ev. destruct (Hnew p v Hpl Ev) as [n E]. eauto. }
  assert (Hring : ring_objs (threads s') ((l0 ++ [z]) ++ [t]) = ring_objs (threads s) (l0 ++ [z]) ++ [t; base]).
  { rewrite ring_objs_app, Hsame. f_equal. unfold ring_objs. cbn [fmap list_fmap concat]. now rewrite app_nil_r. }
  constructor; rewrite ?Hring, ?Hh, ?Hc, ?Hq, ?Hp, ?Hr; try apply O; auto.
  - rewrite <- (ok_head _ _ O). now destruct l0.
  - rewrite Em. apply linked_snoc; auto; try apply O. eapply ok_nodup; eauto.
  - intros p. rewrite elem_of_app, list_elem_of_singleton, (ok_dom _ _ O), Hlook.
    destruct (decide (p = t)) as [->|]; [split; eauto|]. destruct (decide (p = z)) as [->|]; [rewrite Ez; split; eauto|]. tauto.
  - apply elem_of_app. left. exact (ok_current _ _ O).
  - intros p u Eu Hu. destruct (decide (p = t)) as [->|Hpt]; [rewrite Hlook, decide_True in Eu by reflexivity; congruence|].
    destruct (Hold p u Eu Hpt) as (v & Ev & Euv). apply (ok_running _ _ O p v Ev). rewrite Euv in Hu. exact Hu.
  - apply list.NoDup_app. split; [apply O|]. split; [|constructor; [rewrite list_elem_of_singleton; congruence|constructor; [apply not_elem_of_nil|constructor]]].
    intros p Hpo Hin. pose proof (ok_held _ _ O p Hpo). apply elem_of_cons in Hin as [->|Hin%list_elem_of_singleton]; [tauto|now subst].
  - intros p. rewrite elem_of_app, !elem_of_cons, elem_of_nil, Hheld. intros [Hpo|Hin]; [right; right; now apply O|tauto].
  - destruct (ok_queues _ _ O) as (ls & Hw & Hnd & Hs). exists ls. split; [|split; [exact Hnd|]].
    + revert Hw. apply queues_same. intros p v _ Ev. assert (Hpl : p ∈ l0 ++ [z]) by (apply (ok_dom _ _ O); eauto).
      destruct (Hnew p v Hpl Ev) as [n E]. eauto.
    + intros p u Hpl Eu. destruct (decide (p = t)) as [->|Hpt].
      * destruct Ht. apply (ok_dom _ _ O). exact (elem_of_concat_queue _ _ _ _ Hw Hpl).
      * destruct (Hold p u Eu Hpt) as (v & Ev & ->). exact (Hs p v Hpl Ev).
  - intros p u Eu Hpc. destruct (decide (p = t)) as [->|Hpt]; [rewrite Hlook, decide_True in Eu by reflexivity; congruence|].
    destruct (Hold p u Eu Hpt) as (v & Ev & ->). apply (frame_mono (stack s)); [exact Hmono|]. exact (ok_frames _ _ O p v Ev Hpc).
  - intros p u Eu Hu. destruct (decide (p = t)) as [->|Hpt]; [rewrite Hlook, decide_True in Eu by reflexivity; congruence|].
    destruct (Hold p u Eu Hpt) as (v & Ev & Euv). rewrite Euv in Hu |- *. exact (ok_procs _ _ O p v Ev Hu).
Qed.

(** A thread could not be made for want of memory: for itself, or for its stack. *)
Definition creation_refused (line : Z) s (e : stop) : Prop := exists t h, oh_alloc sizeof_thread (heap s) = Ok (t, h) /\
  (t = 0 /\ e = Panic line \/ t <> 0 /\ exists h', oh_alloc STACK_SIZE h = Ok (0, h') /\ e = Panic (line + 5)).

Lemma make_thread_spec s l line wrapper v12 v13 v14 process junk :
  tasks_ok s l -> is_Some (procs s !! process) ->
  match make_thread code line wrapper v12 v13 v14 process junk s with
  | Ok (t, s') => exists nt, created s s' l t process wrapper v12 v13 v14 nt
  | Stop e => creation_refused line s e
  end.
Proof.
  intros O Hproc. unfold make_thread.
  destruct (oh_alloc_law (heap s) sizeof_thread (ok_heap _ _ O)) as (t & h1 & E1 & Ok1 & Ht); [unfold sizeof_thread; lia|]. rewrite E1. cbn [obind].
  destruct Ht as [[-> _]|(Ht0 & _ & Htn & Hh1)]; [exists 0, h1; auto|]. rewrite (proj2 (Z.eqb_neq t 0)) by lia. cbn [negb kassert obind].
  cbn [heap with_heap with_next_tid]. destruct (oh_alloc_law h1 STACK_SIZE Ok1) as (base & h2 & E2 & Ok2 & Hb); [unfold STACK_SIZE; lia|]. rewrite E2. cbn [obind].
  destruct Hb as [[-> _]|(Hb0 & Hb1 & Hbn & Hh2)]; [exists t, h1; split; [exact E1|]; right; split; [lia|eauto]|]. rewrite (proj2 (Z.eqb_neq base 0)) by lia. cbn [negb kassert obind].
  destruct (stack_top base Hb0 Hb1) as [Htop1 Htop2]. set (top := Z.land _ _) in *. unfold STACK_SIZE in Hb1, Htop2.
  cbn [stack with_heap with_next_tid]. destruct (push_all (stack s) top _) as [m sp] eqn:Ep.
  destruct (push_all_spec _ _ _ _ _ Ep eq_refl ltac:(lia)) as (Hsp & Hw & _).
  change (zlen _) with 9 in Hsp. rewrite u64_id in Hsp by lia.
  pose proof (ok_head _ _ O) as Hh. pose proof (ok_nodup _ _ O) as Hnd. pose proof (ok_linked _ _ O) as Hl.
  assert (Hlne : l <> []) by (intros ->; pose proof (ok_current _ _ O) as Hc; inversion Hc).
  destruct (exists_last Hlne) as (l0 & z & El).
  assert (Htail : find_tail (ring_fuel s) (threads s) (head s) (head s) = Ok z).
  { rewrite (ok_size _ _ O). destruct l as [|x r]; [congruence|]. cbn in Hh. subst x.
    rewrite (find_tail_spec _ _ r [] (head s)) by (auto; cbn; lia). f_equal. rewrite <- (last_default r (head s) 0), El. apply List.last_last. }
  unfold ring_fuel in Htail |- *. cbn [threads head with_stack with_heap with_next_tid]. rewrite Htail. cbn [obind].
  destruct (ok_get s l z O) as [tz Ez]; [rewrite El; apply elem_of_app; right; left|].
  assert (Hheld : forall p, p ∈ ring_objs (threads s) l -> p <> t /\ p <> base).
  { intros p Hp. pose proof (ok_held _ _ O p Hp). split; [now intros ->|]. intros ->. apply Hbn, Hh1. now right. }
  assert (Htl : t ∉ l) by (intros Hin; destruct (Hheld t) as [? _]; [now apply in_ring_objs|congruence]).
  assert (Htb : base <> t) by (intros ->; apply Hbn, Hh1; now left).
  assert (Hzt : z <> t) by (intros <-; apply Htl; rewrite El; apply elem_of_app; right; left).
  unfold upd_thread, get_thread, set_thread. cbn [threads with_threads with_stack with_heap with_next_tid head].
  rewrite lookup_insert_ne by congruence. rewrite Ez. cbn [of_opt obind].
  set (nt := mkThread _ _ _ _ _ _ _ _ _ _). exists nt. subst l.
  assert (Hpres : forall x, is_Some (stack s !! x) -> is_Some (m !! x)) by (intros x; eapply push_all_present; eauto; [reflexivity|lia]).
  constructor; cbn [threads stack current in_scheduler procs regs wait_queues preemption_enabled with_threads with_stack with_heap with_next_tid];
    auto; try reflexivity; [|rewrite lookup_insert_ne by exact Hzt; apply lookup_insert_eq| | |].
  - apply (ok_created s _ l0 z t tz nt base); auto; cbn [threads with_threads heap stack with_stack with_heap with_next_tid].
    + unfold thread_objs. rewrite lookup_insert_ne, lookup_insert_eq by exact Hzt. unfold nz. cbn [t_kernel_stack_base t_user_stack_base nt]. now rewrite (proj2 (Z.eqb_neq base 0)) by lia.
    + intros q. rewrite Hh2, Hh1. tauto.
    + intros Hb'. apply Hbn, Hh1. now right.
    + exists (take 7 (first_frame wrapper v12 v13 v14)). split; [reflexivity|].
      apply (words_at_app _ _ _ (drop 7 (first_frame wrapper v12 v13 v14))). rewrite take_drop. exact Hw.
  - cbn. unfold STACK_SIZE. split; [|lia]. replace (sp + 56) with (top - 16) by lia. dlia.
  - intros p u Hp Eu. assert (p <> t) by congruence. destruct (decide (z = p)) as [<-|Hne].
    + exists t. rewrite lookup_insert_eq. congruence.
    + exists (t_next u). rewrite !lookup_insert_ne, Eu by congruence. now destruct u.
  - repeat split.
Qed.

(** ** Waking, blocking, killing *)
Lemma ok_set_state s l p t st :
  tasks_ok s l -> threads s !! p = Some t -> st <> THREAD_RUNNING ->
  (t_state t = THREAD_BLOCKED \/ t_state t = THREAD_DEAD -> st = THREAD_BLOCKED \/ st = THREAD_DEAD) ->
  (t_state t = THREAD_DEAD -> st = THREAD_DEAD) ->
  tasks_ok (set_thread s p (set_state st t)) l.
Proof.
  intros O Et Hrun Hq Hdead.
  assert (Hr : restated (threads s) (threads (set_thread s p (set_state st t)))).
  { cbn. replace (set_state st t) with (set_rsp (t_rsp t) (set_state st t)) by now destruct t. apply restated_insert; [apply restated_refl|exact Et]. }
  assert (Hcase : forall q u, threads (set_thread s p (set_state st t)) !! q = Some u ->
     q = p /\ u = set_state st t \/ q <> p /\ threads s !! q = Some u).
  { intros q u Eu. cbn in Eu. destruct (decide (p = q)) as [<-|Hne]; [rewrite lookup_insert_eq in Eu; left; split; congruence|].
    rewrite lookup_insert_ne in Eu by exact Hne. right. auto. }
  apply (ok_restated s); auto; [exact (ok_current _ _ O)|exact (ok_rsp _ _ O)|..].
  - intros q u Eu Hu. destruct (Hcase q u Eu) as [[-> ->]|[Hne Eq]]; [cbn in Hu; congruence|exact (ok_running _ _ O q u Eq Hu)].
  - apply (queues_restated (threads s)); [exact Hr|apply O|]. intros q u u' Eq Eq' Hst.
    destruct (Hcase q u' Eq') as [[-> ->]|[Hne Eq2]]; [|congruence]. rewrite Et in Eq. injection Eq as <-. now apply Hq.
  - intros q u Eu Hqc. destruct (Hcase q u Eu) as [[-> ->]|[Hne Eq]]; [exact (ok_frames _ _ O p t Et Hqc)|exact (ok_frames _ _ O q u Eq Hqc)].
  - intros q u Eu Hu. destruct (Hcase q u Eu) as [[-> ->]|[Hne Eq]]; [|exact (ok_procs _ _ O q u Eq Hu)].
    apply (ok_procs _ _ O p t Et). intros E. apply Hu. now apply Hdead.
Qed.

Lemma wake_spec s l t : tasks_ok s l -> t = 0 \/ t ∈ l ->
  exists s', thread_wake_waiter t s = Ok s' /\ tasks_ok s' l /\ s' = with_threads s (threads s') /\
    forall p u, threads s !! p = Some u -> threads s' !! p =
      Some (set_state (if (p =? t) && bool_decide (t_state u = THREAD_WAITING_CHILD) then THREAD_READY else t_state u) u).
Proof.
  intros O Ht. unfold thread_wake_waiter. destruct (Z.eqb_spec t 0) as [->|Ht0].
  - exists s. split; [reflexivity|]. split; [exact O|]. split; [now destruct s|]. intros p u Eu.
    destruct (Z.eqb_spec p 0) as [->|]; [|cbn; now rewrite set_state_id].
    assert (Hp : 0 ∈ l) by (apply (ok_dom _ _ O); eauto). now apply (ok_nonnull s l 0 O) in Hp.
  - destruct Ht as [?|Ht]; [congruence|]. destruct (ok_get s l t O Ht) as [x Ex]. unfold get_thread. rewrite Ex. cbn [of_opt obind].
    eexists. split; [reflexivity|]. case_bool_decide as Hw.
    + split; [apply ok_set_state; [exact O|exact Ex|discriminate|rewrite Hw; intros [?|?]; discriminate|rewrite Hw; discriminate]|]. split; [reflexivity|].
      intros p u Eu. cbn. destruct (Z.eqb_spec p t) as [->|Hne].
      * rewrite lookup_insert_eq. rewrite Ex in Eu. injection Eu as <-. now rewrite bool_decide_eq_true_2.
      * rewrite lookup_insert_ne by congruence. cbn [andb]. now rewrite set_state_id.
    + split; [exact O|]. split; [now destruct s|]. intros p u Eu. destruct (Z.eqb_spec p t) as [->|Hne]; cbn [andb].
      * rewrite Ex in Eu. injection Eu as <-. rewrite bool_decide_eq_false_2, set_state_id by exact Hw. exact Ex.
      * now rewrite set_state_id.
Qed.

(** [t] after [thread_terminate_process(proc)]. *)
Definition kill (proc : Z) (t : thread) : thread := if t_process t =? proc then set_state THREAD_DEAD t else t.

Lemma terminate_loop_spec proc start b : forall m a c fuel,
  NoDup (a ++ c :: b) -> hd start (a ++ c :: b) = start -> linked m (a ++ c :: b) start -> (length b <= fuel)%nat ->
  exists m', terminate_loop fuel m proc c start = Ok m' /\
    (forall p, p ∈ c :: b -> m' !! p = kill proc <$> m !! p) /\ (forall p, p ∉ c :: b -> m' !! p = m !! p).
Proof.
  induction b as [|d b IH]; intros m a c fuel Hnd Hh Hl Hf; pose proof Hl as Hl'; apply linked_app in Hl' as [_ [(t & Et & Hn) _]];
    cbn [hd] in Hn; (destruct fuel as [|k]; [try (cbn in Hf; lia)|]); cbn [terminate_loop]; rewrite Et; cbn [of_opt obind]; rewrite Hn.
  1,2: rewrite Z.eqb_refl; eexists; split; [reflexivity|]; split; intros p;
    [intros Hp%list_elem_of_singleton; subst p; unfold kill; rewrite Et; cbn; destruct (t_process t =? proc); [apply lookup_insert_eq|exact Et]
    |rewrite list_elem_of_singleton; intros Hp; destruct (t_process t =? proc); [now rewrite lookup_insert_ne by congruence|reflexivity]].
  set (m1 := if t_process t =? proc then _ else _).
  assert (Hm1 : forall p, p <> c -> m1 !! p = m !! p) by (intros p Hp; unfold m1; destruct (t_process t =? proc); [now rewrite lookup_insert_ne by congruence|reflexivity]).
  assert (Hc1 : m1 !! c = Some (kill proc t)) by (unfold m1, kill; destruct (t_process t =? proc); [apply lookup_insert_eq|exact Et]).
  assert (Hd : d <> start).
  { intros ->. apply list.NoDup_app in Hnd as (_ & Ha & Hnd). destruct a as [|x a].
    - cbn in Hh. subst c. apply list.NoDup_cons in Hnd as [Hnd _]. apply Hnd. left.
    - cbn in Hh. subst x. apply (Ha start); [left|right; left]. }
  rewrite (proj2 (Z.eqb_neq _ _) Hd).
  destruct (IH m1 (a ++ [c]) d k) as (m' & E & H1 & H2); [rewrite <- app_assoc..|cbn in Hf; lia|].
  { exact Hnd. }
  { destruct a; exact Hh. }
  { revert Hl. apply linked_same. intros p u _ Eu. destruct (decide (p = c)) as [->|Hp]; [|rewrite Hm1 by exact Hp; eauto].
    rewrite Hc1. rewrite Et in Eu. injection Eu as <-. eexists. split; [reflexivity|]. unfold kill. now destruct (t_process t =? proc). }
  assert (Hcd : c ∉ d :: b) by (apply list.NoDup_app in Hnd as (_ & _ & Hnd); now apply list.NoDup_cons in Hnd as [Hnd _]).
  exists m'. split; [exact E|]. split; intros p Hp.
  - destruct (decide (p = c)) as [->|Hpc]; [rewrite H2, Hc1, Et by exact Hcd; reflexivity|].
    apply elem_of_cons in Hp as [?|Hp]; [congruence|]. now rewrite H1, Hm1.
  - apply not_elem_of_cons in Hp as [Hpc Hp]. now rewrite H2, Hm1.
Qed.

Lemma terminate_spec s l proc : tasks_ok s l ->
  exists s', thread_terminate_process proc s = Ok s' /\ tasks_ok s' l /\ s' = with_threads s (threads s') /\
    forall p, threads s' !! p = (if proc =? 0 then threads s !! p else kill proc <$> threads s !! p).
Proof.
  intros O. unfold thread_terminate_process. pose proof (ok_head _ _ O) as Hh. pose proof (ok_current _ _ O) as Hc.
  destruct l as [|h r]; [inversion Hc|]. cbn in Hh. subst h.
  rewrite (proj2 (Z.eqb_neq _ _) (ok_nonnull s _ (head s) O ltac:(left))). cbn [orb].
  destruct (proc =? 0) eqn:E0; [exists s; repeat (split; [auto; now destruct s|]); auto|].
  destruct (terminate_loop_spec proc (head s) r (threads s) [] (head s) (ring_fuel s)) as (m' & E & H1 & H2);
    [eapply ok_nodup; eauto|reflexivity|apply O|rewrite (ok_size _ _ O); cbn; lia|].
  rewrite E. cbn [obind]. assert (Hall : forall p, m' !! p = kill proc <$> threads s !! p).
  { intros p. destruct (decide (p ∈ head s :: r)) as [Hp|Hp]; [now apply H1|]. rewrite H2 by exact Hp.
    destruct (threads s !! p) eqn:Ep; [|reflexivity]. destruct Hp. apply (ok_dom _ _ O). eauto. }
  exists (with_threads s m'). split; [reflexivity|]. split; [|auto].
  assert (Hback : forall p t, m' !! p = Some t -> exists u, threads s !! p = Some u /\ t = kill proc u).
  { intros p t Et. rewrite Hall in Et. destruct (threads s !! p) as [u|]; [|discriminate]. injection Et as <-. eauto. }
  assert (Hk : forall u, exists st, kill proc u = set_rsp (t_rsp u) (set_state st u) /\ (st = t_state u \/ st = THREAD_DEAD)).
  { intros u. unfold kill. destruct (t_process u =? proc); [exists THREAD_DEAD|exists (t_state u)]; (split; [now destruct u|auto]). }
  apply (ok_restated s); auto; cbn; [|exact (ok_rsp _ _ O)|..].
  - intros p. rewrite Hall. destruct (threads s !! p) as [u|]; [|reflexivity]. destruct (Hk u) as (st & E1 & _). cbn. rewrite E1. eauto.
  - intros p t Et Hst. destruct (Hback p t Et) as (u & Eu & ->). destruct (Hk u) as (st & E1 & [-> | ->]); rewrite E1 in Hst; [|discriminate].
    exact (ok_running _ _ O p u Eu Hst).
  - apply (queues_restated (threads s)); [|apply O|].
    + intros p. rewrite Hall. destruct (threads s !! p) as [u|]; [|reflexivity]. destruct (Hk u) as (st & E1 & _). cbn. rewrite E1. eauto.
    + intros p u t Eu Et Hst. destruct (Hback p t Et) as (u' & Eu' & ->). rewrite Eu in Eu'. injection Eu' as <-.
      destruct (Hk u) as (st & E1 & [-> | ->]); rewrite E1; auto.
  - intros p t Et Hp. destruct (Hback p t Et) as (u & Eu & ->). destruct (Hk u) as (st & E1 & _). rewrite E1. exact (ok_frames _ _ O p u Eu Hp).
  - intros p t Et Hst. destruct (Hback p t Et) as (u & Eu & ->). destruct (Hk u) as (st & E1 & [-> | ->]); rewrite E1 in Hst |- *; [|now destruct Hst].
    exact (ok_procs _ _ O p u Eu Hst).
Qed.

End Scheduler.
