(* ===== verification/ThreadTheorems.v ===== *)
(** * Scheduler: the theorems

    Operations on threads as steps of a system, the invariant along all runs,
    the round-robin contract of [schedule], the bound within which a ready thread
    runs, and the context switch. *)

From S2P Require Import Prelude Interfaces Kfs Vfs Thread ThreadProofs.

(** ** Turns *)

(** The number of threads before [p]. *)
Fixpoint index (p : Z) (l : list Z) : nat :=
  match l with [] => O | x :: r => if x =? p then O else S (index p r) end.

Lemma index_app p a b : p ∉ a -> index p (a ++ b) = (length a + index p b)%nat.
Proof.
  induction a as [|x a IH]; intros Ha; [reflexivity|]. apply not_elem_of_cons in Ha as [Hx Ha]. cbn.
  destruct (Z.eqb_spec x p); [congruence|]. now rewrite IH.
Qed.

Lemma index_app_l p a b : p ∈ a -> index p (a ++ b) = index p a.
Proof.
  induction a as [|x a IH]; intros Ha; [inversion Ha|]. cbn. destruct (Z.eqb_spec x p) as [|Hne]; [reflexivity|].
  apply elem_of_cons in Ha as [?|Ha]; [congruence|]. now rewrite IH.
Qed.

Lemma index_lt p l : p ∈ l -> (index p l < length l)%nat.
Proof.
  induction l as [|x l IH]; intros Hp; [inversion Hp|]. cbn. destruct (Z.eqb_spec x p); [lia|].
  apply elem_of_cons in Hp as [?|Hp]; [congruence|]. specialize (IH Hp). lia.
Qed.

Lemma index_sublist p l1 l2 : sublist l1 l2 -> NoDup l2 -> p ∈ l1 -> (index p l1 <= index p l2)%nat.
Proof.
  induction 1 as [|x l1 l2 Hs IH|x l1 l2 Hs IH]; intros Hnd Hp; [lia| |]; apply list.NoDup_cons in Hnd as [Hx Hnd]; cbn.
  - destruct (Z.eqb_spec x p); [lia|]. apply elem_of_cons in Hp as [?|Hp]; [congruence|]. specialize (IH Hnd Hp). lia.
  - destruct (Z.eqb_spec x p) as [->|]; [|specialize (IH Hnd Hp); lia].
    destruct Hx. now apply (elem_of_sublist l1).
Qed.

Lemma turns_split cur a b : cur ∉ a -> turns cur (a ++ cur :: b) = b ++ a ++ [cur].
Proof. intros Ha. unfold turns. now rewrite cut_split. Qed.

Lemma split_unique (x : Z) u v : forall u' v', NoDup (u ++ x :: v) -> u ++ x :: v = u' ++ x :: v' -> u = u' /\ v = v'.
Proof.
  induction u as [|y u IH]; intros u' v' Hnd E; destruct u' as [|y' u']; cbn in E.
  - now injection E as ->.
  - injection E as <- E. cbn in Hnd. apply list.NoDup_cons in Hnd as [Hx _]. destruct Hx. rewrite E, elem_of_app. right. left.
  - injection E as -> E. cbn in Hnd. apply list.NoDup_cons in Hnd as [Hx _]. destruct Hx. rewrite elem_of_app. right. left.
  - injection E as <- E. cbn in Hnd. apply list.NoDup_cons in Hnd as [_ Hnd]. destruct (IH u' v' Hnd E) as [-> ->]. auto.
Qed.

(** The order of turns starts behind the thread that runs. *)
Lemma turns_rotate cur next a b u v :
  NoDup (a ++ cur :: b) -> b ++ a ++ [cur] = u ++ next :: v -> turns next (a ++ cur :: b) = v ++ u ++ [next].
Proof.
  intros Hnd E. assert (Hp : a ++ cur :: b ≡ₚ b ++ a ++ [cur]) by solve_Permutation.
  assert (Hnd' : NoDup (b ++ a ++ [cur])) by now rewrite <- Hp. rewrite E in Hnd'.
  assert (Hsplit : forall x y, a ++ cur :: b = x ++ next :: y -> turns next (a ++ cur :: b) = y ++ x ++ [next]).
  { intros x y Exy. rewrite Exy in Hnd |- *. apply turns_split. apply list.NoDup_app in Hnd as (_ & Hx & _). intros Hin. apply (Hx _ Hin). left. }
  assert (Hin : next ∈ b ++ a ++ [cur]) by (rewrite E, elem_of_app; right; left).
  rewrite !elem_of_app, list_elem_of_singleton in Hin. destruct Hin as [Hin|[Hin| ->]].
  - apply list_elem_of_split in Hin as (b1 & b2 & ->). rewrite <- app_assoc in E. cbn [app] in E. symmetry in E.
    destruct (split_unique _ _ _ _ _ Hnd' E) as [-> ->]. rewrite (Hsplit (a ++ cur :: b1) b2) by now rewrite <- app_assoc. 
    now rewrite <- !app_assoc.
  - apply list_elem_of_split in Hin as (a1 & a2 & ->). rewrite <- app_assoc, app_assoc in E. cbn [app] in E. symmetry in E.
    destruct (split_unique _ _ _ _ _ Hnd' E) as [-> ->]. rewrite (Hsplit a1 (a2 ++ cur :: b)) by now rewrite <- app_assoc.
    now rewrite <- !app_assoc.
  - rewrite app_assoc in E. symmetry in E. destruct (split_unique _ _ _ _ _ Hnd' E) as [-> ->]. now rewrite (Hsplit a b), <- app_assoc.
Qed.

(** The thread chosen is nobody's last one before [p]. *)
Lemma turn_closer (f : Z -> bool) cur next p l :
  NoDup l -> cur ∈ l -> List.find f (turns cur l) = Some next -> f p = true -> p ∈ l -> p <> next ->
  (index p (turns next l) < index p (turns cur l))%nat.
Proof.
  intros Hnd Hc Hf Hp Hpl Hne. apply list_elem_of_split in Hc as (a & b & ->).
  assert (Ha : cur ∉ a) by (apply list.NoDup_app in Hnd as (_ & Ha & _); intros Hin; apply (Ha _ Hin); left).
  assert (Hpt : p ∈ turns cur (a ++ cur :: b)) by now apply turns_mem.
  rewrite turns_split in * by exact Ha.
  assert (Hsplit : exists u v, b ++ a ++ [cur] = u ++ next :: v /\ forall x, x ∈ u -> f x = false).
  { revert Hf. clear. induction (b ++ a ++ [cur]) as [|x xs IH]; cbn [List.find]; [discriminate|]. destruct (f x) eqn:E.
    - intros [= ->]. exists [], xs. split; [reflexivity|]. intros y Hy. inversion Hy.
    - intros Hf. destruct (IH Hf) as (u & v & -> & Hu). exists (x :: u), v. split; [reflexivity|].
      intros y [->|Hy]%elem_of_cons; auto. }
  destruct Hsplit as (u & v & E & Hu). rewrite (turns_rotate cur next a b u v Hnd E).
  rewrite E in Hpt |- *. assert (Hpu : p ∉ u) by (intros Hin; apply Hu in Hin; congruence).
  apply elem_of_app in Hpt as [?|Hpt]; [tauto|]. apply elem_of_cons in Hpt as [?|Hpv]; [congruence|].
  rewrite index_app_l by exact Hpv. rewrite index_app by exact Hpu. cbn [index]. destruct (Z.eqb_spec next p); [congruence|lia].
Qed.

Lemma turns_sublist cur l l' : NoDup l -> sublist l' l -> cur ∈ l' -> sublist (turns cur l') (turns cur l).
Proof.
  intros Hnd Hs Hc. assert (Hcl : cur ∈ l) by now apply (elem_of_sublist l'). apply list_elem_of_split in Hcl as (a & b & ->).
  pose proof Hnd as Hnd'. apply list.NoDup_app in Hnd' as (_ & Ha & Hb). apply list.NoDup_cons in Hb as [Hb _].
  assert (Hca : cur ∉ a) by (intros Hin; apply (Ha _ Hin); left).
  apply sublist_app_r in Hs as (l1 & l2 & -> & H1 & H2). apply sublist_cons_r in H2 as [H2|(l3 & -> & H2)].
  - apply elem_of_app in Hc as [Hc|Hc]; [destruct Hca; now apply (elem_of_sublist l1)|destruct Hb; now apply (elem_of_sublist l2)].
  - rewrite !turns_split by (try exact Hca; intros Hin; apply Hca; now apply (elem_of_sublist l1)).
    apply sublist_app; [exact H2|]. apply sublist_app; [exact H1|reflexivity].
Qed.

Lemma turns_NoDup cur l : NoDup l -> cur ∈ l -> NoDup (turns cur l).
Proof.
  intros Hnd Hc. apply list_elem_of_split in Hc as (a & b & ->). pose proof Hnd as Hnd'. apply list.NoDup_app in Hnd' as (_ & Ha & _).
  rewrite turns_split by (intros Hin; apply (Ha _ Hin); left). assert (Hp : a ++ cur :: b ≡ₚ b ++ a ++ [cur]) by solve_Permutation. now rewrite <- Hp.
Qed.

(** A thread added at the end has at most one turn before [p]. *)
Lemma turns_length cur l : NoDup l -> cur ∈ l -> length (turns cur l) = length l.
Proof.
  intros Hnd Hc. apply list_elem_of_split in Hc as (a & b & ->). apply list.NoDup_app in Hnd as (_ & Ha & _).
  rewrite turns_split by (intros Hx; apply (Ha _ Hx); left). rewrite !length_app. cbn. lia.
Qed.

Lemma turns_snoc cur l t p : NoDup (l ++ [t]) -> cur ∈ l -> p ∈ l -> (index p (turns cur (l ++ [t])) <= S (index p (turns cur l)))%nat.
Proof.
  intros Hnd Hc Hp. apply list.NoDup_app in Hnd as (Hnd & Ht & _). apply list_elem_of_split in Hc as (a & b & ->).
  apply list.NoDup_app in Hnd as (_ & Ha & _). assert (Hca : cur ∉ a) by (intros Hin; apply (Ha _ Hin); left).
  rewrite <- app_assoc. cbn [app]. rewrite !turns_split by exact Hca. rewrite <- app_assoc.
  assert (Hpt : p <> t) by (intros ->; apply (Ht t Hp); left). destruct (decide (p ∈ b)) as [Hb|Hb].
  - rewrite !index_app_l by exact Hb. lia.
  - rewrite (index_app p b ([t] ++ a ++ [cur])), (index_app p b (a ++ [cur])) by exact Hb. cbn [app index].
    destruct (Z.eqb_spec t p); [congruence|lia].
Qed.

(** ** Operations as steps *)
Inductive op : Set :=
| Yield
| Tick
| Create (entry_point process junk : Z)
| CreateUser (process rip rsp junk : Z)
| Wake (t : Z)
| BlockOn (proc : Z)
| Exit
| AfterExit
| Terminate (proc : Z).

Section Runs.
Context {V A : Type} `{ObjectHeapLaws A}.
Context (code : labels) (kernel_process : Z).
Implicit Types s : tasks V A.

Definition returned (o : outcome (tasks V A)) : outcome (switch * tasks V A) := let* s := o in Ok (Returned, s).

Definition run_op (o : op) s : outcome (switch * tasks V A) :=
  match o with
  | Yield => thread_yield code s
  | Tick => timer_handler code s
  | Create entry_point process junk => let* r := thread_create_process code entry_point process junk s in Ok (Returned, snd r)
  | CreateUser process rip rsp junk => let* r := thread_create_user code process rip rsp junk s in Ok (Returned, snd r)
  | Wake t => returned (thread_wake_waiter t s)
  | BlockOn proc => thread_block_on_process code proc s
  | Exit => thread_exit code s
  | AfterExit => schedule_after_exit code s
  | Terminate proc => returned (thread_terminate_process proc s)
  end.

Definition state_of s (p : Z) : option thread_state := t_state <$> threads s !! p.

(** What a caller must see to: pointers to objects, and that the thread that gives
    up the processor is the one that has it, or has just been killed. *)
Definition op_valid s (o : op) : Prop :=
  match o with
  | Yield | Tick | Terminate _ => True
  | Create _ process _ | CreateUser process _ _ _ => is_Some (procs s !! process)
  | Wake t => t = 0 \/ is_Some (threads s !! t)
  | BlockOn proc => is_Some (procs s !! proc) /\ proc <> 0 /\ state_of s (current s) = Some THREAD_RUNNING
  | Exit => state_of s (current s) = Some THREAD_RUNNING
  | AfterExit => state_of s (current s) = Some THREAD_DEAD
  end.

(** A state between two operations. *)
Definition sound s : Prop := exists l, tasks_ok s l /\ in_scheduler s = false.

Definition all_stuck s : Prop := forall p st, state_of s p = Some st -> st <> THREAD_READY /\ st <> THREAD_RUNNING.

Inductive steps : tasks V A -> list op -> tasks V A -> Prop :=
| steps_nil s : steps s [] s
| steps_cons s o r s1 os s2 : op_valid s o -> run_op o s = Ok (r, s1) -> r <> Halted -> steps s1 os s2 -> steps s (o :: os) s2.
(** ** One operation *)

(** The threads that are ready keep their place in the order of turns: [d] turns
    are taken off it and at most [c] are added. *)
Record progress s (l : list Z) s' (l' : list Z) (d c : nat) (killed : Z -> bool) : Prop := {
  pg_ok : tasks_ok s' l';
  pg_idle : in_scheduler s' = false;
  pg_preempt : preemption_enabled s' = preemption_enabled s;
  pg_ready p t : threads s !! p = Some t -> t_state t = THREAD_READY -> killed (t_process t) = false ->
    exists t', threads s' !! p = Some t' /\ t_process t' = t_process t /\
      (current s' = p /\ t_state t' = THREAD_RUNNING \/
       t_state t' = THREAD_READY /\ (index p (turns (current s') l') + d <= index p (turns (current s) l) + c)%nat)
}.

Lemma reap_list_keep s l p : p ∈ l -> dead_in s p = false -> p ∈ reap_list s l.
Proof.
  destruct l as [|h r]; [done|]. intros [->|Hp]%elem_of_cons Hd; cbn [reap_list]; [rewrite Hd; left|].
  destruct (dead_in s h); [exact Hp|]. right. apply list_elem_of_In, filter_In. split; [now apply list_elem_of_In|now rewrite Hd].
Qed.

Lemma current_kept s l : tasks_ok s l -> current s ∈ reap_list s l.
Proof.
  intros O. apply reap_list_keep; [exact (ok_current _ _ O)|]. unfold dead_in. destruct (threads s !! current s); [|reflexivity].
  now rewrite Z.eqb_refl, andb_false_r.
Qed.

Lemma in_turns cur l p : NoDup l -> cur ∈ l -> p ∈ l -> p ∈ turns cur l.
Proof.
  intros Hnd Hc Hp. apply list_elem_of_split in Hc as (a & b & ->). apply turns_mem; [|exact Hp].
  apply list.NoDup_app in Hnd as (_ & Ha & _). intros Hin. apply (Ha _ Hin). left.
Qed.

Lemma filter_sublist (f : Z -> bool) l : sublist (List.filter f l) l.
Proof. induction l as [|x l IH]; cbn; [constructor|]. destruct (f x); now constructor. Qed.

Lemma reap_list_sublist s l : sublist (reap_list s l) l.
Proof. destruct l as [|h r]; cbn; [constructor|]. destruct (dead_in s h); constructor; [reflexivity|apply filter_sublist]. Qed.

Definition nobody (p : Z) : bool := false.

(** Who has the processor after an operation in [s] that ended with [r] in [s'].  A
    thread that gets it was ready and is marked as running. *)
Definition handed s (r : switch) s' : Prop :=
  match r with
  | Returned => current s' = current s
  | Switched old next => old = current s /\ next <> old /\ current s' = next /\
      state_of s next = Some THREAD_READY /\ state_of s' next = Some THREAD_RUNNING
  | Halted => forall p, state_of s p <> Some THREAD_READY
  end.

Lemma scheduled_handed s l s' next :
  tasks_ok s l -> scheduled s s' (reap_list s l) next -> runnable s next = true ->
  handed s (if current s =? next then Returned else Switched (current s) next) s'.
Proof.
  intros O S Hr. pose proof (sc_current _ _ _ _ S) as Hc. destruct (Z.eqb_spec (current s) next) as [E|Hne]; cbn; [congruence|].
  split; [reflexivity|]. split; [congruence|]. split; [exact Hc|]. unfold runnable, state_of, yielded in *.
  destruct (threads s !! next) as [t|] eqn:Et; [|discriminate]. apply bool_decide_eq_true in Hr. case_bool_decide as Hrun.
  { destruct Hne. symmetry. now apply (ok_running _ _ O next t). }
  split; [cbn; congruence|]. pose proof (ok_current _ _ (sc_ok _ _ _ _ S)) as Hin. rewrite Hc in Hin.
  destruct (sc_thread _ _ _ _ S next t Hin Et) as (t' & -> & _ & _ & Hst). rewrite Z.eqb_refl in Hst. cbn. congruence.
Qed.

Lemma schedule_progress s l :
  tasks_ok s l -> in_scheduler s = false ->
  match schedule code s with
  | Ok (Halted, _) => all_stuck s
  | Ok (r, s') => progress s l s' (reap_list s l) 1 0 nobody /\ handed s r s' /\ (r = Returned -> state_of s (current s) <> Some THREAD_DEAD)
  | Stop _ => False
  end.
Proof.
  intros O Hi. pose proof (schedule_spec code s l O Hi) as HS. pose proof (ok_nodup _ _ O) as Hnd.
  assert (Hkeep : forall p t, threads s !! p = Some t -> t_state t <> THREAD_DEAD -> p ∈ reap_list s l).
  { intros p t Et Hst. apply reap_list_keep; [apply (ok_dom _ _ O); eauto|]. unfold dead_in. rewrite Et, bool_decide_eq_false_2 by exact Hst. reflexivity. }
  destruct (choice s l) as [next|] eqn:Hc.
  - destruct HS as (s' & -> & S). unfold choice in Hc. pose proof (List.find_some _ _ Hc) as [_ Hrun].
    assert (HP : progress s l s' (reap_list s l) 1 0 nobody).
    { split; [apply S|apply S|apply S|]. intros p t Et Hst _. assert (Hp : p ∈ reap_list s l) by (apply (Hkeep p t Et); congruence).
      destruct (sc_thread _ _ _ _ S p t Hp Et) as (t' & Et' & _ & Hpr & Hst'). exists t'. split; [exact Et'|]. split; [exact Hpr|].
      rewrite Hst'. destruct (Z.eqb_spec p next) as [->|Hne]; [left; split; [apply S|reflexivity]|right]. rewrite Hst. split; [reflexivity|].
      pose proof (ok_current _ _ (sc_ok _ _ _ _ S)) as Hcur'. rewrite (sc_current _ _ _ _ S) in *.
      pose proof (current_kept s l O) as Hcur.
      assert (Hpl : p ∈ l) by now apply (reap_list_sub s).
      pose proof (turn_closer (runnable s) (current s) next p (reap_list s l)) as H1.
      pose proof (index_sublist p _ _ (turns_sublist (current s) l (reap_list s l) Hnd (reap_list_sublist s l) Hcur)) as H2.
      assert (Hnd' : NoDup (reap_list s l)) by (eapply ok_nodup; apply S).
      assert (Hr : runnable s p = true) by (unfold runnable; now rewrite Et, Hst).
      specialize (H1 Hnd' Hcur Hc Hr Hp Hne). specialize (H2 (turns_NoDup _ _ Hnd (ok_current _ _ O))).
      specialize (H2 (in_turns _ _ _ Hnd' Hcur Hp)). lia. }
    pose proof (scheduled_handed s l s' next O S Hrun) as HH.
    destruct (Z.eqb_spec (current s) next) as [E|Hne]; (split; [exact HP|]; split; [exact HH|]); [|discriminate]. intros _. subst next. unfold state_of, runnable in *.
    destruct (threads s !! current s) as [t|]; [|discriminate]. cbn. intros [= Hd]. rewrite Hd in Hrun. discriminate.
  - destruct HS as (s' & ->). intros p st Hst. unfold state_of in Hst. destruct (threads s !! p) as [t|] eqn:Et; [|discriminate]. injection Hst as <-.
    assert (Hnr : t_state t = THREAD_READY \/ t_state t = THREAD_RUNNING -> False).
    { intros Hst. assert (Hp : p ∈ reap_list s l) by (apply (Hkeep p t Et); destruct Hst; congruence).
      pose proof (current_kept s l O) as Hcur.
      pose proof (in_turns _ _ _ (sublist_NoDup _ _ Hnd (reap_list_sublist s l)) Hcur Hp) as Hpt.
      apply list_elem_of_In in Hpt. pose proof (List.find_none _ _ Hc p Hpt) as E. unfold runnable in E. rewrite Et in E.
      destruct Hst as [E'|E']; rewrite E' in E; discriminate. }
    split; intros E; apply Hnr; auto.
Qed.

(** Calls of [schedule], threads created, and processes whose threads are killed. *)
Definition sched_calls (preempt : bool) (o : op) : nat :=
  match o with Yield | BlockOn _ | Exit | AfterExit => 1 | Tick => if preempt then 1 else 0 | _ => 0 end.
Definition creations (o : op) : nat := match o with Create _ _ _ | CreateUser _ _ _ _ => 1 | _ => 0 end.
Definition kills (o : op) (p : Z) : bool := match o with Terminate proc => p =? proc | _ => false end.

(** The assertions that stop the machine without memory for a new thread. *)
Definition no_memory s (o : op) (e : stop) : Prop :=
  match o with
  | Create _ _ _ => creation_refused 71 s e
  | CreateUser _ _ _ _ => creation_refused 122 s e
  | _ => False
  end.

Lemma progress_pre s s0 l s' l' d c k :
  current s0 = current s -> preemption_enabled s0 = preemption_enabled s ->
  (forall p t, threads s !! p = Some t -> t_state t = THREAD_READY -> threads s0 !! p = Some t) ->
  progress s0 l s' l' d c nobody -> progress s l s' l' d c k.
Proof.
  intros Hc Hp Ht [P1 P2 P3 P4]. split; auto; [congruence|]. intros p t Et Hst _. rewrite Hc in P4. apply P4; auto.
Qed.

Lemma schedule_op s s0 l k :
  tasks_ok s0 l -> in_scheduler s0 = false -> current s0 = current s -> preemption_enabled s0 = preemption_enabled s ->
  (forall p t, threads s !! p = Some t -> t_state t = THREAD_READY -> threads s0 !! p = Some t) ->
  (forall p, p <> current s -> state_of s0 p = state_of s p) ->
  match schedule code s0 with
  | Ok (Halted, _) => forall p, state_of s p <> Some THREAD_READY
  | Ok (r, s') => (exists l', progress s l s' l' 1 0 k) /\ handed s r s' /\ (r = Returned -> state_of s0 (current s0) <> Some THREAD_DEAD)
  | Stop _ => False
  end.
Proof.
  intros O Hi Hc Hp Ht Hoth. pose proof (schedule_progress s0 l O Hi) as HS. destruct (schedule code s0) as [[[| |] s']|e]; auto.
  1,2: destruct HS as (HP & HH & Hr); split; [exists (reap_list s0 l); now apply (progress_pre s s0)|]; (split; [|exact Hr]); cbn [handed] in *.
  { congruence. }
  { destruct HH as (-> & Hne & Hc' & Hst & Hst'). rewrite Hc in *. rewrite <- (Hoth next Hne). auto. }
  intros p Hst. unfold state_of in Hst. destruct (threads s !! p) as [t|] eqn:Et; [|discriminate]. injection Hst as Hst.
  apply (Ht p t Et) in Hst as Et0. destruct (HS p THREAD_READY) as [? _]; [|congruence]. unfold state_of. rewrite Et0. cbn. congruence.
Qed.

(** The current thread in another state, before [schedule]. *)
Lemma give_way s l st :
  tasks_ok s l -> state_of s (current s) = Some THREAD_RUNNING -> st <> THREAD_RUNNING ->
  exists s0, upd_thread s (current s) (set_state st) = Ok s0 /\ tasks_ok s0 l /\ s0 = with_threads s (threads s0) /\
    state_of s0 (current s) = Some st /\
    (forall p t, threads s !! p = Some t -> t_state t = THREAD_READY -> threads s0 !! p = Some t) /\
    forall p, p <> current s -> state_of s0 p = state_of s p.
Proof.
  intros O Hrun Hst. unfold state_of in Hrun. destruct (threads s !! current s) as [t|] eqn:Et; [|discriminate]. injection Hrun as Hrun.
  unfold upd_thread, get_thread. rewrite Et. cbn [of_opt obind]. eexists. split; [reflexivity|]. split; [|split; [reflexivity|split]].
  - apply ok_set_state; auto; rewrite Hrun; [intros [?|?]; discriminate|discriminate].
  - unfold state_of. cbn. now rewrite lookup_insert_eq.
  - split; [intros p u Eu Hu; cbn; rewrite lookup_insert_ne; [exact Eu|]; intros <-; congruence|].
    intros p Hp. unfold state_of. cbn. now rewrite lookup_insert_ne by congruence.
Qed.

Lemma set_waiter_ok s l proc w : tasks_ok s l -> is_Some (procs s !! proc) ->
  exists s0, upd_proc s proc (set_waiter w) = Ok s0 /\ tasks_ok s0 l /\ s0 = with_procs s (procs s0).
Proof.
  intros O [x Ex]. unfold upd_proc, get_proc. rewrite Ex. cbn [of_opt obind]. eexists. split; [reflexivity|]. split; [|reflexivity].
  destruct O. constructor; auto. intros p t Et Hst. cbn. destruct (decide (proc = t_process t)) as [->|Hne].
  - rewrite lookup_insert_eq. eauto.
  - rewrite lookup_insert_ne by exact Hne. eauto.
Qed.

Lemma progress_same s l s' k :
  tasks_ok s' l -> in_scheduler s' = false -> preemption_enabled s' = preemption_enabled s -> current s' = current s ->
  (forall p t, threads s !! p = Some t -> t_state t = THREAD_READY -> k (t_process t) = false ->
     exists t', threads s' !! p = Some t' /\ t_process t' = t_process t /\ t_state t' = THREAD_READY) ->
  progress s l s' l 0 0 k.
Proof.
  intros O Hi Hp Hc Ht. split; auto. intros p t Et Hst Hk. destruct (Ht p t Et Hst Hk) as (t' & Et' & Hpr & Hst'). exists t'.
  split; [exact Et'|]. split; [exact Hpr|]. right. split; [exact Hst'|]. rewrite Hc. lia.
Qed.

Lemma progress_create s l s' t process w a b c nt k :
  tasks_ok s l -> in_scheduler s = false -> created code s s' l t process w a b c nt -> progress s l s' (l ++ [t]) 0 1 k.
Proof.
  intros O Hi C. destruct (cr_rest _ _ _ _ _ _ _ _ _ _ _ C) as (Hc & Hi' & _ & _ & _ & Hp).
  split; [apply C|congruence|exact Hp|]. intros p u Eu Hst _. assert (Hpl : p ∈ l) by (apply (ok_dom _ _ O); eauto).
  destruct (cr_others _ _ _ _ _ _ _ _ _ _ _ C p u Hpl Eu) as [n En]. exists (set_next n u). split; [exact En|]. split; [reflexivity|]. right.
  split; [exact Hst|]. rewrite Hc. pose proof (turns_snoc (current s) l t p (ok_nodup _ _ (cr_ok _ _ _ _ _ _ _ _ _ _ _ C)) (ok_current _ _ O) Hpl). lia.
Qed.

Lemma op_progress s l o :
  tasks_ok s l -> in_scheduler s = false -> op_valid s o ->
  match run_op o s with
  | Ok (Halted, _) => forall p, state_of s p <> Some THREAD_READY
  | Ok (r, s') => (exists l', progress s l s' l' (sched_calls (preemption_enabled s) o) (creations o) (kills o)) /\ handed s r s'
  | Stop e => no_memory s o e
  end.
Proof.
  intros O Hi Hv. pose proof (ok_nonnull s l _ O (ok_current _ _ O)) as Hnn. destruct o; cbn [run_op sched_calls creations op_valid] in *.
  - unfold thread_yield. rewrite (proj2 (Z.eqb_neq _ _) Hnn). cbn [negb kassert obind].
    pose proof (schedule_op s s l (kills Yield) O Hi eq_refl eq_refl ltac:(auto) ltac:(auto)) as HS. destruct (schedule code s) as [[[| |] s']|]; tauto.
  - unfold timer_handler. set (s0 := with_scheduler_ticks _ _). change (preemption_enabled s0) with (preemption_enabled s).
    assert (O0 : tasks_ok s0 l) by (destruct O; now constructor). destruct (preemption_enabled s) eqn:Ep.
    + pose proof (schedule_op s s0 l (kills Tick) O0 Hi eq_refl eq_refl ltac:(auto) ltac:(auto)) as HS. destruct (schedule code s0) as [[[| |] s']|]; tauto.
    + split; [|reflexivity]. exists l. apply progress_same; auto. intros p t Et Hst _. exists t. auto.
  - pose proof (make_thread_spec code s l 71 (l_thread_start_wrapper code) entry_point 0 0 process junk O Hv) as HM.
    unfold thread_create_process. destruct (make_thread _ _ _ _ _ _ _ _ s) as [[t s']|e]; cbn [obind snd].
    + destruct HM as [nt HC]. split; [exists (l ++ [t]); eapply progress_create; eauto|apply (cr_rest _ _ _ _ _ _ _ _ _ _ _ HC)].
    + exact HM.
  - pose proof (make_thread_spec code s l 122 (l_user_thread_start_wrapper code) (l_jump_to_usermode code) rip rsp process junk O Hv) as HM.
    unfold thread_create_user. destruct (make_thread _ _ _ _ _ _ _ _ s) as [[t s']|e]; cbn [obind snd].
    + destruct HM as [nt HC]. split; [exists (l ++ [t]); eapply progress_create; eauto|apply (cr_rest _ _ _ _ _ _ _ _ _ _ _ HC)].
    + exact HM.
  - destruct (wake_spec s l t O) as (s' & -> & O' & Es & Hw).
    { destruct Hv as [?|Hv]; [now left|right; now apply (ok_dom _ _ O)]. }
    cbn. split; [|now rewrite Es]. exists l. apply progress_same; [exact O'|now rewrite Es..|]. intros p u Eu Hst _. exists u. split; [|auto]. rewrite (Hw p u Eu), Hst.
    rewrite (bool_decide_eq_false_2 (_ = THREAD_WAITING_CHILD)), andb_false_r by discriminate. rewrite <- Hst. now rewrite set_state_id.
  - destruct Hv as (Hp & Hp0 & Hrun). unfold thread_block_on_process. rewrite (proj2 (Z.eqb_neq _ _) Hp0).
    destruct (set_waiter_ok s l proc (current s) O Hp) as (s1 & -> & O1 & E1). cbn [obind].
    assert (Hc1 : current s1 = current s) by now rewrite E1. assert (Ht1 : threads s1 = threads s) by now rewrite E1.
    destruct (give_way s1 l THREAD_WAITING_CHILD O1) as (s0 & -> & O0 & E0 & _ & Hr0 & Hoth); [unfold state_of in *; now rewrite Hc1, Ht1|discriminate|].
    cbn [obind]. assert (Hf : in_scheduler s0 = false /\ current s0 = current s /\ preemption_enabled s0 = preemption_enabled s)
      by (now rewrite E0, E1). destruct Hf as (F1 & F2 & F3).
    pose proof (schedule_op s s0 l (kills (BlockOn proc)) O0 F1 F2 F3 ltac:(now rewrite <- Ht1)) as HS.
    specialize (HS ltac:(intros p Hp'; unfold state_of in *; rewrite <- Ht1; apply Hoth; congruence)).
    destruct (schedule code s0) as [[[| |] s']|]; tauto.
  - unfold thread_exit. rewrite (proj2 (Z.eqb_neq _ _) Hnn). cbn [negb kassert obind].
    destruct (give_way s l THREAD_DEAD O Hv ltac:(discriminate)) as (s0 & -> & O0 & E0 & Hd & Hr0 & Hoth). cbn [obind].
    assert (Hf : in_scheduler s0 = false /\ current s0 = current s /\ preemption_enabled s0 = preemption_enabled s)
      by (now rewrite E0). destruct Hf as (F1 & F2 & F3). pose proof (schedule_op s s0 l (kills Exit) O0 F1 F2 F3 Hr0 Hoth) as HS.
    destruct (schedule code s0) as [[[| |] s']|]; cbn [obind]; try tauto. destruct HS as (_ & _ & Hr). destruct Hr; [reflexivity|]. now rewrite F2.
  - unfold schedule_after_exit. rewrite (proj2 (Z.eqb_neq _ _) Hnn). cbn [negb kassert obind].
    pose proof (schedule_op s s l (kills AfterExit) O Hi eq_refl eq_refl ltac:(auto) ltac:(auto)) as HS.
    destruct (schedule code s) as [[[| |] s']|]; cbn [obind]; tauto.
  - destruct (terminate_spec s l proc O) as (s' & -> & O' & Es & Hk). cbn. split; [|now rewrite Es]. exists l. apply progress_same; [exact O'|now rewrite Es..|].
    intros p u Eu Hst Hn. exists u. split; [|auto]. rewrite Hk, Eu. destruct (proc =? 0); [reflexivity|]. cbn. unfold kill.
    cbn in Hn. now rewrite Hn.
Qed.

(** ** Runs *)
Lemma progress_sound s l s' l' d c k : progress s l s' l' d c k -> sound s'.
Proof. intros [O Hi _ _]. exists l'. auto. Qed.

Lemma steps_sound s ops s' : steps s ops s' -> sound s -> sound s'.
Proof.
  induction 1 as [s|s o r s1 os s2 Hv E Hr _ IH]; [auto|]. intros (l & O & Hi). apply IH. pose proof (op_progress s l o O Hi Hv) as HP.
  rewrite E in HP. destruct r; [| |congruence]; destruct HP as [[l' HP] _]; eapply progress_sound; eauto.
Qed.

Definition total (f : op -> nat) (os : list op) : nat := foldr (fun o n => f o + n)%nat O os.

Lemma ready_runs s ops s' : steps s ops s' -> forall l p t,
  tasks_ok s l -> in_scheduler s = false -> threads s !! p = Some t -> t_state t = THREAD_READY ->
  (forall o, In o ops -> kills o (t_process t) = false) ->
  (index p (turns (current s) l) + total creations ops < total (sched_calls (preemption_enabled s)) ops)%nat ->
  exists ops1 ops2 s1, ops = ops1 ++ ops2 /\ steps s ops1 s1 /\ steps s1 ops2 s' /\ current s1 = p /\ state_of s1 p = Some THREAD_RUNNING.
Proof.
  induction 1 as [s|s o r s1 os s2 Hv E Hr Hs IH]; intros l p t O Hi Et Hst Hk Hm; [cbn in Hm; lia|].
  pose proof (op_progress s l o O Hi Hv) as HP. rewrite E in HP.
  assert (HP' : exists l', progress s l s1 l' (sched_calls (preemption_enabled s) o) (creations o) (kills o)) by (destruct r; [exact (proj1 HP)|exact (proj1 HP)|congruence]).
  destruct HP' as (l' & [O' Hi' Hpre Hready]).
  destruct (Hready p t Et Hst (Hk o (or_introl eq_refl))) as (t' & Et' & Hpr & [[Hc Hrun]|[Hst' Hlt]]).
  - exists [o], os, s1. split; [reflexivity|]. split; [|split; [exact Hs|]].
    + eapply steps_cons; eauto using steps_nil.
    + split; [exact Hc|]. unfold state_of. rewrite Et'. cbn. congruence.
  - destruct (IH l' p t' O' Hi' Et' Hst') as (o1 & o2 & s3 & -> & S1 & S2 & Hc & Hrun).
    + intros x Hx. rewrite Hpr. apply Hk. now right.
    + rewrite Hpre. cbn [total foldr] in Hm. fold (total creations os) (total (sched_calls (preemption_enabled s)) os) in Hm. lia.
    + exists (o :: o1), o2, s3. split; [reflexivity|]. split; [eapply steps_cons; eauto|]. auto.
Qed.

(** ** The start *)

(** The state in which [thread_init] is called. *)
Record boot_ok s : Prop := {
  bo_threads : threads s = ∅;
  bo_queues : Forall (fun q => q = 0) (wait_queues s);
  bo_heap : oh_ok (heap s);
  bo_process : is_Some (procs s !! kernel_process);
  bo_idle : in_scheduler s = false;
  bo_rsp : 0 <= rsp (regs s) < 2 ^ 64
}.

Lemma init_sound s junk s0 : boot_ok s -> thread_init kernel_process junk s = Ok s0 -> sound s0.
Proof.
  intros [B1 B2 B3 B4 B5 B6] E. unfold thread_init in E.
  destruct (oh_alloc_law (heap s) sizeof_thread B3) as (m & h & Eh & Hok & Hcase); [unfold sizeof_thread; lia|]. rewrite Eh in E. cbn [obind] in E.
  destruct Hcase as [[-> _]|(Hm & _ & _ & Hh)]; [discriminate|]. rewrite (proj2 (Z.eqb_neq m 0)) in E by lia. injection E as <-.
  exists [m]. split; [|exact B5]. set (t := mkThread _ _ _ _ _ _ _ _ _ _).
  assert (Hl : forall p u, threads (set_thread (with_heap s h) m t) !! p = Some u -> p = m /\ u = t).
  { intros p u Eu. cbn in Eu. rewrite B1 in Eu. destruct (decide (m = p)) as [<-|Hne]; [rewrite lookup_insert_eq in Eu; split; congruence|].
    now rewrite lookup_insert_ne in Eu. }
  assert (Ho : ring_objs (<[m := t]> (threads s)) [m] = [m]) by (unfold ring_objs, thread_objs; cbn; now rewrite lookup_insert_eq).
  constructor; cbn [head with_head with_current threads set_thread with_threads with_heap current heap wait_queues procs regs] in *; auto.
  - cbn. split; [|done]. exists t. split; [apply lookup_insert_eq|reflexivity].
  - intros p. rewrite list_elem_of_singleton. split; [intros ->; rewrite lookup_insert_eq; eauto|]. intros [u Eu]. now apply Hl in Eu as [-> _].
  - left.
  - intros p u Eu _. now apply Hl in Eu as [-> _].
  - rewrite Ho. constructor; [apply not_elem_of_nil|constructor].
  - rewrite Ho. intros p ->%list_elem_of_singleton. apply Hh. now left.
  - exists (replicate (length (wait_queues s)) []). assert (Hc : concat (replicate (length (wait_queues s)) []) = @nil Z)
      by (clear; induction (wait_queues s); [reflexivity|assumption]). rewrite Hc.
    split; [|split; [constructor|intros p u Hp; inversion Hp]]. clear - B2. induction B2; cbn; constructor; auto.
  - intros p u Eu Hp. apply Hl in Eu as [-> _]. congruence.
  - intros p u Eu _. apply Hl in Eu as [_ ->]. exact B4.
Qed.

(** C8: From [thread_init] on, along any sequence of yields, timer interrupts,
    thread creations, wake-ups, blocking, exits and terminations, the ring of
    threads stays well formed, no freed thread or stack is touched and none is
    freed twice, and at most one thread is marked as running and it is the current
    one ([sound]).  The next operation ends in one of four ways ([handed]): it returns
    in the thread that called; it switches to another thread, which was ready and is
    now marked as running; it halts the machine, and then no thread was ready; or, for
    the creation of a thread only, it stops at an assertion because the heap refused
    the thread or its stack.  In particular the loops over the ring end and an exiting
    thread never returns from the scheduler. *)
Theorem threads_safe s junk s0 ops s1 :
  boot_ok s -> thread_init kernel_process junk s = Ok s0 -> steps s0 ops s1 ->
  sound s1 /\
  forall o, op_valid s1 o ->
    match run_op o s1 with
    | Ok (r, s2) => handed s1 r s2 /\ (r <> Halted -> sound s2)
    | Stop e => no_memory s1 o e
    end.
Proof.
  intros B E S. pose proof (steps_sound _ _ _ S (init_sound _ _ _ B E)) as Hs. split; [exact Hs|]. destruct Hs as (l & O & Hi). intros o Hv.
  pose proof (op_progress s1 l o O Hi Hv) as HP. destruct (run_op o s1) as [[[| |] s2]|e]; auto;
    [destruct HP as [[l' HP] HH]; split; [exact HH|]; intros _; eapply progress_sound; eauto..|now split].
Qed.

(** C9: [schedule] implements round robin.  It reaps dead threads and then gives the
    processor to the first thread after the current one, in the order of the ring,
    that is ready, where the current thread counts as ready, and comes last, if it
    was running; without one it halts.  The chosen thread is the only one running,
    the other states are kept, the kernel stack of the chosen thread is the one for
    the next trap, and the page tables in use are those of its process. *)
Theorem schedule_round_robin s l :
  tasks_ok s l -> in_scheduler s = false ->
  match choice s l with
  | Some next => exists s', schedule code s = Ok (if current s =? next then Returned else Switched (current s) next, s') /\
      scheduled s s' (reap_list s l) next
  | None => exists s', schedule code s = Ok (Halted, s')
  end.
Proof. apply schedule_spec. Qed.

(** C10: No thread starves.  Let k be the number of threads that come before a ready
    thread in the order of turns, which is the ring from the thread after the current
    one on.  If the process of the thread is not terminated, the thread runs at the
    latest at the (k+1)-th call of [schedule], plus one call for each thread created
    meanwhile, whatever the other threads do. *)
Theorem ready_thread_runs s l p t ops s' :
  tasks_ok s l -> in_scheduler s = false -> threads s !! p = Some t -> t_state t = THREAD_READY ->
  steps s ops s' -> (forall o, In o ops -> kills o (t_process t) = false) ->
  (index p (turns (current s) l) + total creations ops < total (sched_calls (preemption_enabled s)) ops)%nat ->
  exists ops1 ops2 s1, ops = ops1 ++ ops2 /\ steps s ops1 s1 /\ steps s1 ops2 s' /\
    current s1 = p /\ state_of s1 p = Some THREAD_RUNNING.
Proof. intros O Hi Et Hst Hs Hk Hm. exact (ready_runs s ops s' Hs l p t O Hi Et Hst Hk Hm). Qed.

(** C11: Switching away from a thread and back restores its registers and its stack
    pointer, and it continues after its call of [context_switch], provided its
    saved words and its field [rsp] were left alone meanwhile. *)
Theorem context_switch_roundtrip s a b cr s1 s2 c cr' s3 ta tb tc :
  threads s !! a = Some ta -> threads s !! b = Some tb -> a <> b ->
  0 <= rsp (regs s) < 2 ^ 64 -> frame_saved (stack s) (t_rsp tb) ->
  context_switch code a b cr s = Ok s1 ->
  threads s2 !! a = threads s1 !! a -> threads s2 !! c = Some tc -> c <> a -> 0 <= rsp (regs s2) < 2 ^ 64 ->
  (forall j, 0 <= j < 7 -> stack s2 !! u64 (rsp (regs s) - 56 + 8 * j) = stack s1 !! u64 (rsp (regs s) - 56 + 8 * j)) ->
  (forall i j, 0 <= i < 7 -> 0 <= j < 7 -> u64 (rsp (regs s) - 56 + 8 * i) <> u64 (rsp (regs s2) - 56 + 8 * j)) ->
  context_switch code c a cr' s2 = Ok s3 ->
  let r := regs s in
  regs s3 = mkCpu (l_after_switch code) (rsp r) (rbp r) (rbx r) (r12 r) (r13 r) (r14 r) (r15 r)
              (if cr' =? 0 then cr3 (regs s2) else cr').
Proof.
  intros Ea Eb Hab Hr Hfb E1 Et2 Ec Hca Hr2 Hkeep Hdis E3 r.
  destruct (context_switch_spec code s a b cr ta tb Ea Eb Hab Hr Hfb) as (m & sp & r1 & E & [Hsp Hw] & Esp & _ & _ & _).
  rewrite E in E1. injection E1 as <-. cbn in Et2, Hkeep. rewrite lookup_insert_eq in Et2.
  assert (Hw2 : words_at (stack s2) sp (saved_frame code (regs s))).
  { split; [exact Hsp|]. intros j v Hj. pose proof (znth_Some _ _ _ Hj) as Hj'. change (zlen _) with 7 in Hj'.
    rewrite Esp, u64_add, Hkeep by exact Hj'. rewrite <- u64_add, <- Esp. now apply Hw. }
  destruct (context_switch_spec code s2 c a cr' tc (set_rsp sp ta) Ec Et2 Hca Hr2) as (m3 & sp3 & r3 & E' & _ & Esp3 & _ & Hf & _ & Hcr & Hv).
  { exists (saved_frame code (regs s)). split; [reflexivity|exact Hw2]. }
  rewrite E' in E3. injection E3 as <-. cbn [regs with_regs].
  destruct (Hv (saved_frame code (regs s))) as [Hv' Hrsp]; [|reflexivity|].
  { split; [exact Hsp|]. intros j v Hj. pose proof (znth_Some _ _ _ Hj) as Hj'. change (zlen _) with 7 in Hj'. rewrite Hf; [now apply Hw2|].
    intros i Hi. cbn [t_rsp set_rsp]. rewrite Esp, Esp3, !u64_add. auto. }
  cbn [t_rsp set_rsp] in Hrsp. rewrite Esp, u64_add in Hrsp. replace (rsp (regs s) - 56 + 56) with (rsp (regs s)) in Hrsp by lia.
  rewrite u64_id in Hrsp by exact Hr. unfold saved_frame in Hv'. injection Hv' as F1 F2 F3 F4 F5 F6 F7.
  subst r. destruct r3. cbn in *. congruence.
Qed.

(** The first switch to a thread made by [thread_create_process] starts
    [thread_start_wrapper] with the entry point in [r12], on the new stack, aligned
    to 16 bytes and with [thread_exit] on top as the return address. *)
Theorem new_thread_starts s l entry_point process junk t s1 nt next_cr3 s2 :
  tasks_ok s l -> is_Some (procs s !! process) ->
  thread_create_process code entry_point process junk s = Ok (t, s1) -> threads s1 !! t = Some nt ->
  (forall i j, 0 <= i < 9 -> 0 <= j < 7 -> u64 (t_rsp nt + 8 * i) <> u64 (rsp (regs s1) - 56 + 8 * j)) ->
  context_switch code (current s1) t next_cr3 s1 = Ok s2 ->
  rip (regs s2) = l_thread_start_wrapper code /\ r12 (regs s2) = entry_point /\ rsp (regs s2) mod 16 = 0 /\
  t_kernel_stack_base nt <= rsp (regs s2) < t_kernel_stack_base nt + t_kernel_stack_size nt /\
  stack s2 !! rsp (regs s2) = Some (l_thread_exit code).
Proof.
  intros O Hp E En Hdis E2. pose proof (make_thread_spec code s l 71 (l_thread_start_wrapper code) entry_point 0 0 process junk O Hp) as HM.
  unfold thread_create_process in E. rewrite E in HM. destruct HM as [nt' C]. pose proof (cr_thread _ _ _ _ _ _ _ _ _ _ _ C) as En'.
  rewrite En in En'. injection En' as <-. destruct (cr_rest _ _ _ _ _ _ _ _ _ _ _ C) as (Hc & _ & _ & Hregs & _).
  assert (Hcur : current s1 ∈ l) by (rewrite Hc; exact (ok_current _ _ O)).
  destruct (ok_get s l _ O Hcur) as [tc Ec]. destruct (cr_others _ _ _ _ _ _ _ _ _ _ _ C _ _ Hcur Ec) as [n Ec1].
  pose proof (cr_frame _ _ _ _ _ _ _ _ _ _ _ C) as Hw. pose proof Hw as [Hrange Hw'].
  assert (Hrsp : 0 <= rsp (regs s1) < 2 ^ 64) by (rewrite Hregs; exact (ok_rsp _ _ O)).
  destruct (context_switch_spec code s1 (current s1) t next_cr3 (set_next n tc) nt Ec1 En) as (m & sp & r & E' & _ & Esp & _ & Hf & _ & _ & Hv); auto.
  { intros <-. now apply (cr_fresh _ _ _ _ _ _ _ _ _ _ _ C) in Hcur. }
  { exists (take 7 (first_frame code (l_thread_start_wrapper code) entry_point 0 0)). split; [reflexivity|].
    apply (words_at_app _ _ _ (drop 7 (first_frame code (l_thread_start_wrapper code) entry_point 0 0))). now rewrite take_drop. }
  rewrite E' in E2. injection E2 as <-. cbn [regs stack with_regs with_threads with_stack].
  assert (Hm : words_at m (t_rsp nt) (first_frame code (l_thread_start_wrapper code) entry_point 0 0)).
  { split; [exact Hrange|]. intros j v Hj. pose proof (znth_Some _ _ _ Hj) as Hj'. change (zlen _) with 9 in Hj'. rewrite Hf; [now apply Hw'|].
    intros i Hi. rewrite Esp, u64_add. auto. }
  destruct (Hv [0; 0; 0; entry_point; 0; 0; l_thread_start_wrapper code]) as [Hregs' Hrsp']; [|reflexivity|].
  { exact (words_at_app m (t_rsp nt) [0; 0; 0; entry_point; 0; 0; l_thread_start_wrapper code] [l_thread_exit code; 0] Hm). }
  destruct (cr_aligned _ _ _ _ _ _ _ _ _ _ _ C) as (Hal & Hlo & Hhi).
  rewrite u64_id in Hrsp' by lia. injection Hregs' as _ _ _ F12 _ _ Fip. rewrite Hrsp', <- F12, <- Fip. repeat split; auto; try lia.
  destruct Hm as [_ Hm]. specialize (Hm 7 (l_thread_exit code) eq_refl). change (8 * 7) with 56 in Hm. now rewrite u64_id in Hm by lia.
Qed.

End Runs.

(** ** Instances *)

(** A heap that never reuses addresses. *)
Definition obj_heap : Type := Z * gset Z.

#[global] Instance obj_heap_ops : ObjectHeap obj_heap := {
  oh_alloc n a := Ok (if fst a + n <? 2 ^ 63 then (fst a, (fst a + n, {[ fst a ]} ∪ snd a)) else (0, a));
  oh_free p a := if bool_decide (p ∈ snd a) then Ok (fst a, snd a ∖ {[ p ]}) else Stop BadAccess;
  oh_ok a := 65536 <= fst a /\ forall q, q ∈ snd a -> 65536 <= q < fst a;
  oh_held a p := p ∈ snd a;
  oh_static p := p < 65536
}.

#[global] Instance obj_heap_laws : ObjectHeapLaws obj_heap.
Proof.
  split.
  - intros a p [_ Hq] Hp. apply Hq in Hp. cbn. lia.
  - intros [x h] n [Hx Hq] Hn. cbn in *. destruct (Z.ltb_spec (x + n) (2 ^ 63)).
    + exists x, (x + n, {[ x ]} ∪ h). cbn. split; [reflexivity|]. split.
      { split; [lia|]. intros q [->%elem_of_singleton|Hin]%elem_of_union; [lia|]. apply Hq in Hin. lia. }
      right. split; [lia|]. split; [lia|]. split; [intros Hin; apply Hq in Hin; lia|]. intros q. now rewrite elem_of_union, elem_of_singleton.
    + exists 0, (x, h). split; [reflexivity|]. split; [split; auto|]. left. split; reflexivity.
  - intros [x h] p [Hx Hq] Hp. cbn in *. rewrite bool_decide_eq_true_2 by exact Hp. eexists. split; [reflexivity|]. cbn.
    split; [split; [exact Hx|]; intros q [Hin _]%elem_of_difference; auto|]. intros q. rewrite elem_of_difference, elem_of_singleton. tauto.
Qed.

Definition code0 : labels := mkLabels 16 32 48 64 80.
Definition kproc0 : Z := 4096.
Definition boot0 : tasks unit obj_heap :=
  mkTasks ∅ {[ kproc0 := mkProcess 0 PROCESS_RUNNING 8192 (replicate 32 0) 0 0 0 0 0 0 0 ]} ∅ ∅ 0 0 1 1 0 false true [0; 0; 0; 0] 0
    (mkCpu 0 36864 0 0 0 0 0 0 8192) (65536, ∅).

Definition state_after (o : outcome (tasks unit obj_heap)) : tasks unit obj_heap := match o with Ok s => s | Stop _ => boot0 end.
Definition after_op (o : op) (s : tasks unit obj_heap) : tasks unit obj_heap :=
  match run_op code0 o s with Ok (_, s) => s | Stop _ => boot0 end.

Definition started : tasks unit obj_heap := state_after (thread_init kproc0 0 boot0).
Definition two_threads : tasks unit obj_heap := after_op (Create 100 kproc0 0) started.

Lemma boot0_ok : boot_ok kproc0 boot0.
Proof.
  constructor; [reflexivity|repeat constructor| |vm_compute; eauto|reflexivity|cbn; lia].
  split; [cbn; lia|]. intros q Hq. now apply elem_of_empty in Hq.
Qed.

Lemma started_eq : thread_init kproc0 0 boot0 = Ok started.
Proof. vm_compute. reflexivity. Qed.

Lemma one_step o s s2 os : op_valid s o ->
  match run_op code0 o s with Ok (Halted, _) => false | Ok _ => true | Stop _ => false end = true ->
  steps code0 (after_op o s) os s2 -> steps code0 s (o :: os) s2.
Proof.
  intros Hv Hr Hs. unfold after_op in Hs. destruct (run_op code0 o s) as [[r s1]|] eqn:E; [|discriminate].
  eapply steps_cons; eauto. now intros ->.
Qed.

Lemma two_threads_steps : steps code0 started [Create 100 kproc0 0] two_threads.
Proof. apply one_step; [vm_compute; eauto|vm_compute; reflexivity|apply steps_nil]. Qed.

Lemma two_threads_ok : exists l, tasks_ok two_threads l /\ in_scheduler two_threads = false.
Proof. exact (steps_sound code0 _ _ _ two_threads_steps (init_sound kproc0 _ _ _ boot0_ok started_eq)). Qed.

Lemma threads_safe_witness :
  sound two_threads /\ exists s2, run_op code0 Tick two_threads = Ok (Switched 65536 65616, s2) /\
    state_of two_threads 65616 = Some THREAD_READY /\ current s2 = 65616 /\ sound s2.
Proof.
  destruct (threads_safe code0 kproc0 boot0 0 started [Create 100 kproc0 0] two_threads boot0_ok started_eq two_threads_steps) as [Hs Hop].
  split; [exact Hs|]. specialize (Hop Tick I).
  assert (Hr : match run_op code0 Tick two_threads with Ok (r, _) => Some r | Stop _ => None end = Some (Switched 65536 65616)) by (vm_compute; reflexivity).
  destruct (run_op code0 Tick two_threads) as [[r s2]|]; [|discriminate]. injection Hr as ->. exists s2.
  destruct Hop as [(_ & _ & Hc & Hst & _) Hop]. split; [reflexivity|]. split; [exact Hst|]. split; [exact Hc|]. apply Hop. discriminate.
Defined.

Definition result (o : outcome (switch * tasks unit obj_heap)) : option switch := match o with Ok (r, _) => Some r | Stop _ => None end.

Lemma schedule_round_robin_witness :
  exists l s', tasks_ok two_threads l /\ schedule code0 two_threads = Ok (Switched 65536 65616, s') /\
    scheduled two_threads s' (reap_list two_threads l) 65616.
Proof.
  destruct two_threads_ok as (l & O & Hi). pose proof (schedule_round_robin code0 two_threads l O Hi) as HS.
  assert (Hr : result (schedule code0 two_threads) = Some (Switched 65536 65616)) by (vm_compute; reflexivity).
  exists l. destruct (choice two_threads l) as [next|].
  - destruct HS as (s' & E & HS). rewrite E in Hr. cbn [result] in Hr. destruct (current two_threads =? next); [discriminate|].
    assert (Hn : next = 65616) by congruence. subst next. exists s'. auto.
  - destruct HS as (s' & E). rewrite E in Hr. discriminate.
Defined.

Lemma ready_thread_runs_witness :
  exists s', steps code0 two_threads [Tick; Yield] s' /\
    exists ops1 ops2 s1, [Tick; Yield] = ops1 ++ ops2 /\ steps code0 two_threads ops1 s1 /\ steps code0 s1 ops2 s' /\
      current s1 = 65616 /\ state_of s1 65616 = Some THREAD_RUNNING.
Proof.
  set (s' := after_op Yield (after_op Tick two_threads)).
  assert (S : steps code0 two_threads [Tick; Yield] s').
  { apply one_step; [exact I|vm_compute; reflexivity|]. apply one_step; [exact I|vm_compute; reflexivity|apply steps_nil]. }
  exists s'. split; [exact S|]. destruct two_threads_ok as (l & O & Hi).
  destruct (threads two_threads !! 65616) as [t|] eqn:Et; [|vm_compute in Et; discriminate].
  assert (Hst : t_state t = THREAD_READY) by (vm_compute in Et; injection Et as <-; reflexivity).
  apply (ready_thread_runs code0 two_threads l 65616 t [Tick; Yield] s' O Hi Et Hst S).
  - intros o [<-|[<-|[]]]; reflexivity.
  - pose proof (ok_size _ _ O) as Hsz. assert (E : ring_fuel two_threads = 2%nat) by (vm_compute; reflexivity). rewrite E in Hsz.
    assert (Ep : preemption_enabled two_threads = true) by (vm_compute; reflexivity). rewrite Ep. cbn.
    assert (Hp : 65616 ∈ l) by (apply (ok_dom _ _ O); eauto).
    pose proof (index_lt _ _ (in_turns _ _ _ (ok_nodup _ _ O) (ok_current _ _ O) Hp)). rewrite (turns_length _ _ (ok_nodup _ _ O) (ok_current _ _ O)) in *. lia.
Defined.

Definition switched0 : tasks unit obj_heap := state_after (context_switch code0 65536 65616 0 two_threads).

Lemma context_switch_roundtrip_witness :
  exists s3, context_switch code0 65616 65536 0 switched0 = Ok s3 /\ regs s3 = mkCpu 80 36864 0 0 0 0 0 0 8192.
Proof.
  assert (E1 : context_switch code0 65536 65616 0 two_threads = Ok switched0) by (vm_compute; reflexivity).
  destruct (context_switch code0 65616 65536 0 switched0) as [s3|] eqn:E3; [|vm_compute in E3; discriminate]. exists s3. split; [reflexivity|].
  destruct two_threads_ok as (l & O & _).
  destruct (threads two_threads !! 65536) as [ta|] eqn:Ea; [|vm_compute in Ea; discriminate].
  destruct (threads two_threads !! 65616) as [tb|] eqn:Eb; [|vm_compute in Eb; discriminate].
  destruct (threads switched0 !! 65616) as [tc|] eqn:Ec; [|vm_compute in Ec; discriminate].
  assert (R1 : rsp (regs two_threads) = 36864) by (vm_compute; reflexivity).
  assert (R2 : rsp (regs switched0) = 82064) by (vm_compute; reflexivity).
  assert (Hfb : frame_saved (stack two_threads) (t_rsp tb)) by (apply (ok_frames _ _ O _ _ Eb); vm_compute; discriminate).
  assert (Hd : forall i j, 0 <= i < 7 -> 0 <= j < 7 -> u64 (rsp (regs two_threads) - 56 + 8 * i) <> u64 (rsp (regs switched0) - 56 + 8 * j))
    by (intros i j Hi Hj; rewrite R1, R2, !u64_id by lia; lia).
  pose proof (context_switch_roundtrip code0 two_threads 65536 65616 0 switched0 switched0 65616 0 s3 ta tb tc Ea Eb ltac:(discriminate)
    ltac:(rewrite R1; lia) Hfb E1 eq_refl Ec ltac:(discriminate) ltac:(rewrite R2; lia) (fun _ _ => eq_refl) Hd E3) as HR.
  cbv zeta in HR. rewrite HR. vm_compute. reflexivity.
Defined.

Lemma new_thread_starts_witness :
  exists nt, threads two_threads !! 65616 = Some nt /\ rip (regs switched0) = 32 /\ r12 (regs switched0) = 100 /\
    rsp (regs switched0) mod 16 = 0 /\
    t_kernel_stack_base nt <= rsp (regs switched0) < t_kernel_stack_base nt + t_kernel_stack_size nt /\
    stack switched0 !! rsp (regs switched0) = Some 16.
Proof.
  destruct (init_sound kproc0 _ _ _ boot0_ok started_eq) as (l & O & _).
  destruct (threads two_threads !! 65616) as [nt|] eqn:En; [|vm_compute in En; discriminate]. exists nt. split; [reflexivity|].
  assert (R1 : rsp (regs two_threads) = 36864) by (vm_compute; reflexivity).
  assert (R2 : t_rsp nt = 82008) by (vm_compute in En; injection En as <-; reflexivity).
  assert (E1 : thread_create_process code0 100 kproc0 0 started = Ok (65616, two_threads)) by (vm_compute; reflexivity).
  assert (E2 : context_switch code0 (current two_threads) 65616 0 two_threads = Ok switched0) by (vm_compute; reflexivity).
  assert (Hp : is_Some (procs started !! kproc0)) by (vm_compute; eauto).
  assert (Hd : forall i j, 0 <= i < 9 -> 0 <= j < 7 -> u64 (t_rsp nt + 8 * i) <> u64 (rsp (regs two_threads) - 56 + 8 * j))
    by (intros i j Hi Hj; rewrite R1, R2, !u64_id by lia; lia).
  exact (new_thread_starts code0 started l 100 kproc0 0 65616 two_threads nt 0 switched0 O Hp E1 En Hd E2).
Defined.
