(* ===== verification/Process.v ===== *)
(** * Processes (src/kernel/process/process.c)

    Processes form a tree: a process points to its first child, and the children
    are linked through [next_sibling].  The operations work on the state [tasks] of
    [Thread]; the kernel process is a static object at [kernel_process]. *)

From S2P Require Import Prelude Interfaces Kfs Vfs Thread.

Definition MAX_FDS : Z := 32.
Definition sizeof_process : Z := 328.

Definition set_pstate (v : process_state) (p : process) : process :=
  mkProcess (p_pid p) v (p_pml4 p) (p_fd_table p) (p_parent p) (p_children_head p) (p_next_sibling p)
    (p_exit_status p) (p_waiter p) (p_brk_start p) (p_brk_current p).
Definition set_pml4 (v : Z) (p : process) : process :=
  mkProcess (p_pid p) (p_state p) v (p_fd_table p) (p_parent p) (p_children_head p) (p_next_sibling p)
    (p_exit_status p) (p_waiter p) (p_brk_start p) (p_brk_current p).
Definition set_fds (v : list Z) (p : process) : process :=
  mkProcess (p_pid p) (p_state p) (p_pml4 p) v (p_parent p) (p_children_head p) (p_next_sibling p)
    (p_exit_status p) (p_waiter p) (p_brk_start p) (p_brk_current p).
Definition set_parent (v : Z) (p : process) : process :=
  mkProcess (p_pid p) (p_state p) (p_pml4 p) (p_fd_table p) v (p_children_head p) (p_next_sibling p)
    (p_exit_status p) (p_waiter p) (p_brk_start p) (p_brk_current p).
Definition set_children (v : Z) (p : process) : process :=
  mkProcess (p_pid p) (p_state p) (p_pml4 p) (p_fd_table p) (p_parent p) v (p_next_sibling p)
    (p_exit_status p) (p_waiter p) (p_brk_start p) (p_brk_current p).
Definition set_sibling (v : Z) (p : process) : process :=
  mkProcess (p_pid p) (p_state p) (p_pml4 p) (p_fd_table p) (p_parent p) (p_children_head p) v
    (p_exit_status p) (p_waiter p) (p_brk_start p) (p_brk_current p).
Definition set_exit_status (v : Z) (p : process) : process :=
  mkProcess (p_pid p) (p_state p) (p_pml4 p) (p_fd_table p) (p_parent p) (p_children_head p) (p_next_sibling p)
    v (p_waiter p) (p_brk_start p) (p_brk_current p).

Section Operations.
Context {V A : Type} `{ObjectHeap A} `{AddressSpaces A}.
Context (kernel_process : Z).
(** [tty_get_vnode(0)] *)
Context (tty0 : V).
Implicit Types s : tasks V A.

(** A new [struct file] for terminal 0 in slot [fd], if there is memory. *)
Definition open_tty (proc : Z) (fd : Z) s : outcome (tasks V A) :=
  let* (f, h) := oh_alloc sizeof_file (heap s) in
  let s := with_heap s h in
  if f =? 0 then Ok s
  else
    let s := with_files s (<[f := mkFile tty0 0 0]> (files s)) in
    upd_proc s proc (fun p => set_fds (zset (p_fd_table p) fd f) p).

Definition process_init s : outcome (tasks V A) :=
  let* s := upd_proc s kernel_process
    (fun p => set_fds (replicate (Z.to_nat MAX_FDS) 0)
      (set_pml4 (as_current (heap s))
        (mkProcess 0 (p_state p) (p_pml4 p) (p_fd_table p) (p_parent p) (p_children_head p) (p_next_sibling p)
          (p_exit_status p) (p_waiter p) (p_brk_start p) (p_brk_current p)))) in
  let* s := open_tty kernel_process 0 s in
  let* s := open_tty kernel_process 1 s in
  open_tty kernel_process 2 s.

(** [thread_current() ? thread_current()->process : kernel_process] *)
Definition current_process s : outcome Z :=
  if current s =? 0 then Ok kernel_process else let* t := get_thread s (current s) in Ok (t_process t).

(** [junk] is the value of the fields that stay uninitialised. *)
Definition process_create (junk : Z) s : outcome (Z * tasks V A) :=
  let* (proc, h) := oh_alloc sizeof_process (heap s) in
  let s := with_heap s h in
  if proc =? 0 then Ok (0, s)
  else
    let pid := next_pid s in
    let s := with_next_pid s (s32 (next_pid s + 1)) in
    let s := with_procs s (<[proc := mkProcess pid PROCESS_RUNNING junk (replicate (Z.to_nat MAX_FDS) 0) junk junk junk junk junk junk junk]>
                             (procs s)) in
    let* s := open_tty proc 0 s in
    let* s := open_tty proc 1 s in
    let* s := open_tty proc 2 s in
    let* parent := current_process s in
    let* s := upd_proc s proc (fun p => set_children 0 (set_parent parent p)) in
    let* x := get_proc s parent in
    let* s := upd_proc s proc (set_sibling (p_children_head x)) in
    let* s := upd_proc s parent (set_children proc) in
    let* s := upd_proc s proc (fun p => set_waiter 0 (set_exit_status 0 p)) in
    let* (root, h) := as_create (heap s) in
    let s := with_heap s h in
    if root =? 0 then
      let* h := oh_free proc (heap s) in
      Ok (0, with_procs (with_heap s h) (delete proc (procs s)))
    else
      let* s := upd_proc s proc (set_pml4 root) in
      Ok (proc, s).

(** The search for the link to [proc] behind the child [c]. *)
Fixpoint unlink_sibling (fuel : nat) (m : gmap Z process) (c proc : Z) : outcome (gmap Z process) :=
  let* x := of_opt (m !! c) in
  if p_next_sibling x =? 0 then Ok m
  else if p_next_sibling x =? proc then
    let* y := of_opt (m !! proc) in
    Ok (<[c := set_sibling (p_next_sibling y) x]> m)
  else match fuel with O => Stop NoFuel | S k => unlink_sibling k m (p_next_sibling x) proc end.

(** Taking [proc] off the list of the children of [parent]. *)
Definition unlink_child (m : gmap Z process) (parent proc : Z) : outcome (gmap Z process) :=
  let* x := of_opt (m !! parent) in
  if p_children_head x =? 0 then Ok m
  else if p_children_head x =? proc then
    let* y := of_opt (m !! proc) in
    let* x := of_opt (m !! parent) in
    Ok (<[parent := set_children (p_next_sibling y) x]> m)
  else unlink_sibling (size m) m (p_children_head x) proc.

Definition process_destroy (proc : Z) s : outcome (tasks V A) :=
  if (proc =? 0) || (proc =? kernel_process) then Ok s
  else
    let* p := get_proc s proc in
    let* m := (if p_parent p =? 0 then Ok (procs s) else unlink_child (procs s) (p_parent p) proc) in
    let s := with_procs s m in
    let* p := get_proc s proc in
    let* h := as_destroy (p_pml4 p) (heap s) in
    let* h := oh_free proc h in
    Ok (with_procs (with_heap s h) (delete proc (procs s))).

Fixpoint reparent_loop (fuel : nat) (m : gmap Z process) (child new_parent : Z) : outcome (gmap Z process) :=
  if child =? 0 then Ok m
  else
    match fuel with
    | O => Stop NoFuel
    | S k =>
      let* c := of_opt (m !! child) in
      let next := p_next_sibling c in
      let m := <[child := set_parent new_parent c]> m in
      let* n := of_opt (m !! new_parent) in
      let* c := of_opt (m !! child) in
      let m := <[child := set_sibling (p_children_head n) c]> m in
      let* n := of_opt (m !! new_parent) in
      let m := <[new_parent := set_children child n]> m in
      reparent_loop k m next new_parent
    end.

Definition process_reparent_children (proc new_parent : Z) s : outcome (tasks V A) :=
  if (proc =? 0) || (new_parent =? 0) then Ok s
  else
    let* p := get_proc s proc in
    let* m := reparent_loop (size (procs s)) (procs s) (p_children_head p) new_parent in
    upd_proc (with_procs s m) proc (set_children 0).

Definition process_exit (proc status : Z) s : outcome (tasks V A) :=
  if (proc =? 0) || (proc =? kernel_process) then Ok s
  else
    let* s := upd_proc s proc (fun p => set_pstate PROCESS_ZOMBIE (set_exit_status status p)) in
    let* s := process_reparent_children proc kernel_process s in
    let* p := get_proc s proc in
    let* s :=
      (if p_parent p =? 0 then Ok s
       else
         let* x := get_proc s (p_parent p) in
         if p_waiter x =? 0 then Ok s
         else
           let* s := thread_wake_waiter (p_waiter x) s in
           upd_proc s (p_parent p) (set_waiter 0)) in
    thread_terminate_process proc s.

Definition process_terminate (proc : Z) s : outcome (tasks V A) := process_exit proc (-1) s.

End Operations.
