(* ===== verification/ProcessProofs.v ===== *)
(** * Correctness of processes

    [tree_ok] says that the lists of children form a tree below the kernel process;
    creation, exit and destruction of processes keep it, together with the
    invariant of the threads. *)

From S2P Require Import Prelude Interfaces Kfs Vfs Thread ThreadProofs Process.

(** ** Lists of children *)
Fixpoint siblings (m : gmap Z process) (q : Z) (l : list Z) : Prop :=
  match l with
  | [] => q = 0
  | c :: r => q = c /\ c <> 0 /\ exists x, m !! c = Some x /\ siblings m (p_next_sibling x) r
  end.

Lemma siblings_mem m l : forall q c, siblings m q l -> c ∈ l -> is_Some (m !! c) /\ c <> 0.
Proof.
  induction l as [|x l IH]; intros q c Hs Hc; [inversion Hc|]. destruct Hs as (-> & Hx & t & Et & Hs).
  apply elem_of_cons in Hc as [->|Hc]; [split; [now exists t|exact Hx]|eapply IH; eauto].
Qed.

Lemma siblings_same m m' l : forall q,
  (forall c x, c ∈ l -> m !! c = Some x -> exists x', m' !! c = Some x' /\ p_next_sibling x' = p_next_sibling x) ->
  siblings m q l -> siblings m' q l.
Proof.
  induction l as [|c l IH]; intros q Hs; [done|]. intros (-> & Hc & x & Ex & Hw). split; [reflexivity|]. split; [exact Hc|].
  destruct (Hs c x ltac:(left) Ex) as (x' & Ex' & Hn). exists x'. split; [exact Ex'|]. rewrite Hn.
  apply IH; [|exact Hw]. intros p u Hp. apply Hs. now right.
Qed.

Lemma siblings_length m q l : NoDup l -> siblings m q l -> (length l <= size m)%nat.
Proof.
  intros Hnd Hs. rewrite <- size_dom, <- (size_list_to_set (C := gset Z) l Hnd). apply subseteq_size.
  intros p. rewrite elem_of_list_to_set, elem_of_dom. intros Hp. eapply siblings_mem; eauto.
Qed.

(** The tree of processes: [kids p] are the children of [p], the youngest first. *)
Record tree_ok (kernel_process : Z) (m : gmap Z process) (kids : Z -> list Z) : Prop := {
  tr_kernel : is_Some (m !! kernel_process) /\ kernel_process <> 0;
  tr_list p x : m !! p = Some x -> siblings m (p_children_head x) (kids p);
  tr_nodup p : NoDup (kids p);
  tr_parent p c : c ∈ kids p -> is_Some (m !! p) /\ exists y, m !! c = Some y /\ p_parent y = p /\ c <> kernel_process;
  tr_child c y : m !! c = Some y -> c <> kernel_process -> c ∈ kids (p_parent y);
  tr_depth : exists d : Z -> nat, forall c y, m !! c = Some y -> c <> kernel_process -> (d kernel_process <= d (p_parent y) < d c)%nat
}.

Lemma tr_irrefl k m kids c y : tree_ok k m kids -> m !! c = Some y -> c <> k -> p_parent y <> c.
Proof. intros T Ey Hc E. destruct (tr_depth _ _ _ T) as [d Hd]. pose proof (Hd c y Ey Hc). rewrite E in *. lia. Qed.

Definition upd {X} (f : Z -> X) (k : Z) (v : X) : Z -> X := fun q => if q =? k then v else f q.

(** ** Unlinking a child *)
Lemma unlink_sibling_spec m proc y b : forall a fuel c,
  siblings m c (a ++ proc :: b) -> NoDup (a ++ proc :: b) -> a <> [] -> m !! proc = Some y -> (length a <= S fuel)%nat ->
  exists z xz, z ∈ a /\ m !! z = Some xz /\
    unlink_sibling fuel m c proc = Ok (<[z := set_sibling (p_next_sibling y) xz]> m) /\
    siblings (<[z := set_sibling (p_next_sibling y) xz]> m) c (a ++ b).
Proof.
  induction a as [|p a IH]; intros fuel c Hs Hnd Ha Hy Hf; [congruence|]. destruct Hs as (-> & Hp & w & Ew & Hs).
  cbn [app] in Hnd. apply list.NoDup_cons in Hnd as [Hpn Hnd]. destruct a as [|q a].
  - destruct Hs as (En & Ht0 & x' & Ex' & Hs). rewrite Hy in Ex'. injection Ex' as <-.
    exists p, w. split; [left|]. split; [exact Ew|]. split.
    + destruct fuel; cbn [unlink_sibling]; rewrite Ew; cbn [of_opt obind]; rewrite En, Z.eqb_refl, Hy;
        (destruct (Z.eqb_spec proc 0); [congruence|reflexivity]).
    + split; [reflexivity|]. split; [exact Hp|]. eexists. split; [apply lookup_insert_eq|]. cbn [p_next_sibling set_sibling].
      revert Hs. apply siblings_same. intros r u Hr Eu. exists u. split; [|reflexivity]. rewrite lookup_insert_ne; [exact Eu|].
      intros ->. apply Hpn. cbn. now right.
  - pose proof Hs as (En & Hq & _). assert (Hqt : q <> proc).
    { intros ->. apply list.NoDup_cons in Hnd as [Hnd _]. apply Hnd, elem_of_app. right. left. }
    destruct fuel as [|k]; [cbn in Hf; lia|]. rewrite En in Hs.
    destruct (IH k q Hs Hnd ltac:(done) Hy ltac:(cbn in *; lia)) as (z & xz & Hz & Ez & E & Hs'). exists z, xz. split; [now right|]. split; [exact Ez|]. split.
    + cbn [unlink_sibling]. rewrite Ew. cbn [of_opt obind]. rewrite En. destruct (Z.eqb_spec q 0), (Z.eqb_spec q proc); try congruence.
    + split; [reflexivity|]. split; [exact Hp|]. exists w. rewrite En. split; [|exact Hs']. rewrite lookup_insert_ne; [exact Ew|].
      intros ->. apply Hpn, elem_of_app. now left.
Qed.

(** [m'] is [m] up to the links of the lists. *)
Definition relisted (m m' : gmap Z process) : Prop :=
  forall p, match m !! p with
            | Some x => exists c n, m' !! p = Some (set_children c (set_sibling n x))
            | None => m' !! p = None
            end.

Lemma relisted_insert m p x c n : m !! p = Some x -> relisted m (<[p := set_children c (set_sibling n x)]> m).
Proof.
  intros E q. destruct (decide (p = q)) as [<-|Hne].
  - rewrite E, lookup_insert_eq. eauto.
  - rewrite lookup_insert_ne by exact Hne. destruct (m !! q) as [z|]; [|reflexivity]. exists (p_children_head z), (p_next_sibling z). now destruct z.
Qed.

Lemma unlink_child_spec k m kids proc y :
  tree_ok k m kids -> m !! proc = Some y -> proc <> k ->
  exists m' l1 l2, unlink_child m (p_parent y) proc = Ok m' /\ kids (p_parent y) = l1 ++ proc :: l2 /\ m' !! proc = Some y /\ relisted m m' /\
    forall p x, m' !! p = Some x -> siblings m' (p_children_head x) (upd kids (p_parent y) (l1 ++ l2) p).
Proof.
  intros T Ey Hk. pose proof (tr_child _ _ _ T proc y Ey Hk) as Hin. pose proof (tr_irrefl _ _ _ _ _ T Ey Hk) as Hirr. set (par := p_parent y) in *.
  destruct (tr_parent _ _ _ T par proc Hin) as [[x Ex] _]. pose proof (tr_list _ _ _ T par x Ex) as Hs. pose proof (tr_nodup _ _ _ T par) as Hnd.
  apply list_elem_of_split in Hin as (l1 & l2 & El). rewrite El in Hs, Hnd. unfold unlink_child. rewrite Ex. cbn [of_opt obind].
  destruct l1 as [|c l1].
  - destruct Hs as (-> & Hp0 & y' & Ey' & Hs). rewrite Ey in Ey'. injection Ey' as <-. rewrite (proj2 (Z.eqb_neq _ _) Hp0), Z.eqb_refl, Ey. cbn [of_opt obind].
    exists (<[par := set_children (p_next_sibling y) x]> m), [], l2. split; [reflexivity|]. split; [exact El|].
    split; [now rewrite lookup_insert_ne by exact Hirr|]. split.
    { replace (set_children (p_next_sibling y) x) with (set_children (p_next_sibling y) (set_sibling (p_next_sibling x) x)) by now destruct x.
      now apply relisted_insert. }
    intros p z Ez. assert (Hsame : forall q l, siblings m q l -> siblings (<[par := set_children (p_next_sibling y) x]> m) q l).
    { intros q l. apply siblings_same. intros d u _ Eu. destruct (decide (par = d)) as [<-|Hne].
      - rewrite lookup_insert_eq. eexists. split; [reflexivity|]. cbn. congruence.
      - rewrite lookup_insert_ne by exact Hne. eauto. }
    apply Hsame. unfold upd. destruct (Z.eqb_spec p par) as [->|Hne].
    + rewrite lookup_insert_eq in Ez. injection Ez as <-. exact Hs.
    + rewrite lookup_insert_ne in Ez by congruence. now apply (tr_list _ _ _ T).
  - pose proof (siblings_length m _ _ Hnd Hs) as Hlen. rewrite length_app in Hlen. cbn [length] in Hlen.
    destruct (unlink_sibling_spec m proc y l2 (c :: l1) (size m) _ Hs Hnd ltac:(done) Ey ltac:(cbn; lia)) as (z & xz & Hz & Ez & E & Hs').
    pose proof Hs as (Hc & Hc0 & _). rewrite Hc, (proj2 (Z.eqb_neq _ _) Hc0).
    destruct (Z.eqb_spec c proc) as [->|_]; [apply list.NoDup_cons in Hnd as [Hnd _]; destruct Hnd; apply elem_of_app; right; left|].
    rewrite Hc in E. rewrite E. set (m' := <[z := _]> m) in *. exists m', (c :: l1), l2. split; [reflexivity|]. split; [exact El|].
    assert (Hzk : z ∈ kids par) by (rewrite El, elem_of_app; now left).
    assert (Hzp : z <> proc) by (intros ->; apply list.NoDup_app in Hnd as (_ & Ha & _); apply (Ha proc Hz); left).
    split; [unfold m'; now rewrite lookup_insert_ne by exact Hzp|]. split.
    { unfold m'. replace (set_sibling (p_next_sibling y) xz) with (set_children (p_children_head xz) (set_sibling (p_next_sibling y) xz)) by now destruct xz.
      now apply relisted_insert. }
    assert (Hheads : forall p u, m' !! p = Some u -> exists v, m !! p = Some v /\ p_children_head u = p_children_head v).
    { intros p u Eu. unfold m' in Eu. destruct (decide (z = p)) as [<-|Hne].
      - rewrite lookup_insert_eq in Eu. injection Eu as <-. eauto.
      - rewrite lookup_insert_ne in Eu by exact Hne. eauto. }
    intros p u Eu. destruct (Hheads p u Eu) as (v & Ev & ->). unfold upd. destruct (Z.eqb_spec p par) as [->|Hne].
    + rewrite Ex in Ev. injection Ev as <-. exact Hs'.
    + pose proof (tr_list _ _ _ T p v Ev) as Hp. revert Hp. apply siblings_same. intros d w Hd Ew. exists w. split; [|reflexivity].
      unfold m'. rewrite lookup_insert_ne; [exact Ew|]. intros <-. destruct (tr_parent _ _ _ T p z Hd) as (_ & t & Et & Hpt & _).
      destruct (tr_parent _ _ _ T par z Hzk) as (_ & t' & Et' & Hpt' & _). congruence.
Qed.

(** ** Reparenting *)
Lemma reparent_spec k l : forall m c K n fuel,
  siblings m c l -> NoDup l -> k ∉ l -> (forall d, d ∈ l -> d ∉ K) -> m !! k = Some n -> siblings m (p_children_head n) K ->
  (length l <= fuel)%nat ->
  exists m' h, reparent_loop fuel m c k = Ok m' /\
    (forall q, q ∉ l -> q <> k -> m' !! q = m !! q) /\
    m' !! k = Some (set_children h n) /\ siblings m' h (rev l ++ K) /\
    (forall d x, d ∈ l -> m !! d = Some x -> exists sb, m' !! d = Some (set_sibling sb (set_parent k x))).
Proof.
  induction l as [|d l IH]; intros m c K n fuel Hs Hnd Hk Hdis Hn HK Hf.
  - cbn in Hs. subst c. exists m, (p_children_head n). split; [now destruct fuel|]. split; [auto|]. split; [rewrite Hn; now destruct n|].
    split; [exact HK|]. intros d x Hd. inversion Hd.
  - destruct Hs as (-> & Hd0 & x & Ex & Hs). apply list.NoDup_cons in Hnd as [Hdl Hnd]. apply not_elem_of_cons in Hk as [Hkd Hk].
    destruct fuel as [|fuel]; [cbn in Hf; lia|]. cbn [reparent_loop]. rewrite (proj2 (Z.eqb_neq _ _) Hd0), Ex. cbn [of_opt obind].
    rewrite lookup_insert_ne, Hn, lookup_insert_eq by congruence. cbn [of_opt obind].
    rewrite lookup_insert_ne, lookup_insert_ne, Hn by congruence. cbn [of_opt obind]. rewrite insert_insert_eq.
    set (xd := set_sibling (p_children_head n) (set_parent k x)). set (m1 := <[k := set_children d n]> (<[d := xd]> m)).
    assert (Hsame : forall q l', d ∉ l' -> siblings m q l' -> siblings m1 q l').
    { intros q l' Hdl'. apply siblings_same. intros e u He Eu. unfold m1. destruct (decide (k = e)) as [<-|Hke].
      - rewrite lookup_insert_eq. eexists. split; [reflexivity|]. cbn. congruence.
      - rewrite !lookup_insert_ne by congruence. eauto. }
    destruct (IH m1 (p_next_sibling x) (d :: K) (set_children d n) fuel) as (m' & h & E & H1 & H2 & H3 & H4); auto.
    { intros e He [->|HeK]%elem_of_cons; [tauto|]. apply (Hdis e); [now right|exact HeK]. }
    { apply lookup_insert_eq. }
    { cbn. split; [reflexivity|]. split; [exact Hd0|]. exists xd. unfold m1. rewrite lookup_insert_ne, lookup_insert_eq by congruence.
      split; [reflexivity|]. cbn. apply Hsame; [apply Hdis; left|exact HK]. }
    { cbn in Hf. lia. }
    exists m', h. split; [exact E|]. split; [|split; [rewrite H2; now destruct n|split; [cbn [rev]; now rewrite <- app_assoc|]]].
    + intros q Hq Hqk. apply not_elem_of_cons in Hq as [Hqd Hq]. rewrite H1 by assumption. unfold m1. now rewrite !lookup_insert_ne by congruence.
    + intros e u He Eu. destruct (decide (e = d)) as [->|Hed].
      * rewrite Ex in Eu. injection Eu as <-. rewrite H1 by (auto; congruence). unfold m1. rewrite lookup_insert_ne, lookup_insert_eq by congruence. eauto.
      * apply elem_of_cons in He as [?|He]; [congruence|]. apply H4; [exact He|]. unfold m1. rewrite !lookup_insert_ne; [exact Eu|congruence|].
        intros ->. tauto.
Qed.

(** ** The tree after each operation *)
Lemma kids_absent k m kids p : tree_ok k m kids -> m !! p = None -> kids p = [].
Proof.
  intros T E. destruct (kids p) as [|c r] eqn:Ek; [reflexivity|]. destruct (tr_parent _ _ _ T p c) as [[x Ex] _]; [rewrite Ek; left|congruence].
Qed.

Lemma kids_sep k m kids p q c : tree_ok k m kids -> c ∈ kids p -> c ∈ kids q -> p = q.
Proof.
  intros T Hp Hq. destruct (tr_parent _ _ _ T p c Hp) as (_ & y & Ey & <- & _). destruct (tr_parent _ _ _ T q c Hq) as (_ & z & Ez & <- & _). congruence.
Qed.

Lemma tree_nonzero k m kids p x : tree_ok k m kids -> m !! p = Some x -> p <> 0.
Proof.
  intros T Ex. destruct (decide (p = k)) as [->|Hk]; [apply T|]. pose proof (tr_child _ _ _ T p x Ex Hk) as Hin.
  destruct (tr_parent _ _ _ T _ _ Hin) as [[y Ey] _]. exact (proj2 (siblings_mem _ _ _ _ (tr_list _ _ _ T _ _ Ey) Hin)).
Qed.

Lemma tree_add k m m' kids proc par x y :
  tree_ok k m kids -> m !! proc = None -> proc <> 0 -> m !! par = Some x ->
  p_parent y = par -> p_children_head y = 0 -> p_next_sibling y = p_children_head x ->
  (forall q, m' !! q = if q =? proc then Some y else if q =? par then Some (set_children proc x) else m !! q) ->
  tree_ok k m' (upd (upd kids proc []) par (proc :: kids par)).
Proof.
  intros T En Hp0 Ex Hpar Hch Hsib Hm. assert (Hne : proc <> par) by congruence. pose proof (tr_kernel _ _ _ T) as [[xk Ek] Hk0].
  assert (Hsame : forall q l, siblings m q l -> siblings m' q l).
  { intros q l. apply siblings_same. intros c u _ Eu. rewrite Hm. destruct (Z.eqb_spec c proc); [congruence|].
    destruct (Z.eqb_spec c par) as [->|]; [|eauto]. eexists. split; [reflexivity|]. cbn. congruence. }
  assert (Hback : forall q u, q <> proc -> m' !! q = Some u -> exists v, m !! q = Some v /\ p_parent u = p_parent v).
  { intros q u Hq Eu. rewrite Hm in Eu. rewrite (proj2 (Z.eqb_neq _ _) Hq) in Eu. destruct (Z.eqb_spec q par) as [->|]; [|eauto].
    injection Eu as <-. eauto. }
  assert (Hin : forall p, is_Some (m !! p) -> is_Some (m' !! p)).
  { intros p [z Ez]. rewrite Hm. destruct (p =? proc); [eauto|]. destruct (p =? par); eauto. }
  constructor.
  - split; [apply Hin; eauto|exact Hk0].
  - intros p u Eu. unfold upd. rewrite Hm in Eu. destruct (Z.eqb_spec p par) as [->|Hpp].
    + rewrite (proj2 (Z.eqb_neq _ _) (not_eq_sym Hne)) in Eu. injection Eu as <-. cbn. split; [reflexivity|]. split; [exact Hp0|]. exists y.
      rewrite Hm, Z.eqb_refl, Hsib. split; [reflexivity|]. apply Hsame, (tr_list _ _ _ T), Ex.
    + destruct (Z.eqb_spec p proc) as [->|Hpq]; [injection Eu as <-; exact Hch|]. apply Hsame, (tr_list _ _ _ T), Eu.
  - intros p. unfold upd. destruct (Z.eqb_spec p par); [|destruct (p =? proc); [constructor|apply T]].
    apply list.NoDup_cons. split; [|apply T]. intros Hc. destruct (tr_parent _ _ _ T par proc Hc) as (_ & z & Ez & _). congruence.
  - intros p c. unfold upd. destruct (Z.eqb_spec p par) as [->|Hpp].
    + intros [->|Hc]%elem_of_cons; (split; [apply Hin; eauto|]).
      * exists y. rewrite Hm, Z.eqb_refl. split; [reflexivity|]. split; [exact Hpar|congruence].
      * destruct (tr_parent _ _ _ T par c Hc) as (_ & z & Ez & Hz & Hck). rewrite Hm. destruct (Z.eqb_spec c proc); [congruence|].
        destruct (Z.eqb_spec c par) as [->|]; [|eauto]. eexists. split; [reflexivity|]. split; [cbn; congruence|exact Hck].
    + destruct (Z.eqb_spec p proc) as [->|Hpq]; [intros Hc; inversion Hc|]. intros Hc. destruct (tr_parent _ _ _ T p c Hc) as (Hp & z & Ez & Hz & Hck).
      split; [now apply Hin|]. rewrite Hm. destruct (Z.eqb_spec c proc); [congruence|]. destruct (Z.eqb_spec c par) as [->|]; [|eauto].
      eexists. split; [reflexivity|]. split; [cbn; congruence|exact Hck].
  - intros c u Eu Hc. unfold upd. destruct (Z.eqb_spec c proc) as [->|Hcp].
    + rewrite Hm, Z.eqb_refl in Eu. injection Eu as <-. rewrite Hpar, Z.eqb_refl. left.
    + destruct (Hback c u Hcp Eu) as (v & Ev & ->). pose proof (tr_child _ _ _ T c v Ev Hc) as Hv.
      destruct (Z.eqb_spec (p_parent v) par) as [Epv|]; [right; now rewrite <- Epv|]. destruct (Z.eqb_spec (p_parent v) proc) as [Epv|]; [|exact Hv].
      rewrite Epv, (kids_absent _ _ _ _ T En) in Hv. inversion Hv.
  - destruct (tr_depth _ _ _ T) as [d Hd]. exists (fun q => if q =? proc then S (d par) else d q). intros c u Eu Hc.
    rewrite (proj2 (Z.eqb_neq k proc)) by congruence. destruct (Z.eqb_spec c proc) as [->|Hcp].
    + rewrite Hm, Z.eqb_refl in Eu. injection Eu as <-. rewrite Hpar, (proj2 (Z.eqb_neq _ _) (not_eq_sym Hne)).
      destruct (decide (par = k)) as [->|Hpk]; [lia|]. pose proof (Hd par x Ex Hpk). lia.
    + destruct (Hback c u Hcp Eu) as (v & Ev & ->). pose proof (Hd c v Ev Hc).
      destruct (Z.eqb_spec (p_parent v) proc) as [Epv|]; [|lia]. pose proof (tr_child _ _ _ T c v Ev Hc) as Hv.
      rewrite Epv, (kids_absent _ _ _ _ T En) in Hv. inversion Hv.
Qed.

Lemma tree_remove k m m' kids proc y l1 l2 :
  tree_ok k m kids -> m !! proc = Some y -> proc <> k -> kids proc = [] -> kids (p_parent y) = l1 ++ proc :: l2 -> relisted m m' ->
  (forall p x, m' !! p = Some x -> siblings m' (p_children_head x) (upd kids (p_parent y) (l1 ++ l2) p)) ->
  tree_ok k (delete proc m') (upd kids (p_parent y) (l1 ++ l2)).
Proof.
  intros T Ey Hk Hkids El Hr Hs. set (kids' := upd kids (p_parent y) (l1 ++ l2)) in *.
  assert (Hnd : NoDup (l1 ++ proc :: l2)) by (rewrite <- El; apply T).
  assert (Hiff : forall p c, c ∈ kids' p <-> c ∈ kids p /\ c <> proc).
  { intros p c. unfold kids', upd. destruct (Z.eqb_spec p (p_parent y)) as [->|Hp].
    - rewrite El, !elem_of_app, elem_of_cons. apply list.NoDup_app in Hnd as (_ & Ha & Hb). apply list.NoDup_cons in Hb as [Hb _].
      specialize (Ha c). split; [|tauto]. intros Hc. split; [tauto|]. intros ->. destruct Hc as [Hc|Hc]; [|tauto]. apply Ha; [exact Hc|left].
    - split; [|tauto]. intros Hc. split; [exact Hc|]. intros ->. apply Hp. apply (kids_sep _ _ _ _ _ proc T Hc). rewrite El, elem_of_app. right. left. }
  assert (Hfwd : forall p x, p <> proc -> m !! p = Some x -> exists c n, delete proc m' !! p = Some (set_children c (set_sibling n x))).
  { intros p x Hp Ex. rewrite lookup_delete_ne by congruence. specialize (Hr p). rewrite Ex in Hr. exact Hr. }
  assert (Hback : forall p u, delete proc m' !! p = Some u -> p <> proc /\ exists x, m !! p = Some x /\ p_parent u = p_parent x).
  { intros p u Eu. destruct (decide (p = proc)) as [->|Hp]; [now rewrite lookup_delete_eq in Eu|]. split; [exact Hp|].
    rewrite lookup_delete_ne in Eu by congruence. specialize (Hr p). destruct (m !! p) as [x|]; [|congruence].
    destruct Hr as (c & n & E). rewrite E in Eu. injection Eu as <-. eauto. }
  constructor.
  - destruct (tr_kernel _ _ _ T) as [[x Ex] H0]. split; [|exact H0]. destruct (Hfwd k x ltac:(congruence) Ex) as (c & n & E). eauto.
  - intros p u Eu. destruct (Hback p u Eu) as (Hp & _). rewrite lookup_delete_ne in Eu by congruence. generalize (Hs p u Eu).
    apply siblings_same. intros c z Hc Ez. exists z. split; [|reflexivity]. rewrite lookup_delete_ne; [exact Ez|]. intros <-. now apply Hiff in Hc as [_ Hc].
  - intros p. unfold kids', upd. destruct (p =? p_parent y); [|apply T]. apply list.NoDup_app in Hnd as (Ha & Hb & Hc). apply list.NoDup_cons in Hc as [_ Hc].
    apply list.NoDup_app. split; [exact Ha|]. split; [|exact Hc]. intros c H1 H2. apply (Hb c H1). now right.
  - intros p c [Hc Hcp]%Hiff. destruct (tr_parent _ _ _ T p c Hc) as ([xp Ep] & z & Ez & Hz & Hck). split.
    + assert (p <> proc) by (intros ->; rewrite Hkids in Hc; inversion Hc). destruct (Hfwd p xp) as (? & ? & E); eauto.
    + destruct (Hfwd c z Hcp Ez) as (a & b & E). eexists. split; [exact E|]. auto.
  - intros c u Eu Hc. destruct (Hback c u Eu) as (Hcp & x & Ex & ->). apply Hiff. split; [now apply (tr_child _ _ _ T)|exact Hcp].
  - destruct (tr_depth _ _ _ T) as [d Hd]. exists d. intros c u Eu Hc. destruct (Hback c u Eu) as (Hcp & x & Ex & ->). now apply Hd.
Qed.

(** [m'] is [m] up to fields that are not links. *)
Definition same_links (m m' : gmap Z process) : Prop :=
  forall p, match m !! p with
            | Some x => exists x', m' !! p = Some x' /\ p_parent x' = p_parent x /\ p_children_head x' = p_children_head x /\
                          p_next_sibling x' = p_next_sibling x
            | None => m' !! p = None
            end.

Lemma same_links_insert m p x x' : m !! p = Some x -> p_parent x' = p_parent x -> p_children_head x' = p_children_head x ->
  p_next_sibling x' = p_next_sibling x -> same_links m (<[p := x']> m).
Proof.
  intros E H1 H2 H3 q. destruct (decide (p = q)) as [<-|Hne]; [rewrite E, lookup_insert_eq; eauto|].
  rewrite lookup_insert_ne by exact Hne. destruct (m !! q); eauto.
Qed.

Lemma tree_same k m m' kids : same_links m m' -> tree_ok k m kids -> tree_ok k m' kids.
Proof.
  intros Hl T. assert (Hf : forall p x, m !! p = Some x -> exists x', m' !! p = Some x' /\ p_parent x' = p_parent x /\
     p_children_head x' = p_children_head x /\ p_next_sibling x' = p_next_sibling x) by (intros p x Ex; specialize (Hl p); now rewrite Ex in Hl).
  assert (Hb : forall p x', m' !! p = Some x' -> exists x, m !! p = Some x /\ p_parent x' = p_parent x /\ p_children_head x' = p_children_head x).
  { intros p x' Ex'. specialize (Hl p). destruct (m !! p) as [x|]; [|congruence]. destruct Hl as (z & Ez & ? & ? & ?). exists x.
    rewrite Ez in Ex'. injection Ex' as <-. auto. }
  constructor.
  - destruct (tr_kernel _ _ _ T) as [[x Ex] H0]. split; [|exact H0]. destruct (Hf _ _ Ex) as (x' & Ex' & _). eauto.
  - intros p x' Ex'. destruct (Hb p x' Ex') as (x & Ex & _ & ->). generalize (tr_list _ _ _ T p x Ex). apply siblings_same.
    intros c u _ Eu. destruct (Hf c u Eu) as (u' & Eu' & _ & _ & Hn). eauto.
  - apply T.
  - intros p c Hc. destruct (tr_parent _ _ _ T p c Hc) as ([x Ex] & y & Ey & Hy & Hk). destruct (Hf p x Ex) as (x' & Ex' & _).
    split; [eauto|]. destruct (Hf c y Ey) as (y' & Ey' & Hp & _). exists y'. repeat split; congruence.
  - intros c y' Ey' Hc. destruct (Hb c y' Ey') as (y & Ey & -> & _). now apply (tr_child _ _ _ T).
  - destruct (tr_depth _ _ _ T) as [d Hd]. exists d. intros c y' Ey' Hc. destruct (Hb c y' Ey') as (y & Ey & -> & _). now apply Hd.
Qed.

(** [x'] is [x] up to its links. *)
Definition same_data (x x' : process) : Prop := exists a b c, x' = set_parent a (set_children b (set_sibling c x)).

Lemma same_data_refl x : same_data x x.
Proof. exists (p_parent x), (p_children_head x), (p_next_sibling x). now destruct x. Qed.

Lemma rev_reverse {X} (l : list X) : rev l = reverse l.
Proof. apply rev_alt. Qed.

Definition adopted (kids : Z -> list Z) (k proc : Z) : Z -> list Z := upd (upd kids proc []) k (rev (kids proc) ++ kids k).

(** The links after the children of [proc] have moved to [k]. *)
Record adopts (k : Z) (m m' : gmap Z process) (kids : Z -> list Z) (proc : Z) : Prop := {
  ad_other q : q ∉ kids proc -> q <> k -> m' !! q = m !! q;
  ad_kernel n : m !! k = Some n -> exists h, m' !! k = Some (set_children h n) /\ siblings m' h (rev (kids proc) ++ kids k);
  ad_kid d x : d ∈ kids proc -> m !! d = Some x -> exists sb, m' !! d = Some (set_sibling sb (set_parent k x))
}.

Definition reparented (k : Z) (l : list Z) (x x' : process) (p : Z) : Prop :=
  same_data x x' /\ p_parent x' = if bool_decide (p ∈ l) then k else p_parent x.

Section Reparent.
Context (k : Z) (m : gmap Z process) (kids : Z -> list Z) (proc : Z) (y : process).
Context (T : tree_ok k m kids) (Ey : m !! proc = Some y) (Hpk : proc <> k).

Lemma kernel_no_kid p : k ∉ kids p.
Proof. intros Hk. destruct (tr_parent _ _ _ T p k Hk) as (_ & ? & _ & _ & ?). congruence. Qed.

Lemma self_no_kid : proc ∉ kids proc.
Proof. intros Hp. destruct (tr_parent _ _ _ T proc proc Hp) as (_ & z & Ez & Hz & _). now apply (tr_irrefl _ _ _ _ _ T Ez Hpk). Qed.

Lemma reparent_loop_ok : exists m', reparent_loop (size m) m (p_children_head y) k = Ok m' /\ adopts k m m' kids proc.
Proof.
  destruct (tr_kernel _ _ _ T) as [[n En] Hk0]. pose proof (tr_list _ _ _ T proc y Ey) as Hs. pose proof (tr_nodup _ _ _ T proc) as Hnd.
  destruct (reparent_spec k (kids proc) m (p_children_head y) (kids k) n (size m) Hs Hnd (kernel_no_kid proc))
    as (m' & h & E & H1 & H2 & H3 & H4);
    [intros d Hd Hd'; apply Hpk; eapply kids_sep; eauto|exact En|exact (tr_list _ _ _ T k n En)|now apply (siblings_length m (p_children_head y))|].
  exists m'. split; [exact E|]. constructor; auto. intros n' En'. rewrite En in En'. injection En' as <-. eauto.
Qed.

Context (m' : gmap Z process) (Ad : adopts k m m' kids proc).

Lemma adopts_data p :
  match m !! p with
  | Some x => exists x', m' !! p = Some x' /\ reparented k (kids proc) x x' p
  | None => m' !! p = None
  end.
Proof.
  unfold reparented. destruct (m !! p) as [x|] eqn:Ex.
  - case_bool_decide as Hin.
    + destruct (ad_kid _ _ _ _ _ Ad p x Hin Ex) as [sb E']. eexists. split; [exact E'|]. split; [|reflexivity].
      exists k, (p_children_head x), sb. now destruct x.
    + destruct (decide (p = k)) as [->|Hp].
      * destruct (ad_kernel _ _ _ _ _ Ad x Ex) as (h & E' & _). exists (set_children h x). split; [exact E'|]. split; [|reflexivity].
        exists (p_parent x), h, (p_next_sibling x). now destruct x.
      * exists x. rewrite (ad_other _ _ _ _ _ Ad) by assumption. split; [exact Ex|]. split; [apply same_data_refl|reflexivity].
  - rewrite (ad_other _ _ _ _ _ Ad); [exact Ex| |intros ->; destruct (tr_kernel _ _ _ T) as [[? ?] _]; congruence].
    intros Hin. destruct (tr_parent _ _ _ T proc p Hin) as (_ & z & Ez & _). congruence.
Qed.

Lemma adopts_self : m' !! proc = Some y.
Proof. rewrite (ad_other _ _ _ _ _ Ad); [exact Ey|exact self_no_kid|exact Hpk]. Qed.

Let m2 := <[proc := set_children 0 y]> m'.

Lemma adopted_parent c :
  match m !! c with
  | Some x => exists z, m2 !! c = Some z /\ p_parent z = if bool_decide (c ∈ kids proc) then k else p_parent x
  | None => m2 !! c = None
  end.
Proof.
  pose proof (adopts_data c) as Hall. unfold m2. destruct (decide (proc = c)) as [<-|Hc].
  - rewrite Ey, lookup_insert_eq. eexists. split; [reflexivity|]. now rewrite bool_decide_eq_false_2 by exact self_no_kid.
  - rewrite lookup_insert_ne by exact Hc. destruct (m !! c) as [x|]; [|exact Hall]. destruct Hall as (x' & E' & _ & Hx'). eauto.
Qed.

Lemma adopted_heads p x : m2 !! p = Some x -> siblings m2 (p_children_head x) (adopted kids k proc p).
Proof.
  assert (Hsame : forall q l, siblings m' q l -> siblings m2 q l).
  { intros q l. apply siblings_same. intros c u _ Eu. unfold m2. destruct (decide (proc = c)) as [<-|Hc].
    - rewrite lookup_insert_eq. eexists. split; [reflexivity|]. rewrite adopts_self in Eu. now injection Eu as <-.
    - rewrite lookup_insert_ne by exact Hc. eauto. }
  intros Ex. unfold adopted, upd. destruct (tr_kernel _ _ _ T) as [[n En] _]. destruct (Z.eqb_spec p k) as [->|Hp].
  - apply Hsame. destruct (ad_kernel _ _ _ _ _ Ad n En) as (h & E' & Hs). unfold m2 in Ex. rewrite lookup_insert_ne, E' in Ex by exact Hpk.
    injection Ex as <-. exact Hs.
  - destruct (Z.eqb_spec p proc) as [->|Hpq]; [unfold m2 in Ex; rewrite lookup_insert_eq in Ex; now injection Ex as <-|].
    apply Hsame. unfold m2 in Ex. rewrite lookup_insert_ne in Ex by congruence.
    pose proof (adopts_data p) as Hall. destruct (m !! p) as [x0|] eqn:Ex0; [|congruence].
    assert (Hh : p_children_head x = p_children_head x0).
    { destruct (decide (p ∈ kids proc)) as [Hin|Hin].
      - destruct (ad_kid _ _ _ _ _ Ad p x0 Hin Ex0) as [sb E']. rewrite E' in Ex. now injection Ex as <-.
      - rewrite (ad_other _ _ _ _ _ Ad), Ex0 in Ex by assumption. now injection Ex as <-. }
    rewrite Hh. generalize (tr_list _ _ _ T p x0 Ex0). apply siblings_same. intros c u Hc Eu. exists u. split; [|reflexivity].
    rewrite (ad_other _ _ _ _ _ Ad); [exact Eu|intros Hcp; apply Hpq; eapply kids_sep; eauto|]. intros ->. now apply (kernel_no_kid p).
Qed.

Lemma adopted_tree : tree_ok k m2 (adopted kids k proc).
Proof.
  destruct (tr_kernel _ _ _ T) as [[n En] Hk0].
  assert (Hf : forall c x, m !! c = Some x -> exists z, m2 !! c = Some z /\ p_parent z = if bool_decide (c ∈ kids proc) then k else p_parent x)
    by (intros c x Ex; pose proof (adopted_parent c) as Hc; now rewrite Ex in Hc).
  assert (Hb : forall c z, m2 !! c = Some z -> exists x, m !! c = Some x /\ p_parent z = if bool_decide (c ∈ kids proc) then k else p_parent x).
  { intros c z Ez. pose proof (adopted_parent c) as Hc. destruct (m !! c) as [x|]; [|congruence]. destruct Hc as (z' & Ez' & Hz). exists x. split; congruence. }
  assert (Hrev : forall d, d ∈ rev (kids proc) <-> d ∈ kids proc) by (intros d; now rewrite rev_reverse, elem_of_reverse).
  constructor.
  - split; [|exact Hk0]. destruct (Hf k n En) as (z & Ez & _). eauto.
  - exact adopted_heads.
  - intros p. unfold adopted, upd. destruct (p =? k); [|destruct (p =? proc); [constructor|apply T]]. apply list.NoDup_app.
    split; [rewrite rev_reverse, reverse_Permutation; apply T|]. split; [|apply T]. intros d Hd%Hrev Hd'. apply Hpk. eapply kids_sep; eauto.
  - intros p c. unfold adopted, upd. destruct (Z.eqb_spec p k) as [->|Hp].
    + intros Hc. split; [destruct (Hf k n En) as (z & Ez & _); eauto|]. rewrite elem_of_app, Hrev in Hc.
      assert (Hx : exists x, m !! c = Some x /\ (c ∈ kids proc \/ p_parent x = k) /\ c <> k).
      { destruct Hc as [Hc|Hc]; destruct (tr_parent _ _ _ T _ c Hc) as (_ & x & Ex & Hx & Hck); eauto. }
      destruct Hx as (x & Ex & Hx & Hck). destruct (Hf c x Ex) as (z & Ez & Hz). exists z. split; [exact Ez|]. split; [|exact Hck].
      case_bool_decide; [exact Hz|]. destruct Hx; [tauto|congruence].
    + destruct (Z.eqb_spec p proc) as [->|Hpq]; [intros Hc; inversion Hc|]. intros Hc. destruct (tr_parent _ _ _ T p c Hc) as ([xp Ep] & x & Ex & Hx & Hck).
      split; [destruct (Hf p xp Ep) as (z & Ez & _); eauto|]. destruct (Hf c x Ex) as (z & Ez & Hz). exists z. split; [exact Ez|]. split; [|exact Hck].
      rewrite bool_decide_eq_false_2 in Hz; [congruence|]. intros Hin. apply Hpq. eapply kids_sep; eauto.
  - intros c z Ez Hc. destruct (Hb c z Ez) as (x & Ex & Hz). pose proof (tr_child _ _ _ T c x Ex Hc) as Hin. unfold adopted, upd. rewrite Hz.
    case_bool_decide as Hcp; [rewrite Z.eqb_refl, elem_of_app, Hrev; now left|].
    destruct (Z.eqb_spec (p_parent x) k) as [E'|]; [rewrite elem_of_app; right; now rewrite <- E'|].
    destruct (Z.eqb_spec (p_parent x) proc) as [E'|]; [|exact Hin]. destruct Hcp. now rewrite <- E'.
  - destruct (tr_depth _ _ _ T) as [d Hd]. exists d. intros c z Ez Hc. destruct (Hb c z Ez) as (x & Ex & ->). specialize (Hd c x Ex Hc).
    case_bool_decide; lia.
Qed.

End Reparent.
