(* ===== verification/ProcessTheorems.v ===== *)
(** * Theorems on processes

    [world_ok] joins the invariant of the threads, the tree of processes and the
    ownership of process objects and address spaces; [process_create],
    [process_exit] and [process_destroy] keep it. *)

From S2P Require Import Prelude Interfaces Kfs Vfs Thread ThreadProofs ThreadTheorems Process ProcessProofs.

(** ** The invariant *)
Section Processes.
Context {V A : Type} `{ObjectHeapLaws A} `{!AddressSpaces A} `{!AddressSpaceLaws A}.
Context (kernel_process : Z) (tty0 : V).
Implicit Types s : tasks V A.

Record world_ok s (l : list Z) (kids : Z -> list Z) : Prop := {
  w_tasks : tasks_ok s l;
  w_static : oh_static A kernel_process;
  w_tree : tree_ok kernel_process (procs s) kids;
  w_held p : is_Some (procs s !! p) -> p <> kernel_process -> oh_held (heap s) p;
  w_apart p : is_Some (procs s !! p) -> p ∉ ring_objs (threads s) l;
  w_space p x : procs s !! p = Some x -> p <> kernel_process -> as_live (heap s) (p_pml4 x);
  w_spaces p q x y : procs s !! p = Some x -> procs s !! q = Some y -> p <> kernel_process -> q <> kernel_process ->
    p_pml4 x = p_pml4 y -> p = q;
  w_waiter p x : procs s !! p = Some x -> p_state x <> PROCESS_ZOMBIE -> p_waiter x = 0 \/ p_waiter x ∈ l;
  w_zombie p x : procs s !! p = Some x -> p_state x = PROCESS_ZOMBIE -> kids p = [];
  w_kernel x : procs s !! kernel_process = Some x -> p_state x <> PROCESS_ZOMBIE
}.

Lemma world_procs s l kids m' kids' : world_ok s l kids -> tree_ok kernel_process m' kids' ->
  (forall p, match procs s !! p with Some x => exists x', m' !! p = Some x' /\ p_pml4 x' = p_pml4 x | None => m' !! p = None end) ->
  (forall p x, m' !! p = Some x -> p_state x <> PROCESS_ZOMBIE -> p_waiter x = 0 \/ p_waiter x ∈ l) ->
  (forall p x, m' !! p = Some x -> p_state x = PROCESS_ZOMBIE -> kids' p = [] /\ p <> kernel_process) ->
  world_ok (with_procs s m') l kids'.
Proof.
  intros W T Hd Hw Hz.
  assert (Hb : forall p x', m' !! p = Some x' -> exists x, procs s !! p = Some x /\ p_pml4 x' = p_pml4 x).
  { intros p x' E. specialize (Hd p). destruct (procs s !! p) as [x|]; [|congruence]. destruct Hd as (z & Ez & Hz'). exists x. split; congruence. }
  constructor; cbn [with_procs procs threads heap]; auto.
  - destruct (w_tasks _ _ _ W). constructor; auto. intros p t Et Hst. cbn. destruct (ok_procs p t Et Hst) as [x Ex].
    specialize (Hd (t_process t)). rewrite Ex in Hd. destruct Hd as (x' & Ex' & _). eauto.
  - apply W.
  - intros p [x' Ex'] Hp. destruct (Hb p x' Ex') as (x & Ex & _). apply (w_held _ _ _ W); eauto.
  - intros p [x' Ex']. destruct (Hb p x' Ex') as (x & Ex & _). apply (w_apart _ _ _ W); eauto.
  - intros p x' Ex' Hp. destruct (Hb p x' Ex') as (x & Ex & ->). now apply (w_space _ _ _ W p).
  - intros p q x' y' Ex' Ey' Hp Hq. destruct (Hb p x' Ex') as (x & Ex & ->), (Hb q y' Ey') as (y & Ey & ->). now apply (w_spaces _ _ _ W).
  - intros p x Ex Hs. now apply (Hz p x).
  - intros x Ex Hs. now apply (Hz _ x Ex).
Qed.

Lemma world_threads s s' l kids : world_ok s l kids -> tasks_ok s' l -> s' = with_threads s (threads s') ->
  (forall p u, threads s !! p = Some u -> exists st, threads s' !! p = Some (set_state st u)) -> world_ok s' l kids.
Proof.
  intros W O E Ht. assert (Ho : ring_objs (threads s') l = ring_objs (threads s) l).
  { apply ring_objs_same; [|intros p; apply (ok_dom _ _ (w_tasks _ _ _ W))]. intros p u _ Eu. destruct (Ht p u Eu) as [st Est]. eauto. }
  assert (Ep : procs s' = procs s) by now rewrite E. assert (Eh : heap s' = heap s) by now rewrite E.
  destruct W. constructor; rewrite ?Ep, ?Eh; auto. now rewrite Ho.
Qed.

(** ** Exit *)

(** The state of a thread after the exit of [proc], [w] being the waiter of its
    parent. *)
Definition exit_state (proc w p : Z) (t : thread) : thread_state :=
  if t_process t =? proc then THREAD_DEAD
  else if (p =? w) && bool_decide (t_state t = THREAD_WAITING_CHILD) then THREAD_READY else t_state t.

(** The process tree when [proc] has become a zombie without children. *)
Lemma zombie_world s l kids proc y status :
  world_ok s l kids -> procs s !! proc = Some y -> proc <> kernel_process ->
  exists s1 z, (let* s := upd_proc s proc (fun p => set_pstate PROCESS_ZOMBIE (set_exit_status status p)) in
                process_reparent_children proc kernel_process s) = Ok s1 /\
    world_ok s1 l (adopted kids kernel_process proc) /\ s1 = with_procs s (procs s1) /\
    procs s1 !! proc = Some z /\ p_state z = PROCESS_ZOMBIE /\ p_exit_status z = status /\ p_parent z = p_parent y /\ p_pid z = p_pid y /\
    forall p x, procs s !! p = Some x -> p <> proc -> exists x', procs s1 !! p = Some x' /\ reparented kernel_process (kids proc) x x' p.
Proof.
  intros W Ey Hk. pose proof (w_tree _ _ _ W) as T. unfold upd_proc, get_proc. rewrite Ey. cbn [of_opt obind].
  set (y1 := set_pstate PROCESS_ZOMBIE (set_exit_status status y)). set (m1 := <[proc := y1]> (procs s)).
  assert (T1 : tree_ok kernel_process m1 kids) by (apply (tree_same _ (procs s)); [now apply (same_links_insert _ _ y)|exact T]).
  assert (Ey1 : m1 !! proc = Some y1) by apply lookup_insert_eq.
  pose proof (tree_nonzero _ _ _ _ _ T Ey) as Hp0.
  destruct (reparent_loop_ok _ _ _ _ _ T1 Ey1 Hk) as (m2 & E & Ad). pose proof (adopts_self _ _ _ _ _ T1 Ey1 Hk _ Ad) as Es.
  unfold process_reparent_children, upd_proc, get_proc. cbn [with_procs procs]. fold m1. rewrite (proj2 (Z.eqb_neq _ _) Hp0), (proj2 (Z.eqb_neq _ _) (proj2 (tr_kernel _ _ _ T))).
  cbn [orb]. rewrite Ey1. cbn [of_opt obind]. rewrite E. cbn [obind with_procs procs]. rewrite Es. cbn [of_opt obind].
  set (m3 := <[proc := set_children 0 y1]> m2). exists (with_procs s m3), (set_children 0 y1). split; [reflexivity|]. cbn [with_procs procs].
  assert (Hd : forall p x, procs s !! p = Some x -> p <> proc -> exists x', m3 !! p = Some x' /\ reparented kernel_process (kids proc) x x' p).
  { intros p x Ex Hp. pose proof (adopts_data _ _ _ _ T1 _ Ad p) as Hall. unfold m1 in Hall. rewrite lookup_insert_ne, Ex in Hall by congruence.
    unfold m3. rewrite lookup_insert_ne by congruence. exact Hall. }
  assert (Hn : forall p, procs s !! p = None -> m3 !! p = None).
  { intros p Ep. assert (proc <> p) by congruence. pose proof (adopts_data _ _ _ _ T1 _ Ad p) as Hall. unfold m1 in Hall.
    rewrite lookup_insert_ne, Ep in Hall by assumption. unfold m3. now rewrite lookup_insert_ne by assumption. }
  assert (Hb : forall p x', m3 !! p = Some x' -> p = proc /\ x' = set_children 0 y1 \/ p <> proc /\ exists x, procs s !! p = Some x /\ same_data x x').
  { intros p x' Ex'. destruct (decide (p = proc)) as [->|Hp]; [left; unfold m3 in Ex'; rewrite lookup_insert_eq in Ex'; split; congruence|].
    right. split; [exact Hp|]. destruct (procs s !! p) as [x|] eqn:Ex; [|rewrite Hn in Ex' by exact Ex; discriminate].
    destruct (Hd p x Ex Hp) as (x2 & Ex2 & Hs & _). exists x. split; [reflexivity|]. congruence. }
  split; [|split; [reflexivity|split; [apply lookup_insert_eq|auto]]].
  apply (world_procs s l kids m3); [exact W|exact (adopted_tree _ _ _ _ _ T1 Ey1 Hk _ Ad)|..].
  - intros p. destruct (procs s !! p) as [x|] eqn:Ex; [|now apply Hn]. destruct (decide (p = proc)) as [->|Hp].
    + exists (set_children 0 y1). split; [apply lookup_insert_eq|]. cbn. congruence.
    + destruct (Hd p x Ex Hp) as (x' & Ex' & (a & b & c & ->) & _). eauto.
  - intros p x' Ex' Hst. destruct (Hb p x' Ex') as [[-> ->]|(Hp & x & Ex & a & b & c & ->)]; [now destruct Hst|]. exact (w_waiter _ _ _ W p x Ex Hst).
  - intros p x' Ex' Hst. unfold adopted, upd. destruct (Z.eqb_spec p kernel_process) as [->|Hpk].
    + exfalso. destruct (Hb _ _ Ex') as [[? _]|(Hp & x & Ex & a & b & c & ->)]; [congruence|]. destruct (w_kernel _ _ _ W x Ex). exact Hst.
    + split; [|exact Hpk]. destruct (Z.eqb_spec p proc) as [->|Hp]; [reflexivity|]. destruct (Hb p x' Ex') as [[? _]|(_ & x & Ex & a & b & c & ->)]; [congruence|].
      now apply (w_zombie _ _ _ W p x).
Qed.

(** Waking the thread that waits for a child of [par]. *)
Lemma wake_parent s l kids par x :
  world_ok s l kids -> procs s !! par = Some x -> p_state x <> PROCESS_ZOMBIE ->
  exists s', (if p_waiter x =? 0 then Ok s
              else let* s := thread_wake_waiter (p_waiter x) s in upd_proc s par (set_waiter 0)) = Ok s' /\
    world_ok s' l kids /\ s' = with_procs (with_threads s (threads s')) (procs s') /\
    procs s' = <[par := set_waiter 0 x]> (procs s) /\
    forall p u, threads s !! p = Some u -> threads s' !! p =
      Some (set_state (if (p =? p_waiter x) && bool_decide (t_state u = THREAD_WAITING_CHILD) then THREAD_READY else t_state u) u).
Proof.
  intros W Ex Hst. pose proof (w_tree _ _ _ W) as T. destruct (Z.eqb_spec (p_waiter x) 0) as [E0|Hw].
  - exists s. assert (Eid : procs s = <[par := set_waiter 0 x]> (procs s)) by (rewrite insert_id; [reflexivity|rewrite Ex, <- E0; now destruct x]).
    split; [reflexivity|]. split; [exact W|]. split; [now destruct s|]. split; [exact Eid|]. intros p u Eu.
    destruct (Z.eqb_spec p (p_waiter x)) as [->|]; [|cbn; now rewrite set_state_id].
    rewrite E0 in Eu. exfalso. assert (Hl : 0 ∈ l) by (apply (ok_dom _ _ (w_tasks _ _ _ W)); eauto). now apply (ok_nonnull _ _ _ (w_tasks _ _ _ W)) in Hl.
  - destruct (wake_spec s l (p_waiter x) (w_tasks _ _ _ W) (w_waiter _ _ _ W _ _ Ex Hst)) as (s1 & -> & O1 & E1 & Ht). cbn [obind].
    assert (W1 : world_ok s1 l kids) by (apply (world_threads s); [exact W|exact O1|exact E1|]; intros p u Eu; eauto).
    assert (Ep : procs s1 = procs s) by now rewrite E1. unfold upd_proc, get_proc. rewrite Ep, Ex. cbn [of_opt obind].
    eexists. split; [reflexivity|]. split; [|split; [now rewrite E1|split; [reflexivity|exact Ht]]].
    apply (world_procs _ _ kids); [exact W1|apply (tree_same _ (procs s)); [now apply (same_links_insert _ _ x)|exact T]|rewrite ?Ep..].
    + intros p. destruct (decide (par = p)) as [<-|Hp]; [rewrite Ex, lookup_insert_eq; eauto|]. rewrite lookup_insert_ne by exact Hp.
      destruct (procs s !! p); eauto.
    + intros p u Eu Hu. destruct (decide (par = p)) as [<-|Hp]; [rewrite lookup_insert_eq in Eu; injection Eu as <-; now left|].
      rewrite lookup_insert_ne in Eu by exact Hp. now apply (w_waiter _ _ _ W p).
    + intros p u Eu Hu. destruct (decide (par = p)) as [<-|Hp]; [rewrite lookup_insert_eq in Eu; injection Eu as <-; now destruct Hst|].
      rewrite lookup_insert_ne in Eu by exact Hp. split; [now apply (w_zombie _ _ _ W p u)|]. intros ->. now apply (w_kernel _ _ _ W u).
Qed.

Record exited s s' l kids (proc status : Z) (y x : process) : Prop := {
  ex_world : world_ok s' l (adopted kids kernel_process proc);
  ex_zombie : exists z, procs s' !! proc = Some z /\ p_state z = PROCESS_ZOMBIE /\ p_exit_status z = status /\ p_parent z = p_parent y /\ p_pid z = p_pid y;
  ex_parent : exists x', procs s' !! p_parent y = Some x' /\ p_waiter x' = 0 /\ p_state x' = p_state x;
  ex_threads p t : threads s !! p = Some t -> threads s' !! p = Some (set_state (exit_state proc (p_waiter x) p t) t);
  ex_rest : s' = with_procs (with_threads s (threads s')) (procs s')
}.

Lemma exit_spec s l kids proc y status :
  world_ok s l kids -> procs s !! proc = Some y -> proc <> kernel_process ->
  exists s' x, procs s !! p_parent y = Some x /\ process_exit kernel_process proc status s = Ok s' /\ exited s s' l kids proc status y x.
Proof.
  intros W Ey Hk. pose proof (w_tree _ _ _ W) as T. pose proof (tree_nonzero _ _ _ _ _ T Ey) as Hp0.
  pose proof (tr_child _ _ _ T proc y Ey Hk) as Hin. destruct (tr_parent _ _ _ T _ _ Hin) as [[x Ex] _].
  pose proof (tr_irrefl _ _ _ _ _ T Ey Hk) as Hirr.
  assert (Hst : p_state x <> PROCESS_ZOMBIE) by (intros Hz; rewrite (w_zombie _ _ _ W _ _ Ex Hz) in Hin; inversion Hin).
  destruct (zombie_world s l kids proc y status W Ey Hk) as (s1 & z & E1 & W1 & Es1 & Ez & Hz1 & Hz2 & Hz3 & Hz4 & Hd).
  destruct (Hd _ _ Ex Hirr) as (x1 & Ex1 & (a & b & c & Hx1) & _).
  destruct (wake_parent s1 l _ (p_parent y) x1 W1 Ex1 ltac:(rewrite Hx1; exact Hst)) as (s2 & E2 & W2 & Es2 & Ep2 & Ht2).
  destruct (terminate_spec s2 l proc (w_tasks _ _ _ W2)) as (s3 & E3 & O3 & Es3 & Ht3).
  assert (Ht : forall p t, threads s !! p = Some t -> threads s3 !! p = Some (set_state (exit_state proc (p_waiter x) p t) t)).
  { intros p t Et. rewrite Ht3, (proj2 (Z.eqb_neq _ _) Hp0), (Ht2 p t); [|now rewrite Es1]. cbn. unfold kill, exit_state. cbn.
    rewrite Hx1. cbn. destruct (t_process t =? proc); reflexivity. }
  exists s3, x. split; [exact Ex|]. split.
  - unfold process_exit. rewrite (proj2 (Z.eqb_neq _ _) Hp0), (proj2 (Z.eqb_neq _ _) Hk). cbn [orb].
    destruct (upd_proc s proc _) as [s0|] eqn:E0; [|discriminate E1]. rewrite obind_Ok in E1 |- *. rewrite E1, obind_Ok.
    unfold get_proc. rewrite Ez. cbn [of_opt obind]. rewrite Hz3, (proj2 (Z.eqb_neq _ _) (tree_nonzero _ _ _ _ _ T Ex)), Ex1. cbn [of_opt obind].
    rewrite E2. exact E3.
  - assert (Ep3 : procs s3 = <[p_parent y := set_waiter 0 x1]> (procs s1)) by (rewrite Es3; exact Ep2). constructor.
    + apply (world_threads s2); [exact W2|exact O3|exact Es3|]. intros p u Eu. rewrite Ht3, (proj2 (Z.eqb_neq _ _) Hp0), Eu. cbn. unfold kill.
      destruct (t_process u =? proc); [eauto|]. exists (t_state u). now rewrite set_state_id.
    + exists z. rewrite Ep3, lookup_insert_ne by exact Hirr. auto.
    + exists (set_waiter 0 x1). rewrite Ep3, lookup_insert_eq, Hx1. auto.
    + exact Ht.
    + rewrite Es3, Es2, Es1. reflexivity.
Qed.

(** ** Destruction *)
Record destroyed s s' l kids (proc : Z) (y : process) : Prop := {
  de_world : exists l1 l2, kids (p_parent y) = l1 ++ proc :: l2 /\ world_ok s' l (upd kids (p_parent y) (l1 ++ l2));
  de_gone : procs s' !! proc = None /\ ~ oh_held (heap s') proc /\ ~ as_live (heap s') (p_pml4 y);
  de_threads : threads s' = threads s;
  de_others p x : p <> proc -> procs s !! p = Some x -> exists x', procs s' !! p = Some x' /\ same_data x x' /\ p_parent x' = p_parent x
}.

Lemma relisted_data m m' p x' : relisted m m' -> m' !! p = Some x' -> exists x, m !! p = Some x /\ same_data x x' /\ p_parent x' = p_parent x.
Proof.
  intros Hr E. specialize (Hr p). destruct (m !! p) as [x|]; [|congruence]. destruct Hr as (c & n & E'). rewrite E' in E. injection E as <-.
  exists x. split; [reflexivity|]. split; [|reflexivity]. exists (p_parent x), c, n. now destruct x.
Qed.

Lemma destroy_spec s l kids proc y :
  world_ok s l kids -> procs s !! proc = Some y -> proc <> kernel_process -> p_state y = PROCESS_ZOMBIE ->
  (forall p t, threads s !! p = Some t -> t_process t = proc -> t_state t = THREAD_DEAD) ->
  exists s', process_destroy kernel_process proc s = Ok s' /\ destroyed s s' l kids proc y.
Proof.
  intros W Ey Hk Hz Hdead. pose proof (w_tree _ _ _ W) as T. pose proof (w_tasks _ _ _ W) as O. pose proof (tree_nonzero _ _ _ _ _ T Ey) as Hp0.
  pose proof (tr_child _ _ _ T proc y Ey Hk) as Hin. destruct (tr_parent _ _ _ T _ _ Hin) as [[x Ex] _].
  destruct (unlink_child_spec _ _ _ _ _ T Ey Hk) as (m' & l1 & l2 & E1 & El & Ep & Hr & Hs).
  pose proof (tree_remove _ _ _ _ _ _ _ _ T Ey Hk (w_zombie _ _ _ W _ _ Ey Hz) El Hr Hs) as T'.
  destruct (as_destroy_law (heap s) (p_pml4 y) (ok_heap _ _ O) (w_space _ _ _ W _ _ Ey Hk)) as (h1 & E2 & Hok1 & Hh1 & Hl1).
  assert (Hheld : oh_held h1 proc) by (apply Hh1, (w_held _ _ _ W); eauto).
  destruct (oh_free_law h1 proc Hok1 Hheld) as (h2 & E3 & Hok2 & Hh2). pose proof (fun q => as_free_law h1 proc h2 q E3) as Hl2.
  exists (with_procs (with_heap (with_procs s m') h2) (delete proc m')). split.
  { unfold process_destroy. rewrite (proj2 (Z.eqb_neq _ _) Hp0), (proj2 (Z.eqb_neq _ _) Hk). cbn [orb]. unfold get_proc. rewrite Ey. cbn [of_opt obind].
    rewrite (proj2 (Z.eqb_neq _ _) (tree_nonzero _ _ _ _ _ T Ex)), E1, obind_Ok. cbn [with_procs procs]. rewrite Ep. cbn [of_opt obind with_procs heap].
    now rewrite E2, obind_Ok, E3. }
  assert (Hb : forall p x', delete proc m' !! p = Some x' -> p <> proc /\ exists x, procs s !! p = Some x /\ same_data x x' /\ p_parent x' = p_parent x).
  { intros p x' Ex'. destruct (decide (p = proc)) as [->|Hp]; [now rewrite lookup_delete_eq in Ex'|]. rewrite lookup_delete_ne in Ex' by congruence.
    split; [exact Hp|]. exact (relisted_data _ _ _ _ Hr Ex'). }
  assert (Hf : forall p x, p <> proc -> procs s !! p = Some x -> exists x', delete proc m' !! p = Some x').
  { intros p u Hp Eu. rewrite lookup_delete_ne by congruence. specialize (Hr p). rewrite Eu in Hr. destruct Hr as (c & n & E'). eauto. }
  constructor; cbn [with_procs with_heap procs threads heap]; [|split; [apply lookup_delete_eq|]|reflexivity|].
  - exists l1, l2. split; [exact El|]. constructor; cbn [with_procs with_heap procs threads heap].
    + destruct O. constructor; auto; cbn [with_procs with_heap procs threads heap current stack].
      * intros p Hp. apply Hh2. split; [|now apply Hh1, ok_held]. intros ->. apply (w_apart _ _ _ W proc); eauto.
      * intros p t Et Hst. destruct (ok_procs p t Et Hst) as [u Eu]. destruct (Hf (t_process t) u) as [v Ev]; [|exact Eu|eauto].
        intros E. now apply Hst, (Hdead p t).
    + apply W.
    + exact T'.
    + intros p [x' Ex'] Hp. destruct (Hb p x' Ex') as (Hne & u & Eu & _). apply Hh2. split; [exact Hne|]. apply Hh1, (w_held _ _ _ W); eauto.
    + intros p [x' Ex']. destruct (Hb p x' Ex') as (Hne & u & Eu & _). apply (w_apart _ _ _ W). eauto.
    + intros p x' Ex' Hp. destruct (Hb p x' Ex') as (Hne & u & Eu & (a & b & c & ->) & _). cbn. apply Hl2, Hl1. split; [|now apply (w_space _ _ _ W p)].
      intros E. apply Hne. now apply (w_spaces _ _ _ W p proc u y).
    + intros p q x' y' Ex' Ey' Hp Hq. destruct (Hb p x' Ex') as (_ & u & Eu & (a & b & c & ->) & _), (Hb q y' Ey') as (_ & v & Ev & (a' & b' & c' & ->) & _).
      now apply (w_spaces _ _ _ W p q u v).
    + intros p x' Ex' Hst. destruct (Hb p x' Ex') as (_ & u & Eu & (a & b & c & ->) & _). exact (w_waiter _ _ _ W p u Eu Hst).
    + intros p x' Ex' Hst. destruct (Hb p x' Ex') as (Hne & u & Eu & (a & b & c & ->) & _). pose proof (w_zombie _ _ _ W p u Eu Hst) as Hnil.
      unfold upd. destruct (Z.eqb_spec p (p_parent y)) as [->|]; [|exact Hnil]. rewrite Hnil in Hin. inversion Hin.
    + intros x' Ex'. destruct (Hb _ x' Ex') as (_ & u & Eu & (a & b & c & ->) & _). exact (w_kernel _ _ _ W u Eu).
  - split; [rewrite Hh2; tauto|]. rewrite Hl2, Hl1. tauto.
  - intros p u Hp Eu. destruct (Hf p u Hp Eu) as [x' Ex']. destruct (Hb p x' Ex') as (_ & v & Ev & Hv). exists x'. split; [exact Ex'|]. congruence.
Qed.

(** ** Creation *)

(** An allocator state with more objects and the same address spaces. *)
Definition grown (h h' : A) : Prop :=
  oh_ok h' /\ (forall q, oh_held h q -> oh_held h' q) /\ forall q, as_live h' q <-> as_live h q.

Lemma grown_trans h1 h2 h3 : grown h1 h2 -> grown h2 h3 -> grown h1 h3.
Proof. intros (_ & Ha & Hb) (Hc & Hd & He). split; [exact Hc|]. split; [auto|]. intros q. now rewrite He, Hb. Qed.

Lemma alloc_spec n h : oh_ok h -> 0 < n <= 2 ^ 44 ->
  exists p h', oh_alloc n h = Ok (p, h') /\ grown h h' /\ (p <> 0 -> ~ oh_held h p /\ oh_held h' p /\ ~ oh_static A p).
Proof.
  intros Hok Hn. destruct (oh_alloc_law h n Hok Hn) as (p & h' & E & Hok' & Hc). exists p, h'. split; [exact E|].
  pose proof (fun q => as_alloc_law h n p h' q E) as Hl. destruct Hc as [[-> Hq]|(Hp & _ & Hfree & Hq)].
  - split; [|tauto]. split; [exact Hok'|]. split; [intros q; apply Hq|exact Hl].
  - split; [split; [exact Hok'|]; split; [intros q Hh; apply Hq; now right|exact Hl]|]. intros _.
    assert (Hh : oh_held h' p) by (apply Hq; now left). split; [exact Hfree|]. split; [exact Hh|]. now apply (oh_held_nonnull h').
Qed.

(** The [struct file] at [f] for terminal 0, if there was memory for it. *)
Definition tty_file (f : Z) (m : gmap Z (file V)) : gmap Z (file V) := if f =? 0 then m else <[f := mkFile tty0 0 0]> m.

Lemma open_tty_run s proc x fd f h :
  oh_alloc sizeof_file (heap s) = Ok (f, h) -> procs s !! proc = Some x -> znth (p_fd_table x) fd = Some 0 ->
  open_tty tty0 proc fd s =
    Ok (with_procs (with_files (with_heap s h) (tty_file f (files s))) (<[proc := set_fds (zset (p_fd_table x) fd f) x]> (procs s))).
Proof.
  intros E Ex Hz. unfold open_tty, tty_file. rewrite E. cbn [obind]. destruct (Z.eqb_spec f 0) as [->|Hf0].
  - assert (Ez : zset (p_fd_table x) fd 0 = p_fd_table x).
    { apply znth_ext; rewrite zlen_zset; [reflexivity|]. intros j Hj. destruct (Z.eq_dec fd j) as [->|]; [now rewrite znth_zset_eq|now rewrite znth_zset_ne]. }
    rewrite Ez, insert_id; [reflexivity|]. rewrite Ex. now destruct x.
  - unfold upd_proc, get_proc. cbn [with_files with_heap procs]. rewrite Ex. reflexivity.
Qed.

(** The answers to the requests of [process_create] behind the one for the process:
    three files, 0 where memory was refused, and the address space, 0 if there is none. *)
Definition creation_requests (h0 : A) (f0 f1 f2 root : Z) (h4 : A) : Prop := exists h1 h2 h3,
  oh_alloc sizeof_file h0 = Ok (f0, h1) /\ oh_alloc sizeof_file h1 = Ok (f1, h2) /\ oh_alloc sizeof_file h2 = Ok (f2, h3) /\
  as_create h3 = Ok (root, h4).

(** The process that a thread of [par], whose record is [x], creates. *)
Definition new_process s (junk par : Z) (x : process) (f0 f1 f2 root : Z) : process :=
  mkProcess (next_pid s) PROCESS_RUNNING root (f0 :: f1 :: f2 :: replicate 29 0) par 0 (p_children_head x) 0 0 junk junk.

(** [s] with the next process id used up, the new files, and [m] and [h]. *)
Definition after_creation s (f0 f1 f2 : Z) (m : gmap Z process) (h : A) : tasks V A :=
  with_next_pid (with_procs (with_files (with_heap s h) (tty_file f2 (tty_file f1 (tty_file f0 (files s))))) m) (s32 (next_pid s + 1)).

Lemma fresh_process s l kids r : world_ok s l kids -> ~ oh_held (heap s) r -> ~ oh_static A r -> r <> kernel_process /\ procs s !! r = None.
Proof.
  intros W Hh Hs. assert (Hk : r <> kernel_process) by (intros ->; apply Hs, W). split; [exact Hk|].
  destruct (procs s !! r) eqn:E; [|reflexivity]. destruct Hh. apply (w_held _ _ _ W); eauto.
Qed.

Lemma created_world s s' l kids r par x y :
  world_ok s l kids -> procs s !! par = Some x -> p_state x <> PROCESS_ZOMBIE ->
  oh_ok (heap s') -> (forall q, oh_held (heap s) q -> oh_held (heap s') q) -> (forall q, as_live (heap s') q <-> q = p_pml4 y \/ as_live (heap s) q) ->
  ~ as_live (heap s) (p_pml4 y) -> oh_held (heap s') r -> ~ oh_held (heap s) r -> ~ oh_static A r ->
  p_state y = PROCESS_RUNNING -> p_parent y = par -> p_children_head y = 0 -> p_next_sibling y = p_children_head x -> p_waiter y = 0 ->
  (forall q, procs s' !! q = if q =? r then Some y else if q =? par then Some (set_children r x) else procs s !! q) ->
  s' = with_next_pid (with_procs (with_files (with_heap s (heap s')) (files s')) (procs s')) (next_pid s') ->
  world_ok s' l (upd (upd kids r []) par (r :: kids par)).
Proof.
  intros W Ex Hx Hok Hh Hl Hlr Hr Hnr Hsr Hy1 Hy2 Hy3 Hy4 Hy5 Hm E. destruct (fresh_process _ _ _ _ W Hnr Hsr) as [Hrk Er].
  assert (Hr0 : r <> 0) by (apply (oh_held_nonnull (heap s') r); assumption). assert (Hne : r <> par) by congruence.
  assert (Et : threads s' = threads s) by now rewrite E.
  assert (Hb : forall p z, procs s' !! p = Some z -> p = r /\ z = y \/ p <> r /\ exists v, procs s !! p = Some v /\ p_pml4 z = p_pml4 v /\
     p_waiter z = p_waiter v /\ p_state z = p_state v).
  { intros p z Ez. rewrite Hm in Ez. destruct (Z.eqb_spec p r) as [->|Hp]; [left; split; congruence|]. right. split; [exact Hp|].
    destruct (Z.eqb_spec p par) as [->|]; [injection Ez as <-; eauto 6|eauto 6]. }
  pose proof (w_tasks _ _ _ W) as O. constructor; rewrite ?Et; auto; try apply W.
  - assert (Hpr : forall p, is_Some (procs s !! p) -> is_Some (procs s' !! p)).
    { intros p [z Ez]. rewrite Hm. destruct (p =? r); [eauto|]. destruct (p =? par); eauto. }
    clear - O Hpr Hok Hh E. destruct O. rewrite E in Hok, Hh, Hpr. rewrite E. constructor; cbn in *; eauto.
  - exact (tree_add _ _ _ _ _ _ _ _ (w_tree _ _ _ W) Er Hr0 Ex Hy2 Hy3 Hy4 Hm).
  - intros p [z Ez] Hp. destruct (Hb p z Ez) as [[-> ->]|(Hne' & v & Ev & _)]; [exact Hr|]. apply Hh, (w_held _ _ _ W); eauto.
  - intros p [z Ez]. destruct (Hb p z Ez) as [[-> ->]|(Hne' & v & Ev & _)]; [|apply (w_apart _ _ _ W); eauto]. intros Hin. now apply Hnr, (ok_held _ _ O).
  - intros p z Ez Hp. apply Hl. destruct (Hb p z Ez) as [[-> ->]|(Hne' & v & Ev & -> & _)]; [now left|]. right. now apply (w_space _ _ _ W p).
  - intros p q z w Ez Ew Hp Hq Heq.
    destruct (Hb p z Ez) as [[-> ->]|(Hp' & v & Ev & Hv & _)], (Hb q w Ew) as [[-> ->]|(Hq' & v' & Ev' & Hv' & _)]; [reflexivity|..].
    + destruct Hlr. rewrite Heq, Hv'. now apply (w_space _ _ _ W q).
    + destruct Hlr. rewrite <- Heq, Hv. now apply (w_space _ _ _ W p).
    + apply (w_spaces _ _ _ W p q v v'); congruence.
  - intros p z Ez Hst. destruct (Hb p z Ez) as [[-> ->]|(Hne' & v & Ev & _ & Hv1 & Hv2)]; [now left|]. rewrite Hv1. apply (w_waiter _ _ _ W p v); congruence.
  - intros p z Ez Hst. destruct (Hb p z Ez) as [[-> ->]|(Hne' & v & Ev & _ & Hv1 & Hv2)]; [congruence|]. unfold upd.
    destruct (Z.eqb_spec p par) as [->|]; [congruence|]. rewrite (proj2 (Z.eqb_neq _ _) Hne'). apply (w_zombie _ _ _ W p v); congruence.
  - intros z Ez Hst. destruct (Hb _ z Ez) as [[? _]|(_ & v & Ev & _ & Hv1 & Hv2)]; [congruence|]. apply (w_kernel _ _ _ W v Ev). congruence.
Qed.

Lemma tasks_ext s s' : threads s = threads s' -> procs s = procs s' -> files s = files s' -> stack s = stack s' -> current s = current s' ->
  head s = head s' -> next_tid s = next_tid s' -> next_pid s = next_pid s' -> scheduler_ticks s = scheduler_ticks s' ->
  in_scheduler s = in_scheduler s' -> preemption_enabled s = preemption_enabled s' -> wait_queues s = wait_queues s' ->
  rsp0 s = rsp0 s' -> regs s = regs s' -> heap s = heap s' -> s = s'.
Proof. destruct s, s'. cbn. intros. now subst. Qed.

Lemma three_files h0 : oh_ok h0 -> exists f0 f1 f2 h1 h2 h3, grown h0 h3 /\
  oh_alloc sizeof_file h0 = Ok (f0, h1) /\ oh_alloc sizeof_file h1 = Ok (f1, h2) /\ oh_alloc sizeof_file h2 = Ok (f2, h3).
Proof.
  assert (Hs : 0 < sizeof_file <= 2 ^ 44) by (unfold sizeof_file; lia). intros Hok.
  destruct (alloc_spec _ h0 Hok Hs) as (f0 & h1 & E1 & G1 & _). destruct (alloc_spec _ h1 (proj1 G1) Hs) as (f1 & h2 & E2 & G2 & _).
  destruct (alloc_spec _ h2 (proj1 G2) Hs) as (f2 & h3 & E3 & G3 & _). exists f0, f1, f2, h1, h2, h3.
  split; [|auto]. eapply grown_trans; [exact G1|]. eapply grown_trans; eauto.
Qed.

(** [process_create] up to the address space: the new process [r] is the first child
    of its parent. *)
Lemma create_linked junk s l t x r h0 f0 f1 f2 h1 h2 h3 :
  tasks_ok s l -> threads s !! current s = Some t -> procs s !! t_process t = Some x -> r <> 0 -> procs s !! r = None ->
  oh_alloc sizeof_process (heap s) = Ok (r, h0) -> oh_alloc sizeof_file h0 = Ok (f0, h1) ->
  oh_alloc sizeof_file h1 = Ok (f1, h2) -> oh_alloc sizeof_file h2 = Ok (f2, h3) ->
  process_create kernel_process tty0 junk s =
    let* (root, h) := as_create h3 in
    let m := <[r := new_process s junk (t_process t) x f0 f1 f2 junk]> (<[t_process t := set_children r x]> (procs s)) in
    let s' := after_creation s f0 f1 f2 m h in
    if root =? 0 then let* h := oh_free r h in Ok (0, with_procs (with_heap s' h) (delete r m))
    else let* s' := upd_proc s' r (set_pml4 root) in Ok (r, s').
Proof.
  intros O Et Ex Hr0 Er Ea E0 E1 E2. assert (Hne : r <> t_process t) by congruence.
  unfold process_create. rewrite Ea. cbn [obind]. rewrite (proj2 (Z.eqb_neq _ _) Hr0). cbn zeta.
  erewrite open_tty_run by first [exact E0|apply lookup_insert_eq|reflexivity]. rewrite obind_Ok.
  erewrite open_tty_run by first [exact E1|apply lookup_insert_eq|reflexivity]. rewrite obind_Ok.
  erewrite open_tty_run by first [exact E2|apply lookup_insert_eq|reflexivity]. rewrite obind_Ok.
  unfold current_process, get_thread, upd_proc at 1 2 3 4, get_proc. cbn [with_procs with_files with_heap with_next_pid current threads procs heap].
  rewrite (proj2 (Z.eqb_neq _ _) (ok_nonnull _ _ _ O (ok_current _ _ O))), Et. cbn [of_opt obind].
  rewrite !insert_insert_eq, lookup_insert_eq. cbn [of_opt obind with_procs procs]. rewrite !lookup_insert_ne, Ex by exact Hne. cbn [of_opt obind].
  rewrite lookup_insert_eq. cbn [of_opt obind with_procs procs]. rewrite !lookup_insert_ne, Ex by exact Hne. cbn [of_opt obind with_procs procs].
  rewrite lookup_insert_ne, lookup_insert_eq by congruence. cbn [of_opt obind].
  match goal with |- context [as_create (heap ?S)] => set (s4 := S) end.
  assert (E4 : s4 = after_creation s f0 f1 f2
    (<[r := new_process s junk (t_process t) x f0 f1 f2 junk]> (<[t_process t := set_children r x]> (procs s))) h3).
  { apply tasks_ext; try reflexivity. unfold s4. cbn [after_creation with_next_pid with_procs procs].
    apply map_eq. intros q. destruct (decide (q = r)) as [->|Hq]; [now rewrite !lookup_insert_eq|].
    destruct (decide (q = t_process t)) as [->|Hq']; rewrite (lookup_insert_ne _ r), (lookup_insert_ne _ r) by congruence; [now rewrite !lookup_insert_eq|].
    now rewrite !lookup_insert_ne by congruence. }
  rewrite E4. reflexivity.
Qed.

(** What [process_create] does, by the answers of the heap and of the memory manager. *)
Definition creation_result s l kids (junk : Z) (t : thread) (x : process) (r : Z) (h0 : A) : Prop :=
  let par := t_process t in
  if r =? 0 then process_create kernel_process tty0 junk s = Ok (0, with_heap s h0) /\ world_ok (with_heap s h0) l kids
  else
    procs s !! r = None /\ ~ oh_held (heap s) r /\
    exists f0 f1 f2 root h4, creation_requests h0 f0 f1 f2 root h4 /\
      if root =? 0 then
        exists h5, oh_free r h4 = Ok h5 /\ ~ oh_held h5 r /\
          process_create kernel_process tty0 junk s = Ok (0, after_creation s f0 f1 f2 (<[par := set_children r x]> (procs s)) h5)
      else
        let s' := after_creation s f0 f1 f2
                    (<[r := new_process s junk par x f0 f1 f2 root]> (<[par := set_children r x]> (procs s))) h4 in
        process_create kernel_process tty0 junk s = Ok (r, s') /\ ~ as_live (heap s) root /\
        world_ok s' l (upd (upd kids r []) par (r :: kids par)).

Lemma refused_world s l kids h : world_ok s l kids -> grown (heap s) h -> world_ok (with_heap s h) l kids.
Proof.
  intros W (Hg1 & Hg2 & Hg3). pose proof (w_tasks _ _ _ W) as O. destruct W. constructor; auto; cbn [with_heap heap procs threads].
  - clear - O Hg1 Hg2. destruct O. constructor; cbn; auto.
  - intros p u Eu Hp. apply Hg3. now apply (w_space0 p).
Qed.

Lemma process_create_spec junk s l kids t x :
  world_ok s l kids -> threads s !! current s = Some t -> procs s !! t_process t = Some x -> p_state x <> PROCESS_ZOMBIE ->
  exists r h0, oh_alloc sizeof_process (heap s) = Ok (r, h0) /\ creation_result s l kids junk t x r h0.
Proof.
  intros W Et Ex Hx. pose proof (w_tasks _ _ _ W) as O.
  destruct (alloc_spec sizeof_process (heap s) (ok_heap _ _ O) ltac:(unfold sizeof_process; lia)) as (r & h0 & Ea & Hg & Hr).
  exists r, h0. split; [exact Ea|]. unfold creation_result. destruct (Z.eqb_spec r 0) as [->|Hr0].
  { unfold process_create. rewrite Ea. split; [reflexivity|now apply refused_world]. }
  destruct (Hr Hr0) as (Hnr & Hhr & Hsr). destruct (fresh_process _ _ _ _ W Hnr Hsr) as [Hrk Er]. split; [exact Er|]. split; [exact Hnr|].
  destruct (three_files h0 (proj1 Hg)) as (f0 & f1 & f2 & h1 & h2 & h3 & G3 & E0 & E1 & E2).
  pose proof (create_linked junk s l t x r h0 f0 f1 f2 h1 h2 h3 O Et Ex Hr0 Er Ea E0 E1 E2) as E.
  destruct (grown_trans _ _ _ Hg G3) as (K1 & K2 & K3). assert (Hh3 : oh_held h3 r) by now apply G3.
  destruct (as_create_law h3 K1) as (root & h4 & Eas & Hok4 & Hh4 & Hc4). rewrite E, Eas. cbn [obind]. clear E.
  exists f0, f1, f2, root, h4. split; [now exists h1, h2, h3|]. destruct Hc4 as [[-> _]|(Hroot & Hnl & Hl4)]; cbn [Z.eqb].
  - destruct (oh_free_law h4 r Hok4 ltac:(now apply Hh4)) as (h5 & Ef & Hok5 & Hh5). exists h5. rewrite Ef. cbn [obind].
    split; [reflexivity|]. split; [rewrite Hh5; tauto|]. rewrite delete_insert_eq, delete_id by (rewrite lookup_insert_ne by congruence; exact Er). reflexivity.
  - rewrite (proj2 (Z.eqb_neq _ _) Hroot). unfold upd_proc, get_proc. cbn [after_creation with_next_pid with_procs procs]. rewrite lookup_insert_eq. cbn [of_opt obind].
    rewrite insert_insert_eq. split; [reflexivity|]. split; [now rewrite <- K3|].
    apply (created_world s _ l kids r (t_process t) x (new_process s junk (t_process t) x f0 f1 f2 root)); auto; cbn.
    + intros q Hq. now apply Hh4, K2.
    + intros q. now rewrite Hl4, K3.
    + now rewrite <- K3.
    + now apply Hh4.
    + intros q. destruct (Z.eqb_spec q r) as [->|Hq]; [apply lookup_insert_eq|]. rewrite lookup_insert_ne by congruence.
      destruct (Z.eqb_spec q (t_process t)) as [->|]; [apply lookup_insert_eq|now rewrite lookup_insert_ne by congruence].
Qed.

(** The state before the first process is created. *)
Lemma init_world s junk s0 x :
  boot_ok kernel_process s -> thread_init kernel_process junk s = Ok s0 -> procs s = {[ kernel_process := x ]} ->
  oh_static A kernel_process -> kernel_process <> 0 -> p_children_head x = 0 -> p_waiter x = 0 -> p_state x = PROCESS_RUNNING ->
  exists l, world_ok s0 l (fun _ => []).
Proof.
  intros B E Ep Hst Hk0 Hc Hw Hs. destruct (init_sound kernel_process s junk s0 B E) as (l & O & _). exists l.
  assert (Ep0 : procs s0 = {[ kernel_process := x ]}).
  { unfold thread_init in E. destruct (oh_alloc _ _) as [[m h]|]; [|discriminate]. cbn [obind] in E. destruct (kassert _ _); [|discriminate].
    cbn [obind] in E. injection E as <-. exact Ep. }
  assert (Hb : forall p y, procs s0 !! p = Some y -> p = kernel_process /\ y = x).
  { intros p y Ey. rewrite Ep0 in Ey. apply lookup_singleton_Some in Ey as [-> ->]. auto. }
  constructor; auto.
  - constructor; rewrite ?Ep0.
    + split; [|exact Hk0]. exists x. apply lookup_singleton_eq.
    + intros p y [-> <-]%lookup_singleton_Some. exact Hc.
    + constructor.
    + intros p c Hin. inversion Hin.
    + intros c y [-> _]%lookup_singleton_Some. congruence.
    + exists (fun _ => 0%nat). intros c y [-> _]%lookup_singleton_Some. congruence.
  - intros p [y Ey] Hp. destruct (Hb p y Ey). congruence.
  - intros p [y Ey] Hin. destruct (Hb p y Ey) as [-> _]. apply (oh_held_nonnull (heap s0) kernel_process); [apply O|now apply (ok_held _ _ O)|exact Hst].
  - intros p y Ey Hp. destruct (Hb p y Ey). congruence.
  - intros p q y z Ey Ez Hp. destruct (Hb p y Ey). congruence.
  - intros p y Ey _. destruct (Hb p y Ey) as [_ ->]. now left.
  - intros y Ey. destruct (Hb _ y Ey) as [_ ->]. congruence.
Qed.

(** C13: [process_create] in a thread of a live process, by the answers of the heap and
    of the memory manager.  If the heap refuses the process object, the call returns 0
    and nothing but the heap changes.  Otherwise a process id is used up, and each of
    the descriptors 0 to 2 is open on terminal 0 if there was memory for its file and
    closed if not.  With an address space the call returns the new process: running,
    with that id, that address space (used by no other process), status 0, no children
    and nobody waiting, linked as the first child of the caller's process; nothing else
    changes and the invariant of threads and processes is kept.  Without an address
    space the call returns 0, the process object is freed, but the parent's list of
    children still starts with the freed object. *)
Theorem process_create_correct junk s l kids t x :
  world_ok s l kids -> threads s !! current s = Some t -> procs s !! t_process t = Some x -> p_state x <> PROCESS_ZOMBIE ->
  exists r h0, oh_alloc sizeof_process (heap s) = Ok (r, h0) /\ creation_result s l kids junk t x r h0.
Proof. apply process_create_spec. Qed.

(** C12: [process_exit] of a process other than the kernel's makes it a zombie with the
    given status, moves its children in front of the kernel's, marks every thread of
    it dead, makes the thread that waits for a child of the parent ready and clears
    the parent's waiter; the invariant of threads and processes is kept. *)
Theorem process_exit_correct s l kids proc y status :
  world_ok s l kids -> procs s !! proc = Some y -> proc <> kernel_process ->
  exists s' x, procs s !! p_parent y = Some x /\ process_exit kernel_process proc status s = Ok s' /\ exited s s' l kids proc status y x.
Proof. apply exit_spec. Qed.

(** [process_destroy] of a zombie whose threads are dead takes exactly this
    process off its parent's list, releases its object and its address space and
    leaves every other process and all threads alone; the invariant of threads and
    processes is kept. *)
Theorem process_destroy_correct s l kids proc y :
  world_ok s l kids -> procs s !! proc = Some y -> proc <> kernel_process -> p_state y = PROCESS_ZOMBIE ->
  (forall p t, threads s !! p = Some t -> t_process t = proc -> t_state t = THREAD_DEAD) ->
  exists s', process_destroy kernel_process proc s = Ok s' /\ destroyed s s' l kids proc y.
Proof. apply destroy_spec. Qed.

End Processes.

(** ** A concrete system *)

(** An object heap beside address spaces that are numbered. *)
Definition proc_heap : Type := obj_heap * obj_heap.

#[global] Instance proc_heap_ops : ObjectHeap proc_heap := {
  oh_alloc n a := let* (p, h) := oh_alloc n (fst a) in Ok (p, (h, snd a));
  oh_free p a := let* h := oh_free p (fst a) in Ok (h, snd a);
  oh_ok a := oh_ok (fst a) /\ oh_ok (snd a);
  oh_held a p := oh_held (fst a) p;
  oh_static p := oh_static obj_heap p
}.

#[global] Instance proc_heap_laws : ObjectHeapLaws proc_heap.
Proof.
  split.
  - intros [h g] p [Hok _] Hp. exact (oh_held_nonnull h p Hok Hp).
  - intros [h g] n [Hok Hg] Hn. destruct (oh_alloc_law h n Hok Hn) as (p & h' & E & Hok' & Hc). exists p, (h', g).
    split; [|split; [split; [exact Hok'|exact Hg]|exact Hc]]. change (oh_alloc n (h, g)) with (let* (p, h) := oh_alloc n h in Ok (p, (h, g))). now rewrite E.
  - intros [h g] p [Hok Hg] Hp. destruct (oh_free_law h p Hok Hp) as (h' & E & Hok' & Hc). exists (h', g).
    split; [|split; [split; [exact Hok'|exact Hg]|exact Hc]]. change (oh_free p (h, g)) with (let* h := oh_free p h in Ok (h, g)). now rewrite E.
Qed.

#[global] Instance proc_spaces : AddressSpaces proc_heap := {
  as_current _ := 8192;
  as_create a := let* (p, g) := oh_alloc 4096 (snd a) in Ok (p, (fst a, g));
  as_destroy p a := let* g := oh_free p (snd a) in Ok (fst a, g);
  as_live a p := oh_held (snd a) p
}.

#[global] Instance proc_spaces_laws : AddressSpaceLaws proc_heap.
Proof.
  split.
  - intros [h g] [Hok Hg]. destruct (oh_alloc_law g 4096 Hg ltac:(lia)) as (p & g' & E & Hg' & Hc). exists p, (h, g').
    split; [change (as_create (h, g)) with (let* (p, g) := oh_alloc 4096 g in Ok (p, (h, g))); now rewrite E|].
    split; [split; [exact Hok|exact Hg']|]. split; [reflexivity|]. destruct Hc as [Hc|(Hp & _ & Hc)]; [now left|]. right. split; [lia|exact Hc].
  - intros [h g] p [Hok Hg] Hp. destruct (oh_free_law g p Hg Hp) as (g' & E & Hg' & Hc). exists (h, g').
    split; [change (as_destroy p (h, g)) with (let* g := oh_free p g in Ok (h, g)); now rewrite E|].
    split; [split; [exact Hok|exact Hg']|]. split; [reflexivity|exact Hc].
  - intros [h g] n p a' q E. change (oh_alloc n (h, g)) with (let* (p, h) := oh_alloc n h in Ok (p, (h, g))) in E.
    destruct (oh_alloc n h) as [[p' h']|]; [|discriminate]. cbn [obind] in E. injection E as _ <-. reflexivity.
  - intros [h g] p a' q E. change (oh_free p (h, g)) with (let* h := oh_free p h in Ok (h, g)) in E.
    destruct (oh_free p h) as [h'|]; [|discriminate]. cbn [obind] in E. injection E as <-. reflexivity.
Qed.

Definition boot1 : tasks unit proc_heap :=
  mkTasks ∅ {[ kproc0 := mkProcess 0 PROCESS_RUNNING 8192 (replicate 32 0) 0 0 0 0 0 0 0 ]} ∅ ∅ 0 0 1 1 0 false true [0; 0; 0; 0] 0
    (mkCpu 0 36864 0 0 0 0 0 0 8192) ((65536, ∅), (65536, ∅)).
Definition state_or (o : outcome (tasks unit proc_heap)) : tasks unit proc_heap := match o with Ok s => s | Stop _ => boot1 end.
Definition started1 : tasks unit proc_heap := state_or (thread_init kproc0 0 boot1).
Definition child1 : Z := 65616.
Definition parent1 : tasks unit proc_heap := state_or (let* (_, s) := process_create kproc0 tt 7 started1 in Ok s).
Definition zombie1 : tasks unit proc_heap := state_or (process_exit kproc0 child1 3 parent1).

Lemma started1_world : exists l, world_ok kproc0 started1 l (fun _ => []).
Proof.
  assert (B : boot_ok kproc0 boot1).
  { constructor; [reflexivity|repeat constructor| |vm_compute; eauto|reflexivity|cbn; lia].
    split; (split; [cbn; lia|]); intros q Hq; now apply elem_of_empty in Hq. }
  apply (init_world kproc0 boot1 0 started1 (mkProcess 0 PROCESS_RUNNING 8192 (replicate 32 0) 0 0 0 0 0 0 0) B); vm_compute; congruence.
Qed.

Definition created_ptr (o : outcome (Z * tasks unit proc_heap)) : option Z := match o with Ok (r, _) => Some r | Stop _ => None end.

Definition kids1 : Z -> list Z := upd (upd (fun _ => []) child1 []) kproc0 [child1].

Lemma created_child1 junk l kids t x r h0 :
  creation_result kproc0 tt started1 l kids junk t x r h0 -> created_ptr (process_create kproc0 tt junk started1) = Some child1 ->
  exists s', process_create kproc0 tt junk started1 = Ok (child1, s') /\ world_ok kproc0 s' l (upd (upd kids child1 []) (t_process t) (child1 :: kids (t_process t))).
Proof.
  intros Hc Hr. assert (Hne : child1 <> 0) by (unfold child1; lia). unfold creation_result in Hc. destruct (r =? 0).
  { destruct Hc as [Hc _]. rewrite Hc in Hr. cbn [created_ptr] in Hr. congruence. }
  destruct Hc as (_ & _ & f0 & f1 & f2 & root & h4 & _ & Hc). destruct (root =? 0).
  { destruct Hc as (h5 & _ & _ & Hc). rewrite Hc in Hr. cbn [created_ptr] in Hr. congruence. }
  destruct Hc as (Hc & _ & Hw). rewrite Hc in Hr. cbn [created_ptr] in Hr. injection Hr as ->. eauto.
Qed.

Lemma parent1_world : exists l, world_ok kproc0 parent1 l kids1.
Proof.
  destruct started1_world as [l W].
  assert (Et : exists t, threads started1 !! current started1 = Some t /\ t_process t = kproc0) by (eexists; split; vm_compute; reflexivity).
  destruct Et as (t & Et & Hp). assert (Ex : exists x, procs started1 !! kproc0 = Some x /\ p_state x = PROCESS_RUNNING) by (eexists; split; vm_compute; reflexivity).
  destruct Ex as (x & Ex & Hx). exists l. rewrite <- Hp in Ex.
  destruct (process_create_spec kproc0 tt 7 started1 l _ t x W Et Ex ltac:(congruence)) as (r & h0 & E & Hc).
  apply (created_child1 7) in Hc as (s' & E' & W'); [|vm_compute; reflexivity]. rewrite Hp in W'.
  replace parent1 with s' by (unfold parent1; rewrite E'; reflexivity). exact W'.
Qed.

Lemma child1_parent : exists y, procs parent1 !! child1 = Some y /\ p_parent y = kproc0.
Proof. eexists. split; vm_compute; reflexivity. Qed.

Lemma zombie1_world : exists l, world_ok kproc0 zombie1 l (adopted kids1 kproc0 child1).
Proof.
  destruct parent1_world as [l W]. destruct child1_parent as (y & Ey & _). exists l.
  destruct (exit_spec kproc0 parent1 l kids1 child1 y 3 W Ey ltac:(discriminate)) as (s' & x & _ & E & Hx).
  replace zombie1 with s' by (unfold zombie1; rewrite E; reflexivity). apply Hx.
Qed.

Lemma process_create_correct_witness :
  exists l t s', world_ok kproc0 started1 l (fun _ => []) /\ t_process t = kproc0 /\ process_create kproc0 tt 7 started1 = Ok (child1, s') /\
    world_ok kproc0 s' l kids1.
Proof.
  destruct started1_world as [l W].
  assert (Et : exists t, threads started1 !! current started1 = Some t /\ t_process t = kproc0) by (eexists; split; vm_compute; reflexivity).
  destruct Et as (t & Et & Hp). assert (Ex : exists x, procs started1 !! kproc0 = Some x /\ p_state x = PROCESS_RUNNING) by (eexists; split; vm_compute; reflexivity).
  destruct Ex as (x & Ex & Hx). rewrite <- Hp in Ex.
  destruct (process_create_correct kproc0 tt 7 started1 l _ t x W Et Ex ltac:(congruence)) as (r & h0 & E & Hc).
  apply (created_child1 7) in Hc as (s' & E' & W'); [|vm_compute; reflexivity]. rewrite Hp in W'.
  exists l, t, s'. split; [exact W|]. split; [exact Hp|]. split; [exact E'|exact W'].
Defined.

Lemma process_exit_correct_witness :
  exists l kids y x s', world_ok kproc0 parent1 l kids /\ process_exit kproc0 child1 3 parent1 = Ok s' /\ exited kproc0 parent1 s' l kids child1 3 y x.
Proof.
  destruct parent1_world as [l W]. destruct child1_parent as (y & Ey & _).
  destruct (process_exit_correct kproc0 parent1 l kids1 child1 y 3 W Ey ltac:(discriminate)) as (s' & x & _ & E & Hx).
  exists l, kids1, y, x, s'. split; [exact W|]. split; [exact E|exact Hx].
Defined.

Lemma no_thread_of (m : gmap Z thread) (c : Z) : bool_decide (map_Forall (fun _ t => t_process t <> c) m) = true ->
  forall p t, m !! p = Some t -> t_process t = c -> t_state t = THREAD_DEAD.
Proof. intros Hb p t Et Hp. exfalso. exact (bool_decide_eq_true_1 _ Hb p t Et Hp). Qed.

Lemma process_destroy_correct_witness :
  exists l kids y s', world_ok kproc0 zombie1 l kids /\ process_destroy kproc0 child1 zombie1 = Ok s' /\ destroyed kproc0 zombie1 s' l kids child1 y.
Proof.
  destruct zombie1_world as [l W].
  assert (Ey : exists y, procs zombie1 !! child1 = Some y /\ p_state y = PROCESS_ZOMBIE) by (eexists; split; vm_compute; reflexivity).
  destruct Ey as (y & Ey & Hy).
  assert (Hb : bool_decide (map_Forall (fun _ t => t_process t <> child1) (threads zombie1)) = true) by (vm_compute; reflexivity).
  pose proof (no_thread_of (threads zombie1) child1 Hb) as Hd.
  destruct (process_destroy_correct kproc0 zombie1 l (adopted kids1 kproc0 child1) child1 y W Ey ltac:(discriminate) Hy Hd) as (s' & E & Hx).
  exists l, (adopted kids1 kproc0 child1), y, s'. split; [exact W|]. split; [exact E|exact Hx].
Defined.
