(* ===== verification/Vt.v ===== *)
(** * Virtual terminals (src/kernel/fs/vt.c, src/kernel/drivers/vga.c)

    A virtual terminal is a text buffer with a cursor and the state of the escape
    sequence parser.  What is written to the active one also goes to the memory of
    the VGA adapter; everything is echoed to the serial line, whose output is the
    list of bytes sent.  The functions that take a terminal number work on the
    terminal it names.  Arithmetic on [int] wraps. *)

From S2P Require Import Prelude Bitmap CString.

(** [for (int i = start; i < start + n; i++) body] *)
Fixpoint for_each {X : Type} (n : nat) (i : Z) (body : Z -> X -> outcome X) (x : X) : outcome X :=
  match n with
  | O => Ok x
  | S k => let* x := body i x in for_each k (i + 1) body x
  end.

(** ** The VGA text adapter *)
Definition VGA_WIDTH : Z := 80.
Definition VGA_HEIGHT : Z := 25.
Definition VGA_COLOR_BLACK : Z := 0.
Definition VGA_COLOR_LIGHT_GREY : Z := 7.

(** [vga_buffer] is set ([mapped]) or null; [cells] is the memory at 0xB8000;
    [crtc_0e] and [crtc_0f] are the two halves of the cursor register. *)
Record vga : Type := mkVga { mapped : bool; cells : list Z; crtc_0e : Z; crtc_0f : Z }.

Definition vga_init (g : vga) : vga := mkVga true (cells g) (crtc_0e g) (crtc_0f g).

Definition vga_set_cursor (x y : Z) (g : vga) : vga :=
  let pos := u16 (y * VGA_WIDTH + x) in
  mkVga (mapped g) (cells g) (Z.land (Z.shiftr pos 8) 255) (Z.land pos 255).

(** A character with its attribute. *)
Definition cell (attr c : Z) : Z := Z.lor (Z.shiftl attr 8) c.

Definition vga_putc (x y c color : Z) (g : vga) : outcome vga :=
  if (0 <=? x) && (x <? VGA_WIDTH) && (0 <=? y) && (y <? VGA_HEIGHT) then
    if mapped g then let* m := store (cells g) (y * VGA_WIDTH + x) (cell color c) in Ok (mkVga true m (crtc_0e g) (crtc_0f g))
    else Stop BadAccess
  else Ok g.

Definition vga_blit (buffer : list Z) (g : vga) : outcome vga :=
  if mapped g then
    let* m := for_each (Z.to_nat (VGA_WIDTH * VGA_HEIGHT)) 0 (fun i m => let* c := load buffer i in store m i c) (cells g) in
    Ok (mkVga true m (crtc_0e g) (crtc_0f g))
  else Ok g.

(** ** One terminal *)
Definition MAX_VTS : Z := 4.

Record vt : Type := mkVt {
  buffer : list Z;
  cursor_x : Z;
  cursor_y : Z;
  current_attr : Z;
  ansi_state : Z;
  ansi_param : Z;
  ansi_param2 : Z;
  active : bool
}.

Definition set_buffer (v : vt) (b : list Z) : vt :=
  mkVt b (cursor_x v) (cursor_y v) (current_attr v) (ansi_state v) (ansi_param v) (ansi_param2 v) (active v).
Definition set_cursor (v : vt) (x y : Z) : vt :=
  mkVt (buffer v) x y (current_attr v) (ansi_state v) (ansi_param v) (ansi_param2 v) (active v).
Definition set_attr (v : vt) (a : Z) : vt :=
  mkVt (buffer v) (cursor_x v) (cursor_y v) a (ansi_state v) (ansi_param v) (ansi_param2 v) (active v).
Definition set_ansi (v : vt) (st p p2 : Z) : vt :=
  mkVt (buffer v) (cursor_x v) (cursor_y v) (current_attr v) st p p2 (active v).
Definition set_active (v : vt) (a : bool) : vt :=
  mkVt (buffer v) (cursor_x v) (cursor_y v) (current_attr v) (ansi_state v) (ansi_param v) (ansi_param2 v) a.

Definition vt_clear (v : vt) : outcome vt :=
  let* b := for_each (Z.to_nat (VGA_WIDTH * VGA_HEIGHT)) 0 (fun i b => store b i (cell (current_attr v) 32)) (buffer v) in
  Ok (set_cursor (set_buffer v b) 0 0).

Definition vt_scroll (v : vt) : outcome vt :=
  let* b := for_each (Z.to_nat (VGA_HEIGHT - 1)) 1 (fun y =>
              for_each (Z.to_nat VGA_WIDTH) 0 (fun x b =>
                let* c := load b (y * VGA_WIDTH + x) in store b ((y - 1) * VGA_WIDTH + x) c)) (buffer v) in
  let* b := for_each (Z.to_nat VGA_WIDTH) 0 (fun x b => store b ((VGA_HEIGHT - 1) * VGA_WIDTH + x) (cell (current_attr v) 32)) b in
  Ok (set_cursor (set_buffer v b) (cursor_x v) (VGA_HEIGHT - 1)).

Definition vt_sync_cursor (v : vt) (g : vga) : vga :=
  if active v then vga_set_cursor (cursor_x v) (cursor_y v) g else g.

Definition vt_putc (c : Z) (v : vt) (g : vga) : outcome (vt * vga) :=
  let* (v, g) :=
    (if c =? 10 then Ok (set_cursor v 0 (cursor_y v + 1), g)
     else if c =? 8 then
       let v := if 0 <? cursor_x v then set_cursor v (cursor_x v - 1) (cursor_y v)
                else if 0 <? cursor_y v then set_cursor v (VGA_WIDTH - 1) (cursor_y v - 1) else v in
       let* b := store (buffer v) (cursor_y v * VGA_WIDTH + cursor_x v) (cell (current_attr v) 32) in
       Ok (set_buffer v b, g)
     else if c =? 13 then Ok (set_cursor v 0 (cursor_y v), g)
     else
       let* b := store (buffer v) (cursor_y v * VGA_WIDTH + cursor_x v) (cell (current_attr v) c) in
       let v := set_buffer v b in
       let* g := (if active v then vga_putc (cursor_x v) (cursor_y v) c (current_attr v) g else Ok g) in
       Ok (set_cursor v (cursor_x v + 1) (cursor_y v), g)) in
  let v := if VGA_WIDTH <=? cursor_x v then set_cursor v 0 (cursor_y v + 1) else v in
  let* (v, g) :=
    (if VGA_HEIGHT <=? cursor_y v then
       let* v := vt_scroll v in
       let* g := (if active v then vga_blit (buffer v) g else Ok g) in
       Ok (v, g)
     else Ok (v, g)) in
  Ok (v, vt_sync_cursor v g).

(** [mapping] *)
Definition ansi_colors : list Z := [0; 4; 2; 6; 1; 5; 3; 7].

Definition is_digit (c : Z) : bool := (48 <=? c) && (c <=? 57).

Definition vt_parse_ansi (c : Z) (v : vt) (g : vga) : outcome (vt * vga) :=
  if ansi_state v =? 0 then
    if c =? 27 then Ok (set_ansi v 1 0 0, g) else vt_putc c v g
  else if ansi_state v =? 1 then
    if c =? 91 then Ok (set_ansi v 2 (ansi_param v) (ansi_param2 v), g)
    else vt_putc c (set_ansi v 0 (ansi_param v) (ansi_param2 v)) g
  else if (ansi_state v =? 2) || (ansi_state v =? 3) || (ansi_state v =? 4) then
    let done v := set_ansi v 0 (ansi_param v) (ansi_param2 v) in
    if is_digit c then
      let v := if ansi_state v =? 2 then set_ansi v 3 (ansi_param v) (ansi_param2 v) else v in
      Ok (if ansi_state v =? 3 then set_ansi v 3 (s32 (ansi_param v * 10 + (c - 48))) (ansi_param2 v)
          else set_ansi v (ansi_state v) (ansi_param v) (s32 (ansi_param2 v * 10 + (c - 48))), g)
    else if c =? 59 then Ok (set_ansi v 4 (ansi_param v) (ansi_param2 v), g)
    else if c =? 109 then
      let* v :=
        (if ansi_param v =? 0 then Ok (set_attr v (Z.lor VGA_COLOR_LIGHT_GREY (Z.shiftl VGA_COLOR_BLACK 4)))
         else if (30 <=? ansi_param v) && (ansi_param v <=? 37) then
           let* fg := load ansi_colors (ansi_param v - 30) in
           Ok (set_attr v (Z.lor (Z.land (current_attr v) 0xF0) fg))
         else Ok v) in
      Ok (done v, g)
    else if c =? 74 then
      let* (v, g) :=
        (if ansi_param v =? 2 then
           let* v := vt_clear v in
           let* g := (if active v then vga_blit (buffer v) g else Ok g) in
           Ok (v, g)
         else Ok (v, g)) in
      Ok (done v, g)
    else if c =? 72 then
      let x := if 0 <? ansi_param2 v then ansi_param2 v - 1 else 0 in
      let y := if 0 <? ansi_param v then ansi_param v - 1 else 0 in
      let x := if x <? 0 then 0 else x in
      let x := if VGA_WIDTH <=? x then VGA_WIDTH - 1 else x in
      let y := if y <? 0 then 0 else y in
      let y := if VGA_HEIGHT <=? y then VGA_HEIGHT - 1 else y in
      let v := set_cursor v x y in
      Ok (done v, vt_sync_cursor v g)
    else Ok (done v, g)
  else Ok (v, g).

(** ** All terminals *)
Record screens : Type := mkScreens { vts : list vt; active_vt_idx : Z; adapter : vga; serial_out : list Z }.

Definition put_vt (w : screens) (n : Z) (v : vt) (g : vga) : screens :=
  mkScreens (zset (vts w) n v) (active_vt_idx w) g (serial_out w).

Definition serial_puts (w : screens) (s : list Z) : screens :=
  mkScreens (vts w) (active_vt_idx w) (adapter w) (serial_out w ++ s).

Definition vt_get_active (w : screens) : Z := active_vt_idx w.

Definition vt_init (w : screens) : outcome screens :=
  let w := mkScreens (vts w) (active_vt_idx w) (vga_init (adapter w)) (serial_out w) in
  let* w := for_each (Z.to_nat MAX_VTS) 0 (fun i w =>
    let* v := of_opt (znth (vts w) i) in
    let v := set_active (set_attr v (Z.lor VGA_COLOR_LIGHT_GREY (Z.shiftl VGA_COLOR_BLACK 4))) (i =? 0) in
    let* v := vt_clear v in
    Ok (put_vt w i (set_ansi v 0 (ansi_param v) (ansi_param2 v)) (adapter w))) w in
  let* v := of_opt (znth (vts w) 0) in
  let* g := vga_blit (buffer v) (adapter w) in
  Ok (mkScreens (vts w) (active_vt_idx w) (vga_set_cursor 0 0 g) (serial_out w)).

Definition vt_switch (vt_num : Z) (w : screens) : outcome screens :=
  if (vt_num <? 0) || (MAX_VTS <=? vt_num) then Ok w
  else if vt_num =? active_vt_idx w then Ok w
  else
    let* o := of_opt (znth (vts w) (active_vt_idx w)) in
    let w := put_vt w (active_vt_idx w) (set_active o false) (adapter w) in
    let* v := of_opt (znth (vts w) vt_num) in
    let v := set_active v true in
    let* g := vga_blit (buffer v) (adapter w) in
    Ok (mkScreens (zset (vts w) vt_num v) vt_num (vga_set_cursor (cursor_x v) (cursor_y v) g) (serial_out w)).

(** The loop over [data] for the terminal [n]. *)
Fixpoint write_bytes (n : Z) (data : list Z) (w : screens) : outcome screens :=
  match data with
  | [] => Ok w
  | c :: data =>
    let w := serial_puts w (if c =? 8 then [8; 32; 8] else if c =? 0 then [] else [c]) in
    let* v := of_opt (znth (vts w) n) in
    let* (v, g) := vt_parse_ansi c v (adapter w) in
    write_bytes n data (put_vt w n v g)
  end.

Definition vt_write (vt_num : Z) (data : list Z) (w : screens) : outcome screens :=
  if (vt_num <? 0) || (MAX_VTS <=? vt_num) then Ok w else write_bytes vt_num data w.
