(* ===== verification/VtProofs.v ===== *)
(** * Correctness of the virtual terminals

    Whatever bytes a program writes, including malformed escape sequences, no
    access leaves a screen buffer, the cursor stays on the screen, and the VGA
    memory shows the buffer of the active terminal. *)

From S2P Require Import Prelude Bitmap CString Vt.

(** ** Loops *)
Lemma for_each_inv {X} (P : Z -> X -> Prop) body n : forall i x,
  P i x -> (forall j y, i <= j < i + Z.of_nat n -> P j y -> exists y', body j y = Ok y' /\ P (j + 1) y') ->
  exists x', for_each n i body x = Ok x' /\ P (i + Z.of_nat n) x'.
Proof.
  induction n as [|n IH]; intros i x Hx Hb; cbn [for_each].
  - exists x. split; [reflexivity|]. now replace (i + Z.of_nat 0) with i by lia.
  - destruct (Hb i x ltac:(lia) Hx) as (y & -> & Hy). cbn [obind].
    destruct (IH (i + 1) y Hy) as (x' & E & Hx'); [intros j z Hj; apply Hb; lia|]. exists x'. split; [exact E|].
    now replace (i + Z.of_nat (S n)) with (i + 1 + Z.of_nat n) by lia.
Qed.

(** [b'] is [b] with [f k] at the places [lo <= k < hi]. *)
Definition filled (b b' : list Z) (lo hi : Z) (f : Z -> option Z) : Prop :=
  zlen b' = zlen b /\ forall k, znth b' k = if (lo <=? k) && (k <? hi) then f k else znth b k.

Lemma filled_step b b' lo i f v : 0 <= lo <= i -> i < zlen b -> f i = Some v -> filled b b' lo i f ->
  exists b'', store b' i v = Ok b'' /\ filled b b'' lo (i + 1) f.
Proof.
  intros Hlo Hi Hv [Hl Hk]. exists (zset b' i v). split; [apply store_ok; lia|]. split; [now rewrite zlen_zset|].
  intros k. destruct (Z.eq_dec k i) as [->|Hne].
  - rewrite znth_zset_eq by lia. destruct (Z.leb_spec lo i), (Z.ltb_spec i (i + 1)); try lia. now rewrite Hv.
  - rewrite znth_zset_ne, Hk by congruence. destruct (Z.leb_spec lo k), (Z.ltb_spec k i), (Z.ltb_spec k (i + 1)); cbn; reflexivity || lia.
Qed.

Lemma fill_spec b lo n v (h : Z -> Z) : 0 <= lo -> lo + Z.of_nat n <= zlen b -> (forall i, h i = lo + i) ->
  exists b', for_each n 0 (fun i b => store b (h i) v) b = Ok b' /\ filled b b' lo (lo + Z.of_nat n) (fun _ => Some v).
Proof.
  intros Hlo Hn Hh. destruct (for_each_inv (fun i b' => filled b b' lo (lo + i) (fun _ => Some v)) (fun i b => store b (h i) v) n 0 b) as (b' & E & HP).
  - split; [reflexivity|]. intros k. rewrite Z.add_0_r. destruct (Z.leb_spec lo k), (Z.ltb_spec k lo); cbn; reflexivity || lia.
  - intros j y Hj HP. rewrite Hh, Z.add_assoc. apply (filled_step b y lo (lo + j) (fun _ => Some v) v); auto; lia.
  - exists b'. split; [exact E|exact HP].
Qed.

Definition SIZE : Z := VGA_WIDTH * VGA_HEIGHT.

Lemma filled_all b b' f : zlen b = SIZE -> filled b b' 0 SIZE (fun k => znth f k) -> zlen f = SIZE -> b' = f.
Proof.
  intros Hb [Hl Hk] Hf. apply znth_ext; [congruence|]. intros k Hk'. rewrite Hk. destruct (Z.leb_spec 0 k), (Z.ltb_spec k SIZE); cbn; reflexivity || lia.
Qed.

(** ** The adapter *)
Definition vga_ok (g : vga) : Prop := mapped g = true /\ zlen (cells g) = SIZE.

Lemma vga_blit_spec b g : vga_ok g -> zlen b = SIZE ->
  exists g', vga_blit b g = Ok g' /\ vga_ok g' /\ cells g' = b.
Proof.
  intros [Hm Hl] Hb. unfold vga_blit. rewrite Hm.
  destruct (for_each_inv (fun i m => filled (cells g) m 0 i (fun k => znth b k)) (fun i m => let* c := load b i in store m i c)
              (Z.to_nat (VGA_WIDTH * VGA_HEIGHT)) 0 (cells g)) as (m & E & HP).
  - split; [reflexivity|]. intros k. destruct (Z.leb_spec 0 k), (Z.ltb_spec k 0); cbn; reflexivity || lia.
  - intros j y Hj HP. destruct (load_ok b j) as (c & Ec & Hc); [rewrite Hb; unfold SIZE, VGA_WIDTH, VGA_HEIGHT in *; lia|]. rewrite Ec. cbn [obind].
    apply (filled_step (cells g) y 0 j); auto; [lia|rewrite Hl; unfold SIZE, VGA_WIDTH, VGA_HEIGHT in *; lia].
  - rewrite E. cbn [obind]. assert (Hm' : m = b) by (apply (filled_all (cells g)); [exact Hl|exact HP|exact Hb]).
    subst m. eexists. split; [reflexivity|]. repeat split. exact Hb.
Qed.

Lemma vga_putc_spec x y c a g : vga_ok g -> 0 <= x < VGA_WIDTH -> 0 <= y < VGA_HEIGHT ->
  exists g', vga_putc x y c a g = Ok g' /\ vga_ok g' /\ cells g' = zset (cells g) (y * VGA_WIDTH + x) (cell a c).
Proof.
  intros [Hm Hl] Hx Hy. unfold vga_putc. rewrite Hm.
  destruct (Z.leb_spec 0 x), (Z.ltb_spec x VGA_WIDTH), (Z.leb_spec 0 y), (Z.ltb_spec y VGA_HEIGHT); try lia. cbn [andb].
  rewrite store_ok by (rewrite Hl; unfold SIZE, VGA_WIDTH, VGA_HEIGHT in *; lia). cbn [obind]. eexists. split; [reflexivity|].
  split; [split; [reflexivity|cbn; now rewrite zlen_zset]|reflexivity].
Qed.

(** ** One terminal *)
Record vt_ok (v : vt) : Prop := {
  v_size : zlen (buffer v) = SIZE;
  v_x : 0 <= cursor_x v < VGA_WIDTH;
  v_y : 0 <= cursor_y v < VGA_HEIGHT
}.

Lemma vt_clear_spec v : zlen (buffer v) = SIZE ->
  exists b, vt_clear v = Ok (set_cursor (set_buffer v b) 0 0) /\ zlen b = SIZE /\ forall k, 0 <= k < SIZE -> znth b k = Some (cell (current_attr v) 32).
Proof.
  intros Hs. destruct (fill_spec (buffer v) 0 (Z.to_nat (VGA_WIDTH * VGA_HEIGHT)) (cell (current_attr v) 32) (fun i => i)) as (b & E & Hl & Hk);
    [lia|rewrite Hs; unfold SIZE, VGA_WIDTH, VGA_HEIGHT; lia|lia|].
  exists b. unfold vt_clear. rewrite E. split; [reflexivity|]. split; [congruence|]. intros k Hk'. rewrite Hk.
  destruct (Z.leb_spec 0 k), (Z.ltb_spec k (0 + Z.of_nat (Z.to_nat (VGA_WIDTH * VGA_HEIGHT)))); cbn; unfold SIZE, VGA_WIDTH, VGA_HEIGHT in *; reflexivity || lia.
Qed.

(** After the copy of the rows before [y] and of [x] cells of row [y]. *)
Definition scrolled (b0 b : list Z) (n : Z) : Prop :=
  zlen b = zlen b0 /\ forall k, znth b k = if (0 <=? k) && (k <? n) then znth b0 (k + VGA_WIDTH) else znth b0 k.

Lemma scroll_cell b0 b n i j : zlen b0 = SIZE -> 0 <= n -> n + VGA_WIDTH < SIZE -> i = n + VGA_WIDTH -> j = n -> scrolled b0 b n ->
  exists b', (let* c := load b i in store b j c) = Ok b' /\ scrolled b0 b' (n + 1).
Proof.
  intros Hs Hn Hlt -> -> [Hl Hk]. unfold VGA_WIDTH in *. destruct (load_ok b (n + 80)) as (c & -> & Hc); [lia|]. cbn [obind]. exists (zset b n c).
  split; [apply store_ok; lia|]. split; [now rewrite zlen_zset|]. rewrite Hk in Hc. intros k. destruct (Z.eq_dec k n) as [->|Hne].
  - rewrite znth_zset_eq by lia. destruct (Z.leb_spec 0 n), (Z.ltb_spec n (n + 1)), (Z.ltb_spec (n + 80) n); try lia. rewrite andb_false_r in Hc. unfold VGA_WIDTH. cbn. congruence.
  - rewrite znth_zset_ne, Hk by congruence. destruct (Z.leb_spec 0 k), (Z.ltb_spec k n), (Z.ltb_spec k (n + 1)); cbn; reflexivity || lia.
Qed.

Lemma vt_scroll_spec v : zlen (buffer v) = SIZE ->
  exists b, vt_scroll v = Ok (set_cursor (set_buffer v b) (cursor_x v) (VGA_HEIGHT - 1)) /\ zlen b = SIZE /\
    forall k, 0 <= k < SIZE -> znth b k = if k <? SIZE - VGA_WIDTH then znth (buffer v) (k + VGA_WIDTH) else Some (cell (current_attr v) 32).
Proof.
  intros Hs. unfold vt_scroll. pose proof Hs as Hs'. unfold SIZE, VGA_WIDTH, VGA_HEIGHT in Hs'.
  destruct (for_each_inv (fun y b => scrolled (buffer v) b ((y - 1) * VGA_WIDTH)) (fun y => for_each (Z.to_nat VGA_WIDTH) 0 (fun x b =>
     let* c := load b (y * VGA_WIDTH + x) in store b ((y - 1) * VGA_WIDTH + x) c)) (Z.to_nat (VGA_HEIGHT - 1)) 1 (buffer v)) as (b1 & E1 & H1).
  - split; [reflexivity|]. intros k. destruct (Z.leb_spec 0 k), (Z.ltb_spec k ((1 - 1) * VGA_WIDTH)); cbn; reflexivity || lia.
  - intros y b Hy HP.
    destruct (for_each_inv (fun x b => scrolled (buffer v) b ((y - 1) * VGA_WIDTH + x)) (fun x b =>
       let* c := load b (y * VGA_WIDTH + x) in store b ((y - 1) * VGA_WIDTH + x) c) (Z.to_nat VGA_WIDTH) 0 b) as (b' & E & H).
    + now rewrite Z.add_0_r.
    + intros x c Hx Hc. rewrite Z.add_assoc. apply scroll_cell; auto; unfold SIZE, VGA_WIDTH, VGA_HEIGHT in *; lia.
    + exists b'. split; [exact E|]. now replace ((y + 1 - 1) * VGA_WIDTH) with ((y - 1) * VGA_WIDTH + (0 + Z.of_nat (Z.to_nat VGA_WIDTH))) by (unfold VGA_WIDTH; lia).
  - rewrite E1. cbn [obind]. destruct H1 as [L1 H1].
    destruct (fill_spec b1 ((VGA_HEIGHT - 1) * VGA_WIDTH) (Z.to_nat VGA_WIDTH) (cell (current_attr v) 32) (fun x => (VGA_HEIGHT - 1) * VGA_WIDTH + x)) as (b2 & E2 & L2 & H2);
      [unfold VGA_WIDTH, VGA_HEIGHT; lia|rewrite L1, Hs; unfold SIZE, VGA_WIDTH, VGA_HEIGHT; lia|reflexivity|].
    rewrite E2. exists b2. split; [reflexivity|]. split; [congruence|]. intros k Hk. rewrite H2, H1. unfold SIZE, VGA_WIDTH, VGA_HEIGHT in *.
    destruct (Z.leb_spec ((25 - 1) * 80) k), (Z.ltb_spec k ((25 - 1) * 80 + Z.of_nat (Z.to_nat 80))), (Z.leb_spec 0 k),
      (Z.ltb_spec k ((1 + Z.of_nat (Z.to_nat (25 - 1)) - 1) * 80)), (Z.ltb_spec k (80 * 25 - 80)); cbn; reflexivity || lia.
Qed.

(** The end of [vt_putc]: the cursor wraps and the screen scrolls. *)
Lemma putc_finish v v1 g g1 (Hv : zlen (buffer v1) = SIZE) (Hg : vga_ok g1) :
  0 <= cursor_x v1 <= VGA_WIDTH -> 0 <= cursor_y v1 <= VGA_HEIGHT -> (cursor_y v1 = VGA_HEIGHT -> cursor_x v1 < VGA_WIDTH) ->
  active v1 = active v -> (active v = false -> g1 = g) ->
  exists v' g', (let v := if VGA_WIDTH <=? cursor_x v1 then set_cursor v1 0 (cursor_y v1 + 1) else v1 in
     let* (v, g) :=
       (if VGA_HEIGHT <=? cursor_y v then
          let* v := vt_scroll v in
          let* g := (if active v then vga_blit (buffer v) g1 else Ok g1) in
          Ok (v, g)
        else Ok (v, g1)) in
     Ok (v, vt_sync_cursor v g)) = Ok (v', g') /\ vt_ok v' /\ vga_ok g' /\ active v' = active v /\ (active v = false -> g' = g) /\
    (active v = true -> cells g1 = buffer v1 -> cells g' = buffer v') /\
    ansi_state v' = ansi_state v1 /\ ansi_param v' = ansi_param v1 /\ ansi_param2 v' = ansi_param2 v1 /\ current_attr v' = current_attr v1 /\
    (cursor_x v1 + VGA_WIDTH * cursor_y v1 < SIZE -> buffer v' = buffer v1 /\ cursor_x v' + VGA_WIDTH * cursor_y v' = cursor_x v1 + VGA_WIDTH * cursor_y v1 /\ cells g' = cells g1).
Proof.
  intros Hx Hy Hxy Ha Hi. set (v2 := if VGA_WIDTH <=? cursor_x v1 then set_cursor v1 0 (cursor_y v1 + 1) else v1).
  assert (H2 : buffer v2 = buffer v1 /\ active v2 = active v /\ 0 <= cursor_x v2 < VGA_WIDTH /\ 0 <= cursor_y v2 <= VGA_HEIGHT /\
    cursor_x v2 + VGA_WIDTH * cursor_y v2 = cursor_x v1 + VGA_WIDTH * cursor_y v1 /\
    ansi_state v2 = ansi_state v1 /\ ansi_param v2 = ansi_param v1 /\ ansi_param2 v2 = ansi_param2 v1 /\ current_attr v2 = current_attr v1).
  { unfold v2. destruct (Z.leb_spec VGA_WIDTH (cursor_x v1)); cbn; unfold VGA_WIDTH, VGA_HEIGHT in *; repeat split; auto; lia. }
  destruct H2 as (B2 & A2 & X2 & Y2 & P2 & S2 & Q2 & R2 & C2). cbv zeta. destruct (Z.leb_spec VGA_HEIGHT (cursor_y v2)) as [Hs|Hs].
  - destruct (vt_scroll_spec v2 ltac:(now rewrite B2)) as (b & -> & Lb & _). cbn [obind]. set (v3 := set_cursor (set_buffer v2 b) (cursor_x v2) (VGA_HEIGHT - 1)).
    assert (Hb : exists g2, (if active v3 then vga_blit (buffer v3) g1 else Ok g1) = Ok g2 /\ vga_ok g2 /\ (if active v then cells g2 = b else g2 = g)).
    { cbn. rewrite A2. destruct (active v); [|exists g1; auto]. destruct (vga_blit_spec b g1 Hg Lb) as (g2 & E & Hg2 & Hc). eauto. }
    destruct Hb as (g2 & -> & Hg2 & Hc2). cbn [obind]. exists v3, (vt_sync_cursor v3 g2). split; [reflexivity|].
    unfold vt_sync_cursor. cbn [active v3 set_cursor set_buffer cursor_x cursor_y]. rewrite A2.
    split; [constructor; cbn; auto; unfold VGA_HEIGHT; lia|]. split; [destruct (active v); [exact Hg2|exact Hg2]|]. split; [reflexivity|].
    split; [intros E; rewrite E in *; exact Hc2|]. split; [intros E _; rewrite E in *; exact Hc2|].
    repeat (split; [assumption|]). intros Hlt. unfold SIZE, VGA_WIDTH, VGA_HEIGHT in *. lia.
  - cbn [obind]. exists v2, (vt_sync_cursor v2 g1). split; [reflexivity|]. unfold vt_sync_cursor. rewrite A2.
    split; [constructor; rewrite ?B2; auto; lia|]. split; [destruct (active v); exact Hg|]. split; [reflexivity|].
    split; [intros E; rewrite E; now apply Hi|]. split; [intros E Hc; rewrite E; cbn; congruence|]. do 4 (split; [assumption|]). intros _. split; [exact B2|]. split; [exact P2|]. now destruct (active v).
Qed.

Definition pos (v : vt) : Z := cursor_x v + VGA_WIDTH * cursor_y v.

(** [v'] and [g'] are a terminal and an adapter after [v] and [g]. *)
Record moved (v v' : vt) (g g' : vga) : Prop := {
  mv_ok : vt_ok v';
  mv_vga : vga_ok g';
  mv_active : active v' = active v;
  mv_hidden : active v = false -> g' = g
}.

Definition plain (c : Z) : Prop := c <> 8 /\ c <> 10 /\ c <> 13.

Lemma putc_spec c v g : vt_ok v -> vga_ok g ->
  exists v' g', vt_putc c v g = Ok (v', g') /\ moved v v' g g' /\
    (active v = true -> c <> 8 -> cells g = buffer v -> cells g' = buffer v') /\
    ansi_state v' = ansi_state v /\ ansi_param v' = ansi_param v /\ ansi_param2 v' = ansi_param2 v /\ current_attr v' = current_attr v /\
    (plain c -> pos v + 1 < SIZE -> buffer v' = zset (buffer v) (pos v) (cell (current_attr v) c) /\ pos v' = pos v + 1 /\
       (active v = true -> cells g' = zset (cells g) (pos v) (cell (current_attr v) c))) /\
    (c = 8 -> buffer v' = zset (buffer v) (pos v') (cell (current_attr v) 32) /\ pos v' = Z.max 0 (pos v - 1) /\ cells g' = cells g).
Proof.
  intros [Hs Hx Hy] Hg. unfold vt_putc. unfold plain, pos.
  assert (Hin : forall x y, 0 <= x < VGA_WIDTH -> 0 <= y < VGA_HEIGHT -> 0 <= y * VGA_WIDTH + x < zlen (buffer v))
    by (intros x y; rewrite Hs; unfold SIZE, VGA_WIDTH, VGA_HEIGHT; lia).
  assert (Hfin : forall v1 g1, zlen (buffer v1) = SIZE -> vga_ok g1 -> 0 <= cursor_x v1 <= VGA_WIDTH -> 0 <= cursor_y v1 <= VGA_HEIGHT ->
     (cursor_y v1 = VGA_HEIGHT -> cursor_x v1 < VGA_WIDTH) -> active v1 = active v -> (active v = false -> g1 = g) -> _)
    by (intros v1 g1 H1 H2; exact (putc_finish v v1 g g1 H1 H2)).
  destruct (Z.eqb_spec c 10) as [->|H10]; [|destruct (Z.eqb_spec c 8) as [->|H8]; [|destruct (Z.eqb_spec c 13) as [->|H13]]]; cbn [obind].
  - destruct (Hfin (set_cursor v 0 (cursor_y v + 1)) g) as (v' & g' & E & F1 & F2 & F3 & F4 & F5 & F6 & F7 & F8 & F9 & _); cbn; auto; try (unfold VGA_WIDTH, VGA_HEIGHT in *; lia).
    exists v', g'. split; [exact E|]. split; [constructor; auto|]. do 5 (split; [now auto|]). split; [tauto|lia].
  - set (v1 := if 0 <? cursor_x v then _ else _).
    assert (H1 : 0 <= cursor_x v1 < VGA_WIDTH /\ 0 <= cursor_y v1 < VGA_HEIGHT /\ cursor_x v1 + VGA_WIDTH * cursor_y v1 = Z.max 0 (cursor_x v + VGA_WIDTH * cursor_y v - 1) /\ buffer v1 = buffer v /\ active v1 = active v /\ ansi_state v1 = ansi_state v /\
      ansi_param v1 = ansi_param v /\ ansi_param2 v1 = ansi_param2 v /\ current_attr v1 = current_attr v).
    { unfold v1. destruct (Z.ltb_spec 0 (cursor_x v)), (Z.ltb_spec 0 (cursor_y v)); cbn; unfold VGA_WIDTH, VGA_HEIGHT in *; repeat split; lia. }
    destruct H1 as (X1 & Y1 & P1 & B1 & A1 & S1 & Q1 & R1 & C1). rewrite B1, store_ok by now apply Hin. cbn [obind].
    destruct (Hfin (set_buffer v1 (zset (buffer v) (cursor_y v1 * VGA_WIDTH + cursor_x v1) (cell (current_attr v1) 32))) g) as (v' & g' & E & F1 & F2 & F3 & F4 & F5 & F6 & F7 & F8 & F9 & F10);
      cbn; rewrite ?zlen_zset; auto; try (unfold VGA_WIDTH, VGA_HEIGHT in *; lia).
    exists v', g'. split; [exact E|]. split; [constructor; auto|]. split; [tauto|]. cbn in F6, F7, F8, F9. do 4 (split; [congruence|]). split; [tauto|].
    intros _. cbn [set_buffer cursor_x cursor_y buffer] in F10. destruct F10 as (F10 & F11 & F12); [unfold SIZE, VGA_WIDTH, VGA_HEIGHT in *; lia|].
    rewrite F10, F11, C1. split; [f_equal; lia|]. split; [exact P1|exact F12].
  - destruct (Hfin (set_cursor v 0 (cursor_y v)) g) as (v' & g' & E & F1 & F2 & F3 & F4 & F5 & F6 & F7 & F8 & F9 & _); cbn; auto; try (unfold VGA_WIDTH, VGA_HEIGHT in *; lia).
    exists v', g'. split; [exact E|]. split; [constructor; auto|]. do 5 (split; [now auto|]). split; [tauto|lia].
  - rewrite store_ok by now apply Hin. cbn [obind set_buffer active cursor_x cursor_y current_attr].
    set (b := zset (buffer v) (cursor_y v * VGA_WIDTH + cursor_x v) (cell (current_attr v) c)).
    assert (Hp : exists g1, (if active v then vga_putc (cursor_x v) (cursor_y v) c (current_attr v) g else Ok g) = Ok g1 /\ vga_ok g1 /\
       (if active v then cells g1 = zset (cells g) (cursor_y v * VGA_WIDTH + cursor_x v) (cell (current_attr v) c) else g1 = g)).
    { destruct (active v); [|exists g; auto]. destruct (vga_putc_spec (cursor_x v) (cursor_y v) c (current_attr v) g Hg Hx Hy) as (g1 & E & Hg1 & Hc). eauto. }
    destruct Hp as (g1 & -> & Hg1 & Hc1). cbn [obind].
    destruct (Hfin (set_cursor (set_buffer v b) (cursor_x v + 1) (cursor_y v)) g1) as (v' & g' & E & F1 & F2 & F3 & F4 & F5 & F6 & F7 & F8 & F9 & F10);
      cbn; unfold b; rewrite ?zlen_zset; auto; try (unfold VGA_WIDTH, VGA_HEIGHT in *; lia).
    { intros Ha. now rewrite Ha in Hc1. }
    exists v', g'. split; [exact E|]. split; [constructor; auto|]. split.
    { intros Ha _ Hc. apply F5; [exact Ha|]. rewrite Ha in Hc1. cbn. unfold b. congruence. }
    do 4 (split; [assumption|]). cbn [set_cursor set_buffer cursor_x cursor_y buffer] in F10. split; [|congruence]. intros _ Hlt.
    destruct F10 as (F10 & F11 & F12); [lia|]. rewrite F10, F11, F12. unfold b. split; [f_equal; lia|]. split; [lia|].
    intros Ha. rewrite Ha in Hc1. rewrite Hc1. f_equal. lia.
Qed.

Lemma parse_spec c v g : vt_ok v -> vga_ok g ->
  exists v' g', vt_parse_ansi c v g = Ok (v', g') /\ moved v v' g g' /\ (active v = true -> c <> 8 -> cells g = buffer v -> cells g' = buffer v').
Proof.
  intros Hv Hg. unfold vt_parse_ansi.
  assert (Hans : forall v2 st p p2, vt_ok v2 -> vt_ok (set_ansi v2 st p p2)) by (intros v2 st p p2 []; constructor; auto).
  assert (Hsame : forall v2, vt_ok v2 -> buffer v2 = buffer v -> active v2 = active v -> moved v v2 g g /\ (active v = true -> c <> 8 -> cells g = buffer v -> cells g = buffer v2)).
  { intros v2 H2 Hb Ha. split; [constructor; auto|]. congruence. }
  destruct (ansi_state v =? 0).
  { destruct (c =? 27); [eexists _, g; split; [reflexivity|]; apply Hsame; auto|].
    destruct (putc_spec c v g Hv Hg) as (v' & g' & E & Hm & Hc & _). eauto. }
  destruct (ansi_state v =? 1).
  { destruct (c =? 91); [eexists _, g; split; [reflexivity|]; apply Hsame; auto|].
    destruct (putc_spec c (set_ansi v 0 (ansi_param v) (ansi_param2 v)) g) as (v' & g' & E & [M1 M2 M3 M4] & Hc & _); auto.
    exists v', g'. split; [exact E|]. split; [constructor; auto|exact Hc]. }
  destruct (_ || _); [|exists v, g; split; [reflexivity|]; apply Hsame; auto].
  destruct (is_digit c); [eexists _, g; split; [reflexivity|]; apply Hsame; destruct (ansi_state v =? 2); destruct (ansi_state _ =? 3); auto|].
  destruct (c =? 59); [eexists _, g; split; [reflexivity|]; apply Hsame; auto|].
  destruct (c =? 109).
  { assert (Ha : exists a, (if ansi_param v =? 0 then Ok (set_attr v (Z.lor VGA_COLOR_LIGHT_GREY (Z.shiftl VGA_COLOR_BLACK 4)))
      else if (30 <=? ansi_param v) && (ansi_param v <=? 37) then let* fg := load ansi_colors (ansi_param v - 30) in Ok (set_attr v (Z.lor (Z.land (current_attr v) 0xF0) fg))
      else Ok v) = Ok (set_attr v a)).
    { destruct (ansi_param v =? 0); [eauto|]. destruct (Z.leb_spec 30 (ansi_param v)), (Z.leb_spec (ansi_param v) 37); cbn [andb];
        try (exists (current_attr v); now destruct v).
      destruct (load_ok ansi_colors (ansi_param v - 30)) as (fg & -> & _); [vm_compute zlen; lia|]. cbn [obind]. eauto. }
    destruct Ha as (a & ->). cbn [obind]. eexists _, g. split; [reflexivity|]. apply Hsame; auto. apply Hans. destruct Hv. constructor; auto. }
  destruct (c =? 74).
  { destruct (ansi_param v =? 2); [|eexists _, g; split; [reflexivity|]; apply Hsame; auto].
    destruct (vt_clear_spec v (v_size _ Hv)) as (b & -> & Hl & _). cbn [obind set_cursor set_buffer active buffer].
    assert (Hok : vt_ok (set_cursor (set_buffer v b) 0 0)) by (constructor; cbn; auto; unfold VGA_WIDTH, VGA_HEIGHT; lia).
    destruct (active v) eqn:Ea.
    - destruct (vga_blit_spec b g Hg Hl) as (g' & -> & Hg' & Hc). cbn [obind]. eexists _, g'. split; [reflexivity|]. split; [|intros _ _ _; exact Hc].
      constructor; auto; congruence.
    - cbn [obind]. eexists _, g. split; [reflexivity|]. split; [|congruence]. constructor; auto. }
  destruct (c =? 72); [|eexists _, g; split; [reflexivity|]; apply Hsame; auto].
  match goal with |- context [set_cursor v ?X ?Y] => set (x := X); set (y := Y) end. cbv zeta.
  eexists _, _. split; [reflexivity|]. assert (Hxy : 0 <= x < VGA_WIDTH /\ 0 <= y < VGA_HEIGHT).
  { unfold x, y, VGA_WIDTH, VGA_HEIGHT. repeat match goal with |- context [if ?b then _ else _] => destruct b eqn:? end; lia. }
  unfold vt_sync_cursor. cbn [set_cursor active]. split; [|intros Ha; rewrite Ha; auto].
  constructor; cbn; auto; [apply Hans; destruct Hv; constructor; cbn; auto; tauto|destruct (active v); exact Hg|intros Ha; now rewrite Ha].
Qed.

(** Rubbing out the character before the cursor: the echo of a backspace key. *)
Lemma rubout_spec v g : vt_ok v -> vga_ok g -> ansi_state v = 0 -> active v = true -> cells g = buffer v ->
  exists v1 g1 v2 g2 v3 g3, vt_parse_ansi 8 v g = Ok (v1, g1) /\ vt_parse_ansi 32 v1 g1 = Ok (v2, g2) /\ vt_parse_ansi 8 v2 g2 = Ok (v3, g3) /\
    cells g3 = buffer v3 /\ ansi_state v3 = 0 /\ pos v3 = Z.max 0 (pos v - 1) /\ buffer v3 = zset (buffer v) (pos v3) (cell (current_attr v) 32).
Proof.
  intros Hv Hg Hst Ha Hc. pose proof Hv as [Hs Hx Hy].
  assert (Hpos : 0 <= pos v < SIZE) by (unfold pos, SIZE, VGA_WIDTH, VGA_HEIGHT in *; lia).
  destruct (putc_spec 8 v g Hv Hg) as (v1 & g1 & E1 & M1 & _ & S1 & _ & _ & A1 & _ & H1). destruct (H1 eq_refl) as (B1 & P1 & C1).
  destruct (putc_spec 32 v1 g1 (mv_ok _ _ _ _ M1) (mv_vga _ _ _ _ M1)) as (v2 & g2 & E2 & M2 & _ & S2 & _ & _ & A2 & H2 & _).
  destruct (H2 ltac:(unfold plain; lia) ltac:(unfold SIZE, VGA_WIDTH, VGA_HEIGHT in *; lia)) as (B2 & P2 & C2).
  destruct (putc_spec 8 v2 g2 (mv_ok _ _ _ _ M2) (mv_vga _ _ _ _ M2)) as (v3 & g3 & E3 & M3 & _ & S3 & _ & _ & A3 & _ & H3).
  destruct (H3 eq_refl) as (B3 & P3 & C3). assert (P31 : pos v3 = pos v1) by lia. exists v1, g1, v2, g2, v3, g3.
  unfold vt_parse_ansi at 1 2 3. rewrite S2, S1, Hst. cbn [Z.eqb]. cbn [Pos.eqb]. split; [exact E1|]. split; [exact E2|]. split; [exact E3|].
  assert (Hb : buffer v3 = zset (buffer v) (pos v1) (cell (current_attr v) 32)).
  { rewrite B3, B2, B1, P31, A2, A1, !zset_zset. reflexivity. }
  split; [|split; [congruence|split; [lia|rewrite Hb; f_equal; lia]]].
  rewrite C3, C2, C1, Hb, Hc, A1 by (rewrite (mv_active _ _ _ _ M1); exact Ha). reflexivity.
Qed.

(** ** All terminals *)
Record screens_ok (w : screens) : Prop := {
  sc_vts : zlen (vts w) = MAX_VTS;
  sc_idx : 0 <= active_vt_idx w < MAX_VTS;
  sc_each i v : znth (vts w) i = Some v -> vt_ok v /\ active v = (i =? active_vt_idx w);
  sc_vga : vga_ok (adapter w)
}.

(** The adapter shows the active terminal. *)
Definition shown (w : screens) : Prop := forall v, znth (vts w) (active_vt_idx w) = Some v -> cells (adapter w) = buffer v.

Lemma put_vt_ok w n v v' g' : screens_ok w -> znth (vts w) n = Some v -> moved v v' (adapter w) g' ->
  screens_ok (put_vt w n v' g') /\ ((n = active_vt_idx w -> cells g' = buffer v') -> shown w -> shown (put_vt w n v' g')).
Proof.
  intros [H1 H2 H3 H4] Ev [M1 M2 M3 M4]. destruct (H3 n v Ev) as [Hv Ha]. pose proof (znth_Some _ _ _ Ev) as Hn. split.
  - constructor; cbn; auto; [now rewrite zlen_zset|]. intros i u Eu. destruct (Z.eq_dec i n) as [->|Hne].
    + rewrite znth_zset_eq in Eu by lia. injection Eu as <-. split; [exact M1|congruence].
    + rewrite znth_zset_ne in Eu by congruence. now apply H3.
  - intros Hc Hsh u Eu. cbn in *. destruct (Z.eq_dec (active_vt_idx w) n) as [E|Hne].
    + rewrite E, znth_zset_eq in Eu by lia. injection Eu as <-. now apply Hc.
    + rewrite znth_zset_ne in Eu by congruence. rewrite M4; [now apply Hsh|]. rewrite Ha. now apply Z.eqb_neq.
Qed.

Lemma write_bytes_spec n data : forall w, screens_ok w -> 0 <= n < MAX_VTS ->
  exists w', write_bytes n data w = Ok w' /\ screens_ok w' /\ active_vt_idx w' = active_vt_idx w /\
    (forall i, i <> n -> znth (vts w') i = znth (vts w) i) /\ (8 ∉ data \/ n <> active_vt_idx w -> shown w -> shown w').
Proof.
  induction data as [|c data IH]; intros w Hw Hn; cbn [write_bytes]; [exists w; auto|].
  set (w1 := serial_puts w _). assert (Hw1 : screens_ok w1) by (destruct Hw; constructor; auto).
  destruct (znth_is_Some (vts w1) n) as [v Ev]; [now rewrite (sc_vts _ Hw1)|]. rewrite Ev. cbn [of_opt obind].
  destruct (sc_each _ Hw1 n v Ev) as [Hv Ha]. destruct (parse_spec c v (adapter w1) Hv (sc_vga _ Hw1)) as (v' & g' & -> & Hm & Hc). cbn [obind].
  destruct (put_vt_ok w1 n v v' g' Hw1 Ev Hm) as [Hw2 Hsh].
  destruct (IH (put_vt w1 n v' g') Hw2 Hn) as (w' & E & Hw' & Hi & Ho & Hs). exists w'. split; [exact E|]. split; [exact Hw'|]. split; [exact Hi|]. split.
  - intros i Hi'. rewrite Ho by exact Hi'. cbn. now rewrite znth_zset_ne by congruence.
  - intros Hb Hsw. apply Hs; [rewrite not_elem_of_cons in Hb; tauto|]. apply Hsh; [|exact Hsw]. intros En. apply Hc.
    + rewrite Ha. now apply Z.eqb_eq.
    + rewrite not_elem_of_cons in Hb. destruct Hb as [[Hb _]|Hb]; [congruence|]. now destruct Hb.
    + apply (Hsw v). rewrite En in Ev. exact Ev.
Qed.

Lemma rubout_shown n w v : screens_ok w -> znth (vts w) n = Some v -> ansi_state v = 0 -> shown w ->
  exists w', vt_write n [8; 32; 8] w = Ok w' /\ screens_ok w' /\ active_vt_idx w' = active_vt_idx w /\ shown w'.
Proof.
  intros Hw Ev Hst Hsh. pose proof (znth_Some _ _ _ Ev) as Hn. rewrite (sc_vts _ Hw) in Hn. unfold vt_write.
  destruct (Z.ltb_spec n 0), (Z.leb_spec MAX_VTS n); try lia. cbn [orb].
  destruct (write_bytes_spec n [8; 32; 8] w Hw Hn) as (w' & E & Hw' & Hi & _ & Hs). exists w'. split; [exact E|]. split; [exact Hw'|]. split; [exact Hi|].
  destruct (Z.eq_dec n (active_vt_idx w)) as [En|Hne]; [|now apply Hs; [right|]].
  destruct (sc_each _ Hw n v Ev) as [Hv Ha]. rewrite En, Z.eqb_refl in Ha. rewrite En in Ev.
  destruct (rubout_spec v (adapter w) Hv (sc_vga _ Hw) Hst Ha (Hsh v Ev)) as (v1 & g1 & v2 & g2 & v3 & g3 & E1 & E2 & E3 & Hc & _).
  assert (Hlen : 0 <= n < zlen (vts w)) by (now rewrite (sc_vts _ Hw)).
  cbn [write_bytes] in E. cbn [serial_puts vts adapter] in E. rewrite <- En in Ev. rewrite Ev in E. cbn [of_opt obind] in E. rewrite E1 in E. cbn [obind] in E.
  cbn [put_vt serial_puts vts adapter] in E. rewrite znth_zset_eq in E by exact Hlen. cbn [of_opt obind] in E. rewrite E2 in E. cbn [obind put_vt serial_puts vts adapter] in E.
  rewrite zset_zset, znth_zset_eq in E by exact Hlen. cbn [of_opt obind] in E. rewrite E3 in E. cbn [obind put_vt serial_puts vts adapter] in E. injection E as <-.
  intros u Eu. cbn in Eu |- *. rewrite <- En, !zset_zset, znth_zset_eq in Eu by exact Hlen. now injection Eu as <-.
Qed.

(** ** Writing text *)
Definition plain_text (c : Z) : Prop := plain c /\ c <> 27.

(** [v'] is [v] with [text] printed at the cursor. *)
Record printed (v v' : vt) (text : list Z) : Prop := {
  pr_pos : pos v' = pos v + zlen text;
  pr_cells k : znth (buffer v') k = match znth text (k - pos v) with Some c => Some (cell (current_attr v) c) | None => znth (buffer v) k end;
  pr_attr : current_attr v' = current_attr v /\ ansi_state v' = ansi_state v
}.

Lemma printed_cons v v1 v' c text : 0 <= pos v < zlen (buffer v) ->
  buffer v1 = zset (buffer v) (pos v) (cell (current_attr v) c) -> pos v1 = pos v + 1 -> current_attr v1 = current_attr v -> ansi_state v1 = ansi_state v ->
  printed v1 v' text -> printed v v' (c :: text).
Proof.
  intros Hp Hb Hp1 Ha Hst [P1 P2 P3]. constructor; [rewrite P1, Hp1; unfold zlen; cbn [length]; lia| |destruct P3; split; congruence].
  intros k. rewrite P2, Hp1, Ha, Hb. destruct (Z.eq_dec k (pos v)) as [->|Hne].
  - rewrite Z.sub_diag, znth_None by lia. rewrite znth_zset_eq by exact Hp. reflexivity.
  - rewrite znth_zset_ne by congruence. unfold znth. destruct (Z.leb_spec 0 (k - (pos v + 1))), (Z.leb_spec 0 (k - pos v)); try lia; [|reflexivity].
    replace (Z.to_nat (k - pos v)) with (S (Z.to_nat (k - (pos v + 1)))) by lia. reflexivity.
Qed.

Lemma write_text_spec n text : forall w v, screens_ok w -> 0 <= n < MAX_VTS -> znth (vts w) n = Some v -> ansi_state v = 0 -> Forall plain_text text ->
  pos v + zlen text < SIZE ->
  exists w' v', write_bytes n text w = Ok w' /\ znth (vts w') n = Some v' /\ printed v v' text.
Proof.
  induction text as [|c text IH]; intros w v Hw Hn Ev Hst Ht Hlt; cbn [write_bytes].
  - exists w, v. split; [reflexivity|]. split; [exact Ev|]. constructor; [unfold zlen; cbn; lia| |auto]. intros k. now rewrite (znth_None (@nil Z)) by (unfold zlen; cbn; lia).
  - inversion Ht as [|? ? [Hp H27] Ht0]; subst; clear Ht; rename Ht0 into Ht. unfold zlen in Hlt. cbn [length] in Hlt. cbn [serial_puts vts adapter]. rewrite Ev. cbn [of_opt obind].
    destruct (sc_each _ Hw n v Ev) as [Hv Ha]. assert (Hpos : 0 <= pos v < SIZE) by (pose proof Hv as [_ Hx Hy]; clear - Hx Hy; unfold pos, SIZE, VGA_WIDTH, VGA_HEIGHT in *; lia).
    destruct (putc_spec c v (adapter w) Hv (sc_vga _ Hw)) as (v1 & g1 & E & M & _ & S1 & _ & _ & A1 & H1 & _). destruct (H1 Hp ltac:(lia)) as (B1 & P1 & _).
    assert (Ep : vt_parse_ansi c v (adapter w) = Ok (v1, g1)) by (unfold vt_parse_ansi; rewrite Hst; cbn [Z.eqb]; now rewrite (proj2 (Z.eqb_neq _ _) H27)).
    rewrite Ep. cbn [obind]. set (w0 := serial_puts w _). assert (Hw0 : screens_ok w0) by (destruct Hw; constructor; auto).
    destruct (put_vt_ok w0 n v v1 g1 Hw0 Ev M) as [Hw1 _].
    destruct (IH (put_vt w0 n v1 g1) v1 Hw1 Hn) as (w' & v' & E' & Ev' & Hpr); [cbn; rewrite znth_zset_eq; [reflexivity|now rewrite (sc_vts _ Hw)]|congruence|exact Ht|unfold zlen; lia|].
    exists w', v'. split; [exact E'|]. split; [exact Ev'|]. apply (printed_cons v v1); auto. rewrite (v_size _ Hv). exact Hpos.
Qed.

(** ** Switching and initialisation *)
Lemma vt_switch_spec n w : screens_ok w ->
  exists w', vt_switch n w = Ok w' /\ screens_ok w' /\ (shown w -> shown w') /\ active_vt_idx w' = (if (0 <=? n) && (n <? MAX_VTS) then n else active_vt_idx w) /\
    forall i v, znth (vts w) i = Some v -> exists v', znth (vts w') i = Some v' /\ v' = set_active v (i =? active_vt_idx w').
Proof.
  intros Hw. assert (Hid : forall i v, znth (vts w) i = Some v -> v = set_active v (i =? active_vt_idx w)).
  { intros i v Ev. destruct (sc_each _ Hw i v Ev) as [_ Ha]. rewrite <- Ha. now destruct v. }
  unfold vt_switch. destruct (Z.ltb_spec n 0), (Z.leb_spec MAX_VTS n), (Z.leb_spec 0 n), (Z.ltb_spec n MAX_VTS); try lia; cbn [orb andb];
    try (exists w; split; [reflexivity|]; split; [exact Hw|]; split; [auto|]; split; [reflexivity|]; eauto).
  destruct (Z.eqb_spec n (active_vt_idx w)) as [->|Hne]; [exists w; split; [reflexivity|]; split; [exact Hw|]; split; [auto|]; split; [reflexivity|]; eauto|].
  pose proof (sc_idx _ Hw) as Hidx. pose proof (sc_vts _ Hw) as Hlen.
  destruct (znth_is_Some (vts w) (active_vt_idx w)) as [o Eo]; [lia|]. destruct (znth_is_Some (vts w) n) as [v Ev]; [lia|]. rewrite Eo. cbn [of_opt obind put_vt vts adapter].
  rewrite znth_zset_ne, Ev by congruence. cbn [of_opt obind]. destruct (sc_each _ Hw n v Ev) as [Hv _]. destruct (sc_each _ Hw _ o Eo) as [Ho _].
  destruct (vga_blit_spec (buffer (set_active v true)) (adapter w) (sc_vga _ Hw) (v_size _ Hv)) as (g & -> & Hg & Hc). cbn [obind]. eexists. split; [reflexivity|].
  assert (Hall : forall i u, znth (vts w) i = Some u -> znth (zset (zset (vts w) (active_vt_idx w) (set_active o false)) n (set_active v true)) i = Some (set_active u (i =? n))).
  { intros i u Eu. destruct (Z.eq_dec i n) as [->|Hi]; [rewrite znth_zset_eq by (rewrite zlen_zset; lia); rewrite Z.eqb_refl; congruence|].
    rewrite znth_zset_ne, (proj2 (Z.eqb_neq _ _) Hi) by congruence. destruct (Z.eq_dec i (active_vt_idx w)) as [->|Hi'].
    - rewrite znth_zset_eq by lia. congruence.
    - rewrite znth_zset_ne, Eu by congruence. rewrite (Hid i u Eu) at 1. now rewrite (proj2 (Z.eqb_neq _ _) Hi'). }
  split; [|split; [|split; [reflexivity|intros i u Eu; cbn; eauto]]].
  - constructor; cbn; auto; [now rewrite !zlen_zset|]. intros i u Eu. destruct (znth_is_Some (vts w) i) as [u0 Eu0].
    { apply znth_Some in Eu. now rewrite !zlen_zset in Eu. }
    rewrite (Hall i u0 Eu0) in Eu. injection Eu as <-. split; [|reflexivity]. destruct (sc_each _ Hw i u0 Eu0) as [Hu _]. destruct Hu. constructor; auto.
  - intros _ u Eu. cbn in Eu |- *. rewrite (Hall n v Ev) in Eu. injection Eu as <-. exact Hc.
Qed.

(** The static state before [vt_init], with the adapter memory [mem]. *)
Definition vt0 : vt := mkVt (replicate (Z.to_nat SIZE) 0) 0 0 0 0 0 0 false.
Definition screens0 (mem : list Z) : screens := mkScreens (replicate (Z.to_nat MAX_VTS) vt0) 0 (mkVga false mem 0 0) [].

Lemma vt_init_spec mem : zlen mem = SIZE ->
  exists w, vt_init (screens0 mem) = Ok w /\ screens_ok w /\ shown w /\ (forall k v, znth (vts w) k = Some v -> ansi_state v = 0 /\ pos v = 0).
Proof.
  intros Hm. unfold vt_init.
  set (body := fun i w => let* v := of_opt (znth (vts w) i) in _).
  destruct (for_each_inv (fun i w => zlen (vts w) = MAX_VTS /\ active_vt_idx w = 0 /\ adapter w = mkVga true mem 0 0 /\
      (forall k v, znth (vts w) k = Some v -> zlen (buffer v) = SIZE /\ (k < i -> (vt_ok v /\ active v = (k =? 0)) /\ ansi_state v = 0 /\ pos v = 0)))
    body (Z.to_nat MAX_VTS) 0 (mkScreens (vts (screens0 mem)) 0 (vga_init (adapter (screens0 mem))) [])) as (w & E & Hl & Hi & Hg & Hall).
  - split; [reflexivity|]. split; [reflexivity|]. split; [reflexivity|]. intros k v Ev. cbn [vts] in Ev. pose proof (znth_Some _ _ _ Ev) as Hk.
    unfold screens0 in Ev, Hk. cbn [vts] in Ev, Hk. rewrite zlen_replicate in Hk by (unfold MAX_VTS; lia). rewrite znth_replicate in Ev by exact Hk. injection Ev as <-.
    split; [reflexivity|]. lia.
  - intros j w Hj (Hl & Hi & Hg & Hall). unfold body. destruct (znth_is_Some (vts w) j) as [v Ev]; [unfold MAX_VTS in *; lia|]. rewrite Ev. cbn [of_opt obind].
    destruct (Hall j v Ev) as [Hb _]. destruct (vt_clear_spec (set_active (set_attr v (Z.lor VGA_COLOR_LIGHT_GREY (Z.shiftl VGA_COLOR_BLACK 4))) (j =? 0)) Hb) as (b & -> & Hlb & _).
    cbn [obind]. eexists. split; [reflexivity|]. cbn [put_vt vts active_vt_idx adapter]. rewrite zlen_zset. split; [exact Hl|]. split; [exact Hi|]. split; [exact Hg|].
    intros k u Eu. destruct (Z.eq_dec k j) as [->|Hne].
    + rewrite znth_zset_eq in Eu by (unfold MAX_VTS in *; lia). injection Eu as <-. cbn. split; [exact Hlb|]. intros _. split; [|split; reflexivity]. split; [|reflexivity].
      constructor; cbn; auto; unfold VGA_WIDTH, VGA_HEIGHT; lia.
    + rewrite znth_zset_ne in Eu by congruence. destruct (Hall k u Eu) as [Hu1 Hu2]. split; [exact Hu1|]. intros Hk. apply Hu2. lia.
  - cbn [adapter screens0 vts active_vt_idx serial_out] in E |- *. rewrite E. cbn [obind].
    destruct (znth_is_Some (vts w) 0) as [v Ev]; [unfold MAX_VTS in *; lia|]. rewrite Ev. cbn [of_opt obind].
    destruct (vga_blit_spec (buffer v) (adapter w)) as (g & -> & Hg' & Hc); [rewrite Hg; split; [reflexivity|exact Hm]|exact (proj1 (Hall 0 v Ev))|]. cbn [obind].
    eexists. split; [reflexivity|]. split.
    + constructor; cbn; rewrite ?Hi; auto; [unfold MAX_VTS; lia|]. intros k u Eu. pose proof (znth_Some _ _ _ Eu). apply (proj1 (proj2 (Hall k u Eu) ltac:(unfold MAX_VTS in *; lia))).
    + split; [intros u Eu; cbn in Eu |- *; rewrite Hi in Eu; congruence|]. intros k u Eu. pose proof (znth_Some _ _ _ Eu). cbn in *.
      apply (proj2 (proj2 (Hall k u Eu) ltac:(unfold MAX_VTS in *; lia))).
Qed.

(** ** Any use of the terminals *)
Inductive vt_op : Type := Write (n : Z) (data : list Z) | Switch (n : Z).

Fixpoint run_vt (ops : list vt_op) (w : screens) : outcome screens :=
  match ops with
  | [] => Ok w
  | Write n data :: ops => let* w := vt_write n data w in run_vt ops w
  | Switch n :: ops => let* w := vt_switch n w in run_vt ops w
  end.

(** No backspace is written. *)
Definition no_backspace (o : vt_op) : Prop := match o with Write _ data => 8 ∉ data | Switch _ => True end.

Lemma vt_write_spec n data w : screens_ok w ->
  exists w', vt_write n data w = Ok w' /\ screens_ok w' /\ active_vt_idx w' = active_vt_idx w /\
    (forall i, i <> n -> znth (vts w') i = znth (vts w) i) /\ (8 ∉ data \/ n <> active_vt_idx w -> shown w -> shown w').
Proof.
  intros Hw. unfold vt_write. destruct (Z.ltb_spec n 0), (Z.leb_spec MAX_VTS n); cbn [orb]; try (exists w; split; [reflexivity|]; auto).
  now apply write_bytes_spec.
Qed.

Lemma run_vt_spec ops : forall w, screens_ok w ->
  exists w', run_vt ops w = Ok w' /\ screens_ok w' /\ (Forall no_backspace ops -> shown w -> shown w').
Proof.
  induction ops as [|[n data|n] ops IH]; intros w Hw; cbn [run_vt]; [exists w; auto|..].
  - destruct (vt_write_spec n data w Hw) as (w1 & -> & Hw1 & _ & _ & Hs). cbn [obind]. destruct (IH w1 Hw1) as (w' & E & Hw' & Hs').
    exists w'. split; [exact E|]. split; [exact Hw'|]. intros Hn Hsh. inversion Hn; subst. auto.
  - destruct (vt_switch_spec n w Hw) as (w1 & -> & Hw1 & Hs & _). cbn [obind]. destruct (IH w1 Hw1) as (w' & E & Hw' & Hs').
    exists w'. split; [exact E|]. split; [exact Hw'|]. intros Hn Hsh. inversion Hn; subst. auto.
Qed.

(** C28: From [vt_init] on, writing any bytes (control characters and malformed
    escape sequences included) to any terminal and switching terminals in any order
    never leaves a screen buffer or the adapter memory, keeps every cursor on the
    screen and exactly the selected terminal active; unless a backspace is written,
    the adapter always shows the buffer of the active terminal. *)
Theorem vt_screens_safe mem ops : zlen mem = SIZE ->
  exists w0 w, vt_init (screens0 mem) = Ok w0 /\ run_vt ops w0 = Ok w /\ screens_ok w /\ (Forall no_backspace ops -> shown w).
Proof.
  intros Hm. destruct (vt_init_spec mem Hm) as (w0 & E0 & Hw0 & Hs0 & _). destruct (run_vt_spec ops w0 Hw0) as (w & E & Hw & Hs). exists w0, w. auto.
Qed.

Lemma vt_screens_safe_witness :
  exists w0 w, vt_init (screens0 (replicate (Z.to_nat SIZE) 0)) = Ok w0 /\ run_vt [Write 0 [27; 91; 50; 59; 104; 72; 65]; Switch 3] w0 = Ok w /\ shown w.
Proof.
  destruct (vt_screens_safe (replicate (Z.to_nat SIZE) 0) [Write 0 [27; 91; 50; 59; 104; 72; 65]; Switch 3] eq_refl) as (w0 & w & E0 & E & _ & Hs).
  exists w0, w. split; [exact E0|]. split; [exact E|]. apply Hs.
  constructor; [|constructor; [exact I|constructor]].
  assert (Hb : bool_decide (8 ∉ [27; 91; 50; 59; 104; 72; 65]) = true) by (vm_compute; reflexivity). exact (bool_decide_eq_true_1 _ Hb).
Defined.

(** Text without control characters that ends before the end of the screen is
    printed cell by cell from the cursor on with the current attribute; the cursor
    ends behind it and no other cell and no other terminal changes. *)
Theorem vt_write_text n text w v :
  screens_ok w -> znth (vts w) n = Some v -> ansi_state v = 0 -> Forall plain_text text -> pos v + zlen text < SIZE ->
  exists w' v', vt_write n text w = Ok w' /\ znth (vts w') n = Some v' /\ printed v v' text /\ (forall i, i <> n -> znth (vts w') i = znth (vts w) i).
Proof.
  intros Hw Ev Hst Ht Hlt. pose proof (znth_Some _ _ _ Ev) as Hn. rewrite (sc_vts _ Hw) in Hn.
  destruct (write_text_spec n text w v Hw Hn Ev Hst Ht Hlt) as (w' & v' & E & Ev' & Hp).
  destruct (write_bytes_spec n text w Hw Hn) as (w'' & E' & _ & _ & Ho & _). exists w', v'. unfold vt_write.
  destruct (Z.ltb_spec n 0), (Z.leb_spec MAX_VTS n); try lia. cbn [orb]. split; [exact E|]. split; [exact Ev'|]. split; [exact Hp|]. rewrite E in E'. injection E' as <-. exact Ho.
Qed.

Lemma vt_write_text_witness :
  exists w v w' v', vt_init (screens0 (replicate (Z.to_nat SIZE) 0)) = Ok w /\ znth (vts w) 1 = Some v /\
    vt_write 1 [72; 105] w = Ok w' /\ znth (vts w') 1 = Some v' /\ printed v v' [72; 105].
Proof.
  destruct (vt_init_spec (replicate (Z.to_nat SIZE) 0) eq_refl) as (w & E & Hw & _ & Hz).
  destruct (znth_is_Some (vts w) 1) as [v Ev]; [rewrite (sc_vts w Hw); unfold MAX_VTS; lia|]. destruct (Hz 1 v Ev) as [H1 H2].
  assert (Ht : Forall plain_text [72; 105]) by (repeat constructor; discriminate).
  destruct (vt_write_text 1 [72; 105] w v Hw Ev H1 Ht ltac:(rewrite H2; reflexivity)) as (w' & v' & E' & Ev' & Hp & _).
  exists w, v, w', v'. auto.
Defined.

(** The terminals and the adapter as [vt_init] leaves them on a blank screen. *)
Definition blank_vt (i : Z) : vt := mkVt (replicate (Z.to_nat SIZE) (cell 7 32)) 0 0 7 0 0 0 (i =? 0).
Definition blank_screens : screens :=
  mkScreens [blank_vt 0; blank_vt 1; blank_vt 2; blank_vt 3] 0 (mkVga true (replicate (Z.to_nat SIZE) (cell 7 32)) 0 0) [].

(** A backspace clears the cell in the buffer of the terminal but not on the screen. *)
Lemma backspace_not_shown :
  match vt_write 0 [65; 8] blank_screens with
  | Ok w => match znth (vts w) 0 with Some v => znth (buffer v) 0 = Some (cell 7 32) /\ znth (cells (adapter w)) 0 = Some (cell 7 65) | None => False end
  | Stop _ => False
  end.
Proof. vm_compute. split; reflexivity. Qed.
