(* ===== verification/Tty.v ===== *)
(** * Terminals (src/kernel/fs/tty.c)

    A terminal collects what is typed in a line buffer and hands out complete
    lines; readers without a line block on its wait queue, which is the field
    [wait_queues] of the state of the threads. *)

From S2P Require Import Prelude Interfaces Bitmap CString Kfs Vfs Thread Vt.

Definition TTY_LINE_MAX : Z := 256.
Definition MAX_TTYS : Z := MAX_VTS.

Record tty : Type := mkTty { tty_buf : list Z; tty_len : Z }.

(** The terminals with the threads and the screens they work on. *)
Record console (V A : Type) : Type := mkConsole { con_tasks : tasks V A; ttys : list tty; con_screens : screens }.
Arguments mkConsole {V A}.
Arguments con_tasks {V A}.
Arguments ttys {V A}.
Arguments con_screens {V A}.

(** [tty_get_vnode]: the vnodes of terminals are named by their numbers. *)
Definition tty_get_vnode (tty_num : Z) : option Z :=
  if (tty_num <? 0) || (MAX_TTYS <=? tty_num) then None else Some tty_num.

(** The position of the first newline in [buf[i], ..., buf[i + n - 1]]. *)
Fixpoint find_newline (n : nat) (i : Z) (buf : list Z) : outcome (option Z) :=
  match n with
  | O => Ok None
  | S k => let* c := load buf i in if c =? 10 then Ok (Some i) else find_newline k (i + 1) buf
  end.

(** The bytes [buf[i], ..., buf[i + n - 1]]: the source of a [memcpy]. *)
Fixpoint load_bytes (n : nat) (i : Z) (buf : list Z) : outcome (list Z) :=
  match n with
  | O => Ok []
  | S k => let* c := load buf i in let* r := load_bytes k (i + 1) buf in Ok (c :: r)
  end.

Section Operations.
Context {V A : Type} `{ObjectHeap A}.
Context (code : labels).
Implicit Types c : console V A.

Definition put_tty c (n : Z) (t : tty) : console V A := mkConsole (con_tasks c) (zset (ttys c) n t) (con_screens c).
Definition put_tasks c (s : tasks V A) : console V A := mkConsole s (ttys c) (con_screens c).

Definition tty_init c : outcome (console V A) :=
  let* w := vt_init (con_screens c) in
  let c := mkConsole (con_tasks c) (ttys c) w in
  for_each (Z.to_nat MAX_TTYS) 0 (fun i c =>
    let* t := of_opt (znth (ttys c) i) in
    let s := con_tasks c in
    Ok (put_tasks (put_tty c i (mkTty (tty_buf t) 0)) (with_wait_queues s (zset (wait_queues s) i 0)))) c.

(** The echo: [vt_write] on the terminal [n]. *)
Definition echo c (n : Z) (data : list Z) : outcome (console V A) :=
  let* w := vt_write n data (con_screens c) in Ok (mkConsole (con_tasks c) (ttys c) w).

(** Waking the threads from [curr] on. *)
Fixpoint wake_loop (fuel : nat) (m : gmap Z thread) (curr : Z) : outcome (gmap Z thread) :=
  if curr =? 0 then Ok m
  else
    match fuel with
    | O => Stop NoFuel
    | S k =>
      let* t := of_opt (m !! curr) in
      let next := t_next_waiter t in
      wake_loop k (<[curr := set_next_waiter 0 (set_state THREAD_READY t)]> m) next
    end.

Definition tty_receive_char (ch : Z) c : outcome (console V A) :=
  let active_idx := vt_get_active (con_screens c) in
  let* t := of_opt (znth (ttys c) active_idx) in
  if ch =? 8 then
    if 0 <? tty_len t then
      let* last := load (tty_buf t) (tty_len t - 1) in
      if last =? 10 then Ok c
      else echo (put_tty c active_idx (mkTty (tty_buf t) (tty_len t - 1))) active_idx [8; 32; 8]
    else Ok c
  else if ch =? 10 then
    let len := if TTY_LINE_MAX <=? tty_len t then TTY_LINE_MAX - 1 else tty_len t in
    let* b := store (tty_buf t) len 10 in
    let* c := echo (put_tty c active_idx (mkTty b (len + 1))) active_idx [10] in
    let s := con_tasks c in
    let* curr := of_opt (znth (wait_queues s) active_idx) in
    let* m := wake_loop (size (threads s)) (threads s) curr in
    Ok (put_tasks c (with_wait_queues (with_threads s m) (zset (wait_queues s) active_idx 0)))
  else if tty_len t <? TTY_LINE_MAX - 1 then
    let* b := store (tty_buf t) (tty_len t) ch in
    echo (put_tty c active_idx (mkTty b (tty_len t + 1))) active_idx [ch]
  else Ok c.

(** How one turn of the loop of [tty_read_vfs] ends: with bytes for the caller, or
    with the caller in the wait queue and the CPU given away; a blocked reader takes
    another turn when it runs again. *)
Inductive read_turn : Type := ReadDone (bytes : list Z) | ReadBlocked (r : switch).

Definition tty_read_vfs (tty_num count : Z) c : outcome (read_turn * console V A) :=
  let* t := of_opt (znth (ttys c) tty_num) in
  let* nl := find_newline (Z.to_nat (tty_len t)) 0 (tty_buf t) in
  match nl with
  | Some nl_pos =>
    let to_copy := if nl_pos + 1 <? count then nl_pos + 1 else count in
    let* bytes := load_bytes (Z.to_nat to_copy) 0 (tty_buf t) in
    let len := tty_len t - to_copy in
    let* b := for_each (Z.to_nat len) 0 (fun i b => let* x := load b (i + to_copy) in store b i x) (tty_buf t) in
    Ok (ReadDone bytes, put_tty c tty_num (mkTty b len))
  | None =>
    let s := con_tasks c in
    let curr := thread_current s in
    let* q := of_opt (znth (wait_queues s) tty_num) in
    let* s := upd_thread s curr (set_next_waiter q) in
    let s := with_wait_queues s (zset (wait_queues s) tty_num curr) in
    let* s := upd_thread s curr (set_state THREAD_BLOCKED) in
    let* (r, s) := schedule code s in
    Ok (ReadBlocked r, put_tasks c s)
  end.

Definition tty_write_vfs (tty_num : Z) (data : list Z) c : outcome (Z * console V A) :=
  let* c := echo c tty_num data in Ok (zlen data, c).

End Operations.
