(* ===== verification/TtyProofs.v ===== *)
(** * Correctness of the terminals

    A terminal implements a queue of lines with a line editor ([line_queue]); a
    thread waits on a terminal only while no complete line is there. *)

From S2P Require Import Prelude Interfaces Bitmap CString Kfs Vfs Thread ThreadProofs Vt VtProofs Tty.

(** ** Threads whose state and place in a queue change *)
Section Threads.
Context {V A : Type} `{ObjectHeapLaws A}.
Implicit Types s : tasks V A.

Definition rewaited s (m' : gmap Z thread) : Prop :=
  forall p, match threads s !! p with
            | Some t => exists w st, m' !! p = Some (set_next_waiter w (set_state st t)) /\
                (st = THREAD_RUNNING -> t_state t = THREAD_RUNNING) /\ (st = t_state t \/ is_Some (procs s !! t_process t))
            | None => m' !! p = None
            end.

Lemma ok_rewaited s l m' qs : tasks_ok s l -> rewaited s m' -> queues_ok m' qs -> tasks_ok (with_wait_queues (with_threads s m') qs) l.
Proof.
  intros O Hr Hq.
  assert (Hf : forall p t, threads s !! p = Some t -> exists w st, m' !! p = Some (set_next_waiter w (set_state st t)))
    by (intros p t Et; specialize (Hr p); rewrite Et in Hr; destruct Hr as (w & st & E & _); eauto).
  assert (Hb : forall p t', m' !! p = Some t' -> exists t w st, threads s !! p = Some t /\ t' = set_next_waiter w (set_state st t) /\
     (st = THREAD_RUNNING -> t_state t = THREAD_RUNNING) /\ (st = t_state t \/ is_Some (procs s !! t_process t))).
  { intros p t' Et'. specialize (Hr p). destruct (threads s !! p) as [t|]; [|congruence]. destruct Hr as (w & st & E & H1 & H2).
    exists t, w, st. split; [reflexivity|]. split; [congruence|]. auto. }
  assert (Ho : ring_objs m' l = ring_objs (threads s) l).
  { apply ring_objs_same; [|intros p; apply (ok_dom _ _ O)]. intros p t _ Et. destruct (Hf p t Et) as (w & st & E). eauto. }
  constructor; cbn; [apply O|..|exact (ok_heap _ _ O)| | | | | |exact (ok_rsp _ _ O)].
  - generalize (ok_linked _ _ O). apply linked_same. intros p t _ Et. destruct (Hf p t Et) as (w & st & E). eauto.
  - intros p. rewrite (ok_dom _ _ O). split; intros [t Et]; [destruct (Hf p t Et) as (w & st & E); eauto|].
    destruct (Hb p t Et) as (t0 & w & st & E & _). eauto.
  - exact (ok_current _ _ O).
  - intros p t' Et' Hst. destruct (Hb p t' Et') as (t & w & st & Et & -> & Hrun & _). apply (ok_running _ _ O p t Et), Hrun, Hst.
  - rewrite Ho. apply O.
  - intros p Hp. rewrite Ho in Hp. now apply (ok_held _ _ O).
  - exact Hq.
  - intros p t' Et' Hp. destruct (Hb p t' Et') as (t & w & st & Et & -> & _). exact (ok_frames _ _ O p t Et Hp).
  - intros p t' Et' Hst. destruct (Hb p t' Et') as (t & w & st & Et & -> & _ & [->|Hex]); [exact (ok_procs _ _ O p t Et Hst)|exact Hex].
Qed.

Lemma wake_loop_spec m l : forall q fuel, waiting m q l -> NoDup l -> (length l <= fuel)%nat ->
  exists m', wake_loop fuel m q = Ok m' /\ (forall p, p ∉ l -> m' !! p = m !! p) /\
    forall p t, p ∈ l -> m !! p = Some t -> m' !! p = Some (set_next_waiter 0 (set_state THREAD_READY t)).
Proof.
  revert m. induction l as [|p l IH]; intros m q fuel Hw Hnd Hf.
  - cbn in Hw. subst q. exists m. split; [now destruct fuel|]. split; [reflexivity|]. intros p t Hp. inversion Hp.
  - destruct Hw as (-> & Hp0 & t & Et & Hw). apply list.NoDup_cons in Hnd as [Hpl Hnd]. destruct fuel as [|fuel]; [cbn in Hf; lia|].
    cbn [wake_loop]. rewrite (proj2 (Z.eqb_neq _ _) Hp0), Et. cbn [of_opt obind].
    set (m1 := <[p := set_next_waiter 0 (set_state THREAD_READY t)]> m).
    destruct (IH m1 (t_next_waiter t) fuel) as (m' & E & H1 & H2); [|exact Hnd|cbn in Hf; lia|].
    { revert Hw. apply waiting_same. intros r u Hr Eu. exists u. split; [|reflexivity]. unfold m1. rewrite lookup_insert_ne; [exact Eu|congruence]. }
    exists m'. split; [exact E|]. split.
    + intros r Hr. apply not_elem_of_cons in Hr as [Hrp Hr]. rewrite H1 by exact Hr. unfold m1. now rewrite lookup_insert_ne by congruence.
    + intros r u [->|Hr]%elem_of_cons Eu.
      * rewrite H1 by exact Hpl. unfold m1. rewrite lookup_insert_eq. congruence.
      * apply H2; [exact Hr|]. unfold m1. rewrite lookup_insert_ne; [exact Eu|congruence].
Qed.

Lemma queues_split m qs ls i q : Forall2 (waiting m) qs ls -> znth qs i = Some q ->
  exists q1 q2 a li b, qs = q1 ++ q :: q2 /\ ls = a ++ li :: b /\ Forall2 (waiting m) q1 a /\ waiting m q li /\ Forall2 (waiting m) q2 b /\
    (forall v, zset qs i v = q1 ++ v :: q2) /\ znth qs i = Some q.
Proof.
  intros Hw Hi. pose proof Hi as Hi'. unfold znth in Hi'. destruct (Z.leb_spec 0 i) as [Hge|]; [|discriminate].
  pose proof (take_drop_middle qs (Z.to_nat i) q Hi') as Eq. set (q1 := take (Z.to_nat i) qs) in *. set (q2 := drop (S (Z.to_nat i)) qs) in *.
  rewrite <- Eq in Hw. apply Forall2_app_inv_l in Hw as (a & lb & Ha & Hb & ->). apply Forall2_cons_inv_l in Hb as (li & b & Hli & Hb & ->).
  exists q1, q2, a, li, b. split; [now symmetry|]. do 4 (split; [now auto|]). split; [|exact Hi]. intros v. unfold zset. destruct (Z.leb_spec 0 i); [|lia].
  rewrite <- Eq at 1. assert (Hlen : length q1 = Z.to_nat i) by (apply length_take_le; apply lookup_lt_Some in Hi'; lia).
  rewrite <- Hlen, list.insert_app_r_alt, Nat.sub_diag by lia. reflexivity.
Qed.

(** A list in which the middle element is exchanged. *)
Lemma znth_middle {X} (a : list X) y y' b n x : x <> y -> znth (a ++ y :: b) n = Some x -> znth (a ++ y' :: b) n = Some x.
Proof.
  intros Hne. unfold znth. destruct (0 <=? n); [|discriminate]. intros E. apply lookup_app_Some in E as [E|[Hge E]]; apply lookup_app_Some; [now left|right].
  split; [exact Hge|]. destruct (Z.to_nat n - length a)%nat; [|exact E]. cbn in E. congruence.
Qed.

Lemma znth_or_middle {X} (a : list X) y y' b n x : znth (a ++ y :: b) n = Some x ->
  znth (a ++ y' :: b) n = Some x \/ znth (a ++ y' :: b) n = Some y'.
Proof.
  unfold znth. destruct (0 <=? n); [|discriminate]. intros E. apply lookup_app_Some in E as [E|[Hge E]].
  - left. apply lookup_app_Some. now left.
  - destruct (Z.to_nat n - length a)%nat eqn:Ek; [right|left]; apply lookup_app_Some; right; (split; [exact Hge|]); rewrite Ek; [reflexivity|exact E].
Qed.

(** Every thread, dead ones included, belongs to a process. *)
Definition owned_threads s : Prop := forall p t, threads s !! p = Some t -> is_Some (procs s !! t_process t).

(** What a newline does to the queue [i]. *)
Lemma wake_queue s l i q : tasks_ok s l -> owned_threads s -> znth (wait_queues s) i = Some q ->
  exists m' li, wake_loop (size (threads s)) (threads s) q = Ok m' /\ waiting (threads s) q li /\
    tasks_ok (with_wait_queues (with_threads s m') (zset (wait_queues s) i 0)) l /\
    (forall p, p ∉ li -> m' !! p = threads s !! p) /\
    (forall p t, p ∈ li -> threads s !! p = Some t -> m' !! p = Some (set_next_waiter 0 (set_state THREAD_READY t))) /\
    (forall n p, p ∉ li -> queued_in (threads s) (wait_queues s) n p -> queued_in m' (zset (wait_queues s) i 0) n p).
Proof.
  intros O Ho Hi. destruct (ok_queues _ _ O) as (ls & Hw & Hnd & Hst).
  destruct (queues_split _ _ _ _ _ Hw Hi) as (q1 & q2 & a & li & b & Eq & -> & Ha & Hli & Hb & Hz & _).
  pose proof Hnd as Hnd'. rewrite concat_app in Hnd'. cbn [concat] in Hnd'. apply list.NoDup_app in Hnd' as (Hna & Hd1 & Hnd'). apply list.NoDup_app in Hnd' as (Hnl & Hd2 & Hnb).
  destruct (wake_loop_spec (threads s) li q (size (threads s)) Hli Hnl (waiting_length _ _ _ Hnl Hli)) as (m' & E & H1 & H2).
  assert (Hcat : forall p, p ∈ concat (a ++ [] :: b) -> p ∈ concat (a ++ li :: b) /\ p ∉ li).
  { intros p. rewrite !concat_app. cbn [concat app]. rewrite !elem_of_app. intros [Hp|Hp]; (split; [tauto|]); intros Hp'.
    - apply (Hd1 p Hp), elem_of_app. now left.
    - exact (Hd2 p Hp' Hp). }
  assert (Hw' : Forall2 (waiting m') (zset (wait_queues s) i 0) (a ++ [] :: b)).
  { rewrite Hz. apply Forall2_app; [|constructor; [reflexivity|]].
    - apply (queues_same (threads s)); [|exact Ha]. intros p t Hp Et. exists t. rewrite H1; [auto|]. apply (Hcat p). rewrite concat_app, elem_of_app. now left.
    - apply (queues_same (threads s)); [|exact Hb]. intros p t Hp Et. exists t. rewrite H1; [auto|]. apply (Hcat p). rewrite concat_app, elem_of_app. now right. }
  exists m', li. split; [exact E|]. split; [exact Hli|]. split; [|split; [exact H1|split; [exact H2|]]].
  2:{ intros n p Hp Hq. apply (queued_in_iff _ _ _ n p Hw) in Hq as (l0 & El & Hl0). apply (queued_in_iff _ _ _ n p Hw'). exists l0. split; [|exact Hl0].
      eapply znth_middle; [|exact El]. now intros ->. }
  apply ok_rewaited; [exact O| |].
  - intros p. destruct (threads s !! p) as [t|] eqn:Et.
    + destruct (decide (p ∈ li)) as [Hp|Hp]; [exists 0, THREAD_READY; split; [now apply H2|]; split; [discriminate|right; eauto]|].
      exists (t_next_waiter t), (t_state t). split; [rewrite H1, Et by exact Hp; now destruct t|auto].
    + rewrite H1; [exact Et|]. intros Hp. destruct (waiting_mem _ _ _ _ Hli Hp) as [[u Eu] _]. congruence.
  - exists (a ++ [] :: b). split; [|split].
    + exact Hw'.
    + rewrite concat_app. cbn [concat app]. apply list.NoDup_app. split; [exact Hna|]. split; [|exact Hnb]. intros p Hp Hp'. apply (Hd1 p Hp), elem_of_app. now right.
    + intros p t Hp Et. destruct (Hcat p Hp) as [Hc Hn]. rewrite H1 in Et by exact Hn. now apply (Hst p).
Qed.

(** What a reader without a line does before it gives the CPU away. *)
Lemma enqueue_current s l i q t : tasks_ok s l -> threads s !! current s = Some t -> t_state t = THREAD_RUNNING -> is_Some (procs s !! t_process t) ->
  znth (wait_queues s) i = Some q ->
  let m' := <[current s := set_next_waiter q (set_state THREAD_BLOCKED t)]> (threads s) in
  let qs' := zset (wait_queues s) i (current s) in
  tasks_ok (with_wait_queues (with_threads s m') qs') l /\ queued_in m' qs' i (current s) /\
  (forall n p, queued_in (threads s) (wait_queues s) n p -> queued_in m' qs' n p).
Proof.
  intros O Et Hrun Hp Hi. destruct (ok_queues _ _ O) as (ls & Hw & Hnd & Hst).
  destruct (queues_split _ _ _ _ _ Hw Hi) as (q1 & q2 & a & li & b & Eq & -> & Ha & Hli & Hb & Hz & _).
  set (c := current s) in *. set (t' := set_next_waiter q (set_state THREAD_BLOCKED t)).
  assert (Hc : c ∉ concat (a ++ li :: b)) by (intros Hc; destruct (Hst c t Hc Et); congruence).
  rewrite concat_app, elem_of_app in Hc. cbn [concat] in Hc. rewrite elem_of_app in Hc.
  assert (Hsame : forall l' : list Z, c ∉ l' -> forall p u, p ∈ l' -> threads s !! p = Some u -> exists u', <[c := t']> (threads s) !! p = Some u' /\ t_next_waiter u' = t_next_waiter u).
  { intros l' Hcl p u Hpl Eu. exists u. rewrite lookup_insert_ne; [auto|]. intros ->. contradiction. }
  assert (Hw' : Forall2 (waiting (<[c := t']> (threads s))) (zset (wait_queues s) i c) (a ++ (c :: li) :: b)).
  { rewrite Hz. apply Forall2_app; [|constructor].
    - apply (queues_same (threads s)); [|exact Ha]. apply Hsame. tauto.
    - split; [reflexivity|]. split; [exact (ok_nonnull _ _ _ O (ok_current _ _ O))|]. exists t'. split; [apply lookup_insert_eq|].
      apply (waiting_same (threads s)); [|exact Hli]. apply Hsame. tauto.
    - apply (queues_same (threads s)); [|exact Hb]. apply Hsame. tauto. }
  split; [|split].
  2:{ exists c, (c :: li). split; [apply znth_zset_eq, (znth_Some _ _ _ Hi)|]. split; [|left]. split; [reflexivity|].
      split; [exact (ok_nonnull _ _ _ O (ok_current _ _ O))|]. exists t'. split; [apply lookup_insert_eq|].
      apply (waiting_same (threads s)); [|exact Hli]. apply Hsame. tauto. }
  2:{ intros n p Hq. apply (queued_in_iff _ _ _ n p Hw) in Hq as (l0 & El & Hl0). apply (queued_in_iff _ _ _ n p Hw').
      destruct (decide (l0 = li)) as [->|Hne]; [|exists l0; split; [now apply (znth_middle a li)|exact Hl0]].
      destruct (znth_or_middle a li (c :: li) b n li El) as [E|E]; eexists; (split; [exact E|]); [exact Hl0|now right]. }
  apply ok_rewaited; [exact O| |].
  - intros p. destruct (decide (p = c)) as [->|Hne].
    + rewrite Et, lookup_insert_eq. exists q, THREAD_BLOCKED. split; [reflexivity|]. split; [discriminate|now right].
    + rewrite lookup_insert_ne by congruence. destruct (threads s !! p) as [u|]; [|reflexivity].
      exists (t_next_waiter u), (t_state u). split; [now destruct u|auto].
  - exists (a ++ (c :: li) :: b). split; [|split].
    + exact Hw'.
    + rewrite concat_app in Hnd |- *. cbn [concat] in Hnd |- *. rewrite <- !app_comm_cons.
      rewrite <- (Permutation_middle (concat a) (li ++ concat b) c). apply list.NoDup_cons. split; [|exact Hnd]. rewrite !elem_of_app. tauto.
    + intros p u Hpc Eu. destruct (decide (p = c)) as [->|Hne]; [rewrite lookup_insert_eq in Eu; injection Eu as <-; now left|].
      rewrite lookup_insert_ne in Eu by congruence. apply (Hst p u); [|exact Eu]. rewrite concat_app, elem_of_app in Hpc |- *. cbn [concat] in Hpc |- *.
      rewrite elem_of_app, elem_of_cons in Hpc. rewrite elem_of_app. tauto.
Qed.

End Threads.

(** ** The line buffer *)
Record tty_ok (t : tty) (l : list Z) : Prop := {
  tt_buf : zlen (tty_buf t) = TTY_LINE_MAX;
  tt_len : tty_len t = zlen l;
  tt_max : zlen l <= TTY_LINE_MAX;
  tt_bytes : firstn (length l) (tty_buf t) = l
}.

Lemma tty_znth t l i : tty_ok t l -> 0 <= i < zlen l -> znth (tty_buf t) i = znth l i.
Proof.
  intros [H1 H2 H3 H4] Hi. rewrite <- H4. unfold znth, zlen in *. destruct (Z.leb_spec 0 i); [|lia]. rewrite lookup_take_lt by lia. reflexivity.
Qed.

Lemma tty_ok_intro t l : zlen (tty_buf t) = TTY_LINE_MAX -> tty_len t = zlen l -> zlen l <= TTY_LINE_MAX ->
  (forall i, 0 <= i < zlen l -> znth (tty_buf t) i = znth l i) -> tty_ok t l.
Proof.
  intros H1 H2 H3 H4. constructor; auto. assert (Hz : zlen (firstn (length l) (tty_buf t)) = zlen l) by (unfold zlen in *; rewrite length_take; lia).
  apply znth_ext; [exact Hz|]. rewrite Hz. intros i Hi. rewrite <- H4 by exact Hi. unfold znth, zlen in *.
  destruct (Z.leb_spec 0 i); [|lia]. apply lookup_take_lt. lia.
Qed.

Lemma zlen_snoc {X} (l : list X) x : zlen (l ++ [x]) = zlen l + 1.
Proof. unfold zlen. rewrite length_app. cbn. lia. Qed.

Lemma znth_snoc {X} (l : list X) x i : 0 <= i <= zlen l -> znth (l ++ [x]) i = if i =? zlen l then Some x else znth l i.
Proof.
  unfold znth, zlen. intros Hi. destruct (Z.leb_spec 0 i); [|lia]. destruct (Z.eqb_spec i (Z.of_nat (length l))) as [->|Hne].
  - rewrite Nat2Z.id, lookup_app_r, Nat.sub_diag by lia. reflexivity.
  - now rewrite lookup_app_l by lia.
Qed.

Lemma tty_push t l c : tty_ok t l -> zlen l < TTY_LINE_MAX ->
  exists b, store (tty_buf t) (tty_len t) c = Ok b /\ tty_ok (mkTty b (tty_len t + 1)) (l ++ [c]).
Proof.
  intros T Hl. pose proof (zlen_nonneg l). destruct T as [H1 H2 H3 H4] eqn:ET. clear ET. rewrite H2. exists (zset (tty_buf t) (zlen l) c).
  split; [apply store_ok; lia|]. apply tty_ok_intro; cbn; rewrite ?zlen_zset, ?zlen_snoc; auto; [lia|].
  intros i Hi. rewrite znth_snoc by lia. destruct (Z.eqb_spec i (zlen l)) as [->|Hne]; [apply znth_zset_eq; lia|].
  rewrite znth_zset_ne by congruence. apply (tty_znth t l); [constructor; auto|lia].
Qed.

Lemma tty_pop t l c : tty_ok t (l ++ [c]) -> load (tty_buf t) (tty_len t - 1) = Ok c /\ tty_ok (mkTty (tty_buf t) (tty_len t - 1)) l.
Proof.
  intros T. pose proof (zlen_nonneg l). pose proof (tt_len _ _ T) as Hlen. pose proof (tt_max _ _ T) as Hmax. rewrite zlen_snoc in Hlen, Hmax. split.
  - unfold load. rewrite (tty_znth t (l ++ [c])), znth_snoc by (rewrite ?zlen_snoc; (exact T || lia)). now replace (tty_len t - 1 =? zlen l) with true by (symmetry; apply Z.eqb_eq; lia).
  - apply tty_ok_intro; cbn; [apply T|lia|lia|]. intros i Hi. rewrite (tty_znth t (l ++ [c])), znth_snoc by (rewrite ?zlen_snoc; (exact T || lia)).
    destruct (Z.eqb_spec i (zlen l)); [lia|reflexivity].
Qed.

Lemma find_newline_spec t l n : forall i, tty_ok t l -> i + Z.of_nat n = zlen l -> 0 <= i ->
  match find_newline n i (tty_buf t) with
  | Ok (Some k) => i <= k < zlen l /\ znth l k = Some 10 /\ (forall j, i <= j < k -> znth l j <> Some 10)
  | Ok None => forall j, i <= j < zlen l -> znth l j <> Some 10
  | Stop _ => False
  end.
Proof.
  induction n as [|n IH]; intros i T Hn Hi; cbn [find_newline]; [intros j Hj; lia|].
  destruct (znth_is_Some l i ltac:(lia)) as [x Ex]. unfold load. rewrite (tty_znth t l i T) by lia. rewrite Ex. cbn [of_opt obind].
  destruct (Z.eqb_spec x 10) as [->|Hx]; [split; [lia|]; split; [exact Ex|]; intros j Hj; lia|].
  pose proof (IH (i + 1) T ltac:(lia) ltac:(lia)) as HI. destruct (find_newline n (i + 1) (tty_buf t)) as [[k|]|]; [| |exact HI].
  - destruct HI as (H1 & H2 & H3). split; [lia|]. split; [exact H2|]. intros j Hj. destruct (Z.eq_dec j i) as [->|]; [congruence|]. apply H3. lia.
  - intros j Hj. destruct (Z.eq_dec j i) as [->|]; [congruence|]. apply HI. lia.
Qed.

Lemma load_bytes_spec t l n : forall i, tty_ok t l -> 0 <= i -> i + Z.of_nat n <= zlen l ->
  load_bytes n i (tty_buf t) = Ok (firstn n (skipn (Z.to_nat i) l)).
Proof.
  induction n as [|n IH]; intros i T Hi Hn; cbn [load_bytes]; [reflexivity|].
  destruct (znth_is_Some l i ltac:(lia)) as [x Ex]. unfold load. rewrite (tty_znth t l i T), Ex by lia. cbn [of_opt obind]. rewrite IH by (auto; lia). cbn [obind].
  unfold znth in Ex. destruct (Z.leb_spec 0 i); [|discriminate]. rewrite (drop_S l x (Z.to_nat i) Ex). replace (Z.to_nat (i + 1)) with (S (Z.to_nat i)) by lia. reflexivity.
Qed.

Lemma tty_shift t l n : tty_ok t l -> 0 <= n <= zlen l ->
  exists b, for_each (Z.to_nat (tty_len t - n)) 0 (fun i b => let* x := load b (i + n) in store b i x) (tty_buf t) = Ok b /\
    tty_ok (mkTty b (tty_len t - n)) (skipn (Z.to_nat n) l).
Proof.
  intros T Hn. pose proof (tt_len _ _ T) as Hlen. pose proof (tt_max _ _ T) as Hmax. pose proof (tt_buf _ _ T) as Hbuf. set (b0 := tty_buf t) in *.
  destruct (for_each_inv (fun i b => zlen b = TTY_LINE_MAX /\ forall k, znth b k = if (0 <=? k) && (k <? i) then znth b0 (k + n) else znth b0 k)
    (fun i b => let* x := load b (i + n) in store b i x) (Z.to_nat (tty_len t - n)) 0 b0) as (b & E & Hb & Hk).
  - split; [exact Hbuf|]. intros k. destruct (Z.leb_spec 0 k), (Z.ltb_spec k 0); cbn; reflexivity || lia.
  - intros j b Hj [Hb Hk]. destruct (load_ok b (j + n)) as (x & -> & Hx); [lia|]. cbn [obind]. exists (zset b j x). split; [apply store_ok; lia|].
    split; [now rewrite zlen_zset|]. intros k. rewrite Hk in Hx. destruct (Z.eq_dec k j) as [->|Hne].
    + rewrite znth_zset_eq by lia. destruct (Z.leb_spec 0 j), (Z.ltb_spec j (j + 1)), (Z.leb_spec 0 (j + n)), (Z.ltb_spec (j + n) j); try lia. now cbn in *.
    + rewrite znth_zset_ne, Hk by congruence. destruct (Z.leb_spec 0 k), (Z.ltb_spec k j), (Z.ltb_spec k (j + 1)); cbn; reflexivity || lia.
  - exists b. split; [exact E|]. assert (Hs : zlen (skipn (Z.to_nat n) l) = zlen l - n) by (unfold zlen in *; rewrite length_skipn; lia).
    apply tty_ok_intro; cbn [tty_buf tty_len]; [exact Hb|lia|lia|]. rewrite Hs. intros i Hi. rewrite Hk.
    destruct (Z.leb_spec 0 i), (Z.ltb_spec i (0 + Z.of_nat (Z.to_nat (tty_len t - n)))); try lia. cbn [andb]. unfold b0. rewrite (tty_znth t l) by (exact T || lia).
    unfold znth. destruct (Z.leb_spec 0 (i + n)), (Z.leb_spec 0 i); try lia. rewrite lookup_drop. f_equal. lia.
Qed.

(** ** The specification: a queue of lines and the line being edited *)
Record line_queue : Type := mkLines { lines : list (list Z); edited : list Z }.

Definition bytes_of (q : line_queue) : list Z := concat (map (fun l => l ++ [10]) (lines q)) ++ edited q.

(** A key. *)
Definition type_key (ch : Z) (q : line_queue) : line_queue :=
  if ch =? 8 then mkLines (lines q) (removelast (edited q))
  else if ch =? 10 then
    if zlen (bytes_of q) <? TTY_LINE_MAX then mkLines (lines q ++ [edited q]) [] else q
  else if zlen (bytes_of q) <? TTY_LINE_MAX - 1 then mkLines (lines q) (edited q ++ [ch]) else q.

(** At most [count] bytes of the first line with its newline, if there is one. *)
Definition take_line (count : Z) (q : line_queue) : option (list Z * line_queue) :=
  match lines q with
  | [] => None
  | l :: ls => Some (if count <=? zlen l then (firstn (Z.to_nat count) l, mkLines (skipn (Z.to_nat count) l :: ls) (edited q))
                     else (l ++ [10], mkLines ls (edited q)))
  end.

Record implements (t : tty) (q : line_queue) : Prop := {
  im_ok : tty_ok t (bytes_of q);
  im_lines l : l ∈ lines q -> 10 ∉ l;
  im_edited : 10 ∉ edited q;
  im_full : zlen (bytes_of q) = TTY_LINE_MAX -> edited q = []
}.

Lemma bytes_of_snoc ls e c : bytes_of (mkLines ls (e ++ [c])) = bytes_of (mkLines ls e) ++ [c].
Proof. unfold bytes_of. cbn. now rewrite app_assoc. Qed.

Lemma bytes_of_line ls e : bytes_of (mkLines (ls ++ [e]) []) = bytes_of (mkLines ls e) ++ [10].
Proof. unfold bytes_of. cbn. rewrite map_app, concat_app. cbn. now rewrite !app_nil_r, app_assoc. Qed.

Lemma edited_cases q : edited q = [] \/ exists e c, edited q = e ++ [c].
Proof. destruct (edited q) as [|x r] eqn:E using rev_ind; [now left|right; eauto]. Qed.

Lemma lines_cases ls : ls = [] \/ exists ls' (l : list Z), ls = ls' ++ [l].
Proof. destruct ls as [|x r] using rev_ind; [now left|right; eauto]. Qed.

(** The part of [tty_receive_char] that works on the line buffer; the bytes of the
    echo are the third component. *)
Definition edit_line (ch : Z) (t : tty) : outcome (tty * list Z) :=
  if ch =? 8 then
    if 0 <? tty_len t then
      let* last := load (tty_buf t) (tty_len t - 1) in
      if last =? 10 then Ok (t, []) else Ok (mkTty (tty_buf t) (tty_len t - 1), [8; 32; 8])
    else Ok (t, [])
  else if ch =? 10 then
    let len := if TTY_LINE_MAX <=? tty_len t then TTY_LINE_MAX - 1 else tty_len t in
    let* b := store (tty_buf t) len 10 in Ok (mkTty b (len + 1), [10])
  else if tty_len t <? TTY_LINE_MAX - 1 then
    let* b := store (tty_buf t) (tty_len t) ch in Ok (mkTty b (tty_len t + 1), [ch])
  else Ok (t, []).

Lemma backspace_spec t q : implements t q -> exists t' e, edit_line 8 t = Ok (t', e) /\ implements t' (type_key 8 q) /\ (e = [] \/ e = [8; 32; 8]).
Proof.
  intros [T Hl He Hf]. unfold edit_line, type_key. cbn [Z.eqb Pos.eqb]. destruct q as [ls ed]. cbn [lines edited] in *.
  destruct (edited_cases (mkLines ls ed)) as [Ee|(e & c & Ee)]; cbn in Ee; subst ed.
  - exists t, []. cbn [removelast]. split; [|split; [constructor; auto|now left]]. destruct (lines_cases ls) as [->|(ls' & l & ->)].
    + pose proof (tt_len _ _ T) as Hlen. unfold bytes_of, zlen in Hlen. cbn in Hlen. now rewrite Hlen.
    + rewrite bytes_of_line in T. destruct (tty_pop _ _ _ T) as [-> _]. pose proof (tt_len _ _ T) as Hlen. rewrite zlen_snoc in Hlen.
      pose proof (zlen_nonneg (bytes_of (mkLines ls' l))). destruct (Z.ltb_spec 0 (tty_len t)); [reflexivity|lia].
  - rewrite bytes_of_snoc in T, Hf. destruct (tty_pop _ _ _ T) as [-> T']. cbn [obind]. pose proof (tt_len _ _ T) as Hlen. pose proof (tt_max _ _ T) as Hmax.
    rewrite zlen_snoc in Hlen, Hf, Hmax. pose proof (zlen_nonneg (bytes_of (mkLines ls e))). destruct (Z.ltb_spec 0 (tty_len t)); [|lia].
    assert (Hc : c <> 10) by (intros ->; apply He; rewrite elem_of_app, list_elem_of_singleton; now right). rewrite (proj2 (Z.eqb_neq _ _) Hc).
    rewrite removelast_last. eexists _, _. split; [reflexivity|]. split; [|now right]. constructor; cbn [lines edited]; auto.
    + intros Hin. apply He. rewrite elem_of_app. now left.
    + intros Ef. exfalso. lia.
Qed.

Lemma newline_spec t q : implements t q -> exists t', edit_line 10 t = Ok (t', [10]) /\ implements t' (type_key 10 q) /\ lines (type_key 10 q) <> [].
Proof.
  intros [T Hl He Hf]. unfold edit_line, type_key. cbn [Z.eqb Pos.eqb]. pose proof (tt_len _ _ T) as Hlen. pose proof (tt_max _ _ T) as Hmax.
  rewrite Hlen. destruct (Z.ltb_spec (zlen (bytes_of q)) TTY_LINE_MAX) as [Hlt|Hge].
  - destruct (Z.leb_spec TTY_LINE_MAX (zlen (bytes_of q))); [lia|]. destruct (tty_push t _ 10 T Hlt) as (b & E & T'). rewrite Hlen in E, T'. rewrite E.
    cbn [obind]. eexists. split; [reflexivity|]. split; [|cbn; destruct (lines q); discriminate]. destruct q as [ls ed]. rewrite <- bytes_of_line in T'. constructor; cbn [lines edited]; auto.
    + intros l. rewrite elem_of_app, list_elem_of_singleton. intros [Hin| ->]; auto.
    + inversion 1.
  - assert (Hfull : zlen (bytes_of q) = TTY_LINE_MAX) by lia. destruct (Z.leb_spec TTY_LINE_MAX (zlen (bytes_of q))); [|lia]. specialize (Hf Hfull).
    destruct q as [ls ed]. cbn in Hf. subst ed. destruct (lines_cases ls) as [->|(ls' & l & ->)]; [discriminate Hfull|].
    assert (Hid : store (tty_buf t) (TTY_LINE_MAX - 1) 10 = Ok (tty_buf t)).
    { rewrite store_ok by (rewrite (tt_buf _ _ T); unfold TTY_LINE_MAX; lia). f_equal. apply zset_id. rewrite (tty_znth _ _ _ T) by (rewrite Hfull; unfold TTY_LINE_MAX; lia).
      rewrite bytes_of_line in Hfull |- *. rewrite zlen_snoc in Hfull. rewrite znth_snoc by (unfold TTY_LINE_MAX in *; lia).
      now replace (TTY_LINE_MAX - 1 =? zlen (bytes_of (mkLines ls' l))) with true by (symmetry; apply Z.eqb_eq; lia). }
    rewrite Hid. cbn [obind]. eexists. split; [reflexivity|]. split; [|cbn; now destruct ls'].
    replace (mkTty (tty_buf t) (TTY_LINE_MAX - 1 + 1)) with t by (destruct t; cbn in *; f_equal; lia). constructor; auto.
Qed.

Lemma plain_key_spec ch t q : implements t q -> ch <> 8 -> ch <> 10 ->
  exists t' e, edit_line ch t = Ok (t', e) /\ implements t' (type_key ch q) /\ (e = [] \/ e = [ch]).
Proof.
  intros [T Hl He Hf] H8 H10. unfold edit_line, type_key. rewrite (proj2 (Z.eqb_neq _ _) H8), (proj2 (Z.eqb_neq _ _) H10), (tt_len _ _ T).
  destruct (Z.ltb_spec (zlen (bytes_of q)) (TTY_LINE_MAX - 1)) as [Hlt|Hge]; [|exists t, []; split; [reflexivity|]; split; [constructor; auto|now left]].
  destruct (tty_push t _ ch T ltac:(lia)) as (b & E & T'). rewrite (tt_len _ _ T) in E, T'. rewrite E. cbn [obind]. eexists _, _. split; [reflexivity|].
  split; [|now right]. destruct q as [ls ed]. rewrite <- bytes_of_snoc in T'. constructor; cbn [lines edited]; auto.
  - rewrite elem_of_app, list_elem_of_singleton. intros [Hin|E10]; [now apply He|congruence].
  - rewrite bytes_of_snoc, zlen_snoc. lia.
Qed.

(** The part of [tty_read_vfs] that works on the line buffer. *)
Lemma bytes_of_first l ls e : bytes_of (mkLines (l :: ls) e) = l ++ 10 :: bytes_of (mkLines ls e).
Proof. unfold bytes_of. cbn. now rewrite <- !app_assoc. Qed.

Lemma znth_app_l {X} (a b : list X) i : i < zlen a -> znth (a ++ b) i = znth a i.
Proof. unfold znth, zlen. intros Hi. destruct (Z.leb_spec 0 i); [|reflexivity]. apply lookup_app_l. lia. Qed.

Lemma znth_app_mid {X} (a b : list X) x : znth (a ++ x :: b) (zlen a) = Some x.
Proof. unfold znth, zlen. destruct (Z.leb_spec 0 (Z.of_nat (length a))); [|lia]. rewrite Nat2Z.id. apply list_lookup_middle. reflexivity. Qed.

Lemma znth_elem (l : list Z) i x : znth l i = Some x -> x ∈ l.
Proof. unfold znth. destruct (0 <=? i); [|discriminate]. apply list_elem_of_lookup_2. Qed.

Lemma no_newline t q : implements t q -> lines q = [] -> find_newline (Z.to_nat (tty_len t)) 0 (tty_buf t) = Ok None.
Proof.
  intros [T Hl He Hf] Hnil. rewrite (tt_len _ _ T). pose proof (zlen_nonneg (bytes_of q)).
  pose proof (find_newline_spec t _ (Z.to_nat (zlen (bytes_of q))) 0 T ltac:(lia) ltac:(lia)) as Hs.
  destruct (find_newline _ _ _) as [[k|]|]; [|reflexivity|contradiction]. destruct Hs as (_ & Hk & _). destruct He.
  unfold bytes_of in Hk. rewrite Hnil in Hk. now apply znth_elem in Hk.
Qed.

Lemma first_newline t q l ls : implements t q -> lines q = l :: ls -> find_newline (Z.to_nat (tty_len t)) 0 (tty_buf t) = Ok (Some (zlen l)).
Proof.
  intros [T Hl He Hf] El. destruct q as [qls e]. cbn in El. subst qls. rewrite (tt_len _ _ T). set (bs := bytes_of _) in *. pose proof (zlen_nonneg bs).
  assert (H10 : znth bs (zlen l) = Some 10) by (unfold bs; rewrite bytes_of_first; apply znth_app_mid).
  assert (Hlt : forall j, j < zlen l -> znth bs j <> Some 10).
  { intros j Hj E. unfold bs in E. rewrite bytes_of_first, znth_app_l in E by exact Hj. apply znth_elem in E. apply (Hl l); [left|exact E]. }
  pose proof (znth_Some _ _ _ H10) as Hb.
  pose proof (find_newline_spec t bs (Z.to_nat (zlen bs)) 0 T ltac:(lia) ltac:(lia)) as Hs.
  destruct (find_newline _ _ _) as [[k|]|]; [|exfalso; apply (Hs (zlen l)); [lia|exact H10]|contradiction]. destruct Hs as (Hk & Ek & Hn).
  destruct (Z.lt_trichotomy k (zlen l)) as [Hc|[-> | Hc]]; [exfalso; exact (Hlt k Hc Ek)|reflexivity|exfalso; apply (Hn (zlen l)); [lia|exact H10]].
Qed.

Lemma skip_line l ls e n : 0 <= n <= zlen l -> skipn (Z.to_nat n) (bytes_of (mkLines (l :: ls) e)) = bytes_of (mkLines (skipn (Z.to_nat n) l :: ls) e).
Proof. intros Hn. rewrite !bytes_of_first. unfold zlen in Hn. rewrite skipn_app. now replace (Z.to_nat n - length l)%nat with 0%nat by lia. Qed.

Lemma skip_whole l ls e : skipn (Z.to_nat (zlen l + 1)) (bytes_of (mkLines (l :: ls) e)) = bytes_of (mkLines ls e).
Proof.
  rewrite bytes_of_first. unfold zlen. replace (Z.to_nat (Z.of_nat (length l) + 1)) with (S (length l)) by lia.
  rewrite skipn_app, skipn_all2 by lia. now replace (S (length l) - length l)%nat with 1%nat by lia.
Qed.

Lemma read_bytes_spec t q count bytes q' : implements t q -> 0 <= count -> take_line count q = Some (bytes, q') ->
  exists (l b : list Z), find_newline (Z.to_nat (tty_len t)) 0 (tty_buf t) = Ok (Some (zlen l)) /\
    let to_copy := if zlen l + 1 <? count then zlen l + 1 else count in
    load_bytes (Z.to_nat to_copy) 0 (tty_buf t) = Ok bytes /\
    for_each (Z.to_nat (tty_len t - to_copy)) 0 (fun i b => let* x := load b (i + to_copy) in store b i x) (tty_buf t) = Ok b /\
    implements (mkTty b (tty_len t - to_copy)) q'.
Proof.
  intros Hi Hc Ht. unfold take_line in Ht. destruct (lines q) as [|l ls] eqn:El; [discriminate|]. injection Ht as Ht.
  pose proof (first_newline t q l ls Hi El) as Hf. destruct Hi as [T Hl He Hfull]. exists l. pose proof (zlen_nonneg l).
  destruct q as [qls e]. cbn [lines edited] in *. subst qls. set (n := if zlen l + 1 <? count then zlen l + 1 else count).
  assert (Hlen : zlen (bytes_of (mkLines (l :: ls) e)) = zlen l + 1 + zlen (bytes_of (mkLines ls e)))
    by (rewrite bytes_of_first; unfold zlen; rewrite length_app; cbn; lia). pose proof (zlen_nonneg (bytes_of (mkLines ls e))).
  assert (Hn : 0 <= n <= zlen l + 1) by (unfold n; destruct (Z.ltb_spec (zlen l + 1) count); lia).
  destruct (tty_shift t _ n T ltac:(lia)) as (b & E & T'). exists b. split; [exact Hf|]. cbv zeta. fold n.
  rewrite (load_bytes_spec t _ (Z.to_nat n) 0 T) by lia. change (Z.to_nat 0) with 0%nat. rewrite drop_0.
  assert (Hq : firstn (Z.to_nat n) (bytes_of (mkLines (l :: ls) e)) = bytes /\ skipn (Z.to_nat n) (bytes_of (mkLines (l :: ls) e)) = bytes_of q' /\
     edited q' = e /\ forall r, r ∈ lines q' -> 10 ∉ r).
  { destruct (Z.leb_spec count (zlen l)) as [Hle|Hgt]; injection Ht as <- <-.
    - assert (En : n = count) by (unfold n; destruct (Z.ltb_spec (zlen l + 1) count); lia). rewrite En. split; [|split; [apply skip_line; lia|split; [reflexivity|]]].
      + rewrite bytes_of_first, take_app_le; [reflexivity|]. unfold zlen in Hle. lia.
      + intros r. cbn. rewrite elem_of_cons. intros [->|Hr]; [|apply Hl; now right]. intros Hin. apply (Hl l); [left|].
        rewrite <- (take_drop (Z.to_nat count) l), elem_of_app. now right.
    - assert (En : n = zlen l + 1) by (unfold n; destruct (Z.ltb_spec (zlen l + 1) count); lia). rewrite En. split; [|split; [apply skip_whole|split; [reflexivity|]]].
      + rewrite bytes_of_first. unfold zlen. replace (Z.to_nat (Z.of_nat (length l) + 1)) with (length l + 1)%nat by lia. rewrite firstn_app_2. reflexivity.
      + intros r Hr. apply Hl. now right. }
  destruct Hq as (Hq1 & Hq2 & Hq3 & Hq4). rewrite Hq2 in T'. split; [now rewrite Hq1|]. split; [exact E|]. constructor; [exact T'|exact Hq4|now rewrite Hq3|].
  intros Hz. rewrite Hq3. apply Hfull. pose proof (tt_max _ _ T). rewrite <- Hq2 in Hz. unfold zlen in *. rewrite length_skipn in Hz. lia.
Qed.

(** ** An empty queue stays empty while the scheduler runs *)
Section Empty.
Context {V A : Type} `{ObjectHeap A}.
Context (code : labels).
Implicit Types s : tasks V A.

Lemma unlink_waiter_none fuel : forall m tw t m', unlink_waiter fuel m tw t = Ok m' -> m !! 0 = None -> m' !! 0 = None.
Proof.
  induction fuel as [|k IH]; intros m tw t m' E Hm; cbn [unlink_waiter] in E; destruct (tw =? 0); try (now injection E as <-);
    destruct (m !! tw) as [w|] eqn:Ew; try discriminate; cbn [of_opt obind] in E; destruct (t_next_waiter w =? 0); try (now injection E as <-);
    (destruct (t_next_waiter w =? t); [destruct (m !! t); [|discriminate]; cbn in E; injection E as <-; rewrite lookup_insert_ne; [exact Hm|intros ->; congruence]|]);
    [discriminate|]. eapply IH; eauto.
Qed.

Lemma remove_queue_none m q t q' m' : remove_from_queue m q t = Ok (q', m') -> m !! 0 = None -> m' !! 0 = None /\ (q = 0 -> t <> 0 -> q' = 0).
Proof.
  unfold remove_from_queue. destruct (Z.eqb_spec q t) as [->|Hne].
  - destruct (m !! t); [|discriminate]. cbn. intros [= <- <-] Hm. split; [exact Hm|]. congruence.
  - destruct (unlink_waiter (size m) m q t) as [m1|] eqn:E; [|discriminate]. cbn. intros [= <- <-] Hm. split; [eapply unlink_waiter_none; eauto|auto].
Qed.

Lemma remove_queues_none t qs : forall m qs' m', remove_from_queues m qs t = Ok (qs', m') -> m !! 0 = None -> t <> 0 ->
  m' !! 0 = None /\ zlen qs' = zlen qs /\ forall i : Z, znth qs i = Some 0 -> znth qs' i = Some 0.
Proof.
  induction qs as [|q qs IH]; intros m qs' m' E Hm Ht; cbn [remove_from_queues] in E; [injection E as <- <-; auto|].
  destruct (remove_from_queue m q t) as [[q1 m1]|] eqn:E1; [|discriminate]. cbn [obind] in E.
  destruct (remove_from_queues m1 qs t) as [[qs1 m2]|] eqn:E2; [|discriminate]. cbn in E. injection E as <- <-.
  destruct (remove_queue_none _ _ _ _ _ E1 Hm) as [Hm1 Hq]. destruct (IH _ _ _ E2 Hm1 Ht) as (Hm2 & Hl & Hi). split; [exact Hm2|].
  split; [unfold zlen in *; cbn; lia|]. intros i. unfold znth. destruct (Z.leb_spec 0 i) as [Hge|]; [|discriminate].
  destruct (Z.to_nat i) as [|k] eqn:Ek; cbn; [intros [= ->]; now rewrite Hq|]. intros Hk. specialize (Hi (Z.of_nat k)). unfold znth in Hi.
  destruct (Z.leb_spec 0 (Z.of_nat k)); [|lia]. rewrite Nat2Z.id in Hi. auto.
Qed.

(** No thread at 0 appears, and the queues that are empty stay empty. *)
Definition keeps_empty s s' : Prop := threads s !! 0 = None ->
  threads s' !! 0 = None /\ zlen (wait_queues s') = zlen (wait_queues s) /\ forall i, znth (wait_queues s) i = Some 0 -> znth (wait_queues s') i = Some 0.

Lemma empty_trans s1 s2 s3 : keeps_empty s1 s2 -> keeps_empty s2 s3 -> keeps_empty s1 s3.
Proof. intros K1 K2 Hn. destruct (K1 Hn) as (Hn2 & L2 & Q2). destruct (K2 Hn2) as (Hn3 & L3 & Q3). split; [exact Hn3|]. split; [congruence|auto]. Qed.

Lemma keeps_same s s' : wait_queues s' = wait_queues s -> (threads s !! 0 = None -> threads s' !! 0 = None) -> keeps_empty s s'.
Proof. intros Hw Ht Hn. rewrite Hw. auto. Qed.

Lemma keeps_upd_thread s p f s' : upd_thread s p f = Ok s' -> keeps_empty s s'.
Proof.
  unfold upd_thread, get_thread. destruct (threads s !! p) as [t|] eqn:E; [|discriminate]. cbn. intros [= <-]. apply keeps_same; [reflexivity|].
  intros H1. cbn. rewrite lookup_insert_ne; [exact H1|]. intros ->. congruence.
Qed.

Lemma keeps_free_stack p s s' : free_stack p s = Ok s' -> keeps_empty s s' /\ threads s' = threads s.
Proof.
  unfold free_stack. destruct (p =? 0); [intros [= <-]; split; [now apply keeps_same|reflexivity]|]. destruct (oh_free p (heap s)); [|discriminate].
  cbn. intros [= <-]. split; [now apply keeps_same|reflexivity].
Qed.

Lemma keeps_reap_thread curr prev nn s s' : reap_thread curr prev nn s = Ok s' -> keeps_empty s s'.
Proof.
  unfold reap_thread. destruct (upd_thread s prev (set_next nn)) as [s1|] eqn:E1; [|discriminate]. cbn [obind].
  set (s2 := if curr =? head s1 then with_head s1 nn else s1). unfold get_thread. destruct (threads s2 !! curr) as [t|] eqn:Et; [|discriminate]. cbn [of_opt obind].
  destruct (free_stack (t_kernel_stack_base t) s2) as [s3|] eqn:E3; [|discriminate]. cbn [obind].
  destruct (free_stack (t_user_stack_base t) s3) as [s4|] eqn:E4; [|discriminate]. cbn [obind]. unfold tty_remove_waiter.
  destruct (remove_from_queues (threads s4) (wait_queues s4) curr) as [[qs m]|] eqn:E5; [|discriminate]. cbn [obind].
  destruct (oh_free curr _) as [h|]; [|discriminate]. cbn. intros [= <-].
  destruct (keeps_free_stack _ _ _ E3) as [K3 T3], (keeps_free_stack _ _ _ E4) as [K4 T4].
  assert (K : keeps_empty s s4).
  { eapply empty_trans; [eapply keeps_upd_thread; eauto|]. apply (empty_trans _ s2); [unfold s2; destruct (curr =? head s1); now apply keeps_same|].
    eapply empty_trans; eauto. }
  intros Hn. destruct (K Hn) as (Hn4 & L4 & Q4). rewrite <- T3, <- T4 in Et.
  destruct (remove_queues_none _ _ _ _ _ E5 Hn4) as (Hm & Hl & Hq); [intros ->; congruence|].
  cbn. split; [apply lookup_delete_None; now right|]. split; [congruence|auto].
Qed.

Lemma keeps_reap_loop fuel : forall curr prev start s s', reap_loop fuel curr prev start s = Ok s' -> keeps_empty s s'.
Proof.
  induction fuel as [|k IH]; intros curr prev start s s' E; cbn [reap_loop] in E; unfold get_thread in E; (destruct (threads s !! curr) as [t|]; [|discriminate]); cbn [of_opt obind] in E;
    (destruct (bool_decide _ && _); [destruct (reap_thread curr prev (t_next t) s) as [s1|] eqn:E1; [|discriminate]; cbn [obind] in E; apply keeps_reap_thread in E1;
       apply (empty_trans _ s1); [exact E1|]; destruct (curr =? t_next t); [injection E as <-; now apply keeps_same|]|]);
    destruct (t_next t =? _); try (injection E as <-; now apply keeps_same); try discriminate; eapply IH; eauto.
Qed.

Lemma keeps_context_switch o n cr s s' : context_switch code o n cr s = Ok s' -> keeps_empty s s'.
Proof.
  unfold context_switch. destruct (push_all _ _ _) as [m sp]. destruct (upd_thread (with_stack s m) o (set_rsp sp)) as [s1|] eqn:E1; [|discriminate]. cbn [obind].
  unfold get_thread. destruct (threads s1 !! n); [|discriminate]. cbn [of_opt obind]. destruct (pop_all _ _ _) as [[vs sp']|]; [|discriminate]. cbn [obind].
  intros E. apply (empty_trans _ (with_stack s m)); [now apply keeps_same|]. apply (empty_trans _ s1); [eapply keeps_upd_thread; eauto|].
  do 7 (destruct vs as [|? vs]; [discriminate|]). destruct vs; [|discriminate]. injection E as <-. now apply keeps_same.
Qed.

Lemma keeps_schedule s r s' : schedule code s = Ok (r, s') -> keeps_empty s s'.
Proof.
  unfold schedule. destruct (in_scheduler s); [intros [= <- <-]; now apply keeps_same|]. set (s0 := with_in_scheduler s true).
  destruct (reap_dead_threads s0) as [s1|] eqn:E1; [|discriminate]. cbn [obind]. unfold get_thread. destruct (threads s1 !! current s1) as [c|] eqn:Ec; [|discriminate]. cbn [of_opt obind].
  set (s2 := if bool_decide (t_state c = THREAD_RUNNING) then _ else _).
  assert (K : keeps_empty s s2).
  { apply (empty_trans _ s0); [now apply keeps_same|]. apply (empty_trans _ s1).
    - unfold reap_dead_threads in E1. destruct (head s0 =? 0); [injection E1 as <-; now apply keeps_same|].
      destruct (find_tail _ _ _ _) as [tl|]; [|discriminate]. cbn [obind] in E1. eapply keeps_reap_loop; eauto.
    - unfold s2. case_bool_decide; [|now apply keeps_same]. apply keeps_same; [reflexivity|]. intros Hn. cbn. rewrite lookup_insert_ne; [exact Hn|]. intros E0. congruence. }
  destruct (find_ready _ _ _ _) as [[next| |]|]; [| | |discriminate]; cbn [obind].
  - intros E. apply (empty_trans _ s2); [exact K|]. clear K. unfold switch_to in E.
    destruct (upd_thread (with_current s2 next) next (set_state THREAD_RUNNING)) as [s3|] eqn:E3; [|discriminate]. cbn [obind] in E.
    apply (empty_trans _ s3); [apply (empty_trans _ (with_current s2 next)); [now apply keeps_same|eapply keeps_upd_thread; eauto]|].
    set (s4 := with_in_scheduler s3 false) in *. unfold get_thread in E. destruct (threads s4 !! next) as [t|]; [|discriminate]. cbn [of_opt obind] in E.
    set (s5 := if t_kernel_stack_base t =? 0 then s4 else _) in *. apply (empty_trans _ s5); [unfold s5; destruct (t_kernel_stack_base t =? 0); now apply keeps_same|].
    destruct (_ =? current s5); [injection E as <- <-; now apply keeps_same|]. destruct (threads s5 !! _); [|discriminate]. cbn [of_opt obind] in E.
    destruct (if _ =? _ then Ok 0 else _) as [cr|]; [|discriminate]. cbn [obind] in E. destruct (context_switch _ _ _ _ _) as [s6|] eqn:E6; [|discriminate].
    cbn [obind] in E. injection E as <- <-. eapply keeps_context_switch; eauto.
  - destruct (upd_thread s2 (current s2) (set_state THREAD_RUNNING)) as [s3|] eqn:E3; [|discriminate]. cbn [obind]. intros [= <- <-].
    apply (empty_trans _ s2); [exact K|]. apply (empty_trans _ s3); [eapply keeps_upd_thread; eauto|now apply keeps_same].
  - intros [= <- <-]. exact K.
Qed.

End Empty.
