(* ===== verification/TtyTheorems.v ===== *)
(** * Theorems on terminals

    The invariant [con_ok] of threads, line buffers and screens; what a key and a
    read do to the queue of lines; and that no reader sleeps while a line is there. *)

From S2P Require Import Prelude Interfaces Bitmap CString Kfs Vfs Thread ThreadProofs ThreadTheorems Vt VtProofs Tty TtyProofs.

Section Console.
Context {V A : Type} `{ObjectHeapLaws A}.
Context (code : labels).
Implicit Types c : console V A.

(** Thread [p] is in the wait queue of terminal [n]; and every blocked thread is in
    such a queue. *)
Definition queued (s : tasks V A) (n p : Z) : Prop := queued_in (threads s) (wait_queues s) n p.

Definition blocked_queued (s : tasks V A) : Prop := forall p, state_of s p = Some THREAD_BLOCKED -> exists n, queued s n p.

(** [l] is the ring of threads, [qs] the queues of lines. *)
Record con_ok c (l : list Z) (qs : list line_queue) : Prop := {
  co_tasks : tasks_ok (con_tasks c) l;
  co_idle : in_scheduler (con_tasks c) = false;
  co_running : exists t, threads (con_tasks c) !! current (con_tasks c) = Some t /\ t_state t = THREAD_RUNNING;
  co_owned : owned_threads (con_tasks c);
  co_queues : zlen (wait_queues (con_tasks c)) = MAX_TTYS;
  co_screens : screens_ok (con_screens c);
  co_ttys : zlen (ttys c) = MAX_TTYS /\ zlen qs = MAX_TTYS;
  co_lines i t q : znth (ttys c) i = Some t -> znth qs i = Some q -> implements t q;
  co_wakeup i q : znth qs i = Some q -> lines q <> [] -> znth (wait_queues (con_tasks c)) i = Some 0;
  co_blocked : blocked_queued (con_tasks c)
}.

Lemma echo_ok c n data : screens_ok (con_screens c) ->
  exists w, echo c n data = Ok (mkConsole (con_tasks c) (ttys c) w) /\ screens_ok w /\ active_vt_idx w = active_vt_idx (con_screens c).
Proof.
  intros Hw. unfold echo. destruct (vt_write_spec n data (con_screens c) Hw) as (w & -> & Hw' & Hi & _). cbn [obind]. eauto.
Qed.

(** [tty_receive_char] in terms of [edit_line]. *)
Lemma receive_edit ch c t t' e : ch <> 10 -> znth (ttys c) (active_vt_idx (con_screens c)) = Some t -> edit_line ch t = Ok (t', e) ->
  screens_ok (con_screens c) ->
  exists w, tty_receive_char ch c = Ok (mkConsole (con_tasks c) (zset (ttys c) (active_vt_idx (con_screens c)) t') w) /\ screens_ok w /\
    active_vt_idx w = active_vt_idx (con_screens c).
Proof.
  intros Hch Et E Hw. unfold tty_receive_char, vt_get_active. set (n := active_vt_idx (con_screens c)) in *. rewrite Et. cbn [of_opt obind].
  assert (Hsame : Ok c = Ok (mkConsole (con_tasks c) (zset (ttys c) n t) (con_screens c))) by (rewrite zset_id by exact Et; now destruct c).
  unfold edit_line in E. rewrite (proj2 (Z.eqb_neq _ _) Hch) in *. destruct (ch =? 8).
  - destruct (0 <? tty_len t); [|injection E as <- <-; exists (con_screens c); auto]. destruct (load (tty_buf t) (tty_len t - 1)) as [x|]; [|discriminate]. cbn [obind] in *.
    destruct (x =? 10); injection E as <- <-; [exists (con_screens c); auto|].
    exact (echo_ok (put_tty c n (mkTty (tty_buf t) (tty_len t - 1))) n [8; 32; 8] Hw).
  - destruct (tty_len t <? TTY_LINE_MAX - 1); [|injection E as <- <-; exists (con_screens c); auto].
    destruct (store (tty_buf t) (tty_len t) ch) as [b|]; [|discriminate]. cbn [obind] in *. injection E as <- <-.
    exact (echo_ok (put_tty c n (mkTty b (tty_len t + 1))) n [ch] Hw).
Qed.

Lemma con_ok_put c l qs n t' q' w :
  con_ok c l qs -> screens_ok w -> implements t' q' -> (lines q' <> [] -> znth (wait_queues (con_tasks c)) n = Some 0) ->
  con_ok (mkConsole (con_tasks c) (zset (ttys c) n t') w) l (zset qs n q').
Proof.
  intros C Hw Hi Hq. destruct C. constructor; cbn; auto.
  - now rewrite !zlen_zset.
  - intros i t q Et Eq. rewrite znth_zset in Et. rewrite znth_zset in Eq. destruct co_ttys0 as [L1 L2]. rewrite L1 in Et. rewrite L2 in Eq.
    destruct ((n =? i) && (0 <=? n) && (n <? MAX_TTYS)); [congruence|eauto].
  - intros i q Eq Hl. rewrite znth_zset in Eq. destruct ((n =? i) && (0 <=? n) && (n <? zlen qs)) eqn:E; [|eauto].
    apply andb_true_iff in E as [E _]. apply andb_true_iff in E as [E _]. apply Z.eqb_eq in E as <-. injection Eq as <-. auto.
Qed.

(** [c'] is [c] after the key [ch]; [n] is the active terminal. *)
Record keyed c c' (l : list Z) (qs : list line_queue) (n ch : Z) : Prop := {
  ke_ok : exists q, znth qs n = Some q /\ con_ok c' l (zset qs n (type_key ch q));
  ke_active : active_vt_idx (con_screens c') = n;
  ke_woken : exists q li, znth (wait_queues (con_tasks c)) n = Some q /\ waiting (threads (con_tasks c)) q li /\
    forall p t, threads (con_tasks c) !! p = Some t ->
      threads (con_tasks c') !! p = Some (if (ch =? 10) && bool_decide (p ∈ li) then set_next_waiter 0 (set_state THREAD_READY t) else t)
}.

Lemma queue_list c l qs n : con_ok c l qs -> 0 <= n < MAX_TTYS ->
  exists q li, znth (wait_queues (con_tasks c)) n = Some q /\ waiting (threads (con_tasks c)) q li.
Proof.
  intros C Hn. destruct (znth_is_Some (wait_queues (con_tasks c)) n) as [q Eq]; [now rewrite (co_queues _ _ _ C)|].
  destruct (ok_queues _ _ (co_tasks _ _ _ C)) as (ls & Hw & _). destruct (queues_split _ _ _ _ _ Hw Eq) as (_ & _ & _ & li & _ & _ & _ & _ & Hli & _). eauto.
Qed.

(** A thread in a queue is blocked or dead. *)
Lemma queued_state (s : tasks V A) l n q li p t : tasks_ok s l -> znth (wait_queues s) n = Some q -> waiting (threads s) q li -> p ∈ li -> threads s !! p = Some t ->
  t_state t = THREAD_BLOCKED \/ t_state t = THREAD_DEAD.
Proof.
  intros O Eq Hli Hp Et. destruct (ok_queues _ _ O) as (ls & Hw & _ & Hst). destruct (queues_split _ _ _ _ _ Hw Eq) as (_ & _ & a & li' & b & _ & -> & _ & Hli' & _).
  rewrite (waiting_unique _ li li' q Hli Hli') in Hp. apply (Hst p); [|exact Et]. rewrite concat_app, elem_of_app. right. cbn. rewrite elem_of_app. now left.
Qed.

Lemma newline_key c l qs t q w :
  con_ok c l qs -> implements t q -> lines q <> [] -> screens_ok w ->
  let n := active_vt_idx (con_screens c) in
  exists m' q0 li, znth (wait_queues (con_tasks c)) n = Some q0 /\ waiting (threads (con_tasks c)) q0 li /\
    wake_loop (size (threads (con_tasks c))) (threads (con_tasks c)) q0 = Ok m' /\
    con_ok (mkConsole (with_wait_queues (with_threads (con_tasks c) m') (zset (wait_queues (con_tasks c)) n 0)) (zset (ttys c) n t) w) l (zset qs n q) /\
    forall p u, threads (con_tasks c) !! p = Some u -> m' !! p = Some (if bool_decide (p ∈ li) then set_next_waiter 0 (set_state THREAD_READY u) else u).
Proof.
  intros C Hi Hl Hw n. pose proof (sc_idx _ (co_screens _ _ _ C)) as Hn. change (0 <= n < MAX_TTYS) in Hn. set (s := con_tasks c).
  destruct (queue_list c l qs n C Hn) as (q0 & li0 & Eq & _). destruct (wake_queue s l n q0 (co_tasks _ _ _ C) (co_owned _ _ _ C) Eq) as (m' & li & E & Hli & O' & H1 & H2 & H3).
  assert (Hall : forall p u, threads s !! p = Some u -> m' !! p = Some (if bool_decide (p ∈ li) then set_next_waiter 0 (set_state THREAD_READY u) else u)).
  { intros p u Eu. case_bool_decide; [now apply H2|]. now rewrite H1. }
  exists m', q0, li. split; [exact Eq|]. split; [exact Hli|]. split; [exact E|]. split; [|exact Hall].
  pose proof (con_ok_put (put_tasks c (with_wait_queues (with_threads s m') (zset (wait_queues s) n 0))) l qs n t q w) as HC. apply HC; auto.
  - destruct C. constructor; cbn; auto.
    + destruct co_running0 as (tc & Ec & Hc). change (con_tasks c) with s in Ec. exists tc. split; [|exact Hc]. rewrite (Hall _ tc Ec), bool_decide_eq_false_2; [reflexivity|].
      intros Hin. destruct (queued_state s l n q0 li (current s) tc co_tasks0 Eq Hli Hin Ec); congruence.
    + intros p u Eu. cbn in Eu |- *. assert (Hp : is_Some (threads s !! p)).
      { destruct (threads s !! p) eqn:Ep; [eauto|]. exfalso. destruct (decide (p ∈ li)) as [Hin|Hin]; [destruct (waiting_mem _ _ _ _ Hli Hin) as [[? ?] _]; congruence|].
        rewrite H1 in Eu by exact Hin. congruence. }
      destruct Hp as [u0 Eu0]. rewrite (Hall p u0 Eu0) in Eu. pose proof (co_owned0 p u0 Eu0) as Ho. case_bool_decide; injection Eu as <-; exact Ho.
    + now rewrite zlen_zset.
    + intros i q' Eq' Hl'. rewrite znth_zset. destruct ((n =? i) && _ && _); [reflexivity|]. eauto.
    + intros p Hst. unfold state_of in Hst. cbn in Hst. destruct (decide (p ∈ li)) as [Hin|Hin].
      { destruct (waiting_mem _ _ _ _ Hli Hin) as [[u Eu] _]. rewrite (H2 p u Hin Eu) in Hst. discriminate. }
      rewrite H1 in Hst by exact Hin. destruct (co_blocked0 p Hst) as [n' Hn']. exists n'. now apply H3.
  - intros _. cbn. apply znth_zset_eq. unfold s. now rewrite (co_queues _ _ _ C).
Qed.

Lemma receive_spec ch c l qs : con_ok c l qs ->
  exists c', tty_receive_char ch c = Ok c' /\ keyed c c' l qs (active_vt_idx (con_screens c)) ch.
Proof.
  intros C. set (n := active_vt_idx (con_screens c)). pose proof (sc_idx _ (co_screens _ _ _ C)) as Hn. change (0 <= n < MAX_TTYS) in Hn.
  destruct (znth_is_Some (ttys c) n) as [t Et]; [now rewrite (proj1 (co_ttys _ _ _ C))|]. destruct (znth_is_Some qs n) as [q Eq]; [now rewrite (proj2 (co_ttys _ _ _ C))|].
  pose proof (co_lines _ _ _ C n t q Et Eq) as Hi. destruct (Z.eq_dec ch 10) as [->|Hch].
  - destruct (newline_spec t q Hi) as (t' & E & Hi' & Hl'). unfold tty_receive_char, vt_get_active. fold n. rewrite Et. cbn [of_opt obind Z.eqb Pos.eqb].
    unfold edit_line in E. cbn [Z.eqb Pos.eqb] in E. destruct (store _ _ 10) as [b|]; [|discriminate]. cbn [obind] in E |- *. injection E as <-.
    set (t' := mkTty b _) in *. destruct (echo_ok (put_tty c n t') n [10] (co_screens _ _ _ C)) as (w & -> & Hw & Hwi). cbn [obind put_tty con_tasks ttys con_screens] in *.
    destruct (newline_key c l qs t' (type_key 10 q) w C Hi' Hl' Hw) as (m' & q0 & li & E0 & Hli & Em & C' & Hall). fold n in E0, C'.
    rewrite E0. cbn [of_opt obind]. rewrite Em. cbn [obind]. eexists. split; [reflexivity|]. constructor; [exists q; auto|exact Hwi|].
    exists q0, li. split; [exact E0|]. split; [exact Hli|]. intros p u Eu. cbn. now rewrite (Hall p u Eu).
  - assert (Hed : exists t' e, edit_line ch t = Ok (t', e) /\ implements t' (type_key ch q)).
    { destruct (Z.eq_dec ch 8) as [->|H8]; [destruct (backspace_spec t q Hi) as (t' & e & E & Hi' & _); eauto|].
      destruct (plain_key_spec ch t q Hi H8 Hch) as (t' & e & E & Hi' & _). eauto. }
    destruct Hed as (t' & e & E & Hi'). destruct (receive_edit ch c t t' e Hch Et E (co_screens _ _ _ C)) as (w & Er & Hw & Hwi). fold n in Er, Hwi.
    eexists. split; [exact Er|]. constructor; [exists q; split; [exact Eq|]|exact Hwi|].
    + apply con_ok_put; auto. intros Hl. apply (co_wakeup _ _ _ C n q Eq). intros Hnil. apply Hl. unfold type_key.
      rewrite (proj2 (Z.eqb_neq _ _) Hch). destruct (ch =? 8); [exact Hnil|]. destruct (_ <? _); exact Hnil.
    + destruct (queue_list c l qs n C Hn) as (q0 & li & E0 & Hli). exists q0, li. split; [exact E0|]. split; [exact Hli|].
      intros p u Eu. cbn. rewrite (proj2 (Z.eqb_neq _ _) Hch). exact Eu.
Qed.

(** ** Reading *)
Lemma owned_scheduled (s s' : tasks V A) l next : tasks_ok s l -> owned_threads s -> scheduled s s' (reap_list s l) next -> owned_threads s'.
Proof.
  intros O Ho S p t' Et'. destruct (sc_rest _ _ _ _ S) as (-> & _). assert (Hp : p ∈ reap_list s l) by (apply (ok_dom _ _ (sc_ok _ _ _ _ S)); eauto).
  destruct (ok_get s l p O (reap_list_sub s l p Hp)) as [t Et]. destruct (sc_thread _ _ _ _ S p t Hp Et) as (t2 & Et2 & _ & Hpr & _).
  rewrite Et2 in Et'. injection Et' as <-. rewrite Hpr. eauto.
Qed.

(** A console whose threads may be about to switch: [con_ok] without a running
    thread. *)
Definition con_ready c (l : list Z) (qs : list line_queue) : Prop :=
  tasks_ok (con_tasks c) l /\ in_scheduler (con_tasks c) = false /\ owned_threads (con_tasks c) /\ zlen (wait_queues (con_tasks c)) = MAX_TTYS /\
  blocked_queued (con_tasks c) /\
  forall s', (forall i, znth (wait_queues (con_tasks c)) i = Some 0 -> znth (wait_queues s') i = Some 0) -> zlen (wait_queues s') = MAX_TTYS ->
    owned_threads s' -> forall l', tasks_ok s' l' -> in_scheduler s' = false -> (exists t, threads s' !! current s' = Some t /\ t_state t = THREAD_RUNNING) ->
    blocked_queued s' -> con_ok (put_tasks c s') l' qs.

Lemma con_ok_ready c l qs : con_ok c l qs -> con_ready c l qs.
Proof.
  intros C. destruct C. do 5 (split; [assumption|]). intros s' Hq Hz Ho l' O' Hi Hr Hb. constructor; cbn; eauto.
Qed.

(** Blocked threads stay blocked, and stay in their queues, when the scheduler runs. *)
Lemma scheduled_blocked (s s' : tasks V A) l next p : tasks_ok s l -> scheduled s s' (reap_list s l) next -> runnable s next = true ->
  state_of s p = Some THREAD_BLOCKED -> p ∈ reap_list s l /\ state_of s' p = Some THREAD_BLOCKED.
Proof.
  intros O S Hr Hst. unfold state_of in *. destruct (threads s !! p) as [t|] eqn:Et; [|discriminate]. injection Hst as Hst.
  assert (Hp : p ∈ reap_list s l).
  { apply reap_list_keep; [apply (ok_dom _ _ O); eauto|]. unfold dead_in. rewrite Et, bool_decide_eq_false_2 by congruence. reflexivity. }
  split; [exact Hp|]. destruct (sc_thread _ _ _ _ S p t Hp Et) as (t' & -> & _ & _ & Hst'). cbn. rewrite Hst'.
  destruct (Z.eqb_spec p next) as [->|_]; [|now rewrite Hst]. exfalso. unfold runnable in Hr. rewrite Et, Hst in Hr. discriminate.
Qed.

Lemma blocked_scheduled (s s' : tasks V A) l next : tasks_ok s l -> scheduled s s' (reap_list s l) next -> blocked_queued s -> blocked_queued s'.
Proof.
  intros O S Hb p Hst. unfold state_of in Hst. destruct (threads s' !! p) as [t'|] eqn:Et'; [|discriminate]. injection Hst as Hst.
  assert (Hp : p ∈ reap_list s l) by (apply (ok_dom _ _ (sc_ok _ _ _ _ S)); eauto).
  destruct (ok_get s l p O (reap_list_sub s l p Hp)) as [t Et]. destruct (sc_thread _ _ _ _ S p t Hp Et) as (t2 & Et2 & _ & _ & Hst2).
  rewrite Et' in Et2. injection Et2 as <-. destruct (Hb p) as [n Hn].
  { unfold state_of. rewrite Et. cbn. rewrite Hst2 in Hst. destruct (p =? next); [discriminate|]. unfold yielded in Hst. case_bool_decide; congruence. }
  exists n. now apply (sc_queued _ _ _ _ S).
Qed.

Lemma schedule_con c l qs : con_ready c l qs ->
  exists r s', schedule code (con_tasks c) = Ok (r, s') /\
    (r = Halted \/ (exists l', con_ok (put_tasks c s') l' qs) /\
     forall n p, state_of (con_tasks c) p = Some THREAD_BLOCKED -> queued (con_tasks c) n p -> state_of s' p = Some THREAD_BLOCKED /\ queued s' n p).
Proof.
  intros (O & Hi & Ho & Hz & Hb & Hk). pose proof (schedule_spec code (con_tasks c) l O Hi) as Hs.
  assert (Hn : threads (con_tasks c) !! 0 = None).
  { destruct (threads (con_tasks c) !! 0) eqn:E; [|reflexivity]. exfalso. assert (H0l : 0 ∈ l) by (apply (ok_dom _ _ O); eauto). now apply (ok_nonnull _ _ _ O) in H0l. }
  destruct (choice (con_tasks c) l) as [next|] eqn:Ech; [|destruct Hs as [s' E]; exists Halted, s'; auto].
  apply List.find_some in Ech as [_ Hrun].
  destruct Hs as (s' & E & S). eexists _, s'. split; [exact E|]. right. destruct (keeps_schedule code _ _ _ E Hn) as (_ & Hl & Hq). split.
  - exists (reap_list (con_tasks c) l).
    apply Hk; [exact Hq|congruence|exact (owned_scheduled _ _ _ _ O Ho S)|exact (sc_ok _ _ _ _ S)|exact (sc_idle _ _ _ _ S)| |exact (blocked_scheduled _ _ _ _ O S Hb)].
    rewrite (sc_current _ _ _ _ S). assert (Hin : next ∈ reap_list (con_tasks c) l) by (rewrite <- (sc_current _ _ _ _ S); exact (ok_current _ _ (sc_ok _ _ _ _ S))).
    destruct (ok_get _ l next O (reap_list_sub _ _ _ Hin)) as [t Et]. destruct (sc_thread _ _ _ _ S next t Hin Et) as (t' & Et' & _ & _ & Hst). rewrite Z.eqb_refl in Hst. eauto.
  - intros n p Hst Hqu. destruct (scheduled_blocked _ _ _ _ p O S Hrun Hst) as [Hp Hst']. split; [exact Hst'|]. now apply (sc_queued _ _ _ _ S).
Qed.

(** The threads [s1] when a reader of terminal [n] gives the processor away: it is
    blocked and the first in the wait queue. *)
Definition reader_blocked (s : tasks V A) (n : Z) (s1 : tasks V A) : Prop := exists t q,
  threads s !! current s = Some t /\ znth (wait_queues s) n = Some q /\
  s1 = with_wait_queues (with_threads s (<[current s := set_next_waiter q (set_state THREAD_BLOCKED t)]> (threads s)))
         (zset (wait_queues s) n (current s)).

(** A turn of the reader that ends with [r] in [c']. *)
Record read_blocks c (n : Z) (r : switch) c' (qs : list line_queue) : Prop := {
  rb_enqueued : exists s1, reader_blocked (con_tasks c) n s1 /\ schedule code s1 = Ok (r, con_tasks c');
  rb_halted : r = Halted -> forall p, state_of (con_tasks c) p <> Some THREAD_READY;
  rb_waits : r <> Halted -> (exists l', con_ok c' l' qs) /\
    state_of (con_tasks c') (current (con_tasks c)) = Some THREAD_BLOCKED /\ queued (con_tasks c') n (current (con_tasks c))
}.

Lemma tty_read_spec n count c l qs q : con_ok c l qs -> znth qs n = Some q -> 0 <= count ->
  match take_line count q with
  | Some (bytes, q') => exists c', tty_read_vfs code n count c = Ok (ReadDone bytes, c') /\ con_ok c' l (zset qs n q') /\ con_tasks c' = con_tasks c
  | None => exists r c', tty_read_vfs code n count c = Ok (ReadBlocked r, c') /\ read_blocks c n r c' qs
  end.
Proof.
  intros C Eq Hc. pose proof (znth_Some _ _ _ Eq) as Hn. rewrite (proj2 (co_ttys _ _ _ C)) in Hn.
  destruct (znth_is_Some (ttys c) n) as [t Et]; [now rewrite (proj1 (co_ttys _ _ _ C))|]. pose proof (co_lines _ _ _ C n t q Et Eq) as Hi.
  unfold tty_read_vfs. rewrite Et. cbn [of_opt obind]. destruct (take_line count q) as [[bytes q']|] eqn:Etl.
  - destruct (read_bytes_spec t q count bytes q' Hi Hc Etl) as (ln & b & -> & Hb & Hf & Hi'). cbn [obind]. rewrite Hb. cbn [obind]. rewrite Hf. cbn [obind].
    eexists. split; [reflexivity|]. split; [|reflexivity]. apply con_ok_put; [exact C|apply C|exact Hi'|]. intros _. apply (co_wakeup _ _ _ C n q Eq).
    unfold take_line in Etl. destruct (lines q); [discriminate Etl|discriminate].
  - assert (Hnil : lines q = []) by (unfold take_line in Etl; destruct (lines q); [reflexivity|discriminate]).
    rewrite (no_newline t q Hi Hnil). cbn [obind]. set (s := con_tasks c). destruct (co_running _ _ _ C) as (tc & Ec & Hrun). fold s in Ec.
    destruct (queue_list c l qs n C Hn) as (q0 & li & E0 & _). fold s in E0. unfold thread_current. rewrite E0. cbn [of_opt obind]. unfold upd_thread, get_thread. rewrite Ec.
    cbn [of_opt obind set_thread with_threads with_wait_queues threads wait_queues]. rewrite lookup_insert_eq. cbn [of_opt obind].
    match goal with |- context [schedule code ?S] => set (s1 := S) end.
    assert (Es1 : s1 = with_wait_queues (with_threads s (<[current s := set_next_waiter q0 (set_state THREAD_BLOCKED tc)]> (threads s))) (zset (wait_queues s) n (current s)))
      by (unfold s1, set_thread; cbn; rewrite insert_insert_eq; now destruct tc).
    destruct (enqueue_current s l n q0 tc (co_tasks _ _ _ C) Ec Hrun (co_owned _ _ _ C _ _ Ec) E0) as (O1 & Hqc & Hqo). rewrite <- Es1 in O1.
    assert (Hst1 : state_of s1 (current s) = Some THREAD_BLOCKED) by (unfold state_of; rewrite Es1; cbn; now rewrite lookup_insert_eq).
    assert (Hot : forall p, p <> current s -> threads s1 !! p = threads s !! p) by (intros p Hp; rewrite Es1; cbn; now rewrite lookup_insert_ne by congruence).
    assert (Hi1 : in_scheduler s1 = false /\ current s1 = current s /\ preemption_enabled s1 = preemption_enabled s) by (rewrite Es1; split; [apply C|auto]).
    destruct Hi1 as (F1 & F2 & F3).
    destruct (schedule_con (put_tasks c s1) l qs) as (r & s' & E & Hr).
    + split; [exact O1|]. cbn [con_tasks put_tasks]. split; [exact F1|]. split.
      { intros p u Eu. assert (Ep : procs s1 = procs s) by now rewrite Es1. rewrite Ep. destruct (decide (p = current s)) as [->|Hp].
        - rewrite Es1 in Eu. cbn in Eu. rewrite lookup_insert_eq in Eu. injection Eu as <-. exact (co_owned _ _ _ C _ _ Ec).
        - rewrite Hot in Eu by exact Hp. exact (co_owned _ _ _ C _ _ Eu). }
      split; [rewrite Es1; cbn; rewrite zlen_zset; apply C|]. split.
      { intros p Hst. destruct (decide (p = current s)) as [->|Hp]; [exists n; rewrite Es1; exact Hqc|].
        unfold state_of in Hst. rewrite Hot in Hst by exact Hp. destruct (co_blocked _ _ _ C p Hst) as [n' Hn']. exists n'. rewrite Es1. now apply Hqo. }
      intros s' Hq Hz Ho l' O' Hi' Hr' Hb'. destruct C. constructor; cbn; auto.
      intros i q2 Eq2 Hl2. apply Hq. rewrite Es1. cbn. rewrite znth_zset_ne; [eauto|]. intros ->. congruence.
    + cbn [con_tasks put_tasks] in E, Hr. rewrite E. cbn [obind]. eexists _, _. split; [reflexivity|].
      constructor; [exists s1; split; [now exists tc, q0|exact E]| |].
      * intros ->. pose proof (schedule_op code s s1 l nobody O1 F1 F2 F3) as HS. rewrite E in HS. apply HS.
        -- intros p u Eu Hu. rewrite Hot; [exact Eu|]. intros ->. congruence.
        -- intros p Hp. unfold state_of. now rewrite Hot.
      * intros Hh. destruct Hr as [?|[Hc' Hbl]]; [congruence|]. split; [exact Hc'|]. apply Hbl; [exact Hst1|]. rewrite Es1. exact Hqc.
Qed.

(** ** Any use of the console *)
Inductive con_op : Type :=
| Key (ch : Z) | ReadLine (n count : Z) | Print (n : Z) (data : list Z) | Select (n : Z) | Interrupt | GiveUp.

Definition con_valid (o : con_op) : Prop := match o with ReadLine n count => 0 <= n < MAX_TTYS /\ 0 <= count | _ => True end.

(** [None]: the machine has halted. *)
Definition after_switch c (r : switch * tasks V A) : option (console V A) :=
  match r with (Halted, _) => None | (_, s) => Some (put_tasks c s) end.

Definition run_con (o : con_op) c : outcome (option (console V A)) :=
  match o with
  | Key ch => let* c := tty_receive_char ch c in Ok (Some c)
  | ReadLine n count =>
    let* (r, c) := tty_read_vfs code n count c in
    Ok (match r with ReadBlocked Halted => None | _ => Some c end)
  | Print n data => let* (_, c) := tty_write_vfs n data c in Ok (Some c)
  | Select n => let* w := vt_switch n (con_screens c) in Ok (Some (mkConsole (con_tasks c) (ttys c) w))
  | Interrupt => let* r := timer_handler code (con_tasks c) in Ok (after_switch c r)
  | GiveUp => let* r := thread_yield code (con_tasks c) in Ok (after_switch c r)
  end.

Fixpoint run_all (os : list con_op) c : outcome (option (console V A)) :=
  match os with
  | [] => Ok (Some c)
  | o :: os => let* r := run_con o c in match r with Some c => run_all os c | None => Ok None end
  end.

Definition con_fine (r : option (console V A)) : Prop := match r with Some c => exists l qs, con_ok c l qs | None => True end.

Lemma con_ok_screens c l qs w : con_ok c l qs -> screens_ok w -> con_ok (mkConsole (con_tasks c) (ttys c) w) l qs.
Proof. intros C Hw. destruct C. constructor; cbn; auto. Qed.

Lemma switch_fine c l qs : con_ready c l qs -> exists r, schedule code (con_tasks c) = Ok r /\ con_fine (after_switch c r).
Proof.
  intros C. destruct (schedule_con c l qs C) as (r & s' & E & Hr). exists (r, s'). split; [exact E|].
  destruct Hr as [-> | [(l' & C') _]]; [exact I|]. unfold after_switch, con_fine. destruct r; eauto.
Qed.

Lemma run_con_fine o c l qs : con_ok c l qs -> con_valid o -> exists r, run_con o c = Ok r /\ con_fine r.
Proof.
  intros C Hv. destruct o as [ch|n count|n data|n| |]; cbn [run_con].
  - destruct (receive_spec ch c l qs C) as (c' & -> & K). cbn [obind]. eexists. split; [reflexivity|]. destruct (ke_ok _ _ _ _ _ _ K) as (q & _ & C'). cbn. eauto.
  - destruct Hv as [Hn Hc]. destruct (znth_is_Some qs n) as [q Eq]; [now rewrite (proj2 (co_ttys _ _ _ C))|]. pose proof (tty_read_spec n count c l qs q C Eq Hc) as HR.
    destruct (take_line count q) as [[bytes q']|].
    + destruct HR as (c' & -> & C' & _). cbn [obind]. eexists. split; [reflexivity|]. cbn. eauto.
    + destruct HR as (r & c' & -> & Hr). cbn [obind]. eexists. split; [reflexivity|]. pose proof (rb_waits _ _ _ _ _ Hr) as Hw.
      destruct r; [..|exact I]; destruct (Hw ltac:(discriminate)) as [(l' & C') _]; cbn; eauto.
  - unfold tty_write_vfs. destruct (echo_ok c n data (co_screens _ _ _ C)) as (w & -> & Hw & _). cbn [obind]. eexists. split; [reflexivity|].
    exists l, qs. now apply con_ok_screens.
  - destruct (vt_switch_spec n (con_screens c) (co_screens _ _ _ C)) as (w & -> & Hw & _). cbn [obind]. eexists. split; [reflexivity|].
    exists l, qs. now apply con_ok_screens.
  - unfold timer_handler. set (s1 := with_scheduler_ticks (con_tasks c) _). assert (C1 : con_ok (put_tasks c s1) l qs).
    { destruct C. constructor; auto. destruct co_tasks0. constructor; auto. }
    destruct (preemption_enabled s1); [|cbn [obind]; eexists; split; [reflexivity|]; exists l, qs; exact C1].
    destruct (switch_fine (put_tasks c s1) l qs (con_ok_ready _ _ _ C1)) as (r & E & Hr). cbn [con_tasks put_tasks] in E. rewrite E. cbn [obind]. eauto.
  - unfold thread_yield. rewrite (proj2 (Z.eqb_neq _ _) (ok_nonnull _ _ _ (co_tasks _ _ _ C) (ok_current _ _ (co_tasks _ _ _ C)))). cbn [negb kassert obind].
    destruct (switch_fine c l qs (con_ok_ready _ _ _ C)) as (r & E & Hr). rewrite E. cbn [obind]. eauto.
Qed.

Lemma run_all_fine os : forall c, (exists l qs, con_ok c l qs) -> Forall con_valid os -> exists r, run_all os c = Ok r /\ con_fine r.
Proof.
  induction os as [|o os IH]; intros c (l & qs & C) Hv; cbn [run_all]; [exists (Some c); split; [reflexivity|cbn; eauto]|].
  inversion Hv; subst. destruct (run_con_fine o c l qs C) as (r & -> & Hr); [assumption|]. cbn [obind]. destruct r as [c1|]; [now apply IH|]. exists None. auto.
Qed.

(** Every blocked thread is in the wait queue of a terminal, and a terminal with
    a thread in its queue holds no complete line. *)
Definition no_reader_misses_a_line c : Prop :=
  (forall p, state_of (con_tasks c) p = Some THREAD_BLOCKED -> exists i, 0 <= i < MAX_TTYS /\ queued (con_tasks c) i p) /\
  (forall i t p, znth (ttys c) i = Some t -> queued (con_tasks c) i p -> find_newline (Z.to_nat (tty_len t)) 0 (tty_buf t) = Ok None).

Lemma con_ok_misses c l qs : con_ok c l qs -> no_reader_misses_a_line c.
Proof.
  intros C. split.
  - intros p Hst. destruct (co_blocked _ _ _ C p Hst) as [n Hn]. exists n. split; [|exact Hn]. destruct Hn as (q & li & Eq & _).
    apply znth_Some in Eq. now rewrite (co_queues _ _ _ C) in Eq.
  - intros i t p Et (q & li & Eq & Hli & Hp).
    destruct (znth_is_Some qs i) as [lq El]; [pose proof (znth_Some _ _ _ Et) as Hi; rewrite (proj1 (co_ttys _ _ _ C)) in Hi; now rewrite (proj2 (co_ttys _ _ _ C))|].
    apply (no_newline t lq); [exact (co_lines _ _ _ C i t lq Et El)|]. destruct (lines lq) eqn:Eln; [reflexivity|].
    pose proof (co_wakeup _ _ _ C i lq El ltac:(congruence)) as Hz. rewrite Eq in Hz. injection Hz as ->. destruct li as [|x li]; [inversion Hp|].
    destruct Hli as (<- & H00 & _). congruence.
Qed.

(** C19: A terminal implements a queue of edited lines: a key edits the last line,
    completes it or is dropped when the buffer is full, and a newline makes every
    reader in the queue ready; a read hands out the first complete line, or as much
    of it as fits, exactly once and in order.  A reader without a complete line is
    put in front of the wait queue of the terminal, is marked as blocked and gives the
    processor to another thread, if there is a ready one (otherwise the machine halts):
    it is then still blocked and in the queue ([read_blocks]). *)
Theorem tty_implements_line_queue c l qs : con_ok c l qs ->
  (forall ch, exists c', tty_receive_char ch c = Ok c' /\ keyed c c' l qs (active_vt_idx (con_screens c)) ch) /\
  (forall n count q, znth qs n = Some q -> 0 <= count ->
    match take_line count q with
    | Some (bytes, q') => exists c', tty_read_vfs code n count c = Ok (ReadDone bytes, c') /\ con_ok c' l (zset qs n q') /\ con_tasks c' = con_tasks c
    | None => exists r c', tty_read_vfs code n count c = Ok (ReadBlocked r, c') /\ read_blocks c n r c' qs
    end).
Proof. intros C. split; [intros ch; now apply receive_spec|]. intros n count q Eq Hc. now apply tty_read_spec. Qed.

(** C20: No wakeup is lost: along any interleaving of keys, reads, writes, terminal
    switches, timer interrupts and yields, no call fails, and unless the machine has
    halted because no thread was ready, every blocked thread is in the wait queue of a
    terminal, and no terminal that has a thread in its queue holds a complete line. *)
Theorem tty_no_lost_wakeup os c l qs : con_ok c l qs -> Forall con_valid os ->
  exists r, run_all os c = Ok r /\ match r with Some c' => no_reader_misses_a_line c' | None => True end.
Proof.
  intros C Hv. destruct (run_all_fine os c) as (r & E & Hr); [eauto|exact Hv|]. exists r. split; [exact E|]. destruct r as [c'|]; [|exact I].
  destruct Hr as (l' & qs' & C'). now apply (con_ok_misses c' l' qs').
Qed.

End Console.

(** ** A concrete console: two threads and fresh terminals *)
Definition ttys0 : list tty := replicate (Z.to_nat MAX_TTYS) (mkTty (replicate (Z.to_nat TTY_LINE_MAX) 0) 0).
Definition console_of (o : outcome (console unit obj_heap)) : console unit obj_heap :=
  match o with Ok c => c | Stop _ => mkConsole boot0 [] (screens0 []) end.
Definition console0 : console unit obj_heap := console_of (tty_init (mkConsole two_threads ttys0 (screens0 (replicate (Z.to_nat SIZE) 0)))).
Definition no_lines : list line_queue := replicate (Z.to_nat MAX_TTYS) (mkLines [] []).

Lemma tty_init_fresh {V A} (s : tasks V A) t0 t1 t2 t3 mem :
  zlen mem = SIZE -> wait_queues s = [0; 0; 0; 0] ->
  exists w, tty_init (mkConsole s [t0; t1; t2; t3] (screens0 mem)) =
    Ok (mkConsole s [mkTty (tty_buf t0) 0; mkTty (tty_buf t1) 0; mkTty (tty_buf t2) 0; mkTty (tty_buf t3) 0] w) /\ screens_ok w.
Proof.
  intros Hm Hq. destruct (vt_init_spec mem Hm) as (w & E & Hw & _). exists w. split; [|exact Hw].
  destruct s. cbn in Hq. subst. unfold tty_init. cbn [con_screens]. rewrite E. reflexivity.
Qed.

Lemma console0_eq : exists w, console0 = mkConsole two_threads ttys0 w /\ screens_ok w.
Proof.
  destruct (tty_init_fresh two_threads (mkTty (replicate (Z.to_nat TTY_LINE_MAX) 0) 0) (mkTty (replicate (Z.to_nat TTY_LINE_MAX) 0) 0)
    (mkTty (replicate (Z.to_nat TTY_LINE_MAX) 0) 0) (mkTty (replicate (Z.to_nat TTY_LINE_MAX) 0) 0) (replicate (Z.to_nat SIZE) 0) eq_refl)
    as (w & E & Hw); [vm_compute; reflexivity|].
  exists w. split; [|exact Hw]. unfold console0. exact (f_equal console_of E).
Qed.

Lemma console0_ok : exists l, con_ok console0 l no_lines.
Proof.
  destruct two_threads_ok as (l & O & Hi). exists l. destruct console0_eq as (w & -> & Hw). constructor; cbn [con_tasks ttys con_screens].
  - exact O.
  - exact Hi.
  - eexists. split; vm_compute; reflexivity.
  - assert (Hall : map_Forall (fun _ t => t_process t = kproc0) (threads two_threads)) by (refine (bool_decide_eq_true_1 _ _); vm_compute; reflexivity).
    assert (Hk : is_Some (procs two_threads !! kproc0)) by (eexists; vm_compute; reflexivity).
    intros p t Et. now rewrite (Hall p t Et).
  - reflexivity.
  - exact Hw.
  - split; reflexivity.
  - intros i t q Et Eq. pose proof (znth_Some _ _ _ Et) as Hn. unfold ttys0, no_lines in *. rewrite zlen_replicate in Hn.
    rewrite znth_replicate in Et by exact Hn. rewrite znth_replicate in Eq by exact Hn. injection Et as <-. injection Eq as <-. constructor; cbn; [|intros l' Hin; inversion Hin|intros Hin; inversion Hin|reflexivity].
    constructor; reflexivity || (vm_compute; congruence).
  - intros i q Eq Hl. pose proof (znth_Some _ _ _ Eq) as Hn. unfold no_lines in *. rewrite zlen_replicate in Hn. rewrite znth_replicate in Eq by exact Hn. injection Eq as <-. now destruct Hl.
  - assert (Hall : map_Forall (fun _ t => t_state t <> THREAD_BLOCKED) (threads two_threads)) by (refine (bool_decide_eq_true_1 _ _); vm_compute; reflexivity).
    intros p Hst. unfold state_of in Hst. destruct (threads two_threads !! p) as [t|] eqn:Et; [|discriminate]. injection Hst as Hst. now destruct (Hall p t Et).
Qed.

Lemma tty_implements_line_queue_witness :
  exists l c', con_ok console0 l no_lines /\ tty_receive_char 104 console0 = Ok c' /\ keyed console0 c' l no_lines (active_vt_idx (con_screens console0)) 104.
Proof.
  destruct console0_ok as [l C]. destruct (tty_implements_line_queue code0 console0 l no_lines C) as [Hk _]. destruct (Hk 104) as (c' & E & K).
  exists l, c'. auto.
Defined.

Lemma tty_no_lost_wakeup_witness :
  exists r, run_all code0 [ReadLine 0 16; Key 104; Key 10; GiveUp; ReadLine 0 16] console0 = Ok r /\
    match r with Some c' => no_reader_misses_a_line c' | None => True end.
Proof.
  destruct console0_ok as [l C]. apply (tty_no_lost_wakeup code0 _ console0 l no_lines C).
  repeat constructor; cbn; unfold MAX_TTYS, MAX_VTS; lia.
Defined.

(** A newline makes every thread in the queue ready, also one that has been killed
    while it waited. *)
Definition killed_reader : outcome (option thread_state * option thread_state) :=
  let* (_, c) := tty_read_vfs code0 0 16 (mkConsole two_threads ttys0 blank_screens) in
  let* s := thread_terminate_process kproc0 (con_tasks c) in
  let* c' := tty_receive_char 10 (put_tasks c s) in
  Ok (state_of s (current two_threads), state_of (con_tasks c') (current two_threads)).

Lemma newline_revives_killed_reader : killed_reader = Ok (Some THREAD_DEAD, Some THREAD_READY).
Proof. vm_compute. reflexivity. Qed.
