(* ===== verification/UserSpace.v ===== *)
(** * User address spaces on top of the memory managers

    The virtual memory manager (src/kernel/memory/vmm.c), over any frame allocator,
    meets the contract [UserPages] under which the program loader and [brk] are
    verified. *)

From S2P Require Import Prelude Interfaces Pmm Vmm KernelHeap.

Lemma user_canonical va : 0 <= va < 2 ^ 47 -> is_canonical va = true.
Proof. intros Hva. unfold is_canonical. rewrite Z.shiftr_div_pow2 by lia. rewrite Z.div_small by lia. reflexivity. Qed.

Section UserVmm.
Context {F : Type} `{FrameSourceLaws F}.
(** the root of the address space *)
Variable root : Z.

(** The address space is well formed, the frames of [D] hold no table, and the user
    half is mapped page by page. *)
Definition space_inv (s : vmm F) (D : gset Z) : Prop :=
  exists T, pt_inv T root s /\ (forall p, p ∈ D -> fs_held (vm_frames s) p /\ T !! p = None) /\
    (forall va l e, user_page va -> walk 4 (vm_mem s) root va = Some (l, e) -> l = 1%nat).

#[export] Instance vmm_pages : UserPages (vmm F) := {|
  up_phys := fun s va => vmm_get_phys root va s;
  up_alloc := vm_alloc;
  up_free := fun p s => release s p;
  up_map := fun va p f s => vmm_map_page root va p f s;
  up_unmap := fun va s => vmm_unmap_page root va s;
  up_perm := fun s va f => exists pa, walk 4 (vm_mem s) root va = Some (1%nat, pte_of pa f);
  up_inv := space_inv;
  up_room := fun s => fs_room (vm_frames s)
|}.

Lemma get_phys_user T (s : vmm F) va : pt_inv T root s -> 0 <= va < 2 ^ 47 -> vmm_get_phys root va s = phys_of va (walk 4 (vm_mem s) root va).
Proof.
  intros I Hva. apply get_phys_walk; [now apply user_canonical|]. apply (inv_no_ps _ _ _ I), (idx_range 4).
Qed.

(** A page whose translation is the same is the same page. *)
Lemma walk_same_mapping T T' (s s' : vmm F) va : pt_inv T root s -> pt_inv T' root s' -> 0 <= va < 2 ^ 47 ->
  walk 4 (vm_mem s') root va = walk 4 (vm_mem s) root va -> same_mapping s s' va.
Proof.
  intros I I' Hva E. split; cbn [up_phys up_perm vmm_pages]; [|now rewrite E].
  now rewrite (get_phys_user T s va I Hva), (get_phys_user T' s' va I' Hva), E.
Qed.

Lemma data_frame s D p : space_inv s D -> p ∈ D -> p mod 4096 = 0 /\ 0 < p < 2 ^ 52.
Proof.
  intros (T & I & Hd & _) Hp. destruct (Hd p Hp) as [Hh _]. pose proof (inv_frames _ _ _ I) as Hok.
  destruct (fs_held_range _ p Hok Hh), (fs_limit_range _ Hok). lia.
Qed.

Lemma vmm_alloc_law s D : space_inv s D ->
  exists p s', vm_alloc s = Ok (p, s') /\ (forall va, same_mapping s s' va) /\
    ((p = 0 /\ space_inv s' D /\ up_room s' = 0) \/ (p <> 0 /\ (p ∉ D) /\ space_inv s' ({[p]} ∪ D))).
Proof.
  intros (T & I & Hd & Hw). unfold vm_alloc. destruct (fs_alloc_law _ (inv_frames _ _ _ I)) as (p & f & E & Hok & Hlim & Hc). pose proof (fs_room_alloc _ _ _ (inv_frames _ _ _ I) E) as Hroom. rewrite E. cbn [obind].
  exists p, (set_frames s f). split; [reflexivity|]. split; [intros va; now split|]. destruct Hc as [[-> ->]|(Hp & Hn & Hh)]; [left|right].
  - split; [reflexivity|]. split; [|exact Hroom]. exists T. split; [|now split]. apply frames_inv; auto. intros t l Ht. pose proof (inv_used _ _ _ I t l Ht). tauto.
  - split; [exact Hp|]. split; [intros Hin; apply Hn, (fs_held_used _ _ (inv_frames _ _ _ I)), (Hd p Hin)|]. exists T.
    split; [apply (taken_inv root T s p f); auto|]. split; [|exact Hw].
    intros q Hq. cbn [set_frames vm_frames]. apply elem_of_union in Hq as [->%elem_of_singleton|Hq].
    + split; [apply Hh; now left|]. destruct (T !! p) as [l|] eqn:El; [|reflexivity]. destruct Hn. exact (inv_used _ _ _ I p l El).
    + destruct (Hd q Hq) as [Hq1 Hq2]. split; [apply Hh; now right|exact Hq2].
Qed.

Lemma vmm_free_law s D p : space_inv s D -> p ∈ D ->
  exists s', release s p = Ok s' /\ (forall va, same_mapping s s' va) /\ space_inv s' (D ∖ {[p]}) /\ up_room s' = up_room s + 1.
Proof.
  intros (T & I & Hd & Hw) Hp. destruct (Hd p Hp) as [Hh Hn]. unfold release.
  destruct (fs_free_law _ p (inv_frames _ _ _ I) Hh) as (f & E & Hok & Hlim & Hh').
  pose proof (fs_room_free _ _ _ (inv_frames _ _ _ I) Hh E) as Hroom. rewrite E. cbn [obind].
  exists (set_frames s f). split; [reflexivity|]. split; [intros va; now split|]. split; [|exact Hroom]. exists T. split.
  - apply (returned_inv root T s p f); auto. intros l Hl. congruence.
  - split; [|exact Hw]. intros q [Hq1 Hq2]%elem_of_difference. rewrite elem_of_singleton in Hq2. destruct (Hd q Hq1) as [Hq3 Hq4].
    split; [apply Hh'; auto|exact Hq4].
Qed.

Lemma other_pages va va' : user_page va -> user_page va' -> va' <> va -> va' / 4096 <> va / 4096.
Proof. intros [_ H1] [_ H2] Hne. dlia. Qed.

Lemma vmm_map_law s D va p f : space_inv s D -> p ∈ D -> user_page va ->
  exists b s', vmm_map_page root va p f s = Ok (b, s') /\ space_inv s' D /\
    (forall va', user_page va' -> va' <> va -> same_mapping s s' va') /\
    (if b then up_phys s va = None /\ up_phys s' va = Some p /\ up_perm s' va f
     else same_mapping s s' va /\ (up_phys s va <> None \/ up_room s' = 0)).
Proof.
  intros HI Hp Hu. destruct (data_frame s D p HI Hp) as [Hpa Hpr]. destruct HI as (T & I & Hd & Hw). pose proof Hu as [Hva Hal].
  pose proof (user_canonical va Hva) as Hc.
  destruct (map_spec T root s va p f I ltac:(lia) Hc Hal Hpa) as (b & s' & T' & E & I' & _ & _ & Hk & Hn & _ & Ho & Hb).
  assert (Hoth : forall va', user_page va' -> va' <> va -> walk 4 (vm_mem s') root va' = walk 4 (vm_mem s) root va').
  { intros va' Hu' Hne. pose proof Hu' as [Hva' _]. apply Ho; [lia|now apply user_canonical|now apply other_pages]. }
  exists b, s'. split; [exact E|]. split; [|split].
  - exists T'. split; [exact I'|]. split.
    + intros q Hq. destruct (Hd q Hq) as [Hq1 Hq2]. pose proof (fs_held_used _ _ (inv_frames _ _ _ I) Hq1) as Hq3. split; [now apply Hk|]. destruct (T' !! q) as [l|] eqn:Eq; [|reflexivity].
      destruct (Hn q l Eq); [congruence|done].
    + intros va' l e Hu' Ew. destruct (Z.eq_dec va' va) as [->|Hne]; [|rewrite (Hoth va' Hu' Hne) in Ew; exact (Hw va' l e Hu' Ew)].
      destruct b; [destruct Hb as (_ & Hb & _); congruence|]. destruct Hb as [Hb _]. rewrite Hb in Ew. exact (Hw va l e Hu' Ew).
  - intros va' Hu' Hne. apply (walk_same_mapping T T'); auto. apply Hu'.
  - destruct b; cycle 1.
    { destruct Hb as [Hb Hc']. split; [now apply (walk_same_mapping T T')|]. destruct Hc' as [Hc'|Hc']; [left|right].
      - cbn [up_phys vmm_pages]. rewrite (get_phys_user T s va I Hva). destruct (walk 4 (vm_mem s) root va) as [[l e]|] eqn:Ew; [|done].
        rewrite (Hw va l e Hu Ew). discriminate.
      - cbn [up_room vmm_pages]. exact (fs_room_alloc _ _ _ (inv_frames _ _ _ I') Hc'). }
    destruct Hb as (Hb0 & Hb1 & _). cbn [up_phys up_perm vmm_pages].
    rewrite (get_phys_user T s va I Hva), Hb0, (get_phys_user T' s' va I' Hva), Hb1. split; [reflexivity|]. split; [|eauto].
    cbn [phys_of]. rewrite frame_pte by (assumption || lia). now rewrite Hal, Z.add_0_r.
Qed.

Lemma vmm_unmap_law s D va : space_inv s D -> user_page va ->
  exists b s', vmm_unmap_page root va s = Ok (b, s') /\ space_inv s' D /\
    (forall va', user_page va' -> va' <> va -> same_mapping s s' va') /\ up_phys s' va = None.
Proof.
  intros (T & I & Hd & Hw) Hu. pose proof Hu as [Hva Hal].
  destruct (unmap_spec T root s va I ltac:(lia) (user_canonical va Hva) Hal) as (b & s' & E & I' & Hf & Hb & Ho).
  assert (Hoth : forall va', user_page va' -> va' <> va -> walk 4 (vm_mem s') root va' = walk 4 (vm_mem s) root va').
  { intros va' Hu' Hne. pose proof Hu' as [Hva' _]. apply Ho; [lia|now apply user_canonical|now apply other_pages]. }
  assert (Hn : walk 4 (vm_mem s') root va = None).
  { destruct b; [apply Hb|]. destruct Hb as [-> Hb]. destruct (walk 4 (vm_mem s) root va) as [[l e]|] eqn:Ew; [|reflexivity].
    destruct (Hb e). now rewrite (Hw va l e Hu Ew). }
  exists b, s'. split; [exact E|]. split; [|split].
  - exists T. split; [exact I'|]. rewrite Hf. split; [exact Hd|]. intros va' l e Hu' Ew.
    destruct (Z.eq_dec va' va) as [->|Hne]; [congruence|]. rewrite (Hoth va' Hu' Hne) in Ew. exact (Hw va' l e Hu' Ew).
  - intros va' Hu' Hne. apply (walk_same_mapping T T); auto. apply Hu'.
  - cbn [up_phys vmm_pages]. now rewrite (get_phys_user T s' va I' Hva), Hn.
Qed.

#[export] Instance vmm_pages_laws : UserPagesLaws (vmm F).
Proof.
  constructor.
  - exact data_frame.
  - exact vmm_alloc_law.
  - exact vmm_free_law.
  - exact vmm_map_law.
  - exact vmm_unmap_law.
Qed.

End UserVmm.
