(* ===== verification/Elf.v ===== *)
(** * The program loader (src/kernel/process/elf.c, src/include/elf.h)

    [elf_load_image] builds the image of a program in a user address space: it checks
    the headers of an ELF file held in a kernel buffer, maps and fills the pages of
    its segments, maps a stack and lays out the arguments on it.  The file is the list
    of its bytes, an access outside of it stops; the address space is what the virtual
    memory manager offers ([UserPages]), and the page frames are the bytes of physical
    memory that the loader writes through the direct map. *)

From S2P Require Import Prelude Interfaces CString.

(** ** Constants *)
Definition ELF_MAGIC : Z := 0x464C457F.
Definition ELF_CLASS64 : Z := 2.
Definition ELF_MACHINE_AMD64 : Z := 62.
Definition PT_LOAD : Z := 1.
Definition PF_X : Z := 1.
Definition PF_W : Z := 2.
Definition USER_STACK_TOP : Z := 0x00007FFFFFFFF000.
Definition USER_STACK_PAGES : Z := 16.
Definition sizeof_Ehdr : Z := 64.

Inductive elf_load_error : Type :=
| ELF_LOAD_SUCCESS | ELF_BAD_MAGIC | ELF_UNSUPPORTED_CLASS | ELF_WRONG_MACHINE | ELF_MALFORMED_HEADER
| ELF_MALFORMED_PHDR | ELF_FILESZ_GT_MEMSZ | ELF_SEGMENT_OUT_OF_BOUNDS | ELF_VADDR_OVERFLOW
| ELF_SEGMENT_NOT_USER | ELF_ENTRY_OUT_OF_BOUNDS | ELF_RWX_REJECTED | ELF_VMM_ERROR | ELF_STACK_ERROR.

(** ** The file *)

(** A little-endian field of [n] bytes. *)
Fixpoint field (n : nat) (m : list Z) (p : Z) : outcome Z :=
  match n with
  | O => Ok 0
  | S k => let* b := load m p in let* r := field k m (p + 1) in Ok (b + 256 * r)
  end.

(** The fields of [Elf64_Ehdr] that the loader reads. *)
Record Elf64_Ehdr : Type := mkEhdr {
  magic : Z;
  class : Z;
  machine : Z;
  entry : Z;
  phoff : Z;
  phentsize : Z;
  phnum : Z
}.

Definition read_ehdr (m : list Z) : outcome Elf64_Ehdr :=
  let* magic := field 4 m 0 in
  let* class := field 1 m 4 in
  let* machine := field 2 m 18 in
  let* entry := field 8 m 24 in
  let* phoff := field 8 m 32 in
  let* phentsize := field 2 m 54 in
  let* phnum := field 2 m 56 in
  Ok (mkEhdr magic class machine entry phoff phentsize phnum).

(** The fields of [Elf64_Phdr] that the loader reads of a loadable segment. *)
Record Elf64_Phdr : Type := mkPhdr {
  ph_flags : Z;
  ph_offset : Z;
  ph_vaddr : Z;
  ph_filesz : Z;
  ph_memsz : Z
}.

Definition phdr_type (m : list Z) (p : Z) : outcome Z := field 4 m p.

Definition read_phdr (m : list Z) (p : Z) : outcome Elf64_Phdr :=
  let* flags := field 4 m (p + 4) in
  let* offset := field 8 m (p + 8) in
  let* vaddr := field 8 m (p + 16) in
  let* filesz := field 8 m (p + 32) in
  let* memsz := field 8 m (p + 40) in
  Ok (mkPhdr flags offset vaddr filesz memsz).

(** The offset of program header [i]; [i * hdr->phentsize] is an [int]. *)
Definition phdr_pos (h : Elf64_Ehdr) (i : Z) : Z := phoff h +64 s32 (i * phentsize h).

Definition check_elf_header (m : list Z) : outcome (elf_load_error * Elf64_Ehdr) :=
  if zlen m <? sizeof_Ehdr then Ok (ELF_MALFORMED_HEADER, mkEhdr 0 0 0 0 0 0 0)
  else
    let* h := read_ehdr m in
    if negb (magic h =? ELF_MAGIC) then Ok (ELF_BAD_MAGIC, h)
    else if negb (class h =? ELF_CLASS64) then Ok (ELF_UNSUPPORTED_CLASS, h)
    else if negb (machine h =? ELF_MACHINE_AMD64) then Ok (ELF_WRONG_MACHINE, h)
    else
      let ph_end := phoff h +64 (phnum h *64 phentsize h) in
      if (ph_end <? phoff h) || (zlen m <? ph_end) then Ok (ELF_MALFORMED_PHDR, h)
      else Ok (ELF_LOAD_SUCCESS, h).

(** The checks on a loadable segment. *)
Definition seg_mem_end (ph : Elf64_Phdr) : Z := ph_vaddr ph +64 ph_memsz ph.

Definition check_segment (m : list Z) (ph : Elf64_Phdr) : elf_load_error :=
  let seg_file_end := ph_offset ph +64 ph_filesz ph in
  if ph_memsz ph <? ph_filesz ph then ELF_FILESZ_GT_MEMSZ
  else if (seg_file_end <? ph_offset ph) || (zlen m <? seg_file_end) then ELF_SEGMENT_OUT_OF_BOUNDS
  else if seg_mem_end ph <? ph_vaddr ph then ELF_VADDR_OVERFLOW
  else if 0x00007FFFFFFFFFFF <? seg_mem_end ph then ELF_SEGMENT_NOT_USER
  else if has (ph_flags ph) PF_W && has (ph_flags ph) PF_X then ELF_RWX_REJECTED
  else ELF_LOAD_SUCCESS.

Definition segment_flags (ph : Elf64_Phdr) : Z :=
  let f := VMM_FLAG_USER in
  let f := if has (ph_flags ph) PF_W then Z.lor f VMM_FLAG_WRITABLE else f in
  if has (ph_flags ph) PF_X then f else Z.lor f VMM_FLAG_NO_EXECUTE.

Definition page_down (x : Z) : Z := Z.land x (u64 (Z.lnot 0xFFF)).
Definition start_page (ph : Elf64_Phdr) : Z := page_down (ph_vaddr ph).
Definition end_page (ph : Elf64_Phdr) : Z := page_down (seg_mem_end ph +64 0xFFF).

Definition entry_inside (h : Elf64_Ehdr) (ph : Elf64_Phdr) : bool :=
  has (ph_flags ph) PF_X && (ph_vaddr ph <=? entry h) && (entry h <? seg_mem_end ph).

(** ** The address space being built *)
Record image (A : Type) : Type := mkImage { im_as : A; im_mem : gmap Z Z }.
Arguments mkImage {A} im_as im_mem.
Arguments im_as {A} i.
Arguments im_mem {A} i.

(** Bytes stored one after the other from physical address [p] on. *)
Fixpoint put_bytes (m : gmap Z Z) (p : Z) (l : list Z) : gmap Z Z :=
  match l with
  | [] => m
  | b :: l => put_bytes (<[p := b]> m) (p + 1) l
  end.

(** The source of a [memcpy] out of a buffer. *)
Definition take_bytes (m : list Z) (off n : Z) : outcome (list Z) :=
  if (0 <=? off) && (0 <=? n) && (off + n <=? zlen m) then Ok (slice m off n) else Stop BadAccess.

Section Loader.
Context {A : Type} `{UserPages A}.
Implicit Types st : image A.

(** A fresh page of zeroes at [page]: [pmm_alloc_page], [vmm_map_page], [memset]. *)
Definition new_page (page flags : Z) st : outcome (bool * image A) :=
  let* (paddr, a) := up_alloc (im_as st) in
  if paddr =? 0 then Ok (false, mkImage a (im_mem st))
  else
    let* (b, a) := up_map page paddr flags a in
    if negb b then let* a := up_free paddr a in Ok (false, mkImage a (im_mem st))
    else Ok (true, mkImage a (put_bytes (im_mem st) paddr (replicate 4096 0))).

(** The part of the file that belongs on [page]. *)
Definition copy_page (m : list Z) (ph : Elf64_Phdr) (page : Z) st : outcome (image A) :=
  let paddr := default 0 (up_phys (im_as st) page) in
  let page_offset := if page <? ph_vaddr ph then ph_vaddr ph -64 page else 0 in
  let copy_start_vaddr := page +64 page_offset in
  let file_end := ph_vaddr ph +64 ph_filesz ph in
  if copy_start_vaddr <? file_end then
    let file_offset := ph_offset ph +64 (copy_start_vaddr -64 ph_vaddr ph) in
    let copy_size := 0x1000 -64 page_offset in
    let file_remaining := file_end -64 copy_start_vaddr in
    let copy_size := if file_remaining <? copy_size then file_remaining else copy_size in
    let* src := take_bytes m file_offset copy_size in
    Ok (mkImage (im_as st) (put_bytes (im_mem st) (paddr + page_offset) src))
  else Ok st.

(** One page of a segment. *)
Definition load_page (m : list Z) (ph : Elf64_Phdr) (page : Z) st : outcome (bool * image A) :=
  let* (b, st) := (match up_phys (im_as st) page with
                   | Some _ => Ok (true, st)
                   | None => new_page page (segment_flags ph) st
                   end) in
  if b then let* st := copy_page m ph page st in Ok (true, st) else Ok (false, st).

Fixpoint load_pages (fuel : nat) (m : list Z) (ph : Elf64_Phdr) (page : Z) st : outcome (elf_load_error * image A) :=
  if page <? end_page ph then
    match fuel with
    | O => Stop NoFuel
    | S k =>
      let* (b, st) := load_page m ph page st in
      if b then load_pages k m ph (page +64 0x1000) st else Ok (ELF_VMM_ERROR, st)
    end
  else Ok (ELF_LOAD_SUCCESS, st).

(** The number of pages between two addresses. *)
Definition page_count (a b : Z) : nat := Z.to_nat ((b - a) / 4096).

(** The loop over the program headers; [n] are left. *)
Fixpoint load_segments (n : nat) (m : list Z) (h : Elf64_Ehdr) (i : Z) (entry_found : bool) st
    : outcome (elf_load_error * bool * image A) :=
  match n with
  | O => Ok (ELF_LOAD_SUCCESS, entry_found, st)
  | S k =>
    let p := phdr_pos h i in
    let* t := phdr_type m p in
    if negb (t =? PT_LOAD) then load_segments k m h (i + 1) entry_found st
    else
      let* ph := read_phdr m p in
      match check_segment m ph with
      | ELF_LOAD_SUCCESS =>
        let entry_found := entry_found || entry_inside h ph in
        let* (e, st) := load_pages (page_count (start_page ph) (end_page ph)) m ph (start_page ph) st in
        match e with
        | ELF_LOAD_SUCCESS => load_segments k m h (i + 1) entry_found st
        | e => Ok (e, entry_found, st)
        end
      | e => Ok (e, entry_found, st)
      end
  end.

(** ** The stack *)
Definition STACK_FLAGS : Z := Z.lor (Z.lor VMM_FLAG_WRITABLE VMM_FLAG_USER) VMM_FLAG_NO_EXECUTE.
Definition stack_bottom : Z := USER_STACK_TOP - USER_STACK_PAGES * 0x1000.

Fixpoint map_stack (n : nat) (page : Z) st : outcome (elf_load_error * image A) :=
  match n with
  | O => Ok (ELF_LOAD_SUCCESS, st)
  | S k =>
    let* (b, st) := new_page page STACK_FLAGS st in
    if b then map_stack k (page +64 0x1000) st else Ok (ELF_STACK_ERROR, st)
  end.

Fixpoint write_user_stack_bytes (vaddr : Z) (data : list Z) st : image A :=
  match data with
  | [] => st
  | b :: data =>
    let st :=
      match up_phys (im_as st) (page_down vaddr) with
      | Some paddr => mkImage (im_as st) (<[paddr + Z.land vaddr 0xFFF := b]> (im_mem st))
      | None => st
      end in
    write_user_stack_bytes (vaddr +64 1) data st
  end.

(** A 64-bit word in memory. *)
Definition le64 (v : Z) : list Z := le32 v ++ le32 (v / 2 ^ 32).

Definition push_word (v : Z) (rsp_cur : Z) st : Z * image A :=
  let rsp_cur := rsp_cur -64 8 in (rsp_cur, write_user_stack_bytes rsp_cur (le64 v) st).

(** The strings [strs[n-1]] down to [strs[0]]; their addresses go to [ptrs]. *)
Fixpoint push_strings (n : nat) (strs : list (list Z)) (rsp_cur : Z) (ptrs : list Z) st : outcome (Z * list Z * image A) :=
  match n with
  | O => Ok (rsp_cur, ptrs, st)
  | S i =>
    let* str := of_opt (strs !! i) in
    let* len := strlen str in
    let len := len +64 1 in
    let rsp_cur := rsp_cur -64 len in
    let* bytes := take_bytes str 0 len in
    push_strings i strs rsp_cur (zset ptrs (Z.of_nat i) rsp_cur) (write_user_stack_bytes rsp_cur bytes st)
  end.

(** The pointers [ptrs[n-1]] down to [ptrs[0]]. *)
Fixpoint push_ptrs (n : nat) (ptrs : list Z) (rsp_cur : Z) st : outcome (Z * image A) :=
  match n with
  | O => Ok (rsp_cur, st)
  | S i =>
    let* p := of_opt (ptrs !! i) in
    let '(rsp_cur, st) := push_word p rsp_cur st in
    push_ptrs i ptrs rsp_cur st
  end.

(** The environment and argument pointers, each vector with its null pointer, and
    [argc]. *)
Definition push_pointers (argc : Z) (argv_ptrs : list Z) (envc : Z) (envp_ptrs : list Z) (rsp_cur : Z) st : outcome (Z * image A) :=
  let '(rsp_cur, st) := push_word 0 rsp_cur st in
  let* (rsp_cur, st) := push_ptrs (Z.to_nat envc) envp_ptrs rsp_cur st in
  let '(rsp_cur, st) := push_word 0 rsp_cur st in
  let* (rsp_cur, st) := push_ptrs (Z.to_nat argc) argv_ptrs rsp_cur st in
  Ok (push_word (u64 argc) rsp_cur st).

(** The arguments on the stack. *)
Definition push_args (argc : Z) (argv : list (list Z)) (envc : Z) (envp : list (list Z)) st : outcome (Z * image A) :=
  let rsp_cur := USER_STACK_TOP in
  let envc := if 32 <? envc then 32 else envc in
  let argc := if 32 <? argc then 32 else argc in
  let* (rsp_cur, envp_ptrs, st) := push_strings (Z.to_nat envc) envp rsp_cur (replicate 32 0) st in
  let* (rsp_cur, argv_ptrs, st) := push_strings (Z.to_nat argc) argv rsp_cur (replicate 32 0) st in
  push_pointers argc argv_ptrs envc envp_ptrs (Z.land rsp_cur (u64 (Z.lnot 15))) st.

(** ** [elf_load_image]: the error code, the entry point, the stack pointer *)
Definition elf_load_image (m : list Z) (argc : Z) (argv : list (list Z)) (envc : Z) (envp : list (list Z)) st
    : outcome (elf_load_error * Z * Z * image A) :=
  let* (err, hdr) := check_elf_header m in
  match err with
  | ELF_LOAD_SUCCESS =>
    let* (e, entry_found, st) := load_segments (Z.to_nat (phnum hdr)) m hdr 0 false st in
    match e with
    | ELF_LOAD_SUCCESS =>
      if negb entry_found then Ok (ELF_ENTRY_OUT_OF_BOUNDS, 0, 0, st)
      else
        let* (e, st) := map_stack (page_count stack_bottom USER_STACK_TOP) stack_bottom st in
        match e with
        | ELF_LOAD_SUCCESS =>
          let* (rsp_cur, st) := push_args argc argv envc envp st in
          Ok (ELF_LOAD_SUCCESS, entry hdr, rsp_cur, st)
        | e => Ok (e, 0, 0, st)
        end
    | e => Ok (e, 0, 0, st)
    end
  | e => Ok (e, 0, 0, st)
  end.

(** ** The program starts: [_start] (src/user/libkryos/startup.S) *)

(** The byte the program finds at [va]. *)
Definition user_byte st (va : Z) : option Z :=
  match up_phys (im_as st) (page_down va) with Some p => im_mem st !! (p + Z.land va 0xFFF) | None => None end.

Fixpoint user_bytes (n : nat) (va : Z) st : option (list Z) :=
  match n with
  | O => Some []
  | S k => match user_byte st va, user_bytes k (va + 1) st with Some b, Some r => Some (b :: r) | _, _ => None end
  end.

(** [rdi], [rsi], [rdx] and the aligned [rsp] with which [main] is called. *)
Definition _start (rsp : Z) st : outcome (Z * Z * Z * Z) :=
  let* w := of_opt (user_bytes 8 rsp st) in
  let* rdi := field 8 w 0 in
  let rsi := rsp +64 8 in
  let rdx := u64 (rsp + 16 + rdi * 8) in
  Ok (rdi, rsi, rdx, Z.land rsp (u64 (-16))).

End Loader.
