(* ===== verification/ElfProofs.v ===== *)
(** * Proofs about the program loader

    The memory a program sees ([user_byte]), the reference image of a file
    ([load_image]), and the lemmas on each step of the loader. *)

From S2P Require Import Prelude Bitmap Interfaces CString Elf.

(** ** The file *)
Lemma page_down_spec x : 0 <= x < 2 ^ 64 -> page_down x = x - x mod 4096.
Proof. intros Hx. unfold page_down. change (Z.lnot 0xFFF) with (Z.lnot (2 ^ 12 - 1)). rewrite land_not_low by lia. reflexivity. Qed.

Lemma field_ok n m : Forall byte m -> forall p, 0 <= p -> p + Z.of_nat n <= zlen m ->
  exists v, field n m p = Ok v /\ 0 <= v < 256 ^ Z.of_nat n.
Proof.
  intros Hm. induction n as [|n IH]; intros p Hp Hn; cbn [field]; [exists 0; split; [reflexivity|cbn; lia]|].
  destruct (load_ok m p) as (b & -> & Eb); [lia|]. cbn [obind].
  destruct (IH (p + 1)) as (v & -> & Hv); [lia|lia|]. cbn [obind].
  eexists. split; [reflexivity|]. pose proof (Forall_znth _ _ _ _ Hm Eb) as Hb. unfold byte in Hb.
  rewrite Nat2Z.inj_succ, Z.pow_succ_r by lia. nia.
Qed.

Definition word (v : Z) : Prop := 0 <= v < 2 ^ 64.

Record phdr_ok (ph : Elf64_Phdr) : Prop := {
  pk_flags : word (ph_flags ph);
  pk_offset : word (ph_offset ph);
  pk_vaddr : word (ph_vaddr ph);
  pk_filesz : word (ph_filesz ph);
  pk_memsz : word (ph_memsz ph)
}.

Lemma read_phdr_ok m p : Forall byte m -> 0 <= p -> p + 48 <= zlen m -> exists ph, read_phdr m p = Ok ph /\ phdr_ok ph.
Proof.
  intros Hm Hp Hl. unfold read_phdr.
  destruct (field_ok 4 m Hm (p + 4)) as (v1 & -> & H1); [lia|lia|]. cbn [obind].
  destruct (field_ok 8 m Hm (p + 8)) as (v2 & -> & H2); [lia|lia|]. cbn [obind].
  destruct (field_ok 8 m Hm (p + 16)) as (v3 & -> & H3); [lia|lia|]. cbn [obind].
  destruct (field_ok 8 m Hm (p + 32)) as (v4 & -> & H4); [lia|lia|]. cbn [obind].
  destruct (field_ok 8 m Hm (p + 40)) as (v5 & -> & H5); [lia|lia|]. cbn [obind].
  eexists. split; [reflexivity|]. constructor; unfold word; cbn in *; lia.
Qed.

Record ehdr_ok (h : Elf64_Ehdr) : Prop := {
  ek_entry : word (entry h);
  ek_phoff : word (phoff h);
  ek_phentsize : 0 <= phentsize h < 2 ^ 16;
  ek_phnum : 0 <= phnum h < 2 ^ 16
}.

Lemma read_ehdr_ok m : Forall byte m -> sizeof_Ehdr <= zlen m -> exists h, read_ehdr m = Ok h /\ ehdr_ok h.
Proof.
  intros Hm Hl. unfold sizeof_Ehdr in Hl. unfold read_ehdr.
  destruct (field_ok 4 m Hm 0) as (v1 & -> & H1); [lia|lia|]. cbn [obind].
  destruct (field_ok 1 m Hm 4) as (v2 & -> & H2); [lia|lia|]. cbn [obind].
  destruct (field_ok 2 m Hm 18) as (v3 & -> & H3); [lia|lia|]. cbn [obind].
  destruct (field_ok 8 m Hm 24) as (v4 & -> & H4); [lia|lia|]. cbn [obind].
  destruct (field_ok 8 m Hm 32) as (v5 & -> & H5); [lia|lia|]. cbn [obind].
  destruct (field_ok 2 m Hm 54) as (v6 & -> & H6); [lia|lia|]. cbn [obind].
  destruct (field_ok 2 m Hm 56) as (v7 & -> & H7); [lia|lia|]. cbn [obind].
  eexists. split; [reflexivity|]. constructor; unfold word; cbn in *; lia.
Qed.

(** The header checks as one predicate; the error code is the first test that fails. *)
Definition header_ok (m : list Z) (h : Elf64_Ehdr) : Prop :=
  magic h = ELF_MAGIC /\ class h = ELF_CLASS64 /\ machine h = ELF_MACHINE_AMD64 /\ phoff h + phnum h * phentsize h <= zlen m.

Lemma check_header_spec m : Forall byte m -> zlen m < 2 ^ 31 ->
  exists e h, check_elf_header m = Ok (e, h) /\
    (e = ELF_LOAD_SUCCESS /\ sizeof_Ehdr <= zlen m /\ read_ehdr m = Ok h /\ header_ok m h /\ ehdr_ok h \/
     e <> ELF_LOAD_SUCCESS /\ forall h', read_ehdr m = Ok h' -> sizeof_Ehdr <= zlen m -> ~ header_ok m h').
Proof.
  intros Hm Hl. unfold check_elf_header. destruct (Z.ltb_spec (zlen m) sizeof_Ehdr).
  { do 2 eexists. split; [reflexivity|]. right. split; [discriminate|]. lia. }
  destruct (read_ehdr_ok m Hm ltac:(lia)) as (h & -> & Hh). cbn [obind].
  assert (Hbad : forall e, e <> ELF_LOAD_SUCCESS -> ~ header_ok m h ->
    exists e' h', Ok (e, h) = Ok (e', h') /\
      (e' = ELF_LOAD_SUCCESS /\ sizeof_Ehdr <= zlen m /\ Ok h = Ok h' /\ header_ok m h' /\ ehdr_ok h' \/
       e' <> ELF_LOAD_SUCCESS /\ forall h', Ok h = Ok h' -> sizeof_Ehdr <= zlen m -> ~ header_ok m h')).
  { intros e He Hn. exists e, h. split; [reflexivity|]. right. split; [exact He|]. intros h' [= <-] _. exact Hn. }
  destruct (Z.eqb_spec (magic h) ELF_MAGIC); cbn [negb]; [|apply Hbad; [done|intros (? & _); done]].
  destruct (Z.eqb_spec (class h) ELF_CLASS64); cbn [negb]; [|apply Hbad; [done|intros (_ & ? & _); done]].
  destruct (Z.eqb_spec (machine h) ELF_MACHINE_AMD64); cbn [negb]; [|apply Hbad; [done|intros (_ & _ & ? & _); done]].
  pose proof Hh as [He Ho Hs Hp]. unfold word in *. assert (Hpr : 0 <= phnum h * phentsize h < 2 ^ 32) by nia.
  rewrite (u64_id (phnum h * phentsize h)) by lia. unfold u64.
  destruct (Z.ltb_spec ((phoff h + phnum h * phentsize h) mod 2 ^ 64) (phoff h)); cbn [orb].
  { apply Hbad; [done|]. intros (_ & _ & _ & Hx). dlia. }
  destruct (Z.ltb_spec (zlen m) ((phoff h + phnum h * phentsize h) mod 2 ^ 64)).
  { apply Hbad; [done|]. intros (_ & _ & _ & Hx). dlia. }
  exists ELF_LOAD_SUCCESS, h. split; [reflexivity|]. left. do 3 (split; [done || lia|]). split; [|exact Hh]. do 3 (split; [assumption|]). dlia.
Qed.

(** The codes for the lack of memory come from no check. *)
Definition format_error (e : elf_load_error) : Prop := e <> ELF_VMM_ERROR /\ e <> ELF_STACK_ERROR.

Lemma check_header_code m e h : check_elf_header m = Ok (e, h) -> format_error e.
Proof.
  unfold check_elf_header. destruct (_ <? _); [intros [= <- _]; split; discriminate|]. destruct (read_ehdr m) as [x|]; [|discriminate]. cbn [obind].
  repeat (destruct (negb _); [intros [= <- _]; split; discriminate|]). cbv zeta. destruct (_ || _); intros [= <- _]; split; discriminate.
Qed.

Lemma check_segment_code m ph : format_error (check_segment m ph).
Proof. unfold check_segment. cbv zeta. repeat (destruct (_ <? _) || destruct (_ || _) || destruct (_ && _)); cbn; split; discriminate. Qed.

(** ** Segments *)
Record seg_ok (m : list Z) (ph : Elf64_Phdr) : Prop := {
  sg_size : 0 <= ph_filesz ph <= ph_memsz ph;
  sg_file : 0 <= ph_offset ph /\ ph_offset ph + ph_filesz ph <= zlen m;
  sg_user : 0 <= ph_vaddr ph /\ ph_vaddr ph + ph_memsz ph < 2 ^ 47;
  sg_wx : has (ph_flags ph) PF_W && has (ph_flags ph) PF_X = false
}.

Lemma check_segment_spec m ph : phdr_ok ph -> zlen m < 2 ^ 31 -> check_segment m ph = ELF_LOAD_SUCCESS <-> seg_ok m ph.
Proof.
  intros [_ Ho Hv Hf Hs] Hl. unfold word in *. unfold check_segment, seg_mem_end, u64.
  split.
  - destruct (Z.ltb_spec (ph_memsz ph) (ph_filesz ph)); [discriminate|].
    destruct (Z.ltb_spec ((ph_offset ph + ph_filesz ph) mod 2 ^ 64) (ph_offset ph)); [discriminate|]. cbn [orb].
    destruct (Z.ltb_spec (zlen m) ((ph_offset ph + ph_filesz ph) mod 2 ^ 64)); [discriminate|].
    destruct (Z.ltb_spec ((ph_vaddr ph + ph_memsz ph) mod 2 ^ 64) (ph_vaddr ph)); [discriminate|].
    destruct (Z.ltb_spec 0x00007FFFFFFFFFFF ((ph_vaddr ph + ph_memsz ph) mod 2 ^ 64)); [discriminate|].
    destruct (has (ph_flags ph) PF_W && has (ph_flags ph) PF_X) eqn:E; [discriminate|]. intros _. constructor; [lia|dlia|dlia|exact E].
  - intros [H1 H2 H3 H4]. rewrite !Z.mod_small by lia. rewrite H4.
    destruct (Z.ltb_spec (ph_memsz ph) (ph_filesz ph)); [lia|].
    destruct (Z.ltb_spec (ph_offset ph + ph_filesz ph) (ph_offset ph)); [lia|]. cbn [orb].
    destruct (Z.ltb_spec (zlen m) (ph_offset ph + ph_filesz ph)); [lia|].
    destruct (Z.ltb_spec (ph_vaddr ph + ph_memsz ph) (ph_vaddr ph)); [lia|].
    destruct (Z.ltb_spec 0x00007FFFFFFFFFFF (ph_vaddr ph + ph_memsz ph)); [lia|reflexivity].
Qed.

Section Bounds.
Context (m : list Z) (ph : Elf64_Phdr) (Hs : seg_ok m ph).

Lemma mem_end_eq : seg_mem_end ph = ph_vaddr ph + ph_memsz ph.
Proof. destruct Hs as [H1 H2 H3 H4]. apply u64_id. lia. Qed.

Lemma start_page_eq : start_page ph = ph_vaddr ph - ph_vaddr ph mod 4096.
Proof. destruct Hs as [H1 H2 H3 H4]. apply page_down_spec. lia. Qed.

Lemma end_page_eq : end_page ph = (ph_vaddr ph + ph_memsz ph + 4095) / 4096 * 4096.
Proof.
  destruct Hs as [H1 H2 H3 H4]. unfold end_page. rewrite mem_end_eq, u64_id by lia. rewrite page_down_spec by lia. dlia.
Qed.

Lemma pages_range : 0 <= start_page ph /\ start_page ph <= end_page ph + 4095 /\ end_page ph <= 2 ^ 47 /\
  start_page ph mod 4096 = 0 /\ end_page ph mod 4096 = 0 /\ start_page ph <= ph_vaddr ph < start_page ph + 4096 /\
  ph_vaddr ph + ph_memsz ph <= end_page ph.
Proof. destruct Hs as [H1 H2 H3 H4]. rewrite start_page_eq, end_page_eq. change (2 ^ 47) with (34359738368 * 4096) in *. dlia. Qed.
End Bounds.

(** ** The memory of the program *)
Lemma put_bytes_lookup l : forall m p a, put_bytes m p l !! a = if (p <=? a) && (a <? p + zlen l) then znth l (a - p) else m !! a.
Proof.
  induction l as [|b l IH]; intros m p a; cbn [put_bytes].
  - unfold zlen. cbn [length]. destruct (Z.leb_spec p a), (Z.ltb_spec a (p + Z.of_nat 0)); try reflexivity; lia.
  - rewrite IH. assert (zlen (b :: l) = zlen l + 1) as -> by (unfold zlen; cbn [length]; lia). pose proof (zlen_nonneg l).
    change (b :: l) with ([b] ++ l). destruct (Z.leb_spec p a); cbn [andb].
    + rewrite znth_app by lia. change (zlen [b]) with 1.
      destruct (Z.leb_spec (p + 1) a), (Z.ltb_spec a (p + 1 + zlen l)), (Z.ltb_spec a (p + (zlen l + 1))), (Z.ltb_spec (a - p) 1);
        try lia; cbn [andb]; [f_equal; lia|now rewrite lookup_insert_ne by lia|].
      replace (a - p) with 0 by lia. assert (a = p) as -> by lia. now rewrite lookup_insert_eq.
    + destruct (Z.leb_spec (p + 1) a); [lia|]. cbn [andb]. now rewrite lookup_insert_ne by lia.
Qed.

(** The first address of the page of [va]. *)
Definition page_of (va : Z) : Z := va - va mod 4096.

Lemma page_of_user va : 0 <= va < 2 ^ 47 -> user_page (page_of va).
Proof. intros Hva. unfold user_page, page_of. split; dlia. Qed.

Lemma page_of_page va : va mod 4096 = 0 -> page_of va = va.
Proof. unfold page_of. lia. Qed.

(** Flags that the loader may map a page with: for the user, not both writable and
    executable. *)
Definition wx_ok (f : Z) : Prop :=
  has f VMM_FLAG_USER = true /\ has f VMM_FLAG_WRITABLE && negb (has f VMM_FLAG_NO_EXECUTE) = false.

Lemma segment_flags_wx m ph : seg_ok m ph -> wx_ok (segment_flags ph).
Proof.
  intros [_ _ _ Hx]. unfold segment_flags. destruct (has (ph_flags ph) PF_W), (has (ph_flags ph) PF_X); try discriminate; split; reflexivity.
Qed.

Section Image.
Context {A : Type} `{UserPagesLaws A}.
Implicit Types (st : image A) (D : gset Z).

Lemma user_byte_eq st va : 0 <= va < 2 ^ 64 ->
  user_byte st va = match up_phys (im_as st) (page_of va) with Some p => im_mem st !! (p + va mod 4096) | None => None end.
Proof.
  intros Hva. unfold user_byte. rewrite page_down_spec by exact Hva. change 0xFFF with (Z.ones 12). rewrite Z.land_ones by lia. reflexivity.
Qed.

Record img_ok st D : Prop := {
  io_inv : up_inv (im_as st) D;
  io_held va p : user_page va -> up_phys (im_as st) va = Some p -> p ∈ D;
  io_inj va va' p : user_page va -> user_page va' -> up_phys (im_as st) va = Some p -> up_phys (im_as st) va' = Some p -> va = va';
  io_bytes va p o : user_page va -> up_phys (im_as st) va = Some p -> 0 <= o < 4096 -> is_Some (im_mem st !! (p + o));
  io_perm va p : user_page va -> up_phys (im_as st) va = Some p -> exists f, up_perm (im_as st) va f /\ wx_ok f
}.

Lemma user_byte_mapped st D va : img_ok st D -> 0 <= va < 2 ^ 47 -> is_Some (user_byte st va) <-> is_Some (up_phys (im_as st) (page_of va)).
Proof.
  intros I Hva. rewrite !user_byte_eq by lia. destruct (up_phys (im_as st) (page_of va)) as [p|] eqn:E; [|reflexivity].
  split; [eauto|]. intros _. apply (io_bytes st D I (page_of va)); [now apply page_of_user|exact E|dlia].
Qed.

(** Two addresses of mapped pages at the same place of physical memory are the same. *)
Lemma same_place st D page p page' p' o o' : img_ok st D -> user_page page -> user_page page' ->
  up_phys (im_as st) page = Some p -> up_phys (im_as st) page' = Some p' -> 0 <= o < 4096 -> 0 <= o' < 4096 ->
  p + o = p' + o' -> page = page' /\ o = o'.
Proof.
  intros I Hu Hu' E E' Ho Ho' Heq.
  destruct (up_frame _ _ p (io_inv _ _ I) (io_held _ _ I _ _ Hu E)) as [Hp _].
  destruct (up_frame _ _ p' (io_inv _ _ I) (io_held _ _ I _ _ Hu' E')) as [Hp' _].
  assert (p = p') as -> by dlia. split; [exact (io_inj _ _ I _ _ _ Hu Hu' E E')|lia].
Qed.

(** Writing the bytes [l] into the frame of [page], [o] bytes from its start. *)
Lemma write_frame st D page p o l : img_ok st D -> user_page page -> up_phys (im_as st) page = Some p -> 0 <= o -> o + zlen l <= 4096 ->
  let st' := mkImage (im_as st) (put_bytes (im_mem st) (p + o) l) in
  img_ok st' D /\
  forall va, 0 <= va < 2 ^ 47 ->
    user_byte st' va = if (page + o <=? va) && (va <? page + o + zlen l) then znth l (va - (page + o)) else user_byte st va.
Proof.
  intros I Hu E Ho Hl st'. split.
  - constructor; cbn [im_as im_mem st']; try apply I. intros va q k Hva Eq Hk. rewrite put_bytes_lookup.
    destruct (Z.leb_spec (p + o) (q + k)), (Z.ltb_spec (q + k) (p + o + zlen l)); cbn [andb]; try (now eapply io_bytes; eauto).
    destruct (znth_is_Some l (q + k - (p + o))) as [b ->]; [lia|eauto].
  - intros va Hva. rewrite !user_byte_eq by lia. cbn [im_as im_mem st']. destruct Hu as [Hu Hm].
    destruct (Z.eq_dec (page_of va) page) as [Hp|Hp].
    + rewrite Hp, E, put_bytes_lookup. unfold page_of in Hp.
      replace (p + va mod 4096 - (p + o)) with (va - (page + o)) by lia.
      destruct (Z.leb_spec (p + o) (p + va mod 4096)), (Z.leb_spec (page + o) va), (Z.ltb_spec (p + va mod 4096) (p + o + zlen l)),
        (Z.ltb_spec va (page + o + zlen l)); try lia; reflexivity.
    + assert (Hout : (page + o <=? va) && (va <? page + o + zlen l) = false).
      { apply not_true_iff_false. intros [H1%Z.leb_le H2%Z.ltb_lt]%andb_true_iff. apply Hp. unfold page_of. dlia. }
      rewrite Hout. destruct (up_phys (im_as st) (page_of va)) as [q|] eqn:Eq; [|reflexivity]. rewrite put_bytes_lookup.
      destruct (Z.leb_spec (p + o) (q + va mod 4096)), (Z.ltb_spec (q + va mod 4096) (p + o + zlen l)); try reflexivity. exfalso. apply Hp.
      apply (same_place st D _ _ _ _ (va mod 4096) (q + va mod 4096 - p) I (page_of_user _ Hva) (conj Hu Hm) Eq E); [dlia|lia|lia].
Qed.

(** A step that changes neither the mappings nor the memory. *)
Lemma img_ok_same st D a' D' : img_ok st D -> (forall va, user_page va -> same_mapping (im_as st) a' va) -> up_inv a' D' -> D ⊆ D' ->
  img_ok (mkImage a' (im_mem st)) D' /\ forall va, 0 <= va < 2 ^ 47 -> user_byte (mkImage a' (im_mem st)) va = user_byte st va.
Proof.
  intros I Hs Hi Hd. split.
  - constructor; cbn [im_as im_mem]; [exact Hi|..].
    + intros va p Hu. rewrite (proj1 (Hs va Hu)). intros E. apply Hd. exact (io_held _ _ I va p Hu E).
    + intros va va' p Hu Hu'. rewrite (proj1 (Hs va Hu)), (proj1 (Hs va' Hu')). exact (io_inj _ _ I va va' p Hu Hu').
    + intros va p o Hu. rewrite (proj1 (Hs va Hu)). exact (io_bytes _ _ I va p o Hu).
    + intros va p Hu. rewrite (proj1 (Hs va Hu)). intros E. destruct (io_perm _ _ I va p Hu E) as (f & Hf & Hw). exists f. split; [|exact Hw]. now apply (proj2 (Hs va Hu)).
  - intros va Hva. rewrite !user_byte_eq by lia. cbn [im_as im_mem]. now rewrite (proj1 (Hs _ (page_of_user va Hva))).
Qed.

(** A page mapped to a frame that was not in use, filled with zeroes. *)
Lemma fresh_page st D a' D' page p f : img_ok st D -> p ∉ D -> p ∈ D' -> D ⊆ D' -> user_page page -> wx_ok f -> up_inv a' D' ->
  (forall va, user_page va -> va <> page -> same_mapping (im_as st) a' va) -> up_phys (im_as st) page = None ->
  up_phys a' page = Some p -> up_perm a' page f ->
  let st' := mkImage a' (put_bytes (im_mem st) p (replicate 4096 0)) in
  img_ok st' D' /\ forall va, 0 <= va < 2 ^ 47 -> user_byte st' va = if page_of va =? page then Some 0 else user_byte st va.
Proof.
  intros I Hp Hp' Hd Hu Hf Hi Hs En Ep Hperm st'.
  assert (Hz : zlen (replicate 4096 0) = 4096) by reflexivity.
  assert (Hcase : forall va q, user_page va -> up_phys a' va = Some q -> (va = page /\ q = p) \/ (va <> page /\ up_phys (im_as st) va = Some q /\ q ∈ D)).
  { intros va q Hva Eq. destruct (Z.eq_dec va page) as [->|Hne]; [left; split; congruence|right]. rewrite (proj1 (Hs va Hva Hne)) in Eq.
    split; [exact Hne|]. split; [exact Eq|]. exact (io_held _ _ I va q Hva Eq). }
  assert (Hoff : forall q o, q ∈ D -> 0 <= o < 4096 -> put_bytes (im_mem st) p (replicate 4096 0) !! (q + o) = im_mem st !! (q + o)).
  { intros q o Hq Ho. rewrite put_bytes_lookup, Hz.
    destruct (up_frame _ _ q Hi (Hd q Hq)) as [Hq1 _]. destruct (up_frame _ _ p Hi Hp') as [Hp1 _].
    destruct (Z.leb_spec p (q + o)), (Z.ltb_spec (q + o) (p + 4096)); try reflexivity. exfalso. apply Hp. assert (Hpq : p = q) by dlia. now rewrite Hpq. }
  assert (Hin : forall o, 0 <= o < 4096 -> put_bytes (im_mem st) p (replicate 4096 0) !! (p + o) = Some 0).
  { intros o Ho. rewrite put_bytes_lookup, Hz. destruct (Z.leb_spec p (p + o)), (Z.ltb_spec (p + o) (p + 4096)); try lia. cbn [andb]. apply znth_replicate. lia. }
  split.
  - constructor; cbn [im_as im_mem st']; [exact Hi|..].
    + intros va q Hva Eq. destruct (Hcase va q Hva Eq) as [[_ ->]|(_ & _ & Hq)]; auto.
    + intros va va' q Hva Hva' Eq Eq'. destruct (Hcase va q Hva Eq) as [[Hv Hx]|(_ & E & Hq)], (Hcase va' q Hva' Eq') as [[Hv' Hx']|(_ & E' & Hq')]; try congruence.
      exact (io_inj _ _ I va va' q Hva Hva' E E').
    + intros va q o Hva Eq Ho. destruct (Hcase va q Hva Eq) as [[_ ->]|(_ & E & Hq)]; [rewrite Hin by lia; eauto|].
      rewrite (Hoff q o Hq Ho). exact (io_bytes _ _ I va q o Hva E Ho).
    + intros va q Hva Eq. destruct (Hcase va q Hva Eq) as [[-> ->]|(Hne & E & _)]; [eauto|].
      destruct (io_perm _ _ I va q Hva E) as (g & Hg & Hw). exists g. split; [|exact Hw]. now apply (proj2 (Hs va Hva Hne)).
  - intros va Hva. rewrite !user_byte_eq by lia. cbn [im_as im_mem st']. destruct (Z.eqb_spec (page_of va) page) as [->|Hne]; [rewrite Ep; apply Hin; dlia|].
    rewrite (proj1 (Hs _ (page_of_user va Hva) Hne)). destruct (up_phys (im_as st) (page_of va)) as [q|] eqn:Eq; [|reflexivity].
    apply Hoff; [|dlia]. exact (io_held _ _ I _ q (page_of_user va Hva) Eq).
Qed.

(** [new_page] maps a page of zeroes where none was, or changes nothing. *)
Lemma new_page_spec st D page f : img_ok st D -> user_page page -> wx_ok f ->
  exists b st' D', new_page page f st = Ok (b, st') /\ img_ok st' D' /\
    (if b then up_phys (im_as st) page = None else up_phys (im_as st) page <> None \/ up_room (im_as st') <= 1) /\
    forall va, 0 <= va < 2 ^ 47 -> user_byte st' va = if b && (page_of va =? page) then Some 0 else user_byte st va.
Proof.
  intros I Hu Hf. unfold new_page.
  destruct (up_alloc_law _ _ (io_inv _ _ I)) as (p & a1 & -> & Hs1 & Hc). cbn [obind].
  destruct Hc as [(-> & Hi & Hz)|(Hp & Hnd & Hi)].
  { rewrite Z.eqb_refl. destruct (img_ok_same st D a1 D I (fun va _ => Hs1 va) Hi ltac:(done)) as [I1 Hb].
    exists false, (mkImage a1 (im_mem st)), D. split; [reflexivity|]. split; [exact I1|]. split; [right; cbn [im_as]; lia|exact Hb]. }
  destruct (Z.eqb_spec p 0); [done|].
  assert (Hset : (p ∈ ({[p]} ∪ D)) /\ D ⊆ {[p]} ∪ D /\ D ⊆ ({[p]} ∪ D) ∖ {[p]}) by set_solver. destruct Hset as (Hin & Hsub & Hrest).
  destruct (up_map_law a1 _ page p f Hi Hin Hu) as (b & a2 & -> & Hi2 & Hs2 & Hb). cbn [obind].
  destruct b; cbn [negb].
  - destruct Hb as (En & Ep & Hperm). rewrite (proj1 (Hs1 page)) in En.
    destruct (fresh_page st D a2 ({[p]} ∪ D) page p f I Hnd Hin Hsub Hu Hf Hi2) as [I2 Hby]; try assumption.
    { intros va Hva Hne. destruct (Hs1 va) as [X1 X2], (Hs2 va Hva Hne) as [Y1 Y2]. split; [congruence|]. intros g. now rewrite Y2, X2. }
    do 3 eexists. split; [reflexivity|]. split; [exact I2|]. split; [auto|]. exact Hby.
  - destruct (up_free_law a2 _ p Hi2 Hin) as (a3 & -> & Hs3 & Hi3 & Hroom). cbn [obind].
    destruct (img_ok_same st D a3 (({[p]} ∪ D) ∖ {[p]}) I) as [I3 Hby]; [|exact Hi3|exact Hrest|].
    { intros va Hva. assert (Hx : same_mapping a1 a2 va) by (destruct (Z.eq_dec va page) as [->|Hne]; [apply Hb|auto]).
      destruct (Hs1 va) as [X1 X2], Hx as [Y1 Y2], (Hs3 va) as [Z1 Z2]. split; [congruence|]. intros g. now rewrite Z2, Y2, X2. }
    do 3 eexists. split; [reflexivity|]. split; [exact I3|]. split; [|exact Hby].
    destruct Hb as [_ Hfull]. rewrite (proj1 (Hs1 page)) in Hfull. destruct Hfull as [Hfull|Hfull]; [now left|right; cbn [im_as]; lia].
Qed.

(** ** Loading a segment *)

(** What the segment [ph] of the file [m] makes of the memory [old] on its pages. *)
Definition seg_byte (m : list Z) (ph : Elf64_Phdr) (old : Z -> option Z) (va : Z) : option Z :=
  if (ph_vaddr ph <=? va) && (va <? ph_vaddr ph + ph_filesz ph) then znth m (ph_offset ph + (va - ph_vaddr ph))
  else match old va with Some b => Some b | None => Some 0 end.

Lemma take_bytes_ok m off n : 0 <= off -> 0 <= n -> off + n <= zlen m -> take_bytes m off n = Ok (slice m off n).
Proof.
  intros H1 H2 H3. unfold take_bytes. destruct (Z.leb_spec 0 off), (Z.leb_spec 0 n), (Z.leb_spec (off + n) (zlen m)); try lia. reflexivity.
Qed.

Lemma copy_page_spec m ph st D page p : zlen m < 2 ^ 31 -> img_ok st D -> seg_ok m ph -> user_page page -> start_page ph <= page < end_page ph ->
  up_phys (im_as st) page = Some p ->
  exists st', copy_page m ph page st = Ok st' /\ img_ok st' D /\ im_as st' = im_as st /\
    forall va, 0 <= va < 2 ^ 47 -> user_byte st' va =
      if (page_of va =? page) && (ph_vaddr ph <=? va) && (va <? ph_vaddr ph + ph_filesz ph) then znth m (ph_offset ph + (va - ph_vaddr ph)) else user_byte st va.
Proof.
  intros Hm I Hs Hu Hr Ep. destruct (pages_range m ph Hs) as (P1 & P2 & P3 & P4 & P5 & P6 & P7). destruct Hs as [S1 S2 S3 _]. destruct Hu as [Hu Hal].
  unfold copy_page. rewrite Ep. change (default 0 (Some p)) with p. set (o := if page <? ph_vaddr ph then ph_vaddr ph -64 page else 0).
  assert (Ho : o = Z.max 0 (ph_vaddr ph - page) /\ 0 <= o < 4096).
  { unfold o. destruct (Z.ltb_spec page (ph_vaddr ph)); [rewrite u64_id by lia|]; dlia. }
  destruct Ho as [Hoe Ho]. clearbody o. rewrite !(u64_id (page + o)), (u64_id (ph_vaddr ph + ph_filesz ph)) by lia.
  destruct (Z.ltb_spec (page + o) (ph_vaddr ph + ph_filesz ph)) as [Hlt|Hge].
  - rewrite (u64_id (page + o - ph_vaddr ph)), (u64_id (0x1000 - o)), (u64_id (ph_vaddr ph + ph_filesz ph - (page + o))) by lia.
    rewrite u64_id by lia. set (n := if _ <? _ then _ else _).
    assert (Hn : n = Z.min (0x1000 - o) (ph_vaddr ph + ph_filesz ph - (page + o))) by (unfold n; destruct (Z.ltb_spec (ph_vaddr ph + ph_filesz ph - (page + o)) (0x1000 - o)); lia).
    clearbody n. rewrite take_bytes_ok by lia. cbn [obind].
    assert (Hz : zlen (slice m (ph_offset ph + (page + o - ph_vaddr ph)) n) = n) by (apply zlen_slice; lia).
    destruct (write_frame st D page p o (slice m (ph_offset ph + (page + o - ph_vaddr ph)) n) I (conj Hu Hal) Ep) as [I' Hb]; [lia|lia|].
    eexists. split; [reflexivity|]. split; [exact I'|]. split; [reflexivity|]. intros va Hva. rewrite (Hb va Hva), Hz. unfold page_of.
    destruct (Z.leb_spec (page + o) va), (Z.ltb_spec va (page + o + n)), (Z.eqb_spec (va - va mod 4096) page), (Z.leb_spec (ph_vaddr ph) va),
      (Z.ltb_spec va (ph_vaddr ph + ph_filesz ph)); cbn [andb]; try reflexivity; try (exfalso; dlia).
    rewrite znth_slice by lia. f_equal. lia.
  - exists st. split; [reflexivity|]. split; [exact I|]. split; [reflexivity|]. intros va Hva. unfold page_of.
    destruct (Z.eqb_spec (va - va mod 4096) page), (Z.leb_spec (ph_vaddr ph) va), (Z.ltb_spec va (ph_vaddr ph + ph_filesz ph)); cbn [andb]; try reflexivity.
    exfalso. dlia.
Qed.

Lemma load_page_spec m ph st D page : zlen m < 2 ^ 31 -> img_ok st D -> seg_ok m ph -> user_page page -> start_page ph <= page < end_page ph ->
  exists b st' D', load_page m ph page st = Ok (b, st') /\ img_ok st' D' /\
    (b = false -> up_room (im_as st') <= 1) /\
    (b = true -> forall va, 0 <= va < 2 ^ 47 -> user_byte st' va = if page_of va =? page then seg_byte m ph (user_byte st) va else user_byte st va).
Proof.
  intros Hm I Hs Hu Hr. unfold load_page.
  assert (Hcp : forall st1 D1 p, img_ok st1 D1 -> up_phys (im_as st1) page = Some p ->
    (forall va, 0 <= va < 2 ^ 47 -> user_byte st1 va = if page_of va =? page then Some (default 0 (user_byte st va)) else user_byte st va) ->
    exists b st' D', (let* st := copy_page m ph page st1 in Ok (true, st)) = Ok (b, st') /\ img_ok st' D' /\ (b = false -> up_room (im_as st') <= 1) /\
      (b = true -> forall va, 0 <= va < 2 ^ 47 -> user_byte st' va = if page_of va =? page then seg_byte m ph (user_byte st) va else user_byte st va)).
  { intros st1 D1 p I1 Ep Hb. destruct (copy_page_spec m ph st1 D1 page p Hm I1 Hs Hu Hr Ep) as (st' & -> & I' & _ & Hb'). cbn [obind].
    exists true, st', D1. split; [reflexivity|]. split; [exact I'|]. split; [discriminate|]. intros _ va Hva. rewrite (Hb' va Hva), (Hb va Hva). unfold seg_byte.
    destruct (page_of va =? page), (ph_vaddr ph <=? va), (va <? ph_vaddr ph + ph_filesz ph); cbn [andb]; try reflexivity; now destruct (user_byte st va). }
  destruct (up_phys (im_as st) page) as [p|] eqn:Ep; cbn [obind].
  - apply (Hcp st D p I Ep). intros va Hva. destruct (Z.eqb_spec (page_of va) page) as [He|]; [|reflexivity].
    destruct (proj2 (user_byte_mapped st D va I Hva)) as [b ->]; [rewrite He, Ep; eauto|reflexivity].
  - destruct (new_page_spec st D page (segment_flags ph) I Hu (segment_flags_wx m ph Hs)) as (b & st1 & D1 & -> & I1 & Hno & Hb). cbn [obind].
    destruct b; [|exists false, st1, D1; split; [reflexivity|]; split; [exact I1|]; split; [intros _; destruct Hno as [Hno|Hno]; [done|exact Hno]|discriminate]]. cbn [andb] in Hb.
    destruct Hu as [Hu Hal]. assert (Hpp : page_of page = page) by now apply page_of_page.
    pose proof (Hb page Hu) as Hbp. rewrite Hpp, Z.eqb_refl in Hbp.
    destruct (proj1 (user_byte_mapped st1 D1 page I1 Hu)) as [p Ep1]; [rewrite Hbp; eauto|]. rewrite Hpp in Ep1.
    apply (Hcp st1 D1 p I1 Ep1). intros va Hva. rewrite (Hb va Hva). destruct (Z.eqb_spec (page_of va) page) as [He|]; [|reflexivity].
    rewrite !user_byte_eq by lia. now rewrite He, Ep.
Qed.

(** The loop over the pages of a segment ends with the fuel it is given. *)
Lemma load_pages_spec m ph : zlen m < 2 ^ 31 -> seg_ok m ph -> forall n page st D, img_ok st D ->
  page mod 4096 = 0 -> start_page ph <= page -> end_page ph <= page + 4096 * Z.of_nat n ->
  exists e st' D', load_pages n m ph page st = Ok (e, st') /\ img_ok st' D' /\
    ((e = ELF_LOAD_SUCCESS /\ forall va, 0 <= va < 2 ^ 47 ->
        user_byte st' va = if (page <=? va) && (va <? end_page ph) then seg_byte m ph (user_byte st) va else user_byte st va) \/
     e = ELF_VMM_ERROR /\ up_room (im_as st') <= 1).
Proof.
  intros Hm Hs. destruct (pages_range m ph Hs) as (P1 & P2 & P3 & P4 & P5 & P6 & P7).
  induction n as [|n IH]; intros page st D I Hal Hlo Hhi; cbn [load_pages];
    destruct (Z.ltb_spec page (end_page ph)) as [Hlt|Hge]; try lia.
  1, 3: exists ELF_LOAD_SUCCESS, st, D; split; [reflexivity|]; split; [exact I|]; left; split; [reflexivity|]; intros va Hva;
    destruct (Z.leb_spec page va), (Z.ltb_spec va (end_page ph)); try reflexivity; lia.
  destruct (load_page_spec m ph st D page Hm I Hs) as (b & st1 & D1 & -> & I1 & Hno & Hb); [split; [dlia|exact Hal]|lia|]. cbn [obind].
  destruct b; [|exists ELF_VMM_ERROR, st1, D1; split; [reflexivity|]; split; [exact I1|]; right; auto]. rewrite u64_id by lia.
  destruct (IH (page + 0x1000) st1 D1 I1) as (e & st2 & D2 & -> & I2 & Hc); [dlia|lia|lia|].
  exists e, st2, D2. split; [reflexivity|]. split; [exact I2|]. destruct Hc as [[-> Hb2]|Hc]; [left|now right]. split; [reflexivity|].
  intros va Hva. rewrite (Hb2 va Hva). specialize (Hb eq_refl va Hva). unfold page_of in Hb.
  destruct (Z.leb_spec (page + 0x1000) va), (Z.leb_spec page va), (Z.ltb_spec va (end_page ph)), (Z.eqb_spec (va - va mod 4096) page); cbn [andb] in *;
    try (exfalso; dlia); try exact Hb. unfold seg_byte. now rewrite Hb.
Qed.

(** ** The reference image of a file *)

(** The loadable segments of the file, in the order of the program headers. *)
Fixpoint segments (n : nat) (m : list Z) (h : Elf64_Ehdr) (i : Z) : outcome (list Elf64_Phdr) :=
  match n with
  | O => Ok []
  | S k =>
    let* t := phdr_type m (phdr_pos h i) in
    if t =? PT_LOAD then
      let* ph := read_phdr m (phdr_pos h i) in
      let* r := segments k m h (i + 1) in Ok (ph :: r)
    else segments k m h (i + 1)
  end.

(** The memory that the segments leave, each on top of the ones before it. *)
Fixpoint load_image (m : list Z) (segs : list Elf64_Phdr) (old : Z -> option Z) (va : Z) : option Z :=
  match segs with
  | [] => old va
  | ph :: segs =>
    load_image m segs (fun va => if (start_page ph <=? va) && (va <? end_page ph) then seg_byte m ph old va else old va) va
  end.

Lemma load_image_ext m segs : forall f g va, f va = g va -> load_image m segs f va = load_image m segs g va.
Proof.
  induction segs as [|ph segs IH]; intros f g va E; cbn [load_image]; [exact E|]. apply IH. unfold seg_byte. now rewrite E.
Qed.

(** The program headers of the file lie inside of it. *)
Definition phdrs_inside (m : list Z) (h : Elf64_Ehdr) (i : Z) (n : nat) : Prop :=
  forall j, i <= j < i + Z.of_nat n -> 0 <= phdr_pos h j /\ phdr_pos h j + 48 <= zlen m.

Lemma segments_ok m h : Forall byte m -> forall n i, phdrs_inside m h i n -> exists segs, segments n m h i = Ok segs /\ Forall phdr_ok segs.
Proof.
  intros Hm. induction n as [|n IH]; intros i Hin; cbn [segments]; [exists []; auto|].
  destruct (Hin i ltac:(lia)) as [H1 H2]. unfold phdr_type. destruct (field_ok 4 m Hm (phdr_pos h i)) as (t & -> & _); [lia|lia|]. cbn [obind].
  destruct (IH (i + 1)) as (segs & -> & Hs); [intros j Hj; apply Hin; lia|].
  destruct (t =? PT_LOAD); [|eauto]. destruct (read_phdr_ok m (phdr_pos h i) Hm H1 H2) as (ph & -> & Hp). cbn [obind]. eauto.
Qed.

(** The loop over the program headers builds the reference image, or reports the
    first segment that is not acceptable, or runs out of memory. *)
Lemma load_segments_spec m h : Forall byte m -> zlen m < 2 ^ 31 -> forall n i ef st D segs, img_ok st D -> phdrs_inside m h i n ->
  segments n m h i = Ok segs ->
  exists e ef' st' D', load_segments n m h i ef st = Ok (e, ef', st') /\ img_ok st' D' /\
    ((e = ELF_LOAD_SUCCESS /\ Forall (seg_ok m) segs /\ ef' = (ef || existsb (entry_inside h) segs) /\
        forall va, 0 <= va < 2 ^ 47 -> user_byte st' va = load_image m segs (user_byte st) va) \/
     (e <> ELF_LOAD_SUCCESS /\ (e = ELF_VMM_ERROR /\ up_room (im_as st') <= 1 \/ exists ph, ph ∈ segs /\ check_segment m ph = e))).
Proof.
  intros Hm Hl. induction n as [|n IH]; intros i ef st D segs I Hin Es; cbn [segments load_segments] in *.
  { injection Es as <-. exists ELF_LOAD_SUCCESS, ef, st, D. split; [reflexivity|]. split; [exact I|]. left. cbn. rewrite orb_false_r. auto. }
  destruct (Hin i ltac:(lia)) as [H1 H2]. unfold phdr_type in *. destruct (field_ok 4 m Hm (phdr_pos h i)) as (t & Et & _); [lia|lia|].
  rewrite Et in *. cbn [obind] in *. assert (Hin' : phdrs_inside m h (i + 1) n) by (intros j Hj; apply Hin; lia).
  destruct (t =? PT_LOAD) eqn:El; cbn [negb]; [|apply (IH (i + 1) ef st D segs I Hin' Es)].
  destruct (read_phdr_ok m (phdr_pos h i) Hm H1 H2) as (ph & Eph & Hph). rewrite Eph in *. cbn [obind] in *.
  destruct (segments n m h (i + 1)) as [segs'|] eqn:Es'; [|discriminate]. injection Es as <-.
  pose proof (check_segment_spec m ph Hph Hl) as Hck.
  destruct (check_segment m ph) eqn:Ec;
    try (do 4 eexists; split; [reflexivity|]; split; [exact I|]; right; split; [discriminate|]; right; exists ph; split; [left|exact Ec]).
  destruct Hck as [Hok _]. specialize (Hok eq_refl). destruct (pages_range m ph Hok) as (P1 & P2 & P3 & P4 & P5 & P6 & P7).
  destruct (load_pages_spec m ph Hl Hok (page_count (start_page ph) (end_page ph)) (start_page ph) st D I P4) as (e & st1 & D1 & -> & I1 & Hc);
    [lia|unfold page_count; dlia|]. cbn [obind].
  destruct Hc as [[-> Hb]|[-> Hno]].
  2: { do 4 eexists. split; [reflexivity|]. split; [exact I1|]. right. split; [discriminate|now left]. }
  destruct (IH (i + 1) (ef || entry_inside h ph) st1 D1 segs' I1 Hin' Es') as (e & ef' & st2 & D2 & -> & I2 & Hc2).
  do 4 eexists. split; [reflexivity|]. split; [exact I2|]. destruct Hc2 as [(-> & Hf & -> & Hb2)|(He & Hc2)]; [left|right].
  - split; [reflexivity|]. split; [now constructor|]. split; [cbn [existsb]; now rewrite <- orb_assoc|]. intros va Hva. rewrite (Hb2 va Hva). cbn [load_image].
    apply load_image_ext. now rewrite (Hb va Hva).
  - split; [exact He|]. destruct Hc2 as [Hc2|(q & Hq & Hc2)]; [now left|right]. exists q. split; [now right|exact Hc2].
Qed.

(** ** The stack *)
Lemma map_stack_spec : forall n page st D, img_ok st D -> page mod 4096 = 0 -> 0 <= page -> page + 4096 * Z.of_nat n < 2 ^ 47 ->
  exists e st' D', map_stack n page st = Ok (e, st') /\ img_ok st' D' /\
    ((e = ELF_LOAD_SUCCESS /\ forall va, 0 <= va < 2 ^ 47 ->
        user_byte st' va = if (page <=? va) && (va <? page + 4096 * Z.of_nat n) then Some 0 else user_byte st va) \/
     e = ELF_STACK_ERROR /\ (up_room (im_as st') <= 1 \/ exists va, page <= va < page + 4096 * Z.of_nat n /\ user_byte st va <> None)).
Proof.
  induction n as [|n IH]; intros page st D I Hal Hlo Hhi; cbn [map_stack].
  { exists ELF_LOAD_SUCCESS, st, D. split; [reflexivity|]. split; [exact I|]. left. split; [reflexivity|]. intros va Hva.
    destruct (Z.leb_spec page va), (Z.ltb_spec va (page + 4096 * Z.of_nat 0)); try reflexivity; lia. }
  destruct (new_page_spec st D page STACK_FLAGS I) as (b & st1 & D1 & -> & I1 & Hno & Hb); [split; [lia|exact Hal]|split; reflexivity|]. cbn [obind].
  destruct b.
  2: { exists ELF_STACK_ERROR, st1, D1. split; [reflexivity|]. split; [exact I1|]. right. split; [reflexivity|]. destruct Hno as [Hno|Hno]; [right|now left].
       exists page. split; [lia|]. apply not_eq_None_Some. apply (user_byte_mapped st D page I); [lia|]. rewrite page_of_page by exact Hal. now apply not_eq_None_Some. } rewrite u64_id by lia.
  destruct (IH (page + 0x1000) st1 D1 I1) as (e & st2 & D2 & -> & I2 & Hc); [dlia|lia|lia|].
  exists e, st2, D2. split; [reflexivity|]. split; [exact I2|]. destruct Hc as [[-> Hb2]|[-> Hc]]; [left|right].
  2: { split; [reflexivity|]. destruct Hc as [Hc|(va & Hva & Hn)]; [now left|right]. exists va. split; [lia|]. rewrite (Hb va) in Hn by lia. unfold page_of in Hn.
       destruct (Z.eqb_spec (va - va mod 4096) page); [dlia|exact Hn]. }
  split; [reflexivity|]. intros va Hva. rewrite (Hb2 va Hva), (Hb va Hva). unfold page_of.
  destruct (Z.leb_spec (page + 0x1000) va), (Z.ltb_spec va (page + 0x1000 + 4096 * Z.of_nat n)), (Z.leb_spec page va),
    (Z.ltb_spec va (page + 4096 * Z.of_nat (S n))), (Z.eqb_spec (va - va mod 4096) page); cbn [andb]; try reflexivity; exfalso; dlia.
Qed.

(** Bytes written through the page tables of the program: those that fall on a mapped
    page arrive, the others are dropped. *)
Lemma write_user_spec : forall l vaddr st D, img_ok st D -> 0 <= vaddr -> vaddr + zlen l <= 2 ^ 47 ->
  let st' := write_user_stack_bytes vaddr l st in
  img_ok st' D /\ im_as st' = im_as st /\
  forall va, 0 <= va < 2 ^ 47 -> user_byte st' va =
    if (vaddr <=? va) && (va <? vaddr + zlen l) then match user_byte st va with Some _ => znth l (va - vaddr) | None => None end else user_byte st va.
Proof.
  induction l as [|b l IH]; intros vaddr st D I Hlo Hhi; cbn [write_user_stack_bytes].
  { split; [exact I|]. split; [reflexivity|]. intros va Hva. unfold zlen. cbn [length].
    destruct (Z.leb_spec vaddr va), (Z.ltb_spec va (vaddr + Z.of_nat 0)); try reflexivity; lia. }
  assert (Hz : zlen (b :: l) = zlen l + 1) by (unfold zlen; cbn [length]; lia). pose proof (zlen_nonneg l). rewrite Hz in Hhi.
  set (st1 := match up_phys _ _ with Some p => _ | None => _ end).
  assert (Hst1 : img_ok st1 D /\ im_as st1 = im_as st /\
    forall va, 0 <= va < 2 ^ 47 -> user_byte st1 va = if va =? vaddr then match user_byte st va with Some _ => Some b | None => None end else user_byte st va).
  { unfold st1. rewrite page_down_spec by lia. change (vaddr - vaddr mod 4096) with (page_of vaddr).
    change 0xFFF with (Z.ones 12). rewrite Z.land_ones by lia. change (2 ^ 12) with 4096.
    destruct (up_phys (im_as st) (page_of vaddr)) as [p|] eqn:Ep.
    - destruct (write_frame st D (page_of vaddr) p (vaddr mod 4096) [b] I (page_of_user vaddr ltac:(lia)) Ep) as [I' Hb]; [dlia|change (zlen [b]) with 1; dlia|].
      cbn [put_bytes] in *. split; [exact I'|]. split; [reflexivity|]. intros va Hva. rewrite (Hb va Hva). change (zlen [b]) with 1.
      replace (page_of vaddr + vaddr mod 4096) with vaddr by (unfold page_of; lia).
      destruct (Z.leb_spec vaddr va), (Z.ltb_spec va (vaddr + 1)), (Z.eqb_spec va vaddr); try lia; cbn [andb]; try reflexivity. subst va.
      destruct (proj2 (user_byte_mapped st D vaddr I Hva)) as [c ->]; [rewrite Ep; eauto|]. now rewrite Z.sub_diag.
    - split; [exact I|]. split; [reflexivity|]. intros va Hva. destruct (Z.eqb_spec va vaddr) as [->|]; [|reflexivity]. rewrite !user_byte_eq by lia. now rewrite Ep. }
  clearbody st1. destruct Hst1 as (I1 & Ha1 & Hb1). rewrite (u64_id (vaddr + 1)) by lia.
  destruct (IH (vaddr + 1) st1 D I1) as (I2 & Ha2 & Hb2); [lia|lia|]. split; [exact I2|]. split; [congruence|].
  intros va Hva. rewrite (Hb2 va Hva), (Hb1 va Hva), Hz.
  destruct (Z.leb_spec (vaddr + 1) va), (Z.ltb_spec va (vaddr + 1 + zlen l)), (Z.leb_spec vaddr va), (Z.ltb_spec va (vaddr + (zlen l + 1))), (Z.eqb_spec va vaddr);
    cbn [andb]; try reflexivity; try (exfalso; lia).
  - change (b :: l) with ([b] ++ l). rewrite znth_app by lia. change (zlen [b]) with 1. destruct (Z.ltb_spec (va - vaddr) 1); [lia|].
    destruct (user_byte st va); [f_equal; lia|reflexivity].
  - subst va. rewrite Z.sub_diag. now destruct (user_byte st vaddr).
Qed.

(** The bytes [l] at [va]. *)
Definition holds st (va : Z) (l : list Z) : Prop := forall k, 0 <= k < zlen l -> user_byte st (va + k) = znth l k.
Definition word_at st (va v : Z) : Prop := holds st va (le64 v).
Definition string_at st (va : Z) (t : list Z) : Prop := holds st va (t ++ [0]).

(** The stack has been written between [lo] and [hi] only. *)
Definition grown st st' (lo hi : Z) : Prop :=
  im_as st' = im_as st /\ forall va, 0 <= va < 2 ^ 47 -> ~ (lo <= va < hi) -> user_byte st' va = user_byte st va.

Lemma stack_grown_trans st st1 st2 lo mid hi : lo <= mid <= hi -> grown st st1 mid hi -> grown st1 st2 lo mid -> grown st st2 lo hi.
Proof. intros Hm [A1 B1] [A2 B2]. split; [congruence|]. intros va Hva Hn. rewrite B2, B1 by lia. reflexivity. Qed.

Lemma holds_grown st st' lo hi va l : grown st st' lo hi -> 0 <= va -> hi <= va -> va + zlen l <= 2 ^ 47 -> holds st va l -> holds st' va l.
Proof. intros [_ B] Hva0 Hhi Hl Hh k Hk. rewrite B by lia. now apply Hh. Qed.

(** A range of the stack that is mapped. *)
Definition mapped st (lo hi : Z) : Prop := forall va, lo <= va < hi -> is_Some (user_byte st va).

Lemma mapped_grown st st' D D' lo hi a b : img_ok st D -> img_ok st' D' -> grown st st' a b -> 0 <= lo -> hi <= 2 ^ 47 -> mapped st lo hi -> mapped st' lo hi.
Proof.
  intros I I' [Ha _] Hlo Hhi Hm va Hva. rewrite (user_byte_mapped st' D' va I') by lia. rewrite Ha.
  apply (user_byte_mapped st D va I); [lia|]. now apply Hm.
Qed.

Lemma write_holds l vaddr st D : img_ok st D -> 0 <= vaddr -> vaddr + zlen l <= 2 ^ 47 ->
  let st' := write_user_stack_bytes vaddr l st in
  img_ok st' D /\ grown st st' vaddr (vaddr + zlen l) /\ (mapped st vaddr (vaddr + zlen l) -> holds st' vaddr l).
Proof.
  intros I H1 H2 st'. destruct (write_user_spec l vaddr st D I H1 H2) as (I' & Ha & Hb). fold st' in I', Ha, Hb. split; [exact I'|]. split.
  - split; [exact Ha|]. intros va Hva Hn. rewrite (Hb va Hva). destruct (Z.leb_spec vaddr va), (Z.ltb_spec va (vaddr + zlen l)); try reflexivity. lia.
  - intros Hm k Hk. rewrite (Hb (vaddr + k)) by lia. destruct (Z.leb_spec vaddr (vaddr + k)), (Z.ltb_spec (vaddr + k) (vaddr + zlen l)); try lia. cbn [andb].
    destruct (Hm (vaddr + k)) as [c ->]; [lia|]. f_equal. lia.
Qed.

(** ** The arguments *)
Lemma le64_len v : zlen (le64 v) = 8.
Proof. reflexivity. Qed.

Lemma push_word_spec v rsp st D : img_ok st D -> 8 <= rsp <= 2 ^ 47 ->
  exists st', push_word v rsp st = (rsp - 8, st') /\ img_ok st' D /\ grown st st' (rsp - 8) rsp /\ (mapped st (rsp - 8) rsp -> word_at st' (rsp - 8) v).
Proof.
  intros I Hr. unfold push_word. rewrite u64_id by lia.
  destruct (write_holds (le64 v) (rsp - 8) st D I) as (I' & G & Hh); [lia|rewrite le64_len; lia|]. rewrite le64_len in G, Hh.
  replace (rsp - 8 + 8) with rsp in G, Hh by lia. eauto 8.
Qed.

Lemma cstr_bytes s : forall t, cstr s = Some t -> zlen t + 1 <= zlen s /\ slice s 0 (zlen t + 1) = t ++ [0].
Proof.
  unfold slice, zlen. induction s as [|c r IH]; intros t; cbn [cstr]; [discriminate|].
  destruct (Z.eqb_spec c 0) as [->|Hc]; [intros [= <-]; cbn [length]; split; [lia|reflexivity]|].
  destruct (cstr r) as [u|]; [|discriminate]. intros [= <-]. destruct (IH u eq_refl) as [H1 H2]. cbn [length]. split; [lia|].
  replace (Z.to_nat (Z.of_nat (S (length u)) + 1)) with (S (Z.to_nat (Z.of_nat (length u) + 1))) by lia.
  change (Z.to_nat 0) with 0%nat in *. rewrite skipn_O in *. cbn [firstn]. now rewrite H2.
Qed.

(** [strs] are C strings with the texts [ts]. *)
Definition are_strings (strs ts : list (list Z)) : Prop :=
  forall i t, ts !! i = Some t -> exists s, strs !! i = Some s /\ cstr s = Some t.

(** The room the strings take. *)
Fixpoint room (ts : list (list Z)) : Z :=
  match ts with [] => 0 | t :: ts => zlen t + 1 + room ts end.

Lemma room_app ts us : room (ts ++ us) = room ts + room us.
Proof. induction ts as [|t ts IH]; cbn [room app]; [lia|]. rewrite IH. lia. Qed.

Lemma room_nonneg ts : 0 <= room ts.
Proof. induction ts as [|t ts IH]; cbn [room]; [lia|]. pose proof (zlen_nonneg t). lia. Qed.

Lemma znth_nat {X} (l : list X) i : znth l (Z.of_nat i) = l !! i.
Proof. unfold znth. destruct (Z.leb_spec 0 (Z.of_nat i)); [|lia]. now rewrite Nat2Z.id. Qed.

(** The strings are pushed from the last to the first. *)
Lemma push_strings_spec strs ts : forall rsp ptrs st D, img_ok st D -> are_strings strs ts -> (length ts <= length ptrs)%nat ->
  room ts <= rsp <= 2 ^ 47 ->
  exists ptrs' st', push_strings (length ts) strs rsp ptrs st = Ok (rsp - room ts, ptrs', st') /\ img_ok st' D /\ length ptrs' = length ptrs /\
    grown st st' (rsp - room ts) rsp /\ (forall i, (length ts <= i)%nat -> ptrs' !! i = ptrs !! i) /\
    (forall i t, ts !! i = Some t -> exists p, ptrs' !! i = Some p /\ rsp - room ts <= p /\ p + zlen t + 1 <= rsp /\
       (mapped st (rsp - room ts) rsp -> string_at st' p t)).
Proof.
  induction ts as [|t ts IH] using rev_ind; intros rsp ptrs st D I Hs Hp Hr.
  { exists ptrs, st. cbn [length push_strings room] in *. rewrite Z.sub_0_r. split; [reflexivity|]. split; [exact I|]. split; [reflexivity|].
    split; [split; [reflexivity|done]|]. split; [done|]. intros i t Hi. now rewrite lookup_nil in Hi. }
  rewrite length_app in *. cbn [length] in *. rewrite Nat.add_1_r in *. rewrite room_app in *. cbn [room] in *. pose proof (room_nonneg ts). pose proof (zlen_nonneg t).
  destruct (Hs (length ts) t) as (s & Es & Et); [now rewrite list_lookup_middle|]. destruct (cstr_bytes s t Et) as [Hl Hsl].
  cbn [push_strings]. rewrite Es. cbn [of_opt obind]. rewrite (strlen_spec s t Et) by (unfold zlen in *; lia). cbn [obind].
  rewrite (u64_id (zlen t + 1)), (u64_id (rsp - (zlen t + 1))) by lia. rewrite take_bytes_ok by lia. cbn [obind]. rewrite Hsl.
  assert (Hz : zlen (t ++ [0]) = zlen t + 1) by now rewrite zlen_app.
  destruct (write_holds (t ++ [0]) (rsp - (zlen t + 1)) st D I) as (I1 & G1 & Hh1); [lia|lia|]. rewrite Hz in G1, Hh1.
  set (r1 := rsp - (zlen t + 1)) in *. replace (r1 + (zlen t + 1)) with rsp in G1, Hh1 by lia. set (st1 := write_user_stack_bytes r1 (t ++ [0]) st) in *.
  destruct (IH r1 (zset ptrs (Z.of_nat (length ts)) r1) st1 D I1) as (ptrs' & st2 & -> & I2 & Hlen & G2 & Hout & Hin).
  { intros i u Hi. apply Hs. apply lookup_app_l_Some. exact Hi. }
  { unfold zset. destruct (0 <=? Z.of_nat (length ts)); rewrite ?length_insert; lia. }
  { lia. }
  exists ptrs', st2. replace (rsp - (room ts + (zlen t + 1 + 0))) with (r1 - room ts) by lia. split; [reflexivity|]. split; [exact I2|].
  split; [rewrite Hlen; unfold zset; destruct (0 <=? _); now rewrite ?length_insert|].
  split; [apply (stack_grown_trans st st1 st2 _ r1); [lia|exact G1|exact G2]|]. split.
  - intros i Hi. rewrite Hout by lia. rewrite <- !znth_nat. apply znth_zset_ne. lia.
  - intros i u Hi. apply lookup_snoc_Some in Hi as [[_ Hi]|[-> <-]].
    + destruct (Hin i u Hi) as (p & Ep & Hp1 & Hp2 & Hst). exists p. split; [exact Ep|]. split; [lia|]. split; [lia|]. intros Hm. apply Hst.
      apply (mapped_grown st st1 D D _ _ r1 rsp I I1 G1); [lia|lia|]. intros va Hva. apply Hm. lia.
    + exists r1. split; [rewrite Hout by lia; rewrite <- znth_nat; apply znth_zset_eq; unfold zlen; lia|]. split; [lia|]. split; [lia|]. intros Hm.
      apply (holds_grown st1 st2 _ _ r1 (t ++ [0]) G2); [lia|lia|lia|]. apply Hh1. intros va Hva. apply Hm. lia.
Qed.

Lemma push_ptrs_spec ptrs ps : forall rsp st D, img_ok st D -> (forall i p, ps !! i = Some p -> ptrs !! i = Some p) ->
  8 * zlen ps <= rsp <= 2 ^ 47 ->
  exists st', push_ptrs (length ps) ptrs rsp st = Ok (rsp - 8 * zlen ps, st') /\ img_ok st' D /\ grown st st' (rsp - 8 * zlen ps) rsp /\
    (mapped st (rsp - 8 * zlen ps) rsp -> forall i p, ps !! i = Some p -> word_at st' (rsp - 8 * zlen ps + 8 * Z.of_nat i) p).
Proof.
  induction ps as [|p ps IH] using rev_ind; intros rsp st D I Hs Hr.
  { exists st. change (zlen []) with 0. rewrite Z.mul_0_r, Z.sub_0_r. split; [reflexivity|]. split; [exact I|]. split; [split; [reflexivity|done]|].
    intros _ i p Hi. now rewrite lookup_nil in Hi. }
  rewrite length_app, zlen_app in *. cbn [length] in *. rewrite Nat.add_1_r in *. change (zlen [p]) with 1 in *. pose proof (zlen_nonneg ps).
  cbn [push_ptrs]. rewrite (Hs (length ps) p) by now rewrite list_lookup_middle. cbn [of_opt obind].
  destruct (push_word_spec p rsp st D I ltac:(lia)) as (st1 & -> & I1 & G1 & Hw1).
  destruct (IH (rsp - 8) st1 D I1) as (st2 & -> & I2 & G2 & Hw2); [intros i q Hi; apply Hs; now apply lookup_app_l_Some|lia|].
  replace (rsp - 8 * (zlen ps + 1)) with (rsp - 8 - 8 * zlen ps) by lia. exists st2. split; [reflexivity|]. split; [exact I2|].
  split; [apply (stack_grown_trans st st1 st2 _ (rsp - 8)); [lia|exact G1|exact G2]|]. intros Hm i q Hi. apply lookup_snoc_Some in Hi as [[_ Hi]|[-> <-]].
  - apply Hw2; [|exact Hi]. apply (mapped_grown st st1 D D _ _ (rsp - 8) rsp I I1 G1); [lia|lia|]. intros va Hva. apply Hm. lia.
  - replace (rsp - 8 - 8 * zlen ps + 8 * Z.of_nat (length ps)) with (rsp - 8) by (unfold zlen; lia).
    apply (holds_grown st1 st2 _ _ (rsp - 8) (le64 p) G2); [lia|lia|rewrite le64_len; lia|]. apply Hw1. intros va Hva. apply Hm. lia.
Qed.

Lemma stack_grown_weaken st st' lo hi lo' hi' : lo' <= lo -> hi <= hi' -> grown st st' lo hi -> grown st st' lo' hi'.
Proof. intros Hl Hh [Ha Hb]. split; [exact Ha|]. intros va Hva Hn. apply Hb; [exact Hva|lia]. Qed.

Lemma mapped_within st lo hi lo' hi' : lo <= lo' -> hi' <= hi -> mapped st lo hi -> mapped st lo' hi'.
Proof. intros Hl Hh Hm va Hva. apply Hm. lia. Qed.

(** What a program finds on its stack when it starts: the number of arguments, the
    pointers to the arguments and a null pointer, the pointers to the environment and
    a null pointer, each pointing to its string. *)
Record started st (rsp : Z) (args envs : list (list Z)) : Prop := {
  sd_argc : word_at st rsp (zlen args);
  sd_argv i t : args !! i = Some t -> exists p, word_at st (rsp + 8 + 8 * Z.of_nat i) p /\ string_at st p t;
  sd_argv_end : word_at st (rsp + 8 + 8 * zlen args) 0;
  sd_envp i t : envs !! i = Some t -> exists p, word_at st (rsp + 16 + 8 * zlen args + 8 * Z.of_nat i) p /\ string_at st p t;
  sd_envp_end : word_at st (rsp + 16 + 8 * zlen args + 8 * zlen envs) 0
}.

(** The size of all that is pushed, with the padding. *)
Definition stack_room (args envs : list (list Z)) : Z := room args + room envs + 15 + 8 * (zlen args + zlen envs + 3).

(** The table of pointers below [rsp]. *)
Record table st (rsp : Z) (pa pe : list Z) : Prop := {
  tb_argc : word_at st rsp (zlen pa);
  tb_argv i p : pa !! i = Some p -> word_at st (rsp + 8 + 8 * Z.of_nat i) p;
  tb_argv_end : word_at st (rsp + 8 + 8 * zlen pa) 0;
  tb_envp i p : pe !! i = Some p -> word_at st (rsp + 16 + 8 * zlen pa + 8 * Z.of_nat i) p;
  tb_envp_end : word_at st (rsp + 16 + 8 * zlen pa + 8 * zlen pe) 0
}.

Lemma word_kept s s' r v lo hi : grown s s' lo hi -> hi <= r -> 0 <= r -> r + 8 <= 2 ^ 47 -> word_at s r v -> word_at s' r v.
Proof. intros G X1 X2 X3. apply (holds_grown s s' lo hi r (le64 v) G X2 X1). rewrite le64_len. exact X3. Qed.

Lemma push_pointers_spec pa pe argv_ptrs envp_ptrs rsp st D : img_ok st D -> zlen pa <= 32 -> zlen pe <= 32 ->
  (forall i p, pa !! i = Some p -> argv_ptrs !! i = Some p) -> (forall i p, pe !! i = Some p -> envp_ptrs !! i = Some p) ->
  2 ^ 16 <= rsp <= 2 ^ 47 ->
  let r := rsp - 8 * (zlen pa + zlen pe + 3) in
  exists st', push_pointers (zlen pa) argv_ptrs (zlen pe) envp_ptrs rsp st = Ok (r, st') /\ img_ok st' D /\ grown st st' r rsp /\
    (mapped st r rsp -> table st' r pa pe).
Proof.
  intros I La Le Ha He Hr r. pose proof (zlen_nonneg pa). pose proof (zlen_nonneg pe). unfold push_pointers.
  assert (Z.to_nat (zlen pa) = length pa) as -> by (unfold zlen; lia). assert (Z.to_nat (zlen pe) = length pe) as -> by (unfold zlen; lia).
  destruct (push_word_spec 0 rsp st D I ltac:(lia)) as (s3 & -> & I3 & G3 & W3).
  destruct (push_ptrs_spec envp_ptrs pe (rsp - 8) s3 D I3 He) as (s4 & -> & I4 & G4 & W4); [lia|]. cbn [obind]. set (r2 := rsp - 8 - 8 * zlen pe) in *.
  destruct (push_word_spec 0 r2 s4 D I4 ltac:(lia)) as (s5 & -> & I5 & G5 & W5).
  destruct (push_ptrs_spec argv_ptrs pa (r2 - 8) s5 D I5 Ha) as (s6 & -> & I6 & G6 & W6); [lia|]. cbn [obind]. set (r3 := r2 - 8 - 8 * zlen pa) in *.
  destruct (push_word_spec (u64 (zlen pa)) r3 s6 D I6 ltac:(lia)) as (s7 & -> & I7 & G7 & W7). rewrite (u64_id (zlen pa)) in W7 by lia.
  assert (r3 - 8 = r) as Er by lia. rewrite Er in *.
  assert (G57 : grown s5 s7 r (r2 - 8)) by (apply (stack_grown_trans s5 s6 s7 _ r3); [lia|exact G6|exact G7]).
  assert (G47 : grown s4 s7 r r2) by (apply (stack_grown_trans s4 s5 s7 _ (r2 - 8)); [lia|exact G5|exact G57]).
  assert (G37 : grown s3 s7 r (rsp - 8)) by (apply (stack_grown_trans s3 s4 s7 _ r2); [lia|exact G4|exact G47]).
  exists s7. split; [reflexivity|]. split; [exact I7|]. split; [apply (stack_grown_trans st s3 s7 _ (rsp - 8)); [lia|exact G3|exact G37]|]. intros Hm.
  assert (M3 : mapped s3 r rsp) by (apply (mapped_grown st s3 D D _ _ _ _ I I3 G3); [lia|lia|exact Hm]).
  assert (M4 : mapped s4 r rsp) by (apply (mapped_grown s3 s4 D D _ _ _ _ I3 I4 G4); [lia|lia|exact M3]).
  assert (M5 : mapped s5 r rsp) by (apply (mapped_grown s4 s5 D D _ _ _ _ I4 I5 G5); [lia|lia|exact M4]).
  assert (M6 : mapped s6 r rsp) by (apply (mapped_grown s5 s6 D D _ _ _ _ I5 I6 G6); [lia|lia|exact M5]).
  constructor.
  - apply W7. apply (mapped_within s6 r rsp); [lia|lia|exact M6].
  - intros i p Hi. pose proof (lookup_lt_Some _ _ _ Hi). replace (r + 8) with r3 by lia. apply (word_kept s6 s7 _ _ _ _ G7); [unfold zlen in *; lia..|].
    apply W6; [|exact Hi]. apply (mapped_within s5 r rsp); [lia|lia|exact M5].
  - replace (r + 8 + 8 * zlen pa) with (r2 - 8) by lia. apply (word_kept s5 s7 _ _ _ _ G57); [lia..|]. apply W5. apply (mapped_within s4 r rsp); [lia|lia|exact M4].
  - intros i p Hi. pose proof (lookup_lt_Some _ _ _ Hi). replace (r + 16 + 8 * zlen pa) with r2 by lia. apply (word_kept s4 s7 _ _ _ _ G47); [unfold zlen in *; lia..|].
    apply W4; [|exact Hi]. apply (mapped_within s3 r rsp); [lia|lia|exact M3].
  - replace (r + 16 + 8 * zlen pa + 8 * zlen pe) with (rsp - 8) by lia. apply (word_kept s3 s7 _ _ _ _ G37); [lia..|]. apply W3.
    apply (mapped_within st r rsp); [lia|lia|exact Hm].
Qed.

(** The strings of a vector and the pointers to them, after more has been pushed. *)
Lemma vector_strings s1 s2 ts ptrs base lo hi top :
  (forall i t, ts !! i = Some t -> exists p, ptrs !! i = Some p /\ hi <= p /\ p + zlen t + 1 <= top /\ string_at s1 p t) ->
  (forall i p, take (length ts) ptrs !! i = Some p -> word_at s2 (base + 8 * Z.of_nat i) p) ->
  grown s1 s2 lo hi -> 0 <= hi -> top <= 2 ^ 47 ->
  forall i t, ts !! i = Some t -> exists p, word_at s2 (base + 8 * Z.of_nat i) p /\ string_at s2 p t.
Proof.
  intros Hs Hw G Hh Ht i t Hi. destruct (Hs i t Hi) as (p & Ep & Hp1 & Hp2 & Hst). pose proof (lookup_lt_Some _ _ _ Hi) as Hlt. pose proof (zlen_nonneg t).
  exists p. split; [apply Hw; now rewrite lookup_take_lt|].
  apply (holds_grown s1 s2 lo hi _ _ G); [lia|lia|rewrite zlen_app; change (zlen [0]) with 1; lia|exact Hst].
Qed.

Lemma push_args_spec argv envp args envs st D : img_ok st D -> are_strings argv args -> are_strings envp envs ->
  zlen args <= 32 -> zlen envs <= 32 -> room args + room envs <= 2 ^ 30 ->
  exists rsp st', push_args (zlen args) argv (zlen envs) envp st = Ok (rsp, st') /\ img_ok st' D /\ grown st st' rsp USER_STACK_TOP /\
    USER_STACK_TOP - stack_room args envs <= rsp <= USER_STACK_TOP /\ (mapped st rsp USER_STACK_TOP -> started st' rsp args envs).
Proof.
  intros I Ha He La Le Hroom. unfold push_args. pose proof (room_nonneg args). pose proof (room_nonneg envs). pose proof (zlen_nonneg args). pose proof (zlen_nonneg envs).
  destruct (Z.ltb_spec 32 (zlen envs)), (Z.ltb_spec 32 (zlen args)); try lia.
  assert (Z.to_nat (zlen args) = length args) as -> by (unfold zlen; lia). assert (Z.to_nat (zlen envs) = length envs) as -> by (unfold zlen; lia).
  set (top := USER_STACK_TOP) in *. assert (Htop : top = 140737488351232) by reflexivity. clearbody top.
  destruct (push_strings_spec envp envs top (replicate 32 0) st D I He) as (pe & s1 & -> & I1 & Hpe & G1 & _ & S1); [rewrite length_replicate; unfold zlen in *; lia|lia|]. cbn [obind].
  destruct (push_strings_spec argv args (top - room envs) (replicate 32 0) s1 D I1 Ha) as (pa & s2 & -> & I2 & Hpa & G2 & _ & S2); [rewrite length_replicate; unfold zlen in *; lia|lia|]. cbn [obind].
  set (r0 := top - room envs - room args) in *. rewrite length_replicate in Hpe, Hpa.
  change (Z.lnot 15) with (Z.lnot (2 ^ 4 - 1)). rewrite land_not_low by lia. change (2 ^ 4) with 16. set (r1 := r0 - r0 mod 16).
  assert (Hr1 : r0 - 15 <= r1 <= r0) by (unfold r1; dlia).
  assert (Za : zlen (take (length args) pa) = zlen args) by (unfold zlen in *; rewrite length_take; lia).
  assert (Ze : zlen (take (length envs) pe) = zlen envs) by (unfold zlen in *; rewrite length_take; lia).
  assert (Hsub : forall n (l : list Z) i p, take n l !! i = Some p -> l !! i = Some p) by (intros n l i p E; now apply lookup_take_Some in E as [E _]).
  destruct (push_pointers_spec (take (length args) pa) (take (length envs) pe) pa pe r1 s2 D I2 ltac:(lia) ltac:(lia) (Hsub _ _) (Hsub _ _) ltac:(lia)) as (s7 & E7 & I7 & G27 & T).
  rewrite Za, Ze in E7, G27, T. rewrite E7. set (r := r1 - 8 * (zlen args + zlen envs + 3)) in *.
  assert (G27' : grown s2 s7 r r0) by (apply (stack_grown_weaken s2 s7 r r1); [lia|lia|exact G27]).
  assert (G17 : grown s1 s7 r (top - room envs)) by (apply (stack_grown_trans s1 s2 s7 _ r0); [lia|exact G2|exact G27']).
  exists r, s7. split; [reflexivity|]. split; [exact I7|]. split; [apply (stack_grown_trans st s1 s7 _ (top - room envs)); [lia|exact G1|exact G17]|].
  split; [unfold stack_room; lia|]. intros Hm.
  assert (M1 : mapped s1 r top) by (apply (mapped_grown st s1 D D _ _ _ _ I I1 G1); [lia|lia|exact Hm]).
  assert (M2 : mapped s2 r top) by (apply (mapped_grown s1 s2 D D _ _ _ _ I1 I2 G2); [lia|lia|exact M1]).
  destruct T as [T1 T2 T3 T4 T5]; [apply (mapped_within s2 r top); [lia|lia|exact M2]|]. rewrite Za in *. rewrite Ze in *. constructor; [exact T1| |exact T3| |exact T5].
  - apply (vector_strings s2 s7 args pa (r + 8) r r0 top); [|exact T2|exact G27'|lia|lia].
    intros i t Hi. destruct (S2 i t Hi) as (p & Ep & P1 & P2 & Pst). exists p. split; [exact Ep|]. split; [exact P1|]. split; [lia|]. apply Pst.
    apply (mapped_within s1 r top); [lia|lia|exact M1].
  - apply (vector_strings s1 s7 envs pe (r + 16 + 8 * zlen args) r (top - room envs) top); [|exact T4|exact G17|lia|lia].
    intros i t Hi. destruct (S1 i t Hi) as (p & Ep & P1 & P2 & Pst). exists p. split; [exact Ep|]. split; [exact P1|]. split; [lia|]. apply Pst.
    apply (mapped_within st r top); [lia|lia|exact Hm].
Qed.

(** ** The start of the program *)
Lemma user_bytes_holds l : forall va st, holds st va l -> user_bytes (length l) va st = Some l.
Proof.
  induction l as [|b l IH]; intros va st Hh; cbn [length user_bytes]; [reflexivity|].
  assert (Hz : zlen (b :: l) = zlen l + 1) by (unfold zlen; cbn [length]; lia). pose proof (zlen_nonneg l).
  pose proof (Hh 0 ltac:(lia)) as Hb. rewrite Z.add_0_r in Hb. rewrite Hb. change (znth (b :: l) 0) with (Some b). rewrite (IH (va + 1)); [reflexivity|].
  intros k Hk. replace (va + 1 + k) with (va + (k + 1)) by lia. rewrite Hh by lia. change (b :: l) with ([b] ++ l). rewrite znth_app by lia.
  change (zlen [b]) with 1. destruct (Z.ltb_spec (k + 1) 1); [lia|]. f_equal. lia.
Qed.

Lemma field_le64 v : 0 <= v < 2 ^ 64 -> field 8 (le64 v) 0 = Ok v.
Proof.
  intros Hv. assert (Hstep : forall x, x = u8 x + 256 * (x / 2 ^ 8)) by (intros x; unfold u8; dlia).
  assert (Hl : le64 v = [u8 v; u8 (v / 2 ^ 8); u8 (v / 2 ^ 16); u8 (v / 2 ^ 24); u8 (v / 2 ^ 32); u8 (v / 2 ^ 40); u8 (v / 2 ^ 48); u8 (v / 2 ^ 56)])
    by (unfold le64, le32, le16; cbn [app]; rewrite !Z.div_div by lia; reflexivity).
  assert (Hk : forall a b, 0 <= a -> b = a + 8 -> v / 2 ^ a = u8 (v / 2 ^ a) + 256 * (v / 2 ^ b))
    by (intros a b Ha ->; rewrite (Hstep (v / 2 ^ a)) at 1; rewrite Z.div_div, <- Z.pow_add_r by lia; reflexivity).
  pose proof (Hstep v) as S0. pose proof (Hk 8 16) as S1. pose proof (Hk 16 24) as S2. pose proof (Hk 24 32) as S3. pose proof (Hk 32 40) as S4.
  pose proof (Hk 40 48) as S5. pose proof (Hk 48 56) as S6. pose proof (Hk 56 64) as S7. pose proof (Z.div_small v (2 ^ 64) Hv) as S8. rewrite Hl.
  change (Ok (u8 v + 256 * (u8 (v / 2 ^ 8) + 256 * (u8 (v / 2 ^ 16) + 256 * (u8 (v / 2 ^ 24) + 256 * (u8 (v / 2 ^ 32) + 256 * (u8 (v / 2 ^ 40) +
    256 * (u8 (v / 2 ^ 48) + 256 * (u8 (v / 2 ^ 56) + 256 * 0)))))))) = Ok v). f_equal. lia.
Qed.

(** [_start] calls [main] with what is on the stack. *)
Lemma start_spec st rsp args envs : started st rsp args envs -> zlen args <= 32 -> 0 <= rsp <= 2 ^ 47 ->
  _start rsp st = Ok (zlen args, rsp + 8, rsp + 16 + 8 * zlen args, rsp - rsp mod 16).
Proof.
  intros [Ha _ _ _ _] La Hr. pose proof (zlen_nonneg args). unfold _start. rewrite (user_bytes_holds (le64 (zlen args)) rsp st Ha : user_bytes 8 rsp st = _). cbn [of_opt obind].
  rewrite field_le64 by lia. cbn [obind]. rewrite !u64_id by lia.
  change (u64 (-16)) with (u64 (Z.lnot (2 ^ 4 - 1))). rewrite land_not_low by lia. change (2 ^ 4) with 16. do 2 f_equal. f_equal. lia.
Qed.

End Image.
