(* ===== verification/ElfTheorems.v ===== *)
(** * Theorems about the program loader

    [elf_load_image] always returns, leaves no page both writable and executable,
    accepts exactly the files it should, builds the image the file describes, and
    hands the arguments over. *)

From S2P Require Import Prelude Bitmap Interfaces CString Pmm Vmm KernelHeap UserSpace Elf ElfProofs.

(** A file whose program headers have their full size. *)
Record file_ok (m : list Z) : Prop := {
  fo_bytes : Forall byte m;
  fo_size : zlen m < 2 ^ 31;
  fo_headers h : read_ehdr m = Ok h -> 56 <= phentsize h
}.

(** The files the loader is meant to run: a valid header, only valid segments, an
    entry point in an executable one. *)
Definition accepted (m : list Z) (h : Elf64_Ehdr) (segs : list Elf64_Phdr) : Prop :=
  sizeof_Ehdr <= zlen m /\ read_ehdr m = Ok h /\ header_ok m h /\ segments (Z.to_nat (phnum h)) m h 0 = Ok segs /\
  Forall (seg_ok m) segs /\ existsb (entry_inside h) segs = true.

Lemma phdr_pos_eq m h i : ehdr_ok h -> header_ok m h -> zlen m < 2 ^ 31 -> 56 <= phentsize h -> 0 <= i < phnum h ->
  phdr_pos h i = phoff h + i * phentsize h /\ phoff h + i * phentsize h + 56 <= zlen m.
Proof.
  intros [_ Ho Hs Hn] (_ & _ & _ & Hp) Hm H56 Hi. unfold word in Ho.
  assert (Hmul : i * phentsize h + 56 <= phnum h * phentsize h) by nia. assert (0 <= i * phentsize h) by nia.
  unfold phdr_pos, s32. cbv zeta. rewrite u32_id by lia. destruct (Z.ltb_spec (i * phentsize h) (2 ^ 31)); [|lia]. rewrite u64_id by lia. lia.
Qed.

Lemma headers_inside m h : file_ok m -> ehdr_ok h -> header_ok m h -> read_ehdr m = Ok h -> phdrs_inside m h 0 (Z.to_nat (phnum h)).
Proof.
  intros [_ Hm H56] He Hh Er j Hj. destruct (phdr_pos_eq m h j He Hh Hm (H56 h Er)) as [-> Hl]; [destruct He; lia|].
  destruct He as [_ Ho Hs _]. unfold word in Ho. split; [nia|lia].
Qed.

Section Elf.
Context {A : Type} `{UserPagesLaws A}.
Context (m : list Z) (argv envp args envs : list (list Z)).
Context (Hm : file_ok m) (Ha : are_strings argv args) (He : are_strings envp envs).
Context (La : zlen args <= 32) (Le : zlen envs <= 32) (Hroom : room args + room envs <= 2 ^ 30).
Implicit Types st : image A.

(** The image of an accepted file with its arguments. *)
Record loaded st st' (segs : list Elf64_Phdr) (rsp : Z) : Prop := {
  ld_rsp : USER_STACK_TOP - stack_room args envs <= rsp <= USER_STACK_TOP;
  ld_memory va : 0 <= va < Z.min rsp stack_bottom \/ USER_STACK_TOP <= va < 2 ^ 47 -> user_byte st' va = load_image m segs (user_byte st) va;
  ld_stack va : stack_bottom <= va < rsp -> user_byte st' va = Some 0;
  ld_args : stack_room args envs <= USER_STACK_PAGES * 4096 -> started st' rsp args envs
}.

(** The part of [elf_load_image] that follows the segments. *)
Lemma stack_part st D : img_ok st D ->
  exists e st1 D1, map_stack (page_count stack_bottom USER_STACK_TOP) stack_bottom st = Ok (e, st1) /\ img_ok st1 D1 /\
    (e = ELF_STACK_ERROR /\ (up_room (im_as st1) <= 1 \/ exists va, stack_bottom <= va < USER_STACK_TOP /\ user_byte st va <> None) \/
     e = ELF_LOAD_SUCCESS /\ exists rsp st', push_args (zlen args) argv (zlen envs) envp st1 = Ok (rsp, st') /\ img_ok st' D1 /\
       forall segs old, (forall va, 0 <= va < 2 ^ 47 -> user_byte st va = load_image m segs (user_byte old) va) -> loaded old st' segs rsp).
Proof.
  intros I. assert (Hb : stack_bottom = 140737488285696) by reflexivity. assert (Ht : USER_STACK_TOP = 140737488351232) by reflexivity.
  destruct (map_stack_spec (page_count stack_bottom USER_STACK_TOP) stack_bottom st D I) as (e & st1 & D1 & E & I1 & Hc); [reflexivity|lia|reflexivity|].
  change (stack_bottom + 4096 * Z.of_nat (page_count stack_bottom USER_STACK_TOP)) with USER_STACK_TOP in Hc.
  exists e, st1, D1. split; [exact E|]. split; [exact I1|]. destruct Hc as [[-> Hz]|Hc]; [right|now left]. split; [reflexivity|].
  destruct (push_args_spec argv envp args envs st1 D1 I1 Ha He La Le Hroom) as (rsp & st' & Ep & I' & [_ G] & Hr & Hst).
  exists rsp, st'. split; [exact Ep|]. split; [exact I'|]. intros segs old Hmem.
  assert (Hz' : forall va, stack_bottom <= va < USER_STACK_TOP -> user_byte st1 va = Some 0).
  { intros va Hva. rewrite Hz by lia. destruct (Z.leb_spec stack_bottom va), (Z.ltb_spec va USER_STACK_TOP); try lia. reflexivity. }
  constructor.
  - lia.
  - intros va Hva. rewrite G, Hz by lia. destruct (Z.leb_spec stack_bottom va), (Z.ltb_spec va USER_STACK_TOP); try lia; cbn [andb]; apply Hmem; lia.
  - intros va Hva. rewrite G by lia. apply Hz'. lia.
  - intros Hfit. apply Hst. intros va Hva. rewrite Hz' by (unfold USER_STACK_PAGES in *; lia). eauto.
Qed.

(** The result of [elf_load_image], by its error code. *)
Definition elf_result st (e : elf_load_error) (en rsp : Z) st' : Prop :=
  match e with
  | ELF_LOAD_SUCCESS => exists h segs, accepted m h segs /\ en = entry h /\ loaded st st' segs rsp
  | ELF_VMM_ERROR => up_room (im_as st') <= 1
  | ELF_STACK_ERROR => up_room (im_as st') <= 1 \/
      exists h segs va, accepted m h segs /\ stack_bottom <= va < USER_STACK_TOP /\ load_image m segs (user_byte st) va <> None
  | _ => forall h segs, ~ accepted m h segs
  end.

Lemma refused st st' e : e <> ELF_LOAD_SUCCESS -> format_error e -> (forall h segs, ~ accepted m h segs) -> elf_result st e 0 0 st'.
Proof. intros H1 [H2 H3] Hn. destruct e; try exact Hn; done. Qed.

Lemma elf_spec st D : img_ok st D ->
  exists e en rsp st' D', elf_load_image m (zlen args) argv (zlen envs) envp st = Ok (e, en, rsp, st') /\ img_ok st' D' /\ elf_result st e en rsp st'.
Proof.
  intros I. destruct (check_header_spec m (fo_bytes m Hm) (fo_size m Hm)) as (e & h & Ec & Hc). unfold elf_load_image. rewrite Ec. cbn [obind].
  destruct Hc as [(-> & Hsz & Er & Hok & Hh)|[Hne Hno]].
  2: { exists e, 0, 0, st, D. split; [now destruct e|]. split; [exact I|]. apply refused; [exact Hne|exact (check_header_code m e h Ec)|].
       intros h' segs (H1 & H2 & H3 & _). exact (Hno h' H2 H1 H3). }
  pose proof (headers_inside m h Hm Hh Hok Er) as Hin. destruct (segments_ok m h (fo_bytes m Hm) _ 0 Hin) as (segs & Es & Hps).
  destruct (load_segments_spec m h (fo_bytes m Hm) (fo_size m Hm) _ 0 false st D segs I Hin Es) as (e & ef & st1 & D1 & -> & I1 & Hl). cbn [obind].
  assert (Huniq : forall h' segs', accepted m h' segs' -> h' = h /\ segs' = segs).
  { intros h' segs' (_ & E1 & _ & E2 & _). rewrite Er in E1. injection E1 as <-. rewrite Es in E2. injection E2 as <-. auto. }
  destruct Hl as [(-> & Hf & -> & Hmem)|(Hne & Hl)].
  - cbn [orb]. destruct (existsb (entry_inside h) segs) eqn:Ee; cbn [negb].
    2: { do 5 eexists. split; [reflexivity|]. split; [exact I1|]. cbn. intros h' segs' Hacc. destruct (Huniq h' segs' Hacc) as [-> ->].
         destruct Hacc as (_ & _ & _ & _ & _ & Hx). congruence. }
    destruct (stack_part st1 D1 I1) as (e & st2 & D2 & -> & I2 & Hs). cbn [obind].
    assert (Hacc : accepted m h segs) by exact (conj Hsz (conj Er (conj Hok (conj Es (conj Hf Ee))))).
    destruct Hs as [[-> Hs]|(-> & rsp & st' & -> & I' & Hld)].
    { do 5 eexists. split; [reflexivity|]. split; [exact I2|]. destruct Hs as [Hs|(va & Hva & Hs)]; [now left|right].
      exists h, segs, va. split; [exact Hacc|]. split; [exact Hva|]. rewrite <- Hmem; [exact Hs|]. unfold stack_bottom, USER_STACK_PAGES, USER_STACK_TOP in Hva. lia. }
    cbn [obind].
    do 5 eexists. split; [reflexivity|]. split; [exact I'|]. cbn. exists h, segs. split; [exact Hacc|]. split; [reflexivity|now apply Hld].
  - exists e, 0, 0, st1, D1. split; [now destruct e|]. split; [exact I1|].
    destruct Hl as [[-> Hl]|(ph & Hp & Hck)]; [exact Hl|]. apply refused; [exact Hne|rewrite <- Hck; apply check_segment_code|].
    intros h' segs' Hacc. destruct (Huniq h' segs' Hacc) as [-> ->]. destruct Hacc as (_ & _ & _ & _ & Hf & _).
    rewrite list.Forall_forall in Hf. rewrite list.Forall_forall in Hps. apply Hne. rewrite <- Hck.
    apply (check_segment_spec m ph (Hps ph Hp) (fo_size m Hm)), (Hf ph Hp).
Qed.

End Elf.

(** ** Fresh address spaces *)
Section Fresh.
Context {A : Type} `{UserPagesLaws A}.

(** An address space as [vmm_create_address_space] leaves it. *)
Definition fresh (a : A) : Prop := up_inv a ∅ /\ forall va, user_page va -> up_phys a va = None.

Lemma fresh_ok a mem : fresh a -> img_ok (mkImage a mem) ∅ /\ forall va, 0 <= va < 2 ^ 47 -> user_byte (mkImage a mem) va = None.
Proof.
  intros [Hi Hn]. split.
  - constructor; cbn [im_as im_mem]; [exact Hi|..]; intros va; intros; rewrite (Hn va) in *; done.
  - intros va Hva. rewrite user_byte_eq by lia. cbn [im_as]. now rewrite (Hn _ (page_of_user va Hva)).
Qed.

(** The arguments of a program, as the system calls pass them. *)
Definition args_ok (argv args : list (list Z)) : Prop := are_strings argv args /\ zlen args <= 32.

Lemma fits_room args envs : stack_room args envs <= USER_STACK_PAGES * 4096 -> room args + room envs <= 2 ^ 30.
Proof. unfold stack_room, USER_STACK_PAGES. pose proof (zlen_nonneg args). pose proof (zlen_nonneg envs). lia. Qed.

(** C18: [elf_load_image] returns on every file whose program headers have their full
    size, with an error code or an image: no access leaves the file, no loop runs
    on.  Whatever the outcome, every page of the address space is mapped for the
    user and none is both writable and executable. *)
Theorem elf_load_image_returns m argv args envp envs a mem :
  file_ok m -> args_ok argv args -> args_ok envp envs -> room args + room envs <= 2 ^ 30 -> fresh a ->
  exists e en rsp st, elf_load_image m (zlen args) argv (zlen envs) envp (mkImage a mem) = Ok (e, en, rsp, st) /\
    forall va p, user_page va -> up_phys (im_as st) va = Some p ->
      exists f, up_perm (im_as st) va f /\ has f VMM_FLAG_USER = true /\ has f VMM_FLAG_WRITABLE && negb (has f VMM_FLAG_NO_EXECUTE) = false.
Proof.
  intros Hm [Ha La] [He Le] Hr Hf. destruct (fresh_ok a mem Hf) as [I _].
  destruct (elf_spec m argv envp args envs Hm Ha He La Le Hr _ _ I) as (e & en & rsp & st & D & E & I' & _).
  exists e, en, rsp, st. split; [exact E|]. exact (io_perm st D I').
Qed.

(** C14: the loader implements the ELF format: it returns, and unless less than two
    page frames are left it accepts exactly the files with a valid header, valid
    segments off the stack and an entry point in an executable segment; then the
    memory of the program below its stack is the reference image: the bytes of the
    file at the addresses of the segments, zeroes on the rest of their pages, nothing
    elsewhere. *)
Theorem elf_load_image_correct m argv args envp envs a mem :
  file_ok m -> args_ok argv args -> args_ok envp envs -> stack_room args envs <= USER_STACK_PAGES * 4096 -> fresh a ->
  exists e en rsp st, elf_load_image m (zlen args) argv (zlen envs) envp (mkImage a mem) = Ok (e, en, rsp, st) /\
    match e with
    | ELF_LOAD_SUCCESS => exists h segs, accepted m h segs /\ en = entry h /\
        forall va, 0 <= va < stack_bottom -> user_byte st va = load_image m segs (fun _ => None) va
    | ELF_VMM_ERROR => up_room (im_as st) <= 1
    | ELF_STACK_ERROR => up_room (im_as st) <= 1 \/
        exists h segs va, accepted m h segs /\ stack_bottom <= va < USER_STACK_TOP /\ load_image m segs (fun _ => None) va <> None
    | _ => forall h segs, ~ accepted m h segs
    end.
Proof.
  intros Hm [Ha La] [He Le] Hr Hf. destruct (fresh_ok a mem Hf) as [I Hn]. pose proof (fits_room _ _ Hr) as Hr'.
  assert (Ht : USER_STACK_TOP < 2 ^ 47) by reflexivity. assert (Hb : stack_bottom = USER_STACK_TOP - USER_STACK_PAGES * 4096) by reflexivity. assert (Hb0 : 0 <= stack_bottom) by discriminate.
  destruct (elf_spec m argv envp args envs Hm Ha He La Le Hr' _ _ I) as (e & en & rsp & st & D & E & _ & Hc).
  exists e, en, rsp, st. split; [exact E|]. destruct e; try exact Hc.
  - destruct Hc as (h & segs & Hacc & -> & [Hrsp Hmem _ _]). exists h, segs. split; [exact Hacc|]. split; [reflexivity|].
    intros va Hva. rewrite Hmem by lia. apply load_image_ext, Hn. lia.
  - destruct Hc as [Hc|(h & segs & va & Hacc & Hva & Hl)]; [now left|right]. exists h, segs, va. split; [exact Hacc|]. split; [exact Hva|].
    rewrite (load_image_ext m segs _ (user_byte (mkImage a mem))); [exact Hl|]. symmetry. apply Hn. lia.
Qed.

(** C16: the arguments arrive: when the loader succeeds and the arguments fit the
    stack, the stack pointer of the program points to the number of arguments,
    followed by pointers to the argument strings and to the environment strings,
    each vector closed by a null pointer, and [_start] calls [main] with that number
    and the two vectors; below the stack pointer the stack is empty. *)
Theorem elf_arguments_arrive m argv args envp envs a mem en rsp st :
  file_ok m -> args_ok argv args -> args_ok envp envs -> stack_room args envs <= USER_STACK_PAGES * 4096 -> fresh a ->
  elf_load_image m (zlen args) argv (zlen envs) envp (mkImage a mem) = Ok (ELF_LOAD_SUCCESS, en, rsp, st) ->
  started st rsp args envs /\ _start rsp st = Ok (zlen args, rsp + 8, rsp + 16 + 8 * zlen args, rsp - rsp mod 16) /\
  stack_bottom <= rsp <= USER_STACK_TOP /\ forall va, stack_bottom <= va < rsp -> user_byte st va = Some 0.
Proof.
  intros Hm [Ha La] [He Le] Hr Hf E. destruct (fresh_ok a mem Hf) as [I Hn]. assert (Hb : stack_bottom = USER_STACK_TOP - USER_STACK_PAGES * 4096) by reflexivity.
  destruct (elf_spec m argv envp args envs Hm Ha He La Le (fits_room _ _ Hr) _ _ I) as (e' & en' & rsp' & st' & D & E' & _ & Hc). rewrite E in E'. injection E' as <- <- <- <-.
  destruct Hc as (h & segs & _ & _ & [Hrsp _ Hst Hargs]). pose proof (Hargs Hr) as Hsd.
  split; [exact Hsd|]. split; [apply (start_spec st rsp args envs Hsd La); unfold stack_bottom, USER_STACK_PAGES, USER_STACK_TOP in *; lia|]. split; [lia|exact Hst].
Qed.

End Fresh.


(** ** A concrete program: two bytes of code, two arguments, one variable *)
Definition jump_to_self : list Z :=
  [0x7F; 0x45; 0x4C; 0x46; 2; 1; 1; 0; 0; 0; 0; 0; 0; 0; 0; 0;
   2; 0; 62; 0; 1; 0; 0; 0; 0x78; 0; 0x40; 0; 0; 0; 0; 0;
   64; 0; 0; 0; 0; 0; 0; 0; 0; 0; 0; 0; 0; 0; 0; 0;
   0; 0; 0; 0; 64; 0; 56; 0; 1; 0; 0; 0; 0; 0; 0; 0;
   1; 0; 0; 0; 5; 0; 0; 0; 0x78; 0; 0; 0; 0; 0; 0; 0;
   0x78; 0; 0x40; 0; 0; 0; 0; 0; 0x78; 0; 0x40; 0; 0; 0; 0; 0;
   2; 0; 0; 0; 0; 0; 0; 0; 2; 0; 0; 0; 0; 0; 0; 0;
   0; 16; 0; 0; 0; 0; 0; 0; 0xEB; 0xFE].

Definition args0 : list (list Z) := [[97]; [98; 99]].
Definition envs0 : list (list Z) := [[65; 61; 66]].

Lemma jump_to_self_ok : file_ok jump_to_self.
Proof.
  constructor.
  - unfold jump_to_self. repeat constructor; unfold byte; lia.
  - reflexivity.
  - intros h E. assert (H56 : match read_ehdr jump_to_self with Ok h => phentsize h =? 56 | Stop _ => false end = true) by reflexivity.
    rewrite E in H56. apply Z.eqb_eq in H56. lia.
Qed.

Lemma strings_of ts : Forall (Forall (fun c => c <> 0)) ts -> zlen ts <= 32 -> args_ok (map (fun t => t ++ [0]) ts) ts.
Proof.
  intros Hf Hl. split; [|exact Hl]. intros i t Hi. exists (t ++ [0]). split; [|apply cstr_app; exact (Forall_lookup_1 _ _ _ _ Hf Hi)].
  change (map (fun t => t ++ [0]) ts) with ((fun t => t ++ [0]) <$> ts). now rewrite list_lookup_fmap, Hi.
Qed.

(** 64 frames, three of them in use: the boot area and the root table. *)
Definition pmm64 : pmm :=
  {| bitmap := [3; 0; 0; 0; 0; 0; 0; 0]; total_frames := 64; used_frames := 2;
     max_physical_address := 262144; bitmap_phys_addr := 4096; bitmap_size := 8 |}.
Definition frames64 : pmm := set_bitmap pmm64 [7; 0; 0; 0; 0; 0; 0; 0] 3.
Definition space64 : vmm pmm := mkVmm ∅ frames64 8192 0 8192 (phys_to_virt 8192) [].

Lemma frames64_ok : fs_ok frames64 /\ fs_held frames64 8192.
Proof.
  assert (Hok : fs_ok pmm64).
  { split.
    - constructor; try reflexivity; cbn; try lia. repeat constructor; unfold byte; lia.
    - split; [reflexivity|]. intros f Hf. unfold PMM_PAGE_SIZE in Hf. cbn in Hf. destruct (Z.ltb_spec f 0).
      + unfold free_frame. destruct (Z.leb_spec 0 f); [lia|reflexivity].
      + assert (f = 0 \/ f = 1) as [-> | ->] by lia; reflexivity. }
  destruct (fs_alloc_law pmm64 Hok) as (p & f & E & Hok' & _ & Hcase).
  assert (E' : fs_alloc pmm64 = Ok (8192, frames64)) by reflexivity.
  rewrite E' in E. injection E as <- <-. split; [exact Hok'|].
  destruct Hcase as [[? _]|(_ & _ & Hh)]; [discriminate|apply Hh; now left].
Qed.

#[local] Instance pages64 : UserPages (vmm pmm) := vmm_pages 8192.
#[local] Instance pages64_laws : UserPagesLaws (vmm pmm) := vmm_pages_laws 8192.

Lemma space64_fresh : fresh space64.
Proof.
  pose proof (empty_root_inv frames64 8192 (proj1 frames64_ok) (proj2 frames64_ok) ltac:(cbn; lia)) as I. split.
  - exists {[8192 := 4%nat]}. split; [exact I|]. split; [set_solver|]. intros va l e _. discriminate.
  - intros va [Hva _]. exact (get_phys_user 8192 _ space64 va I Hva).
Qed.

Definition start64 : image (vmm pmm) := mkImage space64 ∅.
Definition argv0 : list (list Z) := map (fun t => t ++ [0]) args0.
Definition envp0 : list (list Z) := map (fun t => t ++ [0]) envs0.
Definition run64 := elf_load_image jump_to_self 2 argv0 1 envp0 start64.

Lemma argv0_ok : args_ok argv0 args0.
Proof. apply strings_of; [repeat constructor; discriminate|discriminate]. Qed.

Lemma envp0_ok : args_ok envp0 envs0.
Proof. apply strings_of; [repeat constructor; discriminate|discriminate]. Qed.

(** Whether a result of the loader is a success. *)
Definition succeeds {X} (r : outcome (elf_load_error * Z * Z * X)) : bool :=
  match r with Ok (ELF_LOAD_SUCCESS, _, _, _) => true | _ => false end.

Lemma succeeds_code {X} (r : outcome (elf_load_error * Z * Z * X)) e en rsp st : succeeds r = true -> r = Ok (e, en, rsp, st) -> e = ELF_LOAD_SUCCESS.
Proof. intros Hs ->. destruct e; [reflexivity|discriminate Hs..]. Qed.

Lemma succeeds_ok {X} (r : outcome (elf_load_error * Z * Z * X)) : succeeds r = true -> exists en rsp st, r = Ok (ELF_LOAD_SUCCESS, en, rsp, st).
Proof. destruct r as [[[[e en] rsp] st]|]; [|discriminate]. destruct e; try discriminate. eauto. Qed.

Lemma run64_succeeds : succeeds run64 = true.
Proof. vm_compute. reflexivity. Qed.

Lemma elf_load_image_returns_witness : exists e en rsp st, run64 = Ok (e, en, rsp, st).
Proof.
  destruct (elf_load_image_returns jump_to_self argv0 args0 envp0 envs0 space64 ∅ jump_to_self_ok argv0_ok envp0_ok ltac:(vm_compute; discriminate) space64_fresh)
    as (e & en & rsp & st & E & _). exists e, en, rsp, st. exact E.
Defined.

Lemma elf_load_image_correct_witness : exists en rsp st, run64 = Ok (ELF_LOAD_SUCCESS, en, rsp, st) /\ user_byte st en = Some 0xEB /\ user_byte st 0x400000 = Some 0.
Proof.
  destruct (elf_load_image_correct jump_to_self argv0 args0 envp0 envs0 space64 ∅ jump_to_self_ok argv0_ok envp0_ok ltac:(vm_compute; discriminate) space64_fresh)
    as (e & en & rsp & st & E & Hc). pose proof (succeeds_code _ _ _ _ _ run64_succeeds E) as He. subst e.
  destruct Hc as (h & segs & (_ & Er & _ & Es & _) & -> & Hmem). exists (entry h), rsp, st.
  assert (Eh : h = mkEhdr 0x464C457F 2 62 0x400078 64 56 1) by (assert (X : read_ehdr jump_to_self = Ok (mkEhdr 0x464C457F 2 62 0x400078 64 56 1)) by reflexivity; congruence).
  rewrite Eh in *. assert (X : segments 1 jump_to_self (mkEhdr 0x464C457F 2 62 0x400078 64 56 1) 0 = Ok [mkPhdr 5 120 0x400078 2 2]) by reflexivity.
  change (Z.to_nat (phnum (mkEhdr 0x464C457F 2 62 0x400078 64 56 1))) with 1%nat in Es. rewrite Es in X. injection X as ->.
  split; [exact E|]. split; (rewrite Hmem; [reflexivity|split; [discriminate|reflexivity]]).
Defined.

Lemma elf_arguments_arrive_witness : exists en rsp st, run64 = Ok (ELF_LOAD_SUCCESS, en, rsp, st) /\ word_at st rsp 2 /\
  exists p, word_at st (rsp + 16) p /\ string_at st p [98; 99].
Proof.
  destruct (succeeds_ok run64 run64_succeeds) as (en & rsp & st & E). exists en, rsp, st. split; [exact E|].
  destruct (elf_arguments_arrive jump_to_self argv0 args0 envp0 envs0 space64 ∅ en rsp st jump_to_self_ok argv0_ok envp0_ok ltac:(vm_compute; discriminate) space64_fresh E)
    as [[S1 S2 _ _ _] _]. split; [exact S1|]. destruct (S2 1%nat [98; 99] eq_refl) as (p & Hp & Ht). exists p. split; [|exact Ht]. replace (rsp + 16) with (rsp + 8 + 8 * Z.of_nat 1) by lia. exact Hp.
Defined.

(** A file whose program headers are declared shorter than they are: the header table
    passes the check and the loader reads past the end of the file. *)
Definition cut_file : list Z := take 54 jump_to_self ++ [0; 0; 1; 0] ++ take 6 (drop 58 jump_to_self) ++ [1; 0; 0; 0].

Lemma phentsize_not_checked :
  check_elf_header cut_file = Ok (ELF_LOAD_SUCCESS, mkEhdr 0x464C457F 2 62 0x400078 64 0 1) /\
  elf_load_image cut_file 0 [] 0 [] start64 = Stop BadAccess.
Proof. split; reflexivity. Qed.
