(* ===== verification/UserMem.v ===== *)
(** * User memory on top of the memory managers

    The page tables of the virtual memory manager (src/kernel/memory/vmm.c) and the
    frames they map meet the contract [UserMemory] under which the system calls on
    files are verified: what [user_range_readable] and [user_range_writable] accept the
    kernel can load and store. *)

From S2P Require Import Prelude Interfaces Pmm Vmm KernelHeap UserSpace Elf ElfProofs.

(** ** Permission and translation *)
Lemma permitted_mapped need m va l : forall t, permitted need l m t va = true -> exists x, walk l m t va = Some x.
Proof.
  induction l as [|l IH]; intros t Hp; cbn [permitted walk] in *; [discriminate|]. apply andb_true_iff in Hp as [Hp1 Hp2].
  apply andb_true_iff in Hp1 as [-> _]. destruct l as [|k]; [eauto|]. destruct (has _ PDE_PS); [eauto|]. cbn [andb] in Hp2. exact (IH _ Hp2).
Qed.

Lemma permitted_sub need need' m va l : (forall e, forallb (has e) need = true -> forallb (has e) need' = true) ->
  forall t, permitted need l m t va = true -> permitted need' l m t va = true.
Proof.
  intros Hn. induction l as [|l IH]; intros t Hp; cbn [permitted] in *; [discriminate|]. apply andb_true_iff in Hp as [Hp1 Hp2].
  apply andb_true_iff in Hp1 as [-> Hp1]. rewrite (Hn _ Hp1). cbn [andb]. destruct l as [|k]; [reflexivity|]. destruct (_ && _); [reflexivity|]. exact (IH _ Hp2).
Qed.

Section UserVmm.
Context {F : Type} `{FrameSourceLaws F}.
(** the root of the address space *)
Variable root : Z.
#[local] Instance pages : UserPages (vmm F) := vmm_pages root.
Implicit Types st : image (vmm F).

Definition ok_or_false (o : outcome bool) : bool := match o with Ok b => b | Stop _ => false end.

(** The user half is well formed (src/kernel/process/elf.c leaves it so), and memory
    holds bytes. *)
Definition memory_ok st : Prop := (exists D, img_ok st D) /\ forall p c, im_mem st !! p = Some c -> 0 <= c < 2 ^ 8.

#[export] Instance vmm_user_memory : UserMemory (image (vmm F)) := {|
  user_readable := fun addr len st => ok_or_false (user_range_readable root addr len (im_as st));
  user_writable := fun addr len st => ok_or_false (user_range_writable root addr len (im_as st));
  user_load := fun addr st => of_opt (user_byte st addr);
  user_store := fun addr c st =>
    let* p := of_opt (up_phys (im_as st) (page_of addr)) in Ok (mkImage (im_as st) (put_bytes (im_mem st) (p + addr mod 4096) [c]));
  um_ok := memory_ok
|}.

(** What the range checks accept. *)
Definition accepts (need : list Z) (s : vmm F) (addr len : Z) : Prop :=
  addr + len <= 2 ^ 47 /\ forall x, addr <= x < addr + len -> is_canonical x && permitted need 4 (vm_mem s) root x = true.

Lemma readable_accepts st addr len : 0 <= addr < 2 ^ 64 -> 0 < len < 2 ^ 64 -> user_readable addr len st = true <-> accepts [PTE_USER] (im_as st) addr len.
Proof.
  intros Ha Hl. cbn [user_readable vmm_user_memory]. unfold user_range_readable.
  destruct (range_check_spec (fun va => vmm_is_user_readable root va (im_as st)) addr len) as (b & -> & Hb); [|lia|lia|].
  - intros x y Hxy. rewrite !user_readable_permitted, (canonical_page _ _ Hxy). f_equal. now apply permitted_page.
  - cbn [ok_or_false]. rewrite Hb. unfold accepts. setoid_rewrite user_readable_permitted. split; [intros [?|?]; [lia|assumption]|auto].
Qed.

Lemma writable_accepts st addr len : 0 <= addr < 2 ^ 64 -> 0 < len < 2 ^ 64 -> user_writable addr len st = true <-> accepts [PTE_USER; PTE_WRITABLE] (im_as st) addr len.
Proof.
  intros Ha Hl. cbn [user_writable vmm_user_memory]. unfold user_range_writable.
  destruct (range_check_spec (fun va => vmm_is_user_writable root va (im_as st)) addr len) as (b & -> & Hb); [|lia|lia|].
  - intros x y Hxy. rewrite !user_writable_permitted, (canonical_page _ _ Hxy). f_equal. now apply permitted_page.
  - cbn [ok_or_false]. rewrite Hb. unfold accepts. setoid_rewrite user_writable_permitted. split; [intros [?|?]; [lia|assumption]|auto].
Qed.

Lemma accepts_sub need s addr len i n : accepts need s addr len -> 0 <= i -> 0 < n -> i + n <= len -> accepts need s (addr + i) n.
Proof. intros [H1 H2] Hi Hn Hl. split; [lia|]. intros x Hx. apply H2. lia. Qed.

(** An accepted address is mapped. *)
Lemma accepted_mapped need st D addr : img_ok st D -> 0 <= addr -> accepts need (im_as st) addr 1 ->
  addr < 2 ^ 47 /\ exists p, up_phys (im_as st) (page_of addr) = Some p.
Proof.
  intros I Ha [Hl Hp]. split; [lia|]. destruct (io_inv _ _ I) as (T & Ipt & _ & Hlev). specialize (Hp addr ltac:(lia)). apply andb_true_iff in Hp as [_ Hp].
  assert (Hpage : addr / 4096 = page_of addr / 4096) by (unfold page_of; dlia).
  rewrite (permitted_page _ _ _ _ _ _ Hpage) in Hp. destruct (permitted_mapped _ _ _ _ _ Hp) as [[l e] Hw].
  cbn [up_phys pages vmm_pages]. rewrite (get_phys_user root T _ _ Ipt) by (unfold page_of; dlia). rewrite Hw.
  rewrite (Hlev _ _ _ (page_of_user addr ltac:(lia)) Hw). cbn [phys_of]. eauto.
Qed.

Lemma vmm_load_law st addr : memory_ok st -> 0 <= addr < 2 ^ 64 -> user_readable addr 1 st = true -> exists c, user_load addr st = Ok c /\ 0 <= c < 2 ^ 8.
Proof.
  intros [[D I] Hb] Ha Hr. rewrite readable_accepts in Hr by lia. destruct (accepted_mapped _ st D addr I ltac:(lia) Hr) as [Hlt [p Hp]].
  destruct (proj2 (user_byte_mapped st D addr I ltac:(lia)) ltac:(eauto)) as [c Hc]. cbn [user_load vmm_user_memory]. rewrite Hc. exists c. split; [reflexivity|].
  rewrite user_byte_eq, Hp in Hc by lia. exact (Hb _ _ Hc).
Qed.

Lemma vmm_store_law st addr c : memory_ok st -> 0 <= addr < 2 ^ 64 -> user_writable addr 1 st = true -> 0 <= c < 2 ^ 8 ->
  exists st', user_store addr c st = Ok st' /\ memory_ok st' /\ user_load addr st' = Ok c /\
    (forall a, 0 <= a < 2 ^ 47 -> a <> addr -> user_load a st' = user_load a st) /\
    (forall a n, user_readable a n st' = user_readable a n st) /\ (forall a n, user_writable a n st' = user_writable a n st).
Proof.
  intros [[D I] Hb] Ha Hw Hc. rewrite writable_accepts in Hw by lia. destruct (accepted_mapped _ st D addr I ltac:(lia) Hw) as [Hlt [p Hp]].
  assert (Hmod : 0 <= addr mod 4096 < 4096) by (apply Z.mod_pos_bound; lia).
  destruct (write_frame st D (page_of addr) p (addr mod 4096) [c] I (page_of_user addr ltac:(lia)) Hp) as [I' Hbyte]; [lia|change (zlen [c]) with 1; lia|].
  assert (Hsum : page_of addr + addr mod 4096 = addr) by (unfold page_of; lia). rewrite Hsum in Hbyte. change (zlen [c]) with 1 in Hbyte.
  cbn [user_store user_load vmm_user_memory]. rewrite Hp. cbn [of_opt obind]. eexists. split; [reflexivity|]. split; [|split; [|split; [|split; reflexivity]]].
  - split; [now exists D|]. intros q x. cbn [im_mem]. rewrite put_bytes_lookup. destruct (_ && _); [|apply Hb].
    destruct (znth [c] _) as [y|] eqn:Ey; [|discriminate]. intros [= <-]. exact (Forall_znth (fun z => 0 <= z < 2 ^ 8) [c] _ _ ltac:(repeat constructor; lia) Ey).
  - rewrite Hbyte by lia. destruct (Z.leb_spec addr addr), (Z.ltb_spec addr (addr + 1)); try lia. cbn [andb]. rewrite Z.sub_diag. reflexivity.
  - intros a Ha' Hne. rewrite Hbyte by lia. destruct (Z.leb_spec addr a), (Z.ltb_spec a (addr + 1)); try reflexivity. lia.
Qed.

#[export] Instance vmm_user_memory_laws : UserMemoryLaws (image (vmm F)).
Proof.
  constructor.
  - intros addr len st _ Ha Hl Hr. apply readable_accepts in Hr; [|lia..]. apply Hr.
  - intros addr len st i n _ Ha Hl Hr Hi Hn Hs. apply readable_accepts in Hr; [|lia..]. pose proof (proj1 Hr). apply readable_accepts; [lia..|]. now apply (accepts_sub _ _ addr len).
  - intros addr len st i n _ Ha Hl Hr Hi Hn Hs. apply writable_accepts in Hr; [|lia..]. pose proof (proj1 Hr). apply writable_accepts; [lia..|]. now apply (accepts_sub _ _ addr len).
  - intros addr len st _ Ha Hl Hw. destruct (Z.eq_dec len 0) as [->|]; [reflexivity|]. apply writable_accepts in Hw; [|lia..]. apply readable_accepts; [lia..|].
    destruct Hw as [H1 H2]. split; [exact H1|]. intros x Hx. specialize (H2 x Hx). apply andb_true_iff in H2 as [-> H2]. cbn [andb].
    revert H2. apply permitted_sub. intros e He. cbn [forallb] in *. destruct (has e PTE_USER); [reflexivity|discriminate].
  - intros addr st. exact (vmm_load_law st addr).
  - intros addr c st. exact (vmm_store_law st addr c).
Qed.

End UserVmm.
