(* ===== verification/Brk.v ===== *)
(** * The system call brk (src/kernel/syscall/syscall.c, [sys_brk])

    [sys_brk] moves the end of the data segment of a process: growing maps fresh pages
    of zeroes, shrinking unmaps pages and frees their frames.  The address space is the
    one of the loader ([image]), the fields [brk_start] and [brk_current] of the process
    are the record [brk]. *)

From S2P Require Import Prelude Bitmap Interfaces CString Pmm Vmm UserSpace Elf ElfProofs ElfTheorems.

Record brk : Type := mkBrk { brk_start : Z; brk_current : Z }.

(** [PAGE_ALIGN_UP] *)
Definition page_align_up (x : Z) : Z := Z.land (x +64 0xFFF) (u64 (Z.lnot 0xFFF)).

Definition HEAP_FLAGS : Z := Z.lor (Z.lor VMM_FLAG_USER VMM_FLAG_WRITABLE) VMM_FLAG_NO_EXECUTE.

Section Brk.
Context {A : Type} `{UserPages A}.
Implicit Types st : image A.

(** The loop that maps pages; [false] when it gives up. *)
Fixpoint grow (fuel : nat) (va end_page : Z) st : outcome (bool * image A) :=
  if va <? end_page then
    match fuel with
    | O => Stop NoFuel
    | S k => let* (b, st) := new_page va HEAP_FLAGS st in if b then grow k (va +64 0x1000) end_page st else Ok (false, st)
    end
  else Ok (true, st).

(** The loop that unmaps pages. *)
Fixpoint shrink (fuel : nat) (va end_page : Z) st : outcome (image A) :=
  if va <? end_page then
    match fuel with
    | O => Stop NoFuel
    | S k =>
      let* st := (match up_phys (im_as st) va with
                  | Some phys =>
                    let* (_, a) := up_unmap va (im_as st) in
                    let* a := up_free phys a in
                    Ok (mkImage a (im_mem st))
                  | None => Ok st
                  end) in
      shrink k (va +64 0x1000) end_page st
    end
  else Ok st.

Definition sys_brk (new_brk : Z) (b : brk) st : outcome (Z * brk * image A) :=
  if new_brk =? 0 then Ok (brk_current b, b, st)
  else if new_brk <? brk_start b then Ok (brk_current b, b, st)
  else if brk_current b <? new_brk then
    let start_page := page_align_up (brk_current b) in
    let end_page := page_align_up new_brk in
    let* (ok, st) := grow (page_count start_page end_page) start_page end_page st in
    if ok then Ok (new_brk, mkBrk (brk_start b) new_brk, st) else Ok (brk_current b, b, st)
  else if new_brk <? brk_current b then
    let start_page := page_align_up new_brk in
    let end_page := page_align_up (brk_current b) in
    let* st := shrink (page_count start_page end_page) start_page end_page st in
    Ok (new_brk, mkBrk (brk_start b) new_brk, st)
  else Ok (new_brk, mkBrk (brk_start b) new_brk, st).

End Brk.

(** ** Lemmas *)
Lemma page_align_up_eq x : 0 <= x < 2 ^ 63 -> page_align_up x = (x + 4095) / 4096 * 4096.
Proof. intros Hx. unfold page_align_up. rewrite u64_id by lia. change (Z.land ?a _) with (page_down a). rewrite page_down_spec by lia. dlia. Qed.

Lemma page_align_up_spec x : 0 <= x < 2 ^ 63 -> page_align_up x mod 4096 = 0 /\ x <= page_align_up x < x + 4096.
Proof. intros Hx. rewrite page_align_up_eq by exact Hx. dlia. Qed.

Section BrkProofs.
Context {A : Type} `{UserPagesLaws A}.
Implicit Types (st : image A) (D : gset Z).

(** Growing maps zeroes up to the end, or up to the page where it gave up. *)
Lemma grow_spec e : e mod 4096 = 0 -> e < 2 ^ 47 -> forall n va st D, img_ok st D -> va mod 4096 = 0 -> 0 <= va -> e <= va + 4096 * Z.of_nat n ->
  exists ok st' D' r, grow n va e st = Ok (ok, st') /\ img_ok st' D' /\ va <= r /\ r mod 4096 = 0 /\
    (forall x, 0 <= x < 2 ^ 47 -> user_byte st' x = if (va <=? x) && (x <? r) then Some 0 else user_byte st x) /\
    (forall x, va <= x < r -> user_byte st x = None) /\
    (if ok then r = Z.max va e else r < e /\ (up_room (im_as st') <= 1 \/ user_byte st r <> None)).
Proof.
  intros Hea He. induction n as [|n IH]; intros va st D I Hal Hlo Hhi; cbn [grow];
    destruct (Z.ltb_spec va e) as [Hlt|Hge]; try lia.
  1, 3: exists true, st, D, va; split; [reflexivity|]; split; [exact I|]; split; [lia|]; split; [exact Hal|]; split; [|split; [lia|lia]];
    intros x Hx; destruct (Z.leb_spec va x), (Z.ltb_spec x va); try reflexivity; lia.
  destruct (new_page_spec st D va HEAP_FLAGS I) as (b & st1 & D1 & -> & I1 & Hno & Hb); [split; [lia|exact Hal]|split; reflexivity|]. cbn [obind].
  assert (Hle : va + 4096 <= e) by dlia.
  assert (Hp : forall x, 0 <= x < 2 ^ 47 -> page_of x = va <-> va <= x < va + 4096) by (intros x Hx; unfold page_of; split; intros; dlia).
  destruct b.
  2: { exists false, st1, D1, va. split; [reflexivity|]. split; [exact I1|]. split; [lia|]. split; [exact Hal|]. split; [|split; [lia|]].
       - intros x Hx. rewrite (Hb x Hx). cbn [andb]. destruct (Z.leb_spec va x), (Z.ltb_spec x va); try reflexivity; lia.
       - split; [lia|]. destruct Hno as [Hno|Hno]; [right|now left]. apply not_eq_None_Some, (user_byte_mapped st D va I); [lia|].
         rewrite page_of_page by exact Hal. now apply not_eq_None_Some. }
  rewrite u64_id by lia. destruct (IH (va + 0x1000) st1 D1 I1) as (ok & st2 & D2 & r & E & I2 & Hr1 & Hr2 & Hb2 & Hn2 & Hc); [dlia|lia|lia|].
  exists ok, st2, D2, r. split; [exact E|]. split; [exact I2|]. split; [lia|]. split; [exact Hr2|]. cbn [andb] in Hb.
  assert (Hb' : forall x, 0 <= x < 2 ^ 47 -> user_byte st1 x = if (va <=? x) && (x <? va + 4096) then Some 0 else user_byte st x).
  { intros x Hx. rewrite (Hb x Hx). specialize (Hp x Hx). destruct (Z.eqb_spec (page_of x) va), (Z.leb_spec va x), (Z.ltb_spec x (va + 4096)); try reflexivity; lia. }
  assert (Hnone : forall x, va <= x < va + 4096 -> user_byte st x = None).
  { intros x Hx. destruct (user_byte st x) as [c|] eqn:Ex; [|reflexivity]. exfalso.
    destruct (proj1 (user_byte_mapped st D x I ltac:(lia))) as [p Ep]; [eauto|]. rewrite (proj2 (Hp x ltac:(lia))) in Ep by lia. congruence. }
  assert (Hre : r <= 2 ^ 47) by (destruct ok; lia).
  split; [|split].
  - intros x Hx. rewrite (Hb2 x Hx), (Hb' x Hx).
    destruct (Z.leb_spec (va + 0x1000) x), (Z.ltb_spec x r), (Z.leb_spec va x), (Z.ltb_spec x (va + 4096)); cbn [andb]; try reflexivity; lia.
  - intros x Hx. destruct (Z.ltb_spec x (va + 4096)); [apply Hnone; lia|]. pose proof (Hn2 x ltac:(lia)) as Hx2. rewrite Hb' in Hx2 by lia.
    destruct (Z.leb_spec va x), (Z.ltb_spec x (va + 4096)); cbn [andb] in Hx2; try lia. exact Hx2.
  - destruct ok; [lia|]. destruct Hc as [Hc1 Hc2]. split; [exact Hc1|]. destruct Hc2 as [Hc2|Hc2]; [now left|right]. rewrite Hb' in Hc2 by lia.
    destruct (Z.leb_spec va r), (Z.ltb_spec r (va + 4096)); cbn [andb] in Hc2; try lia. exact Hc2.
Qed.

(** Unmapping one page. *)
Lemma unmap_one st D va p : img_ok st D -> user_page va -> up_phys (im_as st) va = Some p ->
  exists b a1 a2, up_unmap va (im_as st) = Ok (b, a1) /\ up_free p a1 = Ok a2 /\ img_ok (mkImage a2 (im_mem st)) (D ∖ {[p]}) /\ (forall x, user_page x -> x <> va -> up_phys a2 x = up_phys (im_as st) x) /\
    forall x, 0 <= x < 2 ^ 47 -> user_byte (mkImage a2 (im_mem st)) x = if page_of x =? va then None else user_byte st x.
Proof.
  intros I Hu Ep. pose proof (io_held _ _ I va p Hu Ep) as Hp.
  destruct (up_unmap_law _ _ va (io_inv _ _ I) Hu) as (b & a1 & E1 & Hi1 & Hs1 & Hn1).
  destruct (up_free_law a1 D p Hi1 Hp) as (a2 & E2 & Hs2 & Hi2 & _).
  assert (Hoth : forall x, user_page x -> x <> va -> same_mapping (im_as st) a2 x).
  { intros x Hx Hne. destruct (Hs1 x Hx Hne) as [X1 X2], (Hs2 x) as [Y1 Y2]. split; [congruence|]. intros f. now rewrite Y2, X2. }
  assert (Hva : up_phys a2 va = None) by (rewrite (proj1 (Hs2 va)); exact Hn1).
  assert (Hcase : forall x q, user_page x -> up_phys a2 x = Some q -> x <> va /\ up_phys (im_as st) x = Some q).
  { intros x q Hx E. assert (Hne : x <> va) by congruence. split; [exact Hne|]. now rewrite <- (proj1 (Hoth x Hx Hne)). }
  exists b, a1, a2. split; [exact E1|]. split; [exact E2|]. split; [|split; [intros x Hx Hne; exact (proj1 (Hoth x Hx Hne))|]].
  - constructor; cbn [im_as im_mem]; [exact Hi2|..].
    + intros x q Hx E. destruct (Hcase x q Hx E) as [Hne E']. apply elem_of_difference. split; [exact (io_held _ _ I x q Hx E')|].
      rewrite elem_of_singleton. intros ->. apply Hne. exact (io_inj _ _ I x va p Hx Hu E' Ep).
    + intros x y q Hx Hy E E'. exact (io_inj _ _ I x y q Hx Hy (proj2 (Hcase x q Hx E)) (proj2 (Hcase y q Hy E'))).
    + intros x q o Hx E. exact (io_bytes _ _ I x q o Hx (proj2 (Hcase x q Hx E))).
    + intros x q Hx E. destruct (Hcase x q Hx E) as [Hne E']. destruct (io_perm _ _ I x q Hx E') as (f & Hf & Hw). exists f. split; [|exact Hw].
      now apply (proj2 (Hoth x Hx Hne)).
  - intros x Hx. rewrite !user_byte_eq by lia. cbn [im_as im_mem]. destruct (Z.eqb_spec (page_of x) va) as [->|Hne]; [now rewrite Hva|].
    now rewrite (proj1 (Hoth _ (page_of_user x Hx) Hne)).
Qed.

Lemma shrink_spec e : e mod 4096 = 0 -> e < 2 ^ 47 -> forall n va st D, img_ok st D -> va mod 4096 = 0 -> 0 <= va -> e <= va + 4096 * Z.of_nat n ->
  exists st' D', shrink n va e st = Ok st' /\ img_ok st' D' /\ D' ⊆ D /\
    (forall x, 0 <= x < 2 ^ 47 -> user_byte st' x = if (va <=? x) && (x <? e) then None else user_byte st x) /\
    (forall x p, user_page x -> va <= x < e -> up_phys (im_as st) x = Some p -> p ∉ D').
Proof.
  intros Hea He. induction n as [|n IH]; intros va st D I Hal Hlo Hhi; cbn [shrink];
    destruct (Z.ltb_spec va e) as [Hlt|Hge]; try lia.
  1, 3: exists st, D; split; [reflexivity|]; split; [exact I|]; split; [done|]; split; [|lia];
    intros x Hx; destruct (Z.leb_spec va x), (Z.ltb_spec x e); try reflexivity; lia.
  assert (Hle : va + 4096 <= e) by dlia. assert (Hu : user_page va) by (split; [lia|exact Hal]).
  assert (Hstep : exists st1 D1, (match up_phys (im_as st) va with
      | Some phys => let* (_, a) := up_unmap va (im_as st) in let* a := up_free phys a in Ok (mkImage a (im_mem st)) | None => Ok st end) = Ok st1 /\
      img_ok st1 D1 /\ D1 ⊆ D /\ (forall p, up_phys (im_as st) va = Some p -> p ∉ D1) /\ (forall x, user_page x -> x <> va -> up_phys (im_as st1) x = up_phys (im_as st) x) /\
      forall x, 0 <= x < 2 ^ 47 -> user_byte st1 x = if page_of x =? va then None else user_byte st x).
  { destruct (up_phys (im_as st) va) as [p|] eqn:Ep.
    - destruct (unmap_one st D va p I Hu Ep) as (b & a1 & a2 & -> & E2 & I2 & Ho & Hb). cbn [obind]. rewrite E2. cbn [obind].
      do 2 eexists. split; [reflexivity|]. split; [exact I2|]. split; [apply subseteq_difference_l; reflexivity|].
      split; [intros q [= <-]; rewrite elem_of_difference, elem_of_singleton; tauto|]. split; [exact Ho|exact Hb].
    - exists st, D. split; [reflexivity|]. split; [exact I|]. split; [done|]. split; [done|]. split; [done|]. intros x Hx.
      destruct (Z.eqb_spec (page_of x) va) as [Hx'|]; [|reflexivity]. rewrite user_byte_eq by lia. now rewrite Hx', Ep. }
  destruct Hstep as (st1 & D1 & -> & I1 & Hd1 & Hn1 & Ho1 & Hb1). cbn [obind]. rewrite u64_id by lia.
  destruct (IH (va + 0x1000) st1 D1 I1) as (st2 & D2 & -> & I2 & Hd2 & Hb2 & Hf2); [dlia|lia|lia|].
  exists st2, D2. split; [reflexivity|]. split; [exact I2|]. split; [exact (transitivity Hd2 Hd1)|]. split.
  - intros x Hx. rewrite (Hb2 x Hx), (Hb1 x Hx). unfold page_of.
    destruct (Z.leb_spec (va + 0x1000) x), (Z.ltb_spec x e), (Z.leb_spec va x), (Z.eqb_spec (x - x mod 4096) va); cbn [andb]; try reflexivity; exfalso; dlia.
  - intros x p Hx Hr Ep. destruct (Z.eq_dec x va) as [->|Hne]; [intros Hin; exact (Hn1 p Ep (Hd2 p Hin))|].
    apply (Hf2 x p Hx); [destruct Hx; dlia|]. now rewrite (Ho1 x Hx Hne).
Qed.

(** ** Theorems *)

(** The memory is the same outside a range, where it is [v]. *)
Definition range_becomes st st' (lo hi : Z) (v : option Z) : Prop :=
  forall x, 0 <= x < 2 ^ 47 -> user_byte st' x = if (lo <=? x) && (x <? hi) then v else user_byte st x.

(** What a call that moved the end of the data did. *)
Definition brk_moved (new : Z) (b : brk) st st' D' : Prop :=
  if brk_current b <? new
  then range_becomes st st' (page_align_up (brk_current b)) (page_align_up new) (Some 0) /\
       forall x, page_align_up (brk_current b) <= x < page_align_up new -> user_byte st x = None
  else range_becomes st st' (page_align_up new) (page_align_up (brk_current b)) None /\
       forall x p, user_page x -> page_align_up new <= x < page_align_up (brk_current b) -> up_phys (im_as st) x = Some p -> p ∉ D'.

(** What a call that failed to grow left behind: the pages up to [r]. *)
Definition brk_stopped (new : Z) (b : brk) st st' (r : Z) : Prop :=
  brk_current b < new /\ page_align_up (brk_current b) <= r < page_align_up new /\ r mod 4096 = 0 /\
  range_becomes st st' (page_align_up (brk_current b)) r (Some 0) /\ (up_room (im_as st') <= 1 \/ user_byte st r <> None).

Lemma brk_spec new b st D : img_ok st D -> 0 <= brk_start b <= brk_current b -> brk_current b < 2 ^ 46 -> 0 <= new < 2 ^ 46 ->
  exists r b' st' D', sys_brk new b st = Ok (r, b', st') /\ img_ok st' D' /\ r = brk_current b' /\ brk_start b' = brk_start b /\
    ((r = new /\ brk_start b <= new /\ brk_moved new b st st' D') \/
     (b' = b /\ ((new = 0 \/ new < brk_start b) /\ st' = st \/ exists p, brk_stopped new b st st' p))).
Proof.
  intros I Hb Hc Hn. unfold sys_brk, brk_moved, brk_stopped.
  destruct (page_align_up_spec new ltac:(lia)) as [N1 N2]. destruct (page_align_up_spec (brk_current b) ltac:(lia)) as [C1 C2].
  destruct (Z.eqb_spec new 0); [exists (brk_current b), b, st, D; auto 10|].
  destruct (Z.ltb_spec new (brk_start b)); [exists (brk_current b), b, st, D; auto 10|].
  destruct (Z.ltb_spec (brk_current b) new) as [Hg|Hg].
  - destruct (grow_spec (page_align_up new) N1 ltac:(lia) (page_count (page_align_up (brk_current b)) (page_align_up new)) (page_align_up (brk_current b)) st D I C1)
      as (ok & st' & D' & r & -> & I' & Hr1 & Hr2 & Hby & Hnone & Hok); [lia|unfold page_count; dlia|]. cbn [obind].
    destruct ok.
    + assert (Hr : r = page_align_up new) by (rewrite (page_align_up_eq new), (page_align_up_eq (brk_current b)) in * by lia; dlia). rewrite Hr in Hby, Hnone.
      do 4 eexists. split; [reflexivity|]. split; [exact I'|]. split; [reflexivity|]. split; [reflexivity|]. left. split; [reflexivity|]. split; [lia|]. exact (conj Hby Hnone).
    + do 4 eexists. split; [reflexivity|]. split; [exact I'|]. split; [reflexivity|]. split; [reflexivity|]. right. split; [reflexivity|]. right.
      destruct Hok as [Hok1 Hok2]. exists r. split; [lia|]. split; [lia|]. split; [exact Hr2|]. exact (conj Hby Hok2).
  - assert (Hs : exists st' D', (if new <? brk_current b
        then let* st := shrink (page_count (page_align_up new) (page_align_up (brk_current b))) (page_align_up new) (page_align_up (brk_current b)) st in
             Ok (new, mkBrk (brk_start b) new, st)
        else Ok (new, mkBrk (brk_start b) new, st)) = Ok (new, mkBrk (brk_start b) new, st') /\ img_ok st' D' /\
        range_becomes st st' (page_align_up new) (page_align_up (brk_current b)) None /\
        forall x p, user_page x -> page_align_up new <= x < page_align_up (brk_current b) -> up_phys (im_as st) x = Some p -> p ∉ D').
    { destruct (Z.ltb_spec new (brk_current b)).
      - destruct (shrink_spec (page_align_up (brk_current b)) C1 ltac:(lia) (page_count (page_align_up new) (page_align_up (brk_current b))) (page_align_up new) st D I N1)
          as (st' & D' & -> & I' & _ & Hby & Hf); [lia|unfold page_count; dlia|]. exists st', D'. split; [reflexivity|]. split; [exact I'|]. exact (conj Hby Hf).
      - exists st, D. split; [reflexivity|]. split; [exact I|]. assert (new = brk_current b) as -> by lia. split; [|lia].
        intros x Hx. destruct (Z.leb_spec (page_align_up (brk_current b)) x), (Z.ltb_spec x (page_align_up (brk_current b))); try reflexivity; lia. }
    destruct Hs as (st' & D' & -> & I' & Hby & Hf). do 4 eexists. split; [reflexivity|]. split; [exact I'|]. split; [reflexivity|]. split; [reflexivity|]. left.
    split; [reflexivity|]. split; [lia|]. exact (conj Hby Hf).
Qed.

(** The first page that a request maps stays mapped, whatever becomes of the rest. *)
Lemma grow_first st D va e n st1 ok st' : img_ok st D -> user_page va -> va < e < 2 ^ 47 -> e mod 4096 = 0 -> e <= va + 4096 * Z.of_nat n ->
  new_page va HEAP_FLAGS st = Ok (true, st1) -> grow n va e st = Ok (ok, st') -> user_byte st' va = Some 0.
Proof.
  intros I Hu He Hea Hn E1 E. destruct n as [|n]; [lia|]. cbn [grow] in E. destruct (Z.ltb_spec va e); [|lia]. rewrite E1 in E. cbn [obind] in E.
  destruct (new_page_spec st D va HEAP_FLAGS I Hu ltac:(split; reflexivity)) as (b & st2 & D1 & E2 & I1 & _ & Hb). rewrite E1 in E2. injection E2 as <- <-.
  destruct Hu as [Hu Hal]. rewrite u64_id in E by lia.
  destruct (grow_spec e Hea ltac:(lia) n (va + 0x1000) st1 D1 I1) as (ok' & st2 & D2 & r & E2 & _ & _ & _ & Hb2 & _); [dlia|lia|lia|].
  rewrite E in E2. injection E2 as <- <-. rewrite Hb2 by lia. destruct (Z.leb_spec (va + 0x1000) va); [lia|]. cbn [andb].
  rewrite Hb by lia. rewrite page_of_page by exact Hal. now rewrite Z.eqb_refl.
Qed.

(** What happens to a process later: requests to move the end of its data, and
    everything else in the system that leaves its mapped pages mapped. *)
Definition brk_step (x y : brk * image A) : Prop :=
  (exists new r, 0 <= new < 2 ^ 46 /\ sys_brk new (fst x) (snd x) = Ok (r, fst y, snd y)) \/
  (fst y = fst x /\ (exists D, img_ok (snd y) D) /\
   forall v, 0 <= v < 2 ^ 47 -> user_byte (snd x) v <> None -> user_byte (snd y) v <> None).

(** The page at [P] behind the end of the data is mapped. *)
Record brk_blocked (P : Z) (b : brk) st : Prop := {
  bb_image : exists D, img_ok st D;
  bb_range : 0 <= brk_start b <= brk_current b;
  bb_limit : brk_current b < 2 ^ 46;
  bb_below : brk_current b <= P;
  bb_page : user_page P;
  bb_mapped : user_byte st P <> None
}.

Lemma page_align_le x P : 0 <= x < 2 ^ 63 -> P mod 4096 = 0 -> x <= P -> page_align_up x <= P.
Proof. intros Hx HP Hle. rewrite page_align_up_eq by exact Hx. dlia. Qed.

Lemma blocked_call P b st new : brk_blocked P b st -> 0 <= new < 2 ^ 46 ->
  exists r b' st', sys_brk new b st = Ok (r, b', st') /\ brk_blocked P b' st' /\ (P < new -> r = brk_current b /\ b' = b).
Proof.
  intros [[D I] Hb Hc Hle [HP1 HP2] Hm] Hn. destruct (brk_spec new b st D I Hb Hc Hn) as (r & b' & st' & D' & E & I' & -> & Hs & Hcase).
  pose proof (page_align_le (brk_current b) P ltac:(lia) HP2 Hle) as Hcp. destruct (page_align_up_spec new ltac:(lia)) as [_ N2].
  exists (brk_current b'), b', st'. split; [exact E|]. destruct Hcase as [(Er & Hs' & Hmv)|[-> Hcase]].
  - unfold brk_moved in Hmv. assert (Hnew : new <= P).
    { destruct (Z.ltb_spec (brk_current b) new); [|lia]. destruct (Z.le_gt_cases new P); [assumption|]. destruct Hmv as [_ Hno]. destruct Hm. apply Hno. lia. }
    pose proof (page_align_le new P ltac:(lia) HP2 Hnew) as Hnp. split; [|lia].
    constructor; [now exists D'|lia|lia|lia|split; assumption|]. destruct (brk_current b <? new); destruct Hmv as [Hr _]; rewrite Hr by lia.
    + destruct (Z.ltb_spec P (page_align_up new)); [lia|]. now rewrite andb_false_r.
    + destruct (Z.ltb_spec P (page_align_up (brk_current b))); [lia|]. now rewrite andb_false_r.
  - split; [|auto]. constructor; [now exists D'|exact Hb|exact Hc|exact Hle|split; assumption|].
    destruct Hcase as [[_ ->]|(p & _ & _ & _ & Hr & _)]; [exact Hm|]. rewrite Hr by lia. now destruct (_ && _).
Qed.

Lemma blocked_steps P x y : rtc brk_step x y -> brk_blocked P (fst x) (snd x) -> brk_blocked P (fst y) (snd y).
Proof.
  induction 1 as [x|x y z Hs _ IH]; [auto|]. intros B. apply IH. destruct Hs as [(new & r & Hn & E)|(Eb & HI & Hk)].
  - destruct (blocked_call P (fst x) (snd x) new B Hn) as (r' & b' & st' & E' & B' & _). rewrite E in E'. injection E' as _ -> ->. exact B'.
  - destruct B. rewrite Eb. constructor; auto. apply Hk; [apply bb_page0|exact bb_mapped0].
Qed.

(** C25: For ends of the data below 2^46 (64 TiB), [brk] returns, and with the new end
    exactly the pages between the old and the new end change: growing makes them zeroes
    where nothing was mapped, shrinking unmaps them and gives their frames back.  A
    request below the start of the data changes nothing.  Growing fails only for want of
    page frames or where a page is already mapped; then the end stays where it was.  For
    larger ends this is not so: the code rounds an end near 2^64 up to 0 ([sys_brk_wraps]). *)
Theorem sys_brk_correct new b st D : img_ok st D -> 0 <= brk_start b <= brk_current b -> brk_current b < 2 ^ 46 -> 0 <= new < 2 ^ 46 ->
  exists r b' st' D', sys_brk new b st = Ok (r, b', st') /\ img_ok st' D' /\ r = brk_current b' /\ brk_start b' = brk_start b /\
    ((r = new /\ brk_start b <= new /\ brk_moved new b st st' D') \/
     (b' = b /\ ((new = 0 \/ new < brk_start b) /\ st' = st \/ exists p, brk_stopped new b st st' p))).
Proof. exact (brk_spec new b st D). Qed.

(** C26: If a request to grow fails but could map the first page behind the data, it
    leaves that page mapped and the end where it was.  From then on, whatever the system
    does that leaves the mapped pages of the process mapped, and whatever further
    requests for ends below 2^46 the process makes, the end of the data never gets
    beyond that page and every request beyond it fails, even when memory is free again. *)
Theorem sys_brk_stuck new b st D r b' st' st1 : img_ok st D -> 0 <= brk_start b <= brk_current b -> brk_current b < 2 ^ 46 -> 0 <= new < 2 ^ 46 ->
  let P := page_align_up (brk_current b) in
  P < new -> new_page P HEAP_FLAGS st = Ok (true, st1) -> sys_brk new b st = Ok (r, b', st') -> r <> new ->
  b' = b /\ user_byte st' P = Some 0 /\
  forall b2 st2, rtc brk_step (b', st') (b2, st2) -> brk_current b2 <= P /\
    forall new', P < new' < 2 ^ 46 -> exists st3, sys_brk new' b2 st2 = Ok (brk_current b2, b2, st3).
Proof.
  intros I Hb Hc Hn P Hg E1 E Hr. destruct (page_align_up_spec (brk_current b) ltac:(lia)) as [C1 C2]. fold P in C1, C2.
  destruct (page_align_up_spec new ltac:(lia)) as [N1 N2]. assert (HP : user_page P) by (split; [lia|exact C1]).
  destruct (brk_spec new b st D I Hb Hc Hn) as (r1 & b1 & stx & D' & Ex & I' & _ & _ & Hcase). rewrite E in Ex. injection Ex as <- <- <-.
  destruct Hcase as [[Hx _]|[-> _]]; [done|]. split; [reflexivity|].
  assert (Hzero : user_byte st' P = Some 0).
  { unfold sys_brk in E. destruct (Z.eqb_spec new 0), (Z.ltb_spec new (brk_start b)), (Z.ltb_spec (brk_current b) new); try lia. fold P in E.
    destruct (grow (page_count P (page_align_up new)) P (page_align_up new) st) as [[ok stg]|] eqn:Eg; [|discriminate]. cbn [obind] in E.
    assert (Es : stg = st') by (destruct ok; congruence). subst stg.
    apply (grow_first st D P (page_align_up new) (page_count P (page_align_up new)) st1 ok st' I HP); auto; [lia|unfold page_count; dlia]. }
  split; [exact Hzero|]. intros b2 st2 Hs. assert (B : brk_blocked P b st') by (constructor; [now exists D'|exact Hb|exact Hc|lia|exact HP|congruence]).
  pose proof (blocked_steps P _ _ Hs B) as B2. split; [apply B2|]. intros new' Hn'.
  destruct (blocked_call P b2 st2 new' B2 ltac:(lia)) as (r2 & b3 & st3 & E3 & _ & Hf). destruct Hf as [-> ->]; [lia|]. eauto.
Qed.

End BrkProofs.

(** ** Concrete data segments: one on 64 frames, one on 16 *)
#[local] Instance brk_pages : UserPages (vmm pmm) := vmm_pages 8192.
#[local] Instance brk_pages_laws : UserPagesLaws (vmm pmm) := vmm_pages_laws 8192.

Definition data0 : brk := mkBrk 0x10000000 0x10000000.
Definition start16 : image (vmm pmm) := mkImage vm0 ∅.

Lemma start64_ok : img_ok start64 ∅.
Proof. exact (proj1 (fresh_ok space64 ∅ space64_fresh)). Qed.

Lemma start16_ok : img_ok start16 ∅.
Proof.
  apply (fresh_ok vm0 ∅). split.
  - exists tables0. split; [exact vm0_inv|]. split; [set_solver|]. intros va l e _. discriminate.
  - intros va [Hva _]. exact (get_phys_user 8192 _ vm0 va vm0_inv Hva).
Qed.

(** The value a call returns. *)
Definition brk_result (o : outcome (Z * brk * image (vmm pmm))) : Z := match o with Ok (r, _, _) => r | Stop _ => -1 end.

Lemma sys_brk_correct_witness : exists b' st', sys_brk 0x10002001 data0 start64 = Ok (0x10002001, b', st') /\
  user_byte st' 0x10002fff = Some 0 /\ user_byte st' 0x10003000 = None.
Proof.
  destruct (sys_brk_correct 0x10002001 data0 start64 ∅ start64_ok) as (r & b' & st' & D' & E & _ & Hrb & _ & Hc); [split; discriminate|reflexivity|split; [discriminate|reflexivity]|].
  assert (Hr : brk_result (sys_brk 0x10002001 data0 start64) = 0x10002001) by (vm_compute; reflexivity). rewrite E in Hr. cbn in Hr. rewrite Hr in E, Hrb.
  exists b', st'. split; [exact E|]. destruct Hc as [(_ & _ & Hm & _)|[-> Hc]].
  - assert (Hn : forall x, 0 <= x < 2 ^ 47 -> user_byte start64 x = None) by exact (proj2 (fresh_ok space64 ∅ space64_fresh)).
    rewrite !Hm by (split; [discriminate|reflexivity]). split; [reflexivity|]. apply Hn. split; [discriminate|reflexivity].
  - discriminate Hrb.
Defined.

(** Growing by 32 pages on a machine with 13 free frames, then by one page. *)
Definition first_try := sys_brk 0x10020000 data0 start16.

Lemma first_try_fails : match first_try with Ok (r, _, _) => r =? 0x10000000 | Stop _ => false end = true.
Proof. vm_compute. reflexivity. Qed.

Lemma first_page_maps : exists st1, new_page 0x10000000 HEAP_FLAGS start16 = Ok (true, st1).
Proof.
  assert (E : match new_page 0x10000000 HEAP_FLAGS start16 with Ok (b, _) => b | Stop _ => false end = true) by (vm_compute; reflexivity).
  destruct (new_page 0x10000000 HEAP_FLAGS start16) as [[b st1]|]; [|discriminate]. exists st1. now rewrite E.
Qed.

Lemma sys_brk_stuck_witness : exists st st', first_try = Ok (0x10000000, data0, st) /\ sys_brk 0x10001000 data0 st = Ok (0x10000000, data0, st').
Proof.
  destruct (brk_spec 0x10020000 data0 start16 ∅ start16_ok) as (r & b & st & D & E & I & _); [split; discriminate|reflexivity|split; [discriminate|reflexivity]|].
  pose proof first_try_fails as Hf. unfold first_try in Hf. rewrite E in Hf. apply Z.eqb_eq in Hf. subst r. destruct first_page_maps as [st1 E1].
  destruct (sys_brk_stuck 0x10020000 data0 start16 ∅ 0x10000000 b st st1 start16_ok ltac:(split; discriminate) eq_refl ltac:(split; [discriminate|reflexivity]) eq_refl E1 E ltac:(discriminate))
    as (-> & _ & Hs).
  destruct (Hs data0 st (rtc_refl _ _)) as [_ Hf]. destruct (Hf 0x10001000 ltac:(split; reflexivity)) as (st' & E'). exists st, st'. split; [exact E|exact E'].
Defined.

(** An end near 2^64 wraps to page 0 when it is rounded up: the call succeeds and
    maps nothing. *)
Lemma sys_brk_wraps : match sys_brk (2 ^ 64 - 1) data0 start16 with Ok (r, b, st) => r = 2 ^ 64 - 1 /\ brk_current b = 2 ^ 64 - 1 /\ im_as st = vm0 | Stop _ => False end.
Proof. split; [|split]; reflexivity. Qed.
