(* ===== verification/UserAlloc.v ===== *)
(** * The allocator of user programs (src/user/libkryos/alloc.c)

    [malloc], [free] and [sbrk] over a data segment that grows ([DataSegment], which the
    system call brk implements).  The headers of the blocks are kept at their addresses;
    the header of a block that [free] merges into the one before it is no header any
    more and disappears. *)

From Stdlib Require Import Sorting.Sorted.
From S2P Require Import Prelude Interfaces Pmm Vmm UserSpace Elf ElfProofs ElfTheorems Brk.

(** The system call brk as a program sees it: it reports the end, or moves it. *)
Class DataSegment (S : Type) : Type := {
  ds_brk : Z -> S -> outcome (Z * S);
  ds_end : S -> Z;
  ds_ok : S -> Prop
}.

Class DataSegmentLaws (S : Type) `{DataSegment S} : Prop := {
  ds_query s : ds_ok s -> ds_brk 0 s = Ok (ds_end s, s);
  ds_grow s new : ds_ok s -> ds_end s < new < 2 ^ 46 ->
    exists r s', ds_brk new s = Ok (r, s') /\ ds_ok s' /\ ((r = new /\ ds_end s' = new) \/ (r <> new /\ ds_end s' = ds_end s));
  ds_range s : ds_ok s -> 0 < ds_end s < 2 ^ 46
}.

Record block_header : Type := mkHdr { bh_size : Z; bh_is_free : Z; bh_next : Z }.
Definition sizeof_header : Z := 24.

(** The headers, and the variable [free_list]. *)
Record uheap : Type := mkUheap { uh_blocks : gmap Z block_header; free_list : Z }.

Section Alloc.
Context {S : Type} `{DataSegment S}.

Definition sbrk (increment : Z) (s : S) : outcome (Z * S) :=
  let* (current, s) := ds_brk 0 s in
  if increment =? 0 then Ok (current, s)
  else
    let new_brk := current +64 increment in
    let* (result, s) := ds_brk new_brk s in
    if negb (result =? new_brk) then Ok (u64 (-1), s) else Ok (current, s).

(** The first block that is free and large enough (0 without one), and the block before
    the place where the search stopped. *)
Fixpoint first_fit (fuel : nat) (m : gmap Z block_header) (total_size curr prev : Z) : outcome (Z * Z) :=
  if curr =? 0 then Ok (0, prev)
  else
    match fuel with
    | O => Stop NoFuel
    | Datatypes.S k =>
      let* b := of_opt (m !! curr) in
      if negb (bh_is_free b =? 0) && (total_size <=? bh_size b) then Ok (curr, prev)
      else first_fit k m total_size (bh_next b) curr
    end.

(** Taking the block [curr], which is split when enough is left. *)
Definition take_first (total_size curr : Z) (h : uheap) : outcome (Z * uheap) :=
  let* b := of_opt (uh_blocks h !! curr) in
  let '(b, m) :=
    if total_size +64 sizeof_header +64 16 <=? bh_size b then
      let new_block := curr +64 total_size in
      (mkHdr total_size (bh_is_free b) new_block, <[new_block := mkHdr (bh_size b -64 total_size) 1 (bh_next b)]> (uh_blocks h))
    else (b, uh_blocks h) in
  Ok (curr +64 sizeof_header, mkUheap (<[curr := mkHdr (bh_size b) 0 (bh_next b)]> m) (free_list h)).

Definition malloc (size : Z) (h : uheap) (s : S) : outcome (Z * uheap * S) :=
  if size =? 0 then Ok (0, h, s)
  else
    let total_size := size +64 sizeof_header in
    let total_size := Z.land (total_size +64 15) (u64 (Z.lnot 15)) in
    let* (curr, prev) := first_fit (base.size (uh_blocks h)) (uh_blocks h) total_size (free_list h) 0 in
    if negb (curr =? 0) then
      let* (p, h) := take_first total_size curr h in Ok (p, h, s)
    else
      let* (new_block, s) := sbrk total_size s in
      if new_block =? u64 (-1) then Ok (0, h, s)
      else
        let m := <[new_block := mkHdr total_size 0 0]> (uh_blocks h) in
        if negb (prev =? 0) then
          let* p := of_opt (m !! prev) in
          Ok (new_block +64 sizeof_header, mkUheap (<[prev := mkHdr (bh_size p) (bh_is_free p) new_block]> m) (free_list h), s)
        else Ok (new_block +64 sizeof_header, mkUheap m new_block, s).

(** The sweep that merges free neighbours. *)
Fixpoint coalesce (fuel : nat) (m : gmap Z block_header) (curr : Z) : outcome (gmap Z block_header) :=
  if curr =? 0 then Ok m
  else
    let* b := of_opt (m !! curr) in
    if bh_next b =? 0 then Ok m
    else
      match fuel with
      | O => Stop NoFuel
      | Datatypes.S k =>
        let* n := of_opt (m !! bh_next b) in
        if negb (bh_is_free b =? 0) && negb (bh_is_free n =? 0) && (curr +64 bh_size b =? bh_next b) then
          coalesce k (<[curr := mkHdr (bh_size b +64 bh_size n) (bh_is_free b) (bh_next n)]> (delete (bh_next b) m)) curr
        else coalesce k m (bh_next b)
      end.

Definition free (ptr : Z) (h : uheap) : outcome uheap :=
  if ptr =? 0 then Ok h
  else
    let block := ptr -64 sizeof_header in
    let* b := of_opt (uh_blocks h !! block) in
    let m := <[block := mkHdr (bh_size b) 1 (bh_next b)]> (uh_blocks h) in
    let* m := coalesce (base.size m) m (free_list h) in
    Ok (mkUheap m (free_list h)).

End Alloc.

(** ** The list of blocks: address, size, and whether it is free *)
Record ublock : Type := mkUb { ub_addr : Z; ub_size : Z; ub_free : bool }.

Definition first (l : list ublock) : Z := match l with [] => 0 | b :: _ => ub_addr b end.

(** The headers of a list. *)
Fixpoint headers (l : list ublock) : gmap Z block_header :=
  match l with
  | [] => ∅
  | b :: r => <[ub_addr b := mkHdr (ub_size b) (if ub_free b then 1 else 0) (first r)]> (headers r)
  end.

Definition heap_of (l : list ublock) : uheap := mkUheap (headers l) (first l).

(** The blocks lie one after the other below [e], 16 bytes aligned in size, with room
    for a header. *)
Fixpoint laid_out (lo : Z) (l : list ublock) (e : Z) : Prop :=
  match l with
  | [] => lo <= e
  | b :: r => lo <= ub_addr b /\ ub_size b mod 16 = 0 /\ 32 <= ub_size b /\ laid_out (ub_addr b + ub_size b) r e
  end.

(** The payloads in use. *)
Definition payloads (l : list ublock) : list (Z * Z) :=
  map (fun b => (ub_addr b + sizeof_header, ub_size b - sizeof_header)) (List.filter (fun b => negb (ub_free b)) l).

(** ** Lemmas on headers *)
Lemma laid_out_app l1 : forall lo b l2 e, laid_out lo (l1 ++ b :: l2) e <-> laid_out lo l1 (ub_addr b) /\ laid_out (ub_addr b) (b :: l2) e.
Proof.
  induction l1 as [|c l1 IH]; intros lo b l2 e; cbn [app laid_out]; [|rewrite IH; cbn [laid_out]; tauto].
  split; intros Hl; repeat split; try tauto; lia.
Qed.

Lemma laid_out_le lo l e : laid_out lo l e -> lo <= e.
Proof. revert lo. induction l as [|b r IH]; intros lo; cbn [laid_out]; [auto|]. intros (H1 & _ & H3 & H4). apply IH in H4. lia. Qed.

Lemma laid_out_weaken lo l e e' : laid_out lo l e -> e <= e' -> laid_out lo l e'.
Proof. revert lo. induction l as [|b r IH]; intros lo; cbn [laid_out]; [lia|]. intros (H1 & H2 & H3 & H4) He. auto. Qed.

Lemma laid_out_in lo l e b : laid_out lo l e -> In b l -> lo <= ub_addr b /\ 32 <= ub_size b /\ ub_addr b + ub_size b <= e.
Proof.
  revert lo. induction l as [|c r IH]; intros lo Hl Hb; [destruct Hb|]. destruct Hl as (H1 & _ & H3 & H4). pose proof (laid_out_le _ _ _ H4).
  destruct Hb as [->|Hb]; [lia|]. destruct (IH _ H4 Hb). lia.
Qed.

Lemma headers_in l x h : headers l !! x = Some h -> exists b, In b l /\ ub_addr b = x.
Proof.
  induction l as [|b r IH]; cbn [headers]; [now rewrite lookup_empty|]. destruct (decide (ub_addr b = x)) as [<-|Hne]; [intros _; exists b; split; [now left|reflexivity]|].
  rewrite lookup_insert_ne by exact Hne. intros Hx. destruct (IH Hx) as (c & Hc & Ec). exists c. split; [now right|exact Ec].
Qed.

(** No header at the address of an earlier block, or at the end. *)
Lemma headers_out lo l e x : laid_out lo l e -> x < lo \/ e <= x -> headers l !! x = None.
Proof.
  intros Hl Hx. destruct (headers l !! x) as [h|] eqn:E; [|reflexivity]. apply headers_in in E as (b & Hb & <-). destruct (laid_out_in _ _ _ _ Hl Hb). lia.
Qed.

Lemma size_headers lo l e : laid_out lo l e -> base.size (headers l) = length l.
Proof.
  revert lo. induction l as [|b r IH]; intros lo Hl; cbn [headers length]; [apply map_size_empty|]. destruct Hl as (H1 & _ & H3 & H4).
  rewrite map_size_insert_None; [now rewrite (IH _ H4)|]. eapply headers_out; [exact H4|lia].
Qed.

(** A change of the headers of a suffix that keeps its first address. *)
Lemma headers_suffix (f : gmap Z block_header -> gmap Z block_header) l1 r r' : first r' = first r -> headers r' = f (headers r) ->
  (forall b h m, In b l1 -> f (<[ub_addr b := h]> m) = <[ub_addr b := h]> (f m)) -> headers (l1 ++ r') = f (headers (l1 ++ r)).
Proof.
  intros Hf Hr Hc. induction l1 as [|b l1 IH]; cbn [app headers]; [exact Hr|]. rewrite Hc by now left. rewrite IH by (intros; apply Hc; now right).
  do 2 f_equal. destruct l1; [exact Hf|reflexivity].
Qed.

Lemma headers_lookup lo l1 b l2 e : laid_out lo (l1 ++ b :: l2) e ->
  headers (l1 ++ b :: l2) !! ub_addr b = Some (mkHdr (ub_size b) (if ub_free b then 1 else 0) (first l2)).
Proof.
  revert lo. induction l1 as [|c l1 IH]; intros lo Hl; cbn [app headers]; [apply lookup_insert_eq|]. destruct Hl as (H1 & _ & H3 & H4).
  rewrite lookup_insert_ne; [exact (IH _ H4)|]. apply laid_out_app in H4 as [H4 _]. apply laid_out_le in H4. lia.
Qed.

(** Earlier blocks have other addresses. *)
Lemma before_ne lo l1 b l2 e c x : laid_out lo (l1 ++ b :: l2) e -> In c l1 -> ub_addr b <= x -> ub_addr c <> x.
Proof. intros Hl Hc Hx. apply laid_out_app in Hl as [Hl _]. destruct (laid_out_in _ _ _ _ Hl Hc). lia. Qed.

Lemma headers_update lo l1 b l2 e n (fr : bool) : laid_out lo (l1 ++ b :: l2) e ->
  <[ub_addr b := mkHdr n (if fr then 1 else 0) (first l2)]> (headers (l1 ++ b :: l2)) = headers (l1 ++ mkUb (ub_addr b) n fr :: l2).
Proof.
  intros Hl. symmetry. apply (headers_suffix (fun m => <[ub_addr b := mkHdr n (if fr then 1 else 0) (first l2)]> m) l1 (b :: l2)); [reflexivity|cbn [headers ub_addr ub_size ub_free]; now rewrite insert_insert_eq|].
  intros c h m Hc. apply insert_insert_ne. pose proof (before_ne _ _ _ _ _ c (ub_addr b) Hl Hc ltac:(lia)). congruence.
Qed.

(** A block split in two. *)
Lemma headers_split lo l1 b l2 e t : laid_out lo (l1 ++ b :: l2) e -> 0 < t < ub_size b ->
  <[ub_addr b := mkHdr t 0 (ub_addr b + t)]> (<[ub_addr b + t := mkHdr (ub_size b - t) 1 (first l2)]> (headers (l1 ++ b :: l2))) =
  headers (l1 ++ mkUb (ub_addr b) t false :: mkUb (ub_addr b + t) (ub_size b - t) true :: l2).
Proof.
  intros Hl Ht. symmetry.
  apply (headers_suffix (fun m => <[ub_addr b := mkHdr t 0 (ub_addr b + t)]> (<[ub_addr b + t := mkHdr (ub_size b - t) 1 (first l2)]> m)) l1 (b :: l2)); [reflexivity|..].
  - cbn [headers ub_addr ub_size ub_free first]. rewrite (insert_insert_ne _ (ub_addr b + t)) by lia. now rewrite insert_insert_eq.
  - intros c h m Hc. pose proof (before_ne _ _ _ _ _ c (ub_addr b) Hl Hc ltac:(lia)). pose proof (before_ne _ _ _ _ _ c (ub_addr b + t) Hl Hc ltac:(lia)).
    rewrite (insert_insert_ne _ (ub_addr b + t)) by congruence. now rewrite (insert_insert_ne _ (ub_addr b)) by congruence.
Qed.

(** A block put after the last one. *)
Lemma headers_append lo l1 p e a n : laid_out lo (l1 ++ [p]) e -> e <= a ->
  <[ub_addr p := mkHdr (ub_size p) (if ub_free p then 1 else 0) a]> (<[a := mkHdr n 0 0]> (headers (l1 ++ [p]))) = headers (l1 ++ [p; mkUb a n false]).
Proof.
  intros Hl Ha. symmetry.
  apply (headers_suffix (fun m => <[ub_addr p := mkHdr (ub_size p) (if ub_free p then 1 else 0) a]> (<[a := mkHdr n 0 0]> m)) l1 [p]); [reflexivity|..].
  - cbn [headers ub_addr ub_size ub_free first]. assert (Hp : ub_addr p <> a). { destruct (laid_out_in _ _ _ p Hl) as (_ & ? & ?); [apply in_or_app; right; now left|lia]. }
    rewrite (insert_insert_ne _ a) by congruence. now rewrite insert_insert_eq.
  - intros c h m Hc. destruct (laid_out_in _ _ _ p Hl) as (_ & Hp1 & Hp2); [apply in_or_app; right; now left|].
    pose proof (before_ne _ _ _ _ _ c (ub_addr p) Hl Hc ltac:(lia)). pose proof (before_ne _ _ _ _ _ c a Hl Hc ltac:(lia)).
    rewrite (insert_insert_ne _ a) by congruence. now rewrite (insert_insert_ne _ (ub_addr p)) by congruence.
Qed.

(** Two neighbours merged. *)
Lemma headers_merge lo l1 b c l2 e n (fr : bool) : laid_out lo (l1 ++ b :: c :: l2) e ->
  <[ub_addr b := mkHdr n (if fr then 1 else 0) (first l2)]> (delete (ub_addr c) (headers (l1 ++ b :: c :: l2))) = headers (l1 ++ mkUb (ub_addr b) n fr :: l2).
Proof.
  intros Hl. symmetry. pose proof (proj2 (proj1 (laid_out_app _ _ _ _ _) Hl)) as (_ & _ & Hb & Hc & _ & Hc' & Hr).
  apply (headers_suffix (fun m => <[ub_addr b := mkHdr n (if fr then 1 else 0) (first l2)]> (delete (ub_addr c) m)) l1 (b :: c :: l2)); [reflexivity|..].
  - cbn [headers ub_addr ub_size ub_free first]. rewrite delete_insert_ne by lia. rewrite insert_insert_eq, delete_insert_id; [reflexivity|]. eapply headers_out; [exact Hr|lia].
  - intros d h m Hd. pose proof (before_ne _ _ _ _ _ d (ub_addr b) Hl Hd ltac:(lia)). pose proof (before_ne _ _ _ _ _ d (ub_addr c) Hl Hd ltac:(lia)).
    rewrite delete_insert_ne by congruence. now rewrite (insert_insert_ne _ (ub_addr b)) by congruence.
Qed.

(** ** The search *)
Definition fits (t : Z) (b : ublock) : bool := ub_free b && (t <=? ub_size b).
Definition last_addr (l : list ublock) : Z := match list.last l with Some b => ub_addr b | None => 0 end.

Lemma first_fit_spec t lo e : 0 < lo -> forall l2 l1 fuel, laid_out lo (l1 ++ l2) e -> (length l2 <= fuel)%nat ->
  exists curr prev, first_fit fuel (headers (l1 ++ l2)) t (first l2) (last_addr l1) = Ok (curr, prev) /\
    ((curr = 0 /\ prev = last_addr (l1 ++ l2)) \/ exists a b c, l1 ++ l2 = a ++ b :: c /\ fits t b = true /\ curr = ub_addr b).
Proof.
  intros Hlo. induction l2 as [|b r IH]; intros l1 fuel Hl Hf.
  { rewrite app_nil_r in *. destruct fuel; cbn [first_fit first]; rewrite Z.eqb_refl; eexists _, _; (split; [reflexivity|now left]). }
  destruct fuel as [|fuel]; [cbn in Hf; lia|]. cbn [first_fit first]. destruct (laid_out_in _ _ _ b Hl) as (Hb & _); [apply in_or_app; right; now left|].
  destruct (Z.eqb_spec (ub_addr b) 0); [lia|]. rewrite (headers_lookup _ _ _ _ _ Hl). cbn [of_opt obind bh_is_free bh_size bh_next].
  assert (Hcond : negb ((if ub_free b then 1 else 0) =? 0) && (t <=? ub_size b) = fits t b) by (unfold fits; now destruct (ub_free b)). rewrite Hcond.
  destruct (fits t b) eqn:Ef; [eexists _, _; split; [reflexivity|right; eauto 10]|].
  assert (Happ : l1 ++ b :: r = (l1 ++ [b]) ++ r) by now rewrite <- app_assoc. rewrite Happ in *.
  assert (Hlast : ub_addr b = last_addr (l1 ++ [b])) by (unfold last_addr; now rewrite last_snoc). rewrite Hlast. apply IH; [exact Hl|cbn in Hf; lia].
Qed.

(** ** The sweep *)
Fixpoint merge (c : ublock) (r : list ublock) : list ublock :=
  match r with
  | [] => [c]
  | n :: r =>
    if ub_free c && ub_free n && (ub_addr c + ub_size c =? ub_addr n) then merge (mkUb (ub_addr c) (ub_size c + ub_size n) true) r
    else c :: merge n r
  end.

Lemma coalesce_spec lo e : 0 < lo -> e < 2 ^ 63 -> forall r l1 c fuel, laid_out lo (l1 ++ c :: r) e -> (length r <= fuel)%nat ->
  coalesce fuel (headers (l1 ++ c :: r)) (ub_addr c) = Ok (headers (l1 ++ merge c r)) /\ laid_out lo (l1 ++ merge c r) e /\
  first (l1 ++ merge c r) = first (l1 ++ c :: r) /\ payloads (l1 ++ merge c r) = payloads (l1 ++ c :: r).
Proof.
  intros Hlo He. induction r as [|n r IH]; intros l1 c fuel Hl Hf; destruct (laid_out_in _ _ _ c Hl) as (Hc & Hc1 & Hc2); try (apply in_or_app; right; now left);
    destruct fuel as [|fuel]; cbn [coalesce merge]; try (cbn in Hf; lia); (destruct (Z.eqb_spec (ub_addr c) 0); [lia|]); rewrite (headers_lookup _ _ _ _ _ Hl); cbn [of_opt obind bh_next first].
  1, 2: rewrite Z.eqb_refl; auto.
  assert (Hn : In n (l1 ++ c :: n :: r)) by (apply in_or_app; right; right; now left). destruct (laid_out_in _ _ _ n Hl Hn) as (Hn0 & Hn1 & Hn2).
  destruct (Z.eqb_spec (ub_addr n) 0); [lia|]. assert (Happ : forall x : list ublock, l1 ++ c :: x = (l1 ++ [c]) ++ x) by (intros; now rewrite <- app_assoc).
  rewrite (Happ (n :: r)) at 1. rewrite (headers_lookup lo (l1 ++ [c]) n r e) by (rewrite <- Happ; exact Hl). cbn [of_opt obind bh_is_free bh_size bh_next].
  rewrite (u64_id (ub_addr c + ub_size c)), (u64_id (ub_size c + ub_size n)) by lia.
  assert (Hcond : negb ((if ub_free c then 1 else 0) =? 0) && negb ((if ub_free n then 1 else 0) =? 0) && (ub_addr c + ub_size c =? ub_addr n) =
    ub_free c && ub_free n && (ub_addr c + ub_size c =? ub_addr n)) by now destruct (ub_free c), (ub_free n). rewrite Hcond.
  destruct (ub_free c && ub_free n && (ub_addr c + ub_size c =? ub_addr n)) eqn:Em.
  - apply andb_true_iff in Em as [Em Ea%Z.eqb_eq]. apply andb_true_iff in Em as [Ec En]. rewrite Ec.
    rewrite (headers_merge _ _ _ _ _ _ (ub_size c + ub_size n) true Hl).
    assert (Hl' : laid_out lo (l1 ++ mkUb (ub_addr c) (ub_size c + ub_size n) true :: r) e).
    { apply laid_out_app in Hl as [Hl1 (H1 & H2 & H3 & H4 & H5 & H6 & H7)]. apply laid_out_app. cbn [ub_addr ub_size laid_out]. split; [exact Hl1|].
      split; [lia|]. split; [dlia|]. split; [lia|]. now replace (ub_addr c + (ub_size c + ub_size n)) with (ub_addr n + ub_size n) by lia. }
    destruct (IH l1 _ fuel Hl' ltac:(cbn in Hf; lia)) as (E & L & F & P). cbn [ub_addr] in E. split; [exact E|]. split; [exact L|].
    split; [rewrite F; destruct l1; reflexivity|]. rewrite P. unfold payloads. rewrite !filter_app. cbn [List.filter ub_free negb]. now rewrite Ec, En.
  - rewrite (Happ (n :: r)) in Hl |- *. rewrite (Happ (merge n r)). destruct (IH (l1 ++ [c]) n fuel Hl ltac:(cbn in Hf; lia)) as (E & L & F & P). split; [exact E|]. split; [exact L|]. split; [exact F|exact P].
Qed.

(** ** Specifications of the operations *)
Lemma payloads_app a b : payloads (a ++ b) = payloads a ++ payloads b.
Proof. unfold payloads. now rewrite filter_app, map_app. Qed.

Lemma payloads_cons b l : payloads (b :: l) = (if ub_free b then [] else [(ub_addr b + sizeof_header, ub_size b - sizeof_header)]) ++ payloads l.
Proof. unfold payloads. cbn [List.filter]. now destruct (ub_free b). Qed.

(** The size of the block for a request. *)
Definition block_size (size : Z) : Z := 16 * ((size + 39) / 16).

Lemma block_size_code size : 0 < size < 2 ^ 46 -> Z.land (size +64 sizeof_header +64 15) (u64 (Z.lnot 15)) = block_size size.
Proof.
  intros Hs. unfold sizeof_header. rewrite (u64_id (size + 24)), (u64_id (size + 24 + 15)) by lia. change (Z.lnot 15) with (Z.lnot (2 ^ 4 - 1)). rewrite land_not_low by lia. change (2 ^ 4) with 16.
  unfold block_size. replace (size + 24 + 15) with (size + 39) by lia. pose proof (Z.div_mod (size + 39) 16 ltac:(lia)). lia.
Qed.

Lemma block_size_range size : 0 < size -> size + 24 <= block_size size <= size + 39 /\ block_size size mod 16 = 0 /\ 32 <= block_size size.
Proof. intros Hs. unfold block_size. dlia. Qed.

Lemma take_first_spec lo a b c e t : 0 < lo -> e < 2 ^ 46 -> laid_out lo (a ++ b :: c) e -> fits t b = true -> t mod 16 = 0 -> 32 <= t ->
  exists l' n, take_first t (ub_addr b) (heap_of (a ++ b :: c)) = Ok (ub_addr b + sizeof_header, heap_of l') /\ laid_out lo l' e /\ t - sizeof_header <= n /\
    payloads l' ≡ₚ (ub_addr b + sizeof_header, n) :: payloads (a ++ b :: c).
Proof.
  intros Hlo He Hl Hfit Ht Ht32. destruct (laid_out_in _ _ _ b Hl) as (Hb & Hb1 & Hb2); [apply in_or_app; right; now left|].
  apply andb_true_iff in Hfit as [Hfree Hsize%Z.leb_le]. unfold take_first, sizeof_header. cbn [uh_blocks heap_of free_list]. rewrite (headers_lookup _ _ _ _ _ Hl). cbn [of_opt obind bh_size bh_is_free bh_next].
  rewrite (u64_id (t + 24)), (u64_id (t + 24 + 16)), (u64_id (ub_addr b + t)), (u64_id (ub_size b - t)), (u64_id (ub_addr b + 24)) by lia. pose proof Hl as Hl0. apply laid_out_app in Hl0 as [Hl1 (H1 & H2 & H3 & H4)].
  assert (Hfirst : forall x y, ub_addr x = ub_addr b -> first (a ++ x :: y) = first (a ++ b :: c)) by (intros x y Hx; destruct a; [exact Hx|reflexivity]).
  destruct (Z.leb_spec (t + 24 + 16) (ub_size b)); cbn [bh_size bh_next].
  - exists (a ++ mkUb (ub_addr b) t false :: mkUb (ub_addr b + t) (ub_size b - t) true :: c), (t - 24). split; [|split; [|split]].
    + unfold heap_of. now rewrite (headers_split _ _ _ _ _ t Hl), (Hfirst (mkUb (ub_addr b) t false)) by (reflexivity || lia).
    + apply laid_out_app. cbn [laid_out ub_addr ub_size]. repeat split; try lia; try assumption; [dlia|]. now replace (ub_addr b + t + (ub_size b - t)) with (ub_addr b + ub_size b) by lia.
    + lia.
    + rewrite !payloads_app, !payloads_cons. cbn [ub_free app ub_addr ub_size]. rewrite Hfree. cbn [app]. unfold sizeof_header. symmetry. apply Permutation_middle.
  - exists (a ++ mkUb (ub_addr b) (ub_size b) false :: c), (ub_size b - 24). split; [|split; [|split]].
    + unfold heap_of. now rewrite (headers_update _ _ _ _ _ (ub_size b) false Hl), (Hfirst (mkUb (ub_addr b) (ub_size b) false)) by reflexivity.
    + apply laid_out_app. cbn [laid_out ub_addr ub_size]. repeat split; assumption || lia.
    + lia.
    + rewrite !payloads_app, !payloads_cons. cbn [ub_free app ub_addr ub_size]. rewrite Hfree. cbn [app]. unfold sizeof_header. symmetry. apply Permutation_middle.
Qed.

Lemma free_spec lo l e p n : 0 < lo -> e < 2 ^ 46 -> laid_out lo l e -> In (p, n) (payloads l) ->
  exists l', free p (heap_of l) = Ok (heap_of l') /\ laid_out lo l' e /\ payloads l ≡ₚ (p, n) :: payloads l'.
Proof.
  intros Hlo He Hl Hp. unfold payloads in Hp. apply in_map_iff in Hp as (b & [= <- <-] & Hb). apply filter_In in Hb as [Hb Hfree%negb_true_iff].
  apply in_split in Hb as (a & c & ->). destruct (laid_out_in _ _ _ b Hl) as (Hb & Hb1 & Hb2); [apply in_or_app; right; now left|].
  unfold free, sizeof_header. destruct (Z.eqb_spec (ub_addr b + 24) 0); [lia|]. rewrite u64_id by lia. replace (ub_addr b + 24 - 24) with (ub_addr b) by lia.
  cbn [uh_blocks heap_of free_list]. rewrite (headers_lookup _ _ _ _ _ Hl). cbn [of_opt obind bh_size bh_next]. rewrite (headers_update _ _ _ _ _ (ub_size b) true Hl : <[_ := mkHdr _ 1 _]> _ = _).
  set (b' := mkUb (ub_addr b) (ub_size b) true). assert (Hl' : laid_out lo (a ++ b' :: c) e).
  { apply laid_out_app in Hl as [Hl1 (H1 & H2 & H3 & H4)]. apply laid_out_app. cbn. auto. }
  rewrite (size_headers _ _ _ Hl'). assert (Hfirst : first (a ++ b :: c) = first (a ++ b' :: c)) by (destruct a; reflexivity). rewrite Hfirst.
  assert (Hne : exists x r, a ++ b' :: c = x :: r) by (destruct a; eauto). destruct Hne as (x & r & Exr). rewrite Exr in Hl' |- *.
  destruct (coalesce_spec lo e Hlo ltac:(lia) r [] x (length (x :: r)) Hl' ltac:(cbn; lia)) as (E & L & F & P). cbn [app] in E, L, F, P. change (first (x :: r)) with (ub_addr x). rewrite E. cbn [obind].
  exists (merge x r). split; [unfold heap_of; now rewrite F|]. split; [exact L|]. rewrite P, <- Exr, !payloads_app, !payloads_cons. cbn [ub_free b' app]. rewrite Hfree.
  unfold sizeof_header. symmetry. apply Permutation_middle.
Qed.

Lemma last_addr_zero lo l e : 0 < lo -> laid_out lo l e -> last_addr l = 0 -> l = [].
Proof.
  intros Hlo Hl Hz. destruct (list.last l) as [b|] eqn:E; [|now apply last_None in E]. unfold last_addr in Hz. rewrite E in Hz.
  apply last_Some_elem_of, list_elem_of_In in E. destruct (laid_out_in _ _ _ _ Hl E). lia.
Qed.

Lemma laid_out_snoc lo l e n : laid_out lo l e -> n mod 16 = 0 -> 32 <= n -> laid_out lo (l ++ [mkUb e n false]) (e + n).
Proof. intros Hl Hn Hn'. apply laid_out_app. cbn [laid_out ub_addr ub_size]. repeat split; assumption || lia. Qed.

Section Client.
Context {S : Type} `{DataSegmentLaws S}.
Implicit Types s : S.

(** [sbrk] of a positive amount. *)
Lemma sbrk_spec n s : ds_ok s -> 0 < n -> ds_end s + n < 2 ^ 46 ->
  exists r s', sbrk n s = Ok (r, s') /\ ds_ok s' /\ ((r = ds_end s /\ ds_end s' = ds_end s + n) \/ (r = u64 (-1) /\ ds_end s' = ds_end s)).
Proof.
  intros Hs Hn Hb. pose proof (ds_range s Hs). unfold sbrk. rewrite (ds_query s Hs). cbn [obind]. destruct (Z.eqb_spec n 0); [lia|]. rewrite u64_id by lia.
  assert (Hnew : ds_end s < ds_end s + n < 2 ^ 46) by lia. destruct (ds_grow s (ds_end s + n) Hs Hnew) as (r & s' & -> & Hs' & Hr). cbn [obind]. destruct (Z.eqb_spec r (ds_end s + n)); cbn [negb]; eexists _, _; (split; [reflexivity|]); (split; [exact Hs'|]);
    [left|right]; (split; [reflexivity|]); destruct Hr as [[? ?]|[? ?]]; congruence.
Qed.

Lemma malloc_spec lo l s size : 0 < lo -> ds_ok s -> laid_out lo l (ds_end s) -> 0 < size -> ds_end s + size + 64 < 2 ^ 46 ->
  exists p l' s', malloc size (heap_of l) s = Ok (p, heap_of l', s') /\ ds_ok s' /\ laid_out lo l' (ds_end s') /\
    ((p = 0 /\ l' = l) \/ (0 < p /\ exists n, size <= n /\ payloads l' ≡ₚ (p, n) :: payloads l)).
Proof.
  intros Hlo Hs Hl Hsize Hb. pose proof (ds_range s Hs) as He. unfold malloc. destruct (Z.eqb_spec size 0); [lia|]. rewrite block_size_code by lia.
  destruct (block_size_range size Hsize) as (Ht & Ht16 & Ht32). set (t := block_size size) in *. cbn [uh_blocks heap_of free_list]. rewrite (size_headers _ _ _ Hl).
  destruct (first_fit_spec t lo (ds_end s) Hlo l [] (length l) Hl ltac:(lia)) as (curr & prev & E & Hc). cbn [app] in E, Hc. change (last_addr []) with 0 in E. rewrite E. cbn [obind].
  destruct Hc as [[-> ->]|(a & b & c & -> & Hfit & ->)].
  - rewrite Z.eqb_refl. cbn [negb]. destruct (sbrk_spec t s Hs ltac:(lia) ltac:(lia)) as (r & s' & -> & Hs' & Hr). cbn [obind]. destruct Hr as [[-> Hr]|[-> Hr]].
    2:{ rewrite Z.eqb_refl. exists 0, l, s'. rewrite Hr. auto 10. }
    destruct (Z.eqb_spec (ds_end s) (u64 (-1))) as [Ee|_]; [vm_compute (u64 (-1)) in Ee; lia|].
    assert (Hp : 0 < ds_end s +64 sizeof_header /\ ds_end s +64 sizeof_header = ds_end s + sizeof_header) by (unfold sizeof_header; rewrite u64_id by lia; lia). destruct Hp as [Hp Ep].
    assert (Hpay : payloads (l ++ [mkUb (ds_end s) t false]) ≡ₚ (ds_end s + sizeof_header, t - sizeof_header) :: payloads l) by (rewrite payloads_app; symmetry; apply Permutation_cons_append).
    exists (ds_end s +64 sizeof_header), (l ++ [mkUb (ds_end s) t false]), s'. rewrite Hr, Ep in *.
    assert (Hfin : ds_ok s' /\ laid_out lo (l ++ [mkUb (ds_end s) t false]) (ds_end s + t) /\
      ((ds_end s + sizeof_header = 0 /\ l ++ [mkUb (ds_end s) t false] = l) \/ (0 < ds_end s + sizeof_header /\ exists n, size <= n /\ payloads (l ++ [mkUb (ds_end s) t false]) ≡ₚ (ds_end s + sizeof_header, n) :: payloads l))).
    { split; [exact Hs'|]. split; [now apply laid_out_snoc|]. right. split; [exact Hp|]. exists (t - sizeof_header). unfold sizeof_header in *. split; [lia|exact Hpay]. }
    split; [|exact Hfin]. destruct (Z.eqb_spec (last_addr l) 0) as [Hz|Hz]; cbn [negb].
    + rewrite (last_addr_zero _ _ _ Hlo Hl Hz). reflexivity.
    + destruct (list.last l) as [b|] eqn:El; [|unfold last_addr in Hz; now rewrite El in Hz]. pose proof (last_Some_elem_of _ _ El) as Hin. apply last_Some in El as [l1 ->].
      assert (Ela : last_addr (l1 ++ [b]) = ub_addr b) by (unfold last_addr; now rewrite last_snoc). rewrite Ela in *.
      destruct (laid_out_in _ _ _ b Hl) as (_ & Hb1 & Hb2); [apply in_or_app; right; now left|]. rewrite lookup_insert_ne by lia.
      rewrite (headers_lookup _ _ _ _ _ Hl). cbn [of_opt obind bh_size bh_is_free]. rewrite (headers_append _ _ _ _ _ t Hl) by lia.
      rewrite <- app_assoc. unfold heap_of. do 4 f_equal. now destruct l1.
  - destruct (laid_out_in _ _ _ b Hl) as (Hb0 & _); [apply in_or_app; right; now left|]. destruct (Z.eqb_spec (ub_addr b) 0); [lia|]. cbn [negb].
    destruct (take_first_spec lo a b c (ds_end s) t) as (l' & k & -> & Hl' & Hn & Hpay); [lia|lia|exact Hl|exact Hfit|exact Ht16|exact Ht32|]. cbn [obind].
    eexists _, l', s. split; [reflexivity|]. split; [exact Hs|]. split; [exact Hl'|]. right. unfold sizeof_header in *. split; [lia|]. exists k. split; [lia|exact Hpay].
Qed.

(** ** Clients *)

(** Payloads in use lie one after the other. *)
Definition below (a b : Z * Z) : Prop := fst a + snd a <= fst b.

Lemma payloads_range lo l e x : laid_out lo l e -> In x (payloads l) -> lo + sizeof_header <= fst x /\ fst x + snd x <= e.
Proof.
  intros Hl Hx. unfold payloads in Hx. apply in_map_iff in Hx as (b & <- & Hb). apply filter_In in Hb as [Hb _]. destruct (laid_out_in _ _ _ _ Hl Hb).
  cbn. unfold sizeof_header. lia.
Qed.

Lemma payloads_sorted lo l e : laid_out lo l e -> StronglySorted below (payloads l).
Proof.
  revert lo. induction l as [|b r IH]; intros lo Hl; [constructor|]. destruct Hl as (_ & _ & _ & Hr). rewrite payloads_cons. destruct (ub_free b); cbn [app]; [exact (IH _ Hr)|].
  constructor; [exact (IH _ Hr)|]. apply List.Forall_forall. intros x Hx. destruct (payloads_range _ _ _ _ Hr Hx). unfold below, sizeof_header in *. cbn. lia.
Qed.

Lemma sorted_apart l : StronglySorted below l -> forall a xs, l ≡ₚ a :: xs -> Forall (fun b => below a b \/ below b a) xs.
Proof.
  induction 1 as [|x r Hr IH Hx]; intros a xs Hp; [now apply Permutation_nil_cons in Hp|]. destruct (decide (x = a)) as [->|Hne].
  - apply Permutation_cons_inv in Hp. rewrite <- Hp. eapply Forall_impl; [|exact Hx]. auto.
  - assert (Ha : In a r) by (assert (Hin : In a (x :: r)) by (rewrite Hp; now left); destruct Hin; [congruence|assumption]).
    apply in_split in Ha as (r1 & r2 & ->). assert (Hm : r1 ++ a :: r2 ≡ₚ a :: r1 ++ r2) by (symmetry; apply Permutation_middle).
    assert (Hxs : xs ≡ₚ x :: r1 ++ r2) by (rewrite Hm in Hp; rewrite perm_swap in Hp; apply Permutation_cons_inv in Hp; now symmetry).
    rewrite Hxs. constructor; [|exact (IH a _ Hm)]. right. rewrite Forall_app, Forall_cons_iff in Hx. tauto.
Qed.

(** A block in use covers what was asked for. *)
Definition covers (a b : Z * Z) : Prop := fst a = fst b /\ snd a <= snd b.

Definition client_ok (lo : Z) (c : uheap * S * list (Z * Z)) : Prop :=
  let '(h, s, held) := c in
  ds_ok s /\ exists l ps, h = heap_of l /\ laid_out lo l (ds_end s) /\ payloads l ≡ₚ ps /\ Forall2 covers held ps.

(** A program that allocates, and frees what it holds. *)
Inductive user_step : uheap * S * list (Z * Z) -> uheap * S * list (Z * Z) -> Prop :=
| us_malloc size h s held p h' s' : 0 <= size -> ds_end s + size + 64 < 2 ^ 46 -> malloc size h s = Ok (p, h', s') ->
    user_step (h, s, held) (h', s', if p =? 0 then held else (p, size) :: held)
| us_free p n h s held1 held2 h' : free p h = Ok h' -> user_step (h, s, held1 ++ (p, n) :: held2) (h', s, held1 ++ held2).

(** The next allocation. *)
Lemma client_malloc lo h s held size : 0 < lo -> client_ok lo (h, s, held) -> 0 <= size -> ds_end s + size + 64 < 2 ^ 46 ->
  exists p h' s', malloc size h s = Ok (p, h', s') /\ client_ok lo (h', s', if p =? 0 then held else (p, size) :: held) /\
    (p = 0 \/ (lo < p /\ p + size <= ds_end s' /\ Forall (fun x => fst x + snd x <= p \/ p + size <= fst x) held)).
Proof.
  intros Hlo [Hs (l & ps & -> & Hl & Hps & Hc)] Hsize Hb. destruct (Z.eq_dec size 0) as [->|Hne].
  { exists 0, (heap_of l), s. split; [reflexivity|]. split; [split; [exact Hs|eauto 10]|now left]. }
  destruct (malloc_spec lo l s size Hlo Hs Hl ltac:(lia) Hb) as (p & l' & s' & E & Hs' & Hl' & Hp). exists p, (heap_of l'), s'. split; [exact E|].
  destruct Hp as [[-> ->]|(Hp & n & Hn & Hpay)]; [split; [split; [exact Hs'|eauto 10]|now left]|]. destruct (Z.eqb_spec p 0); [lia|]. rewrite Hps in Hpay. split.
  - split; [exact Hs'|]. exists l', ((p, n) :: ps). split; [reflexivity|]. split; [exact Hl'|]. split; [exact Hpay|]. constructor; [split; [reflexivity|exact Hn]|exact Hc].
  - right. destruct (payloads_range _ _ _ (p, n) Hl') as [H1 H2]; [rewrite Hpay; now left|]. cbn in H1, H2. unfold sizeof_header in H1. split; [lia|]. split; [lia|].
    pose proof (sorted_apart _ (payloads_sorted _ _ _ Hl') _ _ Hpay) as Hap. clear - Hc Hap Hn.
    induction Hc as [|x y held ps [Hx1 Hx2] Hc IH]; constructor; apply Forall_cons_iff in Hap as [Hy Hap]; [|exact (IH Hap)]. unfold below in Hy. cbn [fst snd] in Hy. cbv beta. lia.
Qed.

(** The next call of [free]. *)
Lemma client_free lo h s held1 p n held2 : 0 < lo -> client_ok lo (h, s, held1 ++ (p, n) :: held2) ->
  exists h', free p h = Ok h' /\ client_ok lo (h', s, held1 ++ held2).
Proof.
  intros Hlo [Hs (l & ps & -> & Hl & Hps & Hc)]. apply Forall2_app_inv_l in Hc as (ps1 & ps2' & Hc1 & Hc2 & ->). inversion Hc2 as [|? y ? ps2 [Hy1 Hy2] Hc3 E1 E2]; subst. cbn in Hy1, Hy2.
  destruct y as [q m]. cbn in Hy1, Hy2. subst q. destruct (free_spec lo l (ds_end s) p m Hlo (proj2 (ds_range s Hs)) Hl) as (l' & E & Hl' & Hpay); [rewrite Hps; apply in_or_app; right; now left|].
  exists (heap_of l'). split; [exact E|]. split; [exact Hs|]. exists l', (ps1 ++ ps2). split; [reflexivity|]. split; [exact Hl'|]. split; [|now apply Forall2_app].
  apply (Permutation_cons_inv (a := (p, m))). rewrite <- Hpay, Hps. symmetry. apply Permutation_middle.
Qed.

(** C27: the allocator of user programs is safe for requests that keep the data segment
    below 2^46: after any sequence of such [malloc]s and of [free]s of what the program
    holds, every further such [malloc] returns, and what it returns, if it is not null,
    is memory inside of the data segment of the size asked for that overlaps nothing the
    program holds; and every [free] of what it holds returns.  The bound is needed: the
    size of a request near 2^64 wraps around ([malloc_wraps]). *)
Theorem user_heap_safe s0 h s held : ds_ok s0 -> rtc user_step (mkUheap ∅ 0, s0, []) (h, s, held) ->
  (forall size, 0 <= size -> ds_end s + size + 64 < 2 ^ 46 ->
     exists p h' s', malloc size h s = Ok (p, h', s') /\
       (p = 0 \/ (ds_end s0 < p /\ p + size <= ds_end s' /\ Forall (fun x => fst x + snd x <= p \/ p + size <= fst x) held))) /\
  (forall p n, In (p, n) held -> exists h', free p h = Ok h').
Proof.
  intros Hs0 Hrtc. pose proof (ds_range s0 Hs0) as Hr. assert (Hinv : client_ok (ds_end s0) (h, s, held)).
  { refine (rtc_invariant user_step (client_ok (ds_end s0)) _ _ _ Hrtc _).
    - intros x y Hstep Hx. destruct Hstep as [size h1 s1 held1 p h' s' H1 H2 E|p n h1 s1 held1 held2 h' E].
      + destruct (client_malloc _ _ _ _ size (proj1 Hr) Hx H1 H2) as (p' & h2 & s2 & E' & Hok & _). rewrite E in E'. now injection E' as <- <- <-.
      + destruct (client_free _ _ _ _ _ _ _ (proj1 Hr) Hx) as (h2 & E' & Hok). rewrite E in E'. now injection E' as <-.
    - split; [exact Hs0|]. exists [], []. split; [reflexivity|]. split; [exact (Z.le_refl _)|]. split; [reflexivity|constructor]. }
  split.
  - intros size H1 H2. destruct (client_malloc _ _ _ _ size (proj1 Hr) Hinv H1 H2) as (p & h' & s' & E & _ & Hp). eauto.
  - intros p n Hin. apply in_split in Hin as (held1 & held2 & ->). destruct (client_free _ _ _ _ _ _ _ (proj1 Hr) Hinv) as (h' & E & _). eauto.
Qed.

End Client.

(** ** The data segment of the kernel *)
Section KernelSegment.
Context {A : Type} `{UserPagesLaws A}.

#[global] Instance brk_segment : DataSegment (brk * image A) := {
  ds_brk new s := let* (r, b, st) := sys_brk new (fst s) (snd s) in Ok (r, (b, st));
  ds_end s := brk_current (fst s);
  ds_ok s := (exists D, img_ok (snd s) D) /\ 0 < brk_start (fst s) <= brk_current (fst s) /\ brk_current (fst s) < 2 ^ 46
}.

#[global] Instance brk_segment_laws : DataSegmentLaws (brk * image A).
Proof.
  split; cbn [ds_ok ds_end ds_brk brk_segment].
  - intros [b st] _. reflexivity.
  - intros [b st] new ([D I] & Hb & Hc) Hn. cbn [fst snd] in *.
    destruct (brk_spec new b st D I ltac:(lia) Hc ltac:(lia)) as (r & b' & st' & D' & -> & I' & Hr & Hs & Hcase). exists r, (b', st'). split; [reflexivity|]. cbn [fst snd]. split.
    + split; [eauto|]. destruct Hcase as [(-> & _)|[-> _]]; lia.
    + destruct Hcase as [(-> & _)|[-> _]]; lia.
  - intros [b st] (_ & Hb & Hc). cbn [fst snd] in *. lia.
Qed.

End KernelSegment.

(** ** A program on the kernel's data segment *)
#[local] Instance alloc_pages : UserPages (vmm pmm) := vmm_pages 8192.
#[local] Instance alloc_pages_laws : UserPagesLaws (vmm pmm) := vmm_pages_laws 8192.

Definition segment0 : brk * image (vmm pmm) := (data0, start64).
Definition nothing_held : uheap := mkUheap ∅ 0.

(** The answers of two allocations, of 100 and of 40 bytes, and the end between them. *)
Definition two_blocks : option (Z * Z * Z) :=
  match malloc 100 nothing_held segment0 with
  | Ok (p, h, s) => match malloc 40 h s with Ok (q, _, _) => Some (p, ds_end s, q) | Stop _ => None end
  | Stop _ => None
  end.

Lemma two_blocks_run : two_blocks = Some (0x10000018, 0x10000080, 0x10000098).
Proof. vm_compute. reflexivity. Qed.

(** The second allocation, after the first. *)
Lemma user_heap_safe_witness : exists h s p h' s', malloc 100 nothing_held segment0 = Ok (0x10000018, h, s) /\ malloc 40 h s = Ok (p, h', s') /\
  (p = 0 \/ 0x10000018 + 100 <= p \/ p + 40 <= 0x10000018) /\ exists h'', free 0x10000018 h = Ok h''.
Proof.
  pose proof two_blocks_run as Hrun. unfold two_blocks in Hrun. destruct (malloc 100 nothing_held segment0) as [[[p0 h] s]|] eqn:E; [|discriminate Hrun].
  destruct (malloc 40 h s) as [[[q h2] s2]|] eqn:E2; [|discriminate Hrun]. injection Hrun as -> Hend ->.
  assert (Hok : ds_ok segment0) by (split; [exists ∅; exact start64_ok|split; [split; [reflexivity|discriminate]|reflexivity]]).
  assert (Hrtc : rtc user_step (nothing_held, segment0, []) (h, s, [(0x10000018, 100)])) by (eapply rtc_l; [exact (us_malloc 100 nothing_held segment0 [] _ _ _ ltac:(discriminate) eq_refl E)|apply rtc_refl]).
  destruct (user_heap_safe segment0 h s _ Hok Hrtc) as [Hm Hf].
  exists h, s, 0x10000098, h2, s2. split; [reflexivity|]. split; [exact E2|]. split; [|exact (Hf _ _ (or_introl eq_refl))].
  destruct (Hm 40) as (p & h' & s' & E3 & Hp); [discriminate|change (ds_end s) with (brk_current (fst s)); rewrite Hend; reflexivity|]. rewrite E2 in E3. injection E3 as <- _ _.
  destruct Hp as [Hp|(_ & _ & Hp)]; [left; exact Hp|right; exact (List.Forall_inv Hp)].
Defined.

(** A request close to 2^64 wraps around: the program gets a block of 16 bytes, less
    than its header takes. *)
Lemma malloc_wraps : match malloc (2 ^ 64 - 16) nothing_held segment0 with Ok (p, h, _) => p = 0x10000018 /\ bh_size <$> uh_blocks h !! 0x10000000 = Some 16 | Stop _ => False end.
Proof. vm_compute. split; reflexivity. Qed.
