(* ===== verification/SysWait.v ===== *)
(** * The system calls exit, getpid and waitpid (src/kernel/syscall/syscall.c)

    On the state of threads and processes ([tasks]).  [sys_waitpid] gives the CPU away
    inside a loop: a turn of the loop ends with the result or with the switch to another
    thread, after which the thread comes back to the next turn. *)

From S2P Require Import Prelude Interfaces Kfs Vfs Thread ThreadProofs ThreadTheorems Process ProcessProofs ProcessTheorems.

Definition ECHILD : Z := 10.

Inductive wait_result : Type :=
| WaitDone (ret : Z) (stored : option Z)
| WaitBlocked (r : switch).

Section Calls.
Context {V A : Type} `{ObjectHeap A} `{AddressSpaces A}.
Context (code : labels) (kernel_process : Z).
Implicit Types s : tasks V A.

Definition sys_getpid s : outcome Z :=
  let* t := get_thread s (current s) in
  let* p := get_proc s (t_process t) in
  Ok (u64 (p_pid p)).

Definition sys_exit (status : Z) s : outcome (switch * tasks V A) :=
  let* t := get_thread s (current s) in
  let* s := process_exit kernel_process (t_process t) (s32 status) s in
  schedule_after_exit code s.

(** The walk over the children: whether one matches, and the first zombie that does. *)
Fixpoint find_child (fuel : nat) (m : gmap Z process) (pid child : Z) (has_children : bool) : outcome (bool * Z) :=
  if child =? 0 then Ok (has_children, 0)
  else
    match fuel with
    | O => Stop NoFuel
    | S k =>
      let* c := of_opt (m !! child) in
      if (pid =? -1) || (p_pid c =? pid) then
        if bool_decide (p_state c = PROCESS_ZOMBIE) then Ok (true, child)
        else find_child k m pid (p_next_sibling c) true
      else find_child k m pid (p_next_sibling c) has_children
    end.

(** A turn of the loop. *)
Definition wait_turn (proc pid status : Z) s : outcome (wait_result * tasks V A) :=
  let* p := get_proc s proc in
  let* (has_children, found_zombie) := find_child (size (procs s)) (procs s) pid (p_children_head p) false in
  if negb has_children then Ok (WaitDone (u64 (- ECHILD)) None, s)
  else if negb (found_zombie =? 0) then
    let* z := get_proc s found_zombie in
    let zpid := p_pid z in
    let stored := if status =? 0 then None else Some (p_exit_status z) in
    let* s := process_destroy kernel_process found_zombie s in
    Ok (WaitDone (u64 zpid) stored, s)
  else
    let* (r, s) := thread_block_on_process code proc s in
    Ok (WaitBlocked r, s).

(** [writable] is the result of [user_range_writable(status, sizeof(int))]. *)
Definition sys_waitpid (pid status : Z) (writable : bool) s : outcome (wait_result * tasks V A) :=
  let* t := get_thread s (current s) in
  if negb (pid =? -1) && (pid <=? 0) then Ok (WaitDone (u64 (- EINVAL)) None, s)
  else if negb (status =? 0) && negb writable then Ok (WaitDone (u64 (- EFAULT)) None, s)
  else wait_turn (t_process t) pid status s.

End Calls.

(** ** The children *)
Definition matches (m : gmap Z process) (pid c : Z) : bool :=
  match m !! c with Some x => (pid =? -1) || (p_pid x =? pid) | None => false end.

Definition is_zombie (m : gmap Z process) (c : Z) : bool :=
  match m !! c with Some x => bool_decide (p_state x = PROCESS_ZOMBIE) | None => false end.

(** The first matching zombie of a list. *)
Fixpoint first_zombie (m : gmap Z process) (pid : Z) (l : list Z) : option Z :=
  match l with
  | [] => None
  | c :: r => if matches m pid c && is_zombie m c then Some c else first_zombie m pid r
  end.

(** The walk tells whether a child matches and finds the first zombie that does. *)
Lemma find_child_spec m pid l : forall fuel q b, siblings m q l -> (length l <= fuel)%nat ->
  exists h, find_child fuel m pid q b = Ok (h, default 0 (first_zombie m pid l)) /\
    h = (b || existsb (matches m pid) l).
Proof.
  induction l as [|c l IH]; intros fuel q b Hs Hl; cbn [siblings] in Hs.
  - subst q. exists b. split; [now destruct fuel|now rewrite orb_false_r].
  - destruct Hs as (-> & Hc & x & Ex & Hs). destruct fuel as [|fuel]; [cbn in Hl; lia|]. cbn [find_child first_zombie existsb].
    rewrite (proj2 (Z.eqb_neq _ _) Hc). assert (Em : matches m pid c = ((pid =? -1) || (p_pid x =? pid))) by (unfold matches; now rewrite Ex).
    assert (Ez : is_zombie m c = bool_decide (p_state x = PROCESS_ZOMBIE)) by (unfold is_zombie; now rewrite Ex). rewrite Em, Ez, Ex. cbn [of_opt obind].
    destruct ((pid =? -1) || (p_pid x =? pid)); cbn [andb orb].
    + destruct (bool_decide (p_state x = PROCESS_ZOMBIE)); [exists true; split; [reflexivity|now rewrite orb_true_r]|].
      destruct (IH fuel (p_next_sibling x) true Hs ltac:(cbn in Hl; lia)) as (h & -> & ->). eexists. split; [reflexivity|now rewrite orb_true_r].
    + apply IH; [exact Hs|cbn in Hl; lia].
Qed.

Lemma first_zombie_Some m pid l c : first_zombie m pid l = Some c -> c ∈ l /\ matches m pid c = true /\ is_zombie m c = true.
Proof.
  induction l as [|d l IH]; cbn; [discriminate|]. destruct (matches m pid d && is_zombie m d) eqn:E.
  - intros [= <-]. apply andb_true_iff in E. split; [left|exact E].
  - intros Hc. destruct (IH Hc) as [Hin Hm]. split; [now right|exact Hm].
Qed.

Lemma first_zombie_unique m pid l c : c ∈ l -> matches m pid c = true -> is_zombie m c = true ->
  (forall d, d ∈ l -> matches m pid d = true -> is_zombie m d = true -> d = c) -> first_zombie m pid l = Some c.
Proof.
  induction l as [|d l IH]; intros Hin Hm Hz Hu; [inversion Hin|]. cbn. destruct (matches m pid d && is_zombie m d) eqn:E.
  - apply andb_true_iff in E as [E1 E2]. f_equal. apply Hu; [left|exact E1|exact E2].
  - apply IH; [|exact Hm|exact Hz|intros e He; apply Hu; now right]. apply elem_of_cons in Hin as [->|Hin]; [now rewrite Hm, Hz in E|exact Hin].
Qed.

(** ** A turn of the loop *)
Section Wait.
Context {V A : Type} `{ObjectHeapLaws A} `{!AddressSpaces A} `{!AddressSpaceLaws A}.
Context (code : labels) (kernel_process : Z).
Implicit Types s : tasks V A.

(** A zombie has no thread that could still run. *)
Definition zombies_dead s : Prop :=
  forall c z p t, procs s !! c = Some z -> p_state z = PROCESS_ZOMBIE -> threads s !! p = Some t -> t_process t = c -> t_state t = THREAD_DEAD.

(** Blocking: the process names the thread as its waiter, the thread waits, and the
    scheduler is called. *)
Definition waiting s proc s1 : Prop :=
  (exists x, procs s !! proc = Some x /\ procs s1 = <[proc := set_waiter (current s) x]> (procs s)) /\
  (exists t, threads s !! current s = Some t /\ threads s1 = <[current s := set_state THREAD_WAITING_CHILD t]> (threads s)) /\
  s1 = with_threads (with_procs s (procs s1)) (threads s1).

Lemma block_spec s l proc x : tasks_ok s l -> in_scheduler s = false -> procs s !! proc = Some x -> proc <> 0 ->
  state_of s (current s) = Some THREAD_RUNNING ->
  exists s1 r s2, thread_block_on_process code proc s = Ok (r, s2) /\ waiting s proc s1 /\ tasks_ok s1 l /\ schedule code s1 = Ok (r, s2).
Proof.
  intros O Hi Ex Hp Hr. unfold thread_block_on_process. rewrite (proj2 (Z.eqb_neq _ _) Hp).
  destruct (set_waiter_ok s l proc (current s) O ltac:(eauto)) as (s0 & E0 & O0 & Es0). rewrite E0. cbn [obind].
  assert (Hc0 : current s0 = current s) by now rewrite Es0. assert (Ht0 : threads s0 = threads s) by now rewrite Es0.
  destruct (give_way s0 l THREAD_WAITING_CHILD O0) as (s1 & E1 & O1 & Es1 & _); [unfold state_of in *; now rewrite Hc0, Ht0|discriminate|]. rewrite E1. cbn [obind].
  assert (Hi1 : in_scheduler s1 = false) by (rewrite Es1; cbn; now rewrite Es0).
  assert (Hs : exists r s2, schedule code s1 = Ok (r, s2)) by (pose proof (schedule_spec code s1 l O1 Hi1) as HS; destruct (choice s1 l); destruct HS as (s2 & E & _) || destruct HS as (s2 & E); eauto).
  destruct Hs as (r & s2 & Es). exists s1, r, s2. split; [exact Es|]. split; [|split; [exact O1|exact Es]].
  unfold upd_proc, get_proc in E0. rewrite Ex in E0. cbn [of_opt obind] in E0. injection E0 as E0. unfold upd_thread, get_thread in E1. rewrite Hc0, Ht0 in E1.
  unfold state_of in Hr. destruct (threads s !! current s) as [t|] eqn:Et; [|discriminate]. cbn [of_opt obind] in E1. injection E1 as E1.
  split; [exists x; split; [exact Ex|]; rewrite <- E1, <- E0; reflexivity|]. split; [exists t; split; [exact Et|]; rewrite <- E1; cbn; now rewrite Ht0|].
  rewrite <- E1, <- E0. reflexivity.
Qed.

(** ** Theorems *)

(** [sys_exit] makes the process of the current thread a zombie and never comes back
    to the thread. *)
Lemma exit_never_returns s l kids t status :
  world_ok kernel_process s l kids -> in_scheduler s = false -> threads s !! current s = Some t -> t_process t <> kernel_process ->
  is_Some (procs s !! t_process t) ->
  exists r s1 s2, sys_exit code kernel_process status s = Ok (r, s2) /\ r <> Returned /\ process_exit kernel_process (t_process t) (s32 status) s = Ok s1 /\
    is_zombie (procs s1) (t_process t) = true /\ schedule code s1 = Ok (r, s2).
Proof.
  intros W Hi Et Hk [y Ey]. destruct (exit_spec kernel_process s l kids _ y (s32 status) W Ey Hk) as (s1 & x & _ & E & [W1 (z & Ez & Hz & _) _ Ht Es]).
  assert (Hi1 : in_scheduler s1 = false) by now rewrite Es. assert (Hc1 : current s1 = current s) by now rewrite Es.
  pose proof (schedule_op code s1 s1 l (fun _ => false) (w_tasks _ _ _ _ W1) Hi1 eq_refl eq_refl ltac:(auto) ltac:(auto)) as HS.
  assert (Hdead : state_of s1 (current s1) = Some THREAD_DEAD) by (unfold state_of; rewrite Hc1, (Ht _ _ Et); cbn; unfold exit_state; now rewrite Z.eqb_refl).
  assert (Hn : current s1 <> 0) by exact (ok_nonnull s1 l _ (w_tasks _ _ _ _ W1) (ok_current _ _ (w_tasks _ _ _ _ W1))).
  destruct (schedule code s1) as [[r s2]|] eqn:Esch; [|done]. exists r, s1, s2. unfold sys_exit, get_thread. rewrite Et. cbn [of_opt obind]. rewrite E. cbn [obind].
  assert (Hr : r <> Returned) by (intros ->; destruct HS as (_ & _ & HS); exact (HS eq_refl Hdead)).
  unfold schedule_after_exit. rewrite (proj2 (Z.eqb_neq _ _) Hn). cbn [negb kassert obind]. rewrite Esch. cbn [obind].
  split; [now destruct r|]. split; [exact Hr|]. split; [reflexivity|]. split; [unfold is_zombie; rewrite Ez; now apply bool_decide_eq_true|reflexivity].
Qed.

(** The turn finds the children of the process in its list. *)
Lemma turn_spec s l kids proc x pid status : world_ok kernel_process s l kids -> zombies_dead s -> in_scheduler s = false ->
  procs s !! proc = Some x -> state_of s (current s) = Some THREAD_RUNNING ->
  if existsb (matches (procs s) pid) (kids proc) then
    match first_zombie (procs s) pid (kids proc) with
    | Some c => exists z s', procs s !! c = Some z /\ destroyed kernel_process s s' l kids c z /\
        wait_turn code kernel_process proc pid status s = Ok (WaitDone (u64 (p_pid z)) (if status =? 0 then None else Some (p_exit_status z)), s')
    | None => exists s1 r s2, waiting s proc s1 /\ schedule code s1 = Ok (r, s2) /\ wait_turn code kernel_process proc pid status s = Ok (WaitBlocked r, s2)
    end
  else wait_turn code kernel_process proc pid status s = Ok (WaitDone (u64 (- ECHILD)) None, s).
Proof.
  intros W Hd Hi Ex Hr. pose proof (w_tree _ _ _ _ W) as T. pose proof (tree_nonzero _ _ _ _ _ T Ex) as Hp0.
  pose proof (tr_list _ _ _ T _ _ Ex) as Hs.
  destruct (find_child_spec (procs s) pid (kids proc) (size (procs s)) (p_children_head x) false Hs) as (h & Ef0 & ->);
    [exact (siblings_length _ _ _ (tr_nodup _ _ _ T proc) Hs)|]. cbn [orb] in Ef0.
  assert (Ew : wait_turn code kernel_process proc pid status s =
    if negb (existsb (matches (procs s) pid) (kids proc)) then Ok (WaitDone (u64 (- ECHILD)) None, s)
    else if negb (default 0 (first_zombie (procs s) pid (kids proc)) =? 0) then
      let* z := get_proc s (default 0 (first_zombie (procs s) pid (kids proc))) in
      let* s := process_destroy kernel_process (default 0 (first_zombie (procs s) pid (kids proc))) s in
      Ok (WaitDone (u64 (p_pid z)) (if status =? 0 then None else Some (p_exit_status z)), s)
    else let* (r, s) := thread_block_on_process code proc s in Ok (WaitBlocked r, s))
    by (unfold wait_turn; unfold get_proc at 1; rewrite Ex; cbn [of_opt obind]; rewrite Ef0; reflexivity).
  rewrite Ew. clear Ew.
  destruct (existsb (matches (procs s) pid) (kids proc)); cbn [negb]; [|reflexivity].
  destruct (first_zombie (procs s) pid (kids proc)) as [c|] eqn:Ef.
  - destruct (first_zombie_Some _ _ _ _ Ef) as (Hin & _ & Hz). destruct (tr_parent _ _ _ T _ _ Hin) as (_ & z & Ez & _ & Hk).
    unfold is_zombie in Hz. rewrite Ez in Hz. apply bool_decide_eq_true in Hz.
    destruct (destroy_spec kernel_process s l kids c z W Ez Hk Hz) as (s' & E & D); [intros p t; exact (Hd c z p t Ez Hz)|].
    exists z, s'. split; [exact Ez|]. split; [exact D|]. change (default 0 (Some c)) with c. rewrite (proj2 (Z.eqb_neq _ _) (tree_nonzero _ _ _ _ _ T Ez)). cbn [negb].
    unfold get_proc. rewrite Ez. cbn [of_opt obind]. now rewrite E.
  - destruct (block_spec s l proc x (w_tasks _ _ _ _ W) Hi Ex Hp0 Hr) as (s1 & r & s2 & E & Hw & _ & Hs2). exists s1, r, s2. split; [exact Hw|]. split; [exact Hs2|].
    change (default 0 (@None Z)) with 0. cbn [Z.eqb negb]. now rewrite E.
Qed.

(** C24: [waitpid] rejects a bad process number or address, reports ECHILD exactly when
    the process has no child that matches, hands out the number and the status of the
    first matching zombie and destroys it, and otherwise blocks: the process names the
    thread as its waiter, the thread waits and another one is scheduled. *)
Theorem sys_waitpid_correct s l kids t x pid status writable :
  world_ok kernel_process s l kids -> zombies_dead s -> in_scheduler s = false -> threads s !! current s = Some t -> t_state t = THREAD_RUNNING ->
  procs s !! t_process t = Some x ->
  let call := sys_waitpid code kernel_process pid status writable s in
  if negb (pid =? -1) && (pid <=? 0) then call = Ok (WaitDone (u64 (- EINVAL)) None, s)
  else if negb (status =? 0) && negb writable then call = Ok (WaitDone (u64 (- EFAULT)) None, s)
  else if existsb (matches (procs s) pid) (kids (t_process t)) then
    match first_zombie (procs s) pid (kids (t_process t)) with
    | Some c => exists z s', procs s !! c = Some z /\ destroyed kernel_process s s' l kids c z /\
        call = Ok (WaitDone (u64 (p_pid z)) (if status =? 0 then None else Some (p_exit_status z)), s')
    | None => exists s1 r s2, waiting s (t_process t) s1 /\ schedule code s1 = Ok (r, s2) /\ call = Ok (WaitBlocked r, s2)
    end
  else call = Ok (WaitDone (u64 (- ECHILD)) None, s).
Proof.
  intros W Hd Hi Et Hr Ex call. unfold call, sys_waitpid, get_thread. rewrite Et. cbn [of_opt obind].
  destruct (negb (pid =? -1) && (pid <=? 0)); [reflexivity|]. destruct (negb (status =? 0) && negb writable); [reflexivity|].
  apply (turn_spec s l kids (t_process t) x pid status); auto. unfold state_of. rewrite Et. cbn. now rewrite Hr.
Qed.

(** C23: the status of a process that exits reaches its parent: the exit makes the
    thread that waits for the parent ready, and whenever the parent next asks for this
    process it gets its number and its status, and the process is gone. *)
Theorem exit_wait_handshake s l kids c y status :
  world_ok kernel_process s l kids -> procs s !! c = Some y -> c <> kernel_process -> 0 < p_pid y ->
  exists s' x, procs s !! p_parent y = Some x /\ process_exit kernel_process c status s = Ok s' /\
    (forall w, threads s !! p_waiter x = Some w -> t_state w = THREAD_WAITING_CHILD -> p_waiter x <> 0 -> t_process w <> c -> state_of s' (p_waiter x) = Some THREAD_READY) /\
    forall s2 l2 t ptr, world_ok kernel_process s2 l2 (adopted kids kernel_process c) -> procs s2 = procs s' -> zombies_dead s2 -> in_scheduler s2 = false ->
      threads s2 !! current s2 = Some t -> t_state t = THREAD_RUNNING -> t_process t = p_parent y ->
      (forall d z, procs s' !! d = Some z -> p_parent z = p_parent y -> p_pid z = p_pid y -> d = c) ->
      exists s3, sys_waitpid code kernel_process (p_pid y) ptr true s2 = Ok (WaitDone (u64 (p_pid y)) (if ptr =? 0 then None else Some status), s3) /\
        procs s3 !! c = None /\ ~ oh_held (heap s3) c.
Proof.
  intros W Ey Hk Hpid. destruct (exit_spec kernel_process s l kids c y status W Ey Hk) as (s' & x & Ex & E & [_ (z & Ez & Hz & Hst & Hpar & Hzp) _ Ht _]).
  exists s', x. split; [exact Ex|]. split; [exact E|]. split.
  { intros w Ew Hw Hw0 Hne. unfold state_of. rewrite (Ht _ _ Ew). cbn. unfold exit_state. rewrite (proj2 (Z.eqb_neq _ _) Hne), Z.eqb_refl, Hw. reflexivity. }
  intros s2 l2 t ptr W2 Ep Hd Hi Et Hr Hproc Hu. pose proof (w_tree _ _ _ _ W2) as T2. rewrite <- Ep in Ez.
  pose proof (tr_child _ _ _ T2 c z Ez Hk) as Hin. rewrite Hpar in Hin. destruct (tr_parent _ _ _ T2 _ _ Hin) as [[x2 Ex2] _].
  assert (Hm : matches (procs s2) (p_pid y) c = true) by (unfold matches; rewrite Ez, Hzp, Z.eqb_refl; apply orb_true_r).
  assert (Hzb : is_zombie (procs s2) c = true) by (unfold is_zombie; rewrite Ez; now apply bool_decide_eq_true).
  assert (Ef : first_zombie (procs s2) (p_pid y) (adopted kids kernel_process c (p_parent y)) = Some c).
  { apply first_zombie_unique; auto. intros d Hd' Hmd _. destruct (tr_parent _ _ _ T2 _ _ Hd') as (_ & u & Eu & Hup & _). unfold matches in Hmd. rewrite Eu in Hmd.
    apply (Hu d u); [now rewrite <- Ep|exact Hup|]. apply orb_true_iff in Hmd as [Hmd%Z.eqb_eq|Hmd%Z.eqb_eq]; [lia|exact Hmd]. }
  assert (Eex : existsb (matches (procs s2) (p_pid y)) (adopted kids kernel_process c (p_parent y)) = true) by (apply existsb_exists; exists c; split; [now apply list_elem_of_In|exact Hm]).
  pose proof (turn_spec s2 l2 _ (p_parent y) x2 (p_pid y) ptr W2 Hd Hi Ex2 ltac:(unfold state_of; rewrite Et; cbn; now rewrite Hr)) as TS.
  rewrite Eex, Ef in TS. destruct TS as (z' & s3 & Ez' & De & Et3). rewrite Ez in Ez'. injection Ez' as <-. exists s3.
  unfold sys_waitpid, get_thread. rewrite Et. cbn [of_opt obind]. destruct (Z.eqb_spec (p_pid y) (-1)); [lia|]. destruct (Z.leb_spec (p_pid y) 0); [lia|].
  rewrite Hproc. cbn [negb andb]. rewrite andb_false_r, Et3, Hzp, Hst. split; [reflexivity|]. destruct (de_gone _ _ _ _ _ _ _ De) as (G1 & G2 & _). split; [exact G1|exact G2].
Qed.

End Wait.

(** ** A concrete family: the kernel process and one child *)
Lemma kernel_threads (s : tasks unit proc_heap) :
  bool_decide (map_Forall (fun _ t => t_process t = kproc0) (threads s)) && negb (is_zombie (procs s) kproc0) = true -> zombies_dead s.
Proof.
  intros [Hb Hz]%andb_true_iff c z p t Ez Hst Et Hp. exfalso. pose proof (bool_decide_eq_true_1 _ Hb p t Et) as Hk. cbn in Hk. rewrite Hk in Hp. subst c.
  unfold is_zombie in Hz. rewrite Ez, bool_decide_eq_true_2 in Hz by exact Hst. discriminate.
Qed.

Lemma zombie1_dead : zombies_dead zombie1.
Proof. apply kernel_threads. vm_compute. reflexivity. Qed.

Lemma zombie1_current : exists t x, threads zombie1 !! current zombie1 = Some t /\ t_state t = THREAD_RUNNING /\ t_process t = kproc0 /\ procs zombie1 !! kproc0 = Some x.
Proof. do 2 eexists. split; [vm_compute; reflexivity|]. split; [reflexivity|]. split; [reflexivity|]. vm_compute. reflexivity. Qed.

Lemma sys_waitpid_correct_witness :
  exists z s', procs zombie1 !! child1 = Some z /\ sys_waitpid code0 kproc0 (-1) 4096 true zombie1 = Ok (WaitDone (u64 (p_pid z)) (Some (p_exit_status z)), s').
Proof.
  destruct zombie1_world as [l W]. destruct zombie1_current as (t & x & Et & Hr & Hp & Ex). rewrite <- Hp in Ex.
  pose proof (sys_waitpid_correct code0 kproc0 zombie1 l _ t x (-1) 4096 true W zombie1_dead ltac:(vm_compute; reflexivity) Et Hr Ex) as Hw.
  change (negb (-1 =? -1) && (-1 <=? 0)) with false in Hw. change (negb (4096 =? 0) && negb true) with false in Hw. rewrite Hp in Hw.
  assert (Eb : existsb (matches (procs zombie1) (-1)) (adopted kids1 kproc0 child1 kproc0) = true) by (vm_compute; reflexivity).
  assert (Ef : first_zombie (procs zombie1) (-1) (adopted kids1 kproc0 child1 kproc0) = Some child1) by (vm_compute; reflexivity).
  cbv zeta in Hw. rewrite Eb, Ef in Hw. destruct Hw as (z & s' & Ez & _ & E). exists z, s'. split; [exact Ez|exact E].
Defined.

Lemma exit_wait_handshake_witness : exists y s3, procs parent1 !! child1 = Some y /\
  sys_waitpid code0 kproc0 (p_pid y) 4096 true zombie1 = Ok (WaitDone (u64 (p_pid y)) (Some 3), s3) /\ procs s3 !! child1 = None.
Proof.
  destruct parent1_world as [l W]. assert (Ey : exists y, procs parent1 !! child1 = Some y /\ p_parent y = kproc0 /\ p_pid y = 1) by (eexists; split; [vm_compute; reflexivity|split; reflexivity]).
  destruct Ey as (y & Ey & Hpar & Hpid).
  destruct (exit_wait_handshake code0 kproc0 parent1 l kids1 child1 y 3 W Ey ltac:(discriminate) ltac:(rewrite Hpid; reflexivity)) as (s' & x & _ & E & _ & Hs).
  assert (Es : zombie1 = s') by (unfold zombie1; rewrite E; reflexivity).
  destruct zombie1_world as [l2 W2]. destruct zombie1_current as (t & x2 & Et & Hr & Hp & _).
  destruct (Hs zombie1 l2 t 4096 W2 ltac:(now rewrite Es) zombie1_dead ltac:(vm_compute; reflexivity) Et Hr ltac:(congruence)) as (s3 & E3 & Hg & _).
  - rewrite <- Es, Hpar, Hpid. assert (Hb : bool_decide (map_Forall (fun d z => p_pid z <> 1 \/ d = child1) (procs zombie1)) = true) by (vm_compute; reflexivity).
    intros d z Ez _ Hz. destruct (bool_decide_eq_true_1 _ Hb d z Ez) as [Hn|Hd]; [exfalso; exact (Hn Hz)|exact Hd].
  - exists y, s3. split; [exact Ey|]. split; [exact E3|exact Hg].
Defined.
