(* ===== verification/SysFile.v ===== *)
(** * The system calls on files (src/kernel/syscall/syscall.c)

    open, read, write, close, getdents, mkdir, unlink and rmdir, on the descriptor
    table of the process that calls, the file objects in the kernel heap, the file
    systems below the switch ([VnodeSystem]) and user memory ([UserMemory]).  Results
    are the 64-bit values the calls return. *)

From S2P Require Import Prelude Interfaces CString Kfs Vfs Process Elf.

Definition SUPPORTED_OPEN_FLAGS : Z :=
  Z.lor O_RDONLY (Z.lor O_WRONLY (Z.lor O_RDWR (Z.lor O_CREAT (Z.lor O_EXCL (Z.lor O_TRUNC O_APPEND))))).

(** [fd_table] holds addresses of [struct file]s, [objects] what is at them. *)
Record fstate (V W M : Type) : Type := mkFs { fd_table : list Z; objects : gmap Z (file V); world : W; user : M }.
Arguments mkFs {V W M}.
Arguments fd_table {V W M}.
Arguments objects {V W M}.
Arguments world {V W M}.
Arguments user {V W M}.

(** ** User memory *)
Section UserCopy.
Context {M : Type} `{UserMemory M}.

Fixpoint copy_in (n : nat) (addr : Z) (m : M) : outcome (list Z) :=
  match n with
  | O => Ok []
  | S k => let* c := user_load addr m in let* r := copy_in k (addr +64 1) m in Ok (c :: r)
  end.

Fixpoint copy_out (buf : list Z) (addr : Z) (m : M) : outcome M :=
  match buf with
  | [] => Ok m
  | c :: r => let* m := user_store addr c m in copy_out r (addr +64 1) m
  end.

(** The loop that copies a path: the final index and the bytes copied, or [None] when
    it meets a byte that cannot be read. *)
Fixpoint copy_path_loop (n : nat) (path i : Z) (kpath : list Z) (m : M) : outcome (option (Z * list Z)) :=
  match n with
  | O => Ok (Some (i, kpath))
  | S k =>
    if negb (user_readable (path +64 i) 1 m) then Ok None
    else
      let* c := user_load (path +64 i) m in
      let kpath := kpath ++ [c] in
      if c =? 0 then Ok (Some (i, kpath)) else copy_path_loop k path (i + 1) kpath m
  end.

Definition copy_path (path : Z) (m : M) : outcome (Z + list Z) :=
  if negb (user_readable path 1 m) then Ok (inl (- EFAULT))
  else
    let* r := copy_path_loop 255 path 0 [] m in
    match r with
    | None => Ok (inl (- EFAULT))
    | Some (i, kpath) =>
      let* oversized := (if i =? 255 then let* c := load kpath 254 in Ok (negb (c =? 0)) else Ok false) in
      if (oversized : bool) then Ok (inl (- EINVAL)) else Ok (inr (take (Z.to_nat i) kpath ++ [0]))
    end.

End UserCopy.

(** The first free descriptor from [j] on. *)
Fixpoint free_fd (fds : list Z) (j : Z) : option Z :=
  match fds with
  | [] => None
  | f :: r => if f =? 0 then Some j else free_fd r (j + 1)
  end.

(** ** The calls *)
Section Calls.
Context {V W M : Type} `{VnodeSystem V W} `{KernelAlloc W} `{UserMemory M}.
Implicit Types s : fstate V W M.

(** [fd >= MAX_FDS || !proc->fd_table[fd]] *)
Definition descriptor (fd : Z) s : outcome (option Z) :=
  if MAX_FDS <=? fd then Ok None
  else let* p := of_opt (znth (fd_table s) fd) in Ok (if p =? 0 then None else Some p).

Definition sys_open (path flags : Z) s : outcome (Z * fstate V W M) :=
  if negb (Z.land flags (u64 (Z.lnot SUPPORTED_OPEN_FLAGS)) =? 0) then Ok (u64 (- EINVAL), s)
  else
  let* r := copy_path path (user s) in
  match r with
  | inl e => Ok (u64 e, s)
  | inr kpath =>
    match free_fd (drop 3 (fd_table s)) 3 with
    | None => Ok (u64 (- ENOMEM), s)
    | Some fd =>
      let* (r, w) := vfs_open (Some kpath) flags (world s) in
      match r with
      | inl e =>
        if e <? 0 then Ok (u64 e, mkFs (fd_table s) (objects s) w (user s))
        else Ok (fd, mkFs (zset (fd_table s) fd 0) (objects s) w (user s))
      | inr (p, f) => Ok (fd, mkFs (zset (fd_table s) fd p) (<[p := f]> (objects s)) w (user s))
      end
    end
  end.

Definition set_offset (offset : Z) (f : file V) : file V := mkFile (f_vnode f) offset (f_flags f).

Definition sys_write (fd buf len : Z) s : outcome (Z * fstate V W M) :=
  let* d := descriptor fd s in
  match d with
  | None => Ok (u64 (- EBADF), s)
  | Some p =>
    if len =? 0 then Ok (0, s)
    else
    let len := if 4096 <? len then 4096 else len in
    if negb (user_readable buf len (user s)) then Ok (u64 (- EFAULT), s)
    else
    let '(kbuf, w) := ka_alloc len (world s) in
    if kbuf =? 0 then Ok (u64 (- ENOMEM), mkFs (fd_table s) (objects s) w (user s))
    else
      let* data := copy_in (Z.to_nat len) buf (user s) in
      let* f := of_opt (objects s !! p) in
      let* (r, w) := vfs_write (Some f) data w in
      let w := ka_free kbuf w in
      Ok (if wr_err r <? 0 then u64 (wr_err r) else wr_written r,
          mkFs (fd_table s) (<[p := set_offset (wr_offset r) f]> (objects s)) w (user s))
  end.

Definition sys_read (fd buf count : Z) s : outcome (Z * fstate V W M) :=
  let* d := descriptor fd s in
  match d with
  | None => Ok (u64 (- EBADF), s)
  | Some p =>
    if count =? 0 then Ok (0, s)
    else
    let count := if 4096 <? count then 4096 else count in
    if negb (user_writable buf count (user s)) then Ok (u64 (- EFAULT), s)
    else
    let '(kbuf, w) := ka_alloc count (world s) in
    if kbuf =? 0 then Ok (u64 (- ENOMEM), mkFs (fd_table s) (objects s) w (user s))
    else
      let* f := of_opt (objects s !! p) in
      let* (r, w) := vfs_read (Some f) count w in
      let* m := (if 0 <=? rr_err r then copy_out (rr_data r) buf (user s) else Ok (user s)) in
      let w := ka_free kbuf w in
      Ok (if rr_err r <? 0 then u64 (rr_err r) else zlen (rr_data r),
          mkFs (fd_table s) (<[p := set_offset (rr_offset r) f]> (objects s)) w m)
  end.

Definition sys_close (fd : Z) s : outcome (Z * fstate V W M) :=
  let* d := descriptor fd s in
  match d with
  | None => Ok (u64 (- EBADF), s)
  | Some p =>
    let* f := of_opt (objects s !! p) in
    let* (r, w) := vfs_close p (Some f) (world s) in
    Ok (match r with inl e => u64 e | inr _ => 0 end, mkFs (zset (fd_table s) fd 0) (delete p (objects s)) w (user s))
  end.

(** The bytes of a [struct dirent] written over [kbuf]. *)
Definition put_dirent (d : dirent) (kbuf : list Z) : list Z :=
  blit kbuf 0 (le64 (d_ino d) ++ le64 (d_type d) ++ le64 (d_reclen d) ++ d_name d).

(** [heap] is what the memory from [kmalloc] holds before. *)
Definition sys_getdents (fd dirp count : Z) (heap : list Z) s : outcome (Z * fstate V W M) :=
  let* d := descriptor fd s in
  match d with
  | None => Ok (u64 (- EBADF), s)
  | Some p =>
    let count := if 4096 <? count then 4096 else count in
    if negb (user_writable dirp count (user s)) then Ok (u64 (- EFAULT), s)
    else
    let '(kbuf, w) := ka_alloc count (world s) in
    if kbuf =? 0 then Ok (u64 (- ENOMEM), mkFs (fd_table s) (objects s) w (user s))
    else
      let* f := of_opt (objects s !! p) in
      let* (r, w) := vfs_getdents (Some f) count count w in
      match r with
      | inl e => Ok (u64 e, mkFs (fd_table s) (objects s) (ka_free kbuf w) (user s))
      | inr (err, out, offset) =>
        let bytes := match out with Some d => put_dirent d heap | None => heap end in
        let* m := (if 0 <? err then copy_out (take (Z.to_nat err) bytes) dirp (user s) else Ok (user s)) in
        Ok (u64 err, mkFs (fd_table s) (<[p := set_offset offset f]> (objects s)) (ka_free kbuf w) m)
      end
  end.

(** The three calls that take only a path. *)
Definition path_call (call : option (list Z) -> W -> outcome ((Z + unit) * W)) (path : Z) s : outcome (Z * fstate V W M) :=
  let* r := copy_path path (user s) in
  match r with
  | inl e => Ok (u64 e, s)
  | inr kpath =>
    let* (r, w) := call (Some kpath) (world s) in
    Ok (match r with inl e => if e <? 0 then u64 e else 0 | inr _ => 0 end, mkFs (fd_table s) (objects s) w (user s))
  end.

Definition sys_mkdir (path : Z) s : outcome (Z * fstate V W M) := path_call vfs_mkdir path s.
Definition sys_unlink (path : Z) s : outcome (Z * fstate V W M) := path_call vfs_unlink path s.
Definition sys_rmdir (path : Z) s : outcome (Z * fstate V W M) := path_call vfs_rmdir path s.

(** ** Sequences of calls *)
Inductive file_call : Type :=
| COpen (path flags : Z)
| CRead (fd buf count : Z)
| CWrite (fd buf len : Z)
| CClose (fd : Z)
| CGetdents (fd dirp count : Z) (heap : list Z)
| CMkdir (path : Z)
| CUnlink (path : Z)
| CRmdir (path : Z).

Definition run_call (c : file_call) s : outcome (Z * fstate V W M) :=
  match c with
  | COpen path flags => sys_open path flags s
  | CRead fd buf count => sys_read fd buf count s
  | CWrite fd buf len => sys_write fd buf len s
  | CClose fd => sys_close fd s
  | CGetdents fd dirp count heap => sys_getdents fd dirp count heap s
  | CMkdir path => sys_mkdir path s
  | CUnlink path => sys_unlink path s
  | CRmdir path => sys_rmdir path s
  end.

End Calls.
