(* ===== verification/SysFileProofs.v ===== *)
(** * Proofs about the system calls on files

    Copies from and to user memory, the copy of a path, and the descriptor table. *)

From S2P Require Import Prelude Interfaces CString Kfs Vfs Process ElfProofs SysFile.

(** ** User memory *)
Section UserCopy.
Context {M : Type} `{UserMemoryLaws M}.
Implicit Types m : M.

(** The bytes [l] are at [addr]. *)
Definition bytes_at m (addr : Z) (l : list Z) : Prop := forall i c, znth l i = Some c -> user_load (addr + i) m = Ok c.

Lemma znth_cons {X} (x : X) l i : 0 < i -> znth (x :: l) i = znth l (i - 1).
Proof.
  intros Hi. replace i with (Z.of_nat (S (Z.to_nat (i - 1)))) at 1 by lia. rewrite znth_nat. transitivity (l !! Z.to_nat (i - 1)); [reflexivity|].
  rewrite <- znth_nat. f_equal. lia.
Qed.

Lemma zlen_cons {X} (x : X) l : zlen (x :: l) = zlen l + 1.
Proof. unfold zlen. cbn [length]. lia. Qed.

Lemma bytes_at_cons m addr c l : user_load addr m = Ok c -> bytes_at m (addr + 1) l -> bytes_at m addr (c :: l).
Proof.
  intros Hc Hl i x Hi. pose proof (znth_Some _ _ _ Hi). destruct (Z.eq_dec i 0) as [->|Hne].
  - injection Hi as <-. now rewrite Z.add_0_r.
  - rewrite znth_cons in Hi by lia. rewrite <- (Hl _ _ Hi). f_equal. lia.
Qed.

Lemma copy_in_ok m n : forall addr, um_ok m -> 0 <= addr -> addr + Z.of_nat n <= 2 ^ 47 ->
  (forall i, 0 <= i < Z.of_nat n -> user_readable (addr + i) 1 m = true) ->
  exists l, copy_in n addr m = Ok l /\ zlen l = Z.of_nat n /\ Forall (fun c => 0 <= c < 2 ^ 8) l /\ bytes_at m addr l.
Proof.
  induction n as [|n IH]; intros addr Hm Ha Hl Hr; cbn [copy_in].
  { exists []. repeat split; [constructor|]. intros i c Hi. apply znth_Some in Hi. change (zlen (@nil Z)) with 0 in Hi. lia. }
  pose proof (Hr 0 ltac:(lia)) as H0'. rewrite Z.add_0_r in H0'. destruct (um_load addr m Hm ltac:(lia) H0') as (c & Ec & Hc). rewrite Ec. cbn [obind].
  rewrite u64_id by lia. destruct (IH (addr + 1) Hm) as (l & -> & Hz & Hb & Hat); [lia|lia|intros i Hi; rewrite <- Z.add_assoc; apply Hr; lia|]. cbn [obind].
  exists (c :: l). split; [reflexivity|]. split; [rewrite zlen_cons; lia|]. split; [now constructor|]. now apply bytes_at_cons.
Qed.

(** Memory [m'] is [m] with [l] at [addr]. *)
Record stored m m' (addr : Z) (l : list Z) : Prop := {
  sd_ok : um_ok m';
  sd_bytes : bytes_at m' addr l;
  sd_others a : 0 <= a < 2 ^ 47 -> ~ (addr <= a < addr + zlen l) -> user_load a m' = user_load a m;
  sd_readable a n : user_readable a n m' = user_readable a n m;
  sd_writable a n : user_writable a n m' = user_writable a n m }.

Lemma copy_out_ok l : forall addr m, um_ok m -> 0 <= addr -> addr + zlen l <= 2 ^ 47 -> Forall (fun c => 0 <= c < 2 ^ 8) l ->
  (forall i, 0 <= i < zlen l -> user_writable (addr + i) 1 m = true) -> exists m', copy_out l addr m = Ok m' /\ stored m m' addr l.
Proof.
  induction l as [|c l IH]; intros addr m Hm Ha Hl Hb Hw; cbn [copy_out].
  { exists m. split; [reflexivity|]. constructor; auto. intros i x Hi. apply znth_Some in Hi. change (zlen (@nil Z)) with 0 in Hi. lia. }
  rewrite zlen_cons in *. pose proof (zlen_nonneg l). apply Forall_cons_iff in Hb as [Hc Hb]. pose proof (Hw 0 ltac:(lia)) as H0'. rewrite Z.add_0_r in H0'.
  destruct (um_store addr c m Hm ltac:(lia) H0' Hc) as (m1 & -> & Hm1 & Hc1 & Ho1 & Hr1 & Hw1). cbn [obind]. rewrite u64_id by lia.
  destruct (IH (addr + 1) m1 Hm1) as (m2 & -> & S2); [lia|lia|exact Hb|intros i Hi; rewrite Hw1, <- Z.add_assoc; apply Hw; lia|].
  exists m2. split; [reflexivity|]. destruct S2 as [S1 S2 S3 S4 S5]. constructor; [exact S1| |..].
  - apply bytes_at_cons; [|exact S2]. rewrite S3 by lia. exact Hc1.
  - intros a Ha' Hn. rewrite zlen_cons in Hn. rewrite S3 by lia. apply Ho1; [exact Ha'|lia].
  - intros a n. now rewrite S4.
  - intros a n. now rewrite S5.
Qed.

(** ** Paths *)

(** [n] bytes that can be read and are not zero. *)
Definition text m (path n : Z) : Prop := forall i, 0 <= i < n -> user_readable (path + i) 1 m = true /\ exists c, user_load (path + i) m = Ok c /\ c <> 0.

(** A string that ends with a zero byte. *)
Record user_string m (path : Z) (t : list Z) : Prop := {
  us_text : text m path (zlen t);
  us_bytes : bytes_at m path (str t);
  us_nonzero : Forall (fun c => 1 <= c < 2 ^ 8) t;
  us_end : user_readable (path + zlen t) 1 m = true }.

(** What the copy of a path gives. *)
Definition path_copied m (path : Z) (r : Z + list Z) : Prop :=
  match r with
  | inr k => exists t, k = str t /\ user_string m path t /\ zlen t < 255
  | inl e => (e = - EFAULT /\ exists i, 0 <= i < 255 /\ text m path i /\ user_readable (path +64 i) 1 m = false) \/ (e = - EINVAL /\ text m path 255)
  end.

Definition loop_copied m (path : Z) (r : option (Z * list Z)) : Prop :=
  match r with
  | None => exists i, 0 <= i < 255 /\ text m path i /\ user_readable (path +64 i) 1 m = false
  | Some (i, k) => (exists t, i = zlen t /\ k = str t /\ user_string m path t /\ zlen t < 255) \/
                   (i = 255 /\ zlen k = 255 /\ Forall (fun c => 1 <= c < 2 ^ 8) k /\ text m path 255)
  end.

Lemma bytes_at_snoc m addr l c : bytes_at m addr l -> user_load (addr + zlen l) m = Ok c -> bytes_at m addr (l ++ [c]).
Proof.
  intros Hl Hc i x Hi. pose proof (znth_Some _ _ _ Hi). rewrite znth_app in Hi by lia. destruct (Z.ltb_spec i (zlen l)); [exact (Hl i x Hi)|].
  pose proof (znth_Some _ _ _ Hi) as Hr. change (zlen [c]) with 1 in Hr. replace i with (zlen l) in * by lia. rewrite Z.sub_diag in Hi. injection Hi as <-. exact Hc.
Qed.

Lemma copy_path_loop_ok m path n : forall k, um_ok m -> 0 <= path < 2 ^ 64 -> zlen k + Z.of_nat n = 255 ->
  text m path (zlen k) -> bytes_at m path k -> Forall (fun c => 1 <= c < 2 ^ 8) k ->
  exists r, copy_path_loop n path (zlen k) k m = Ok r /\ loop_copied m path r.
Proof.
  induction n as [|n IH]; intros k Hm Hp Hn Ht Hb Hf; cbn [copy_path_loop].
  { eexists. split; [reflexivity|]. right. rewrite Z.add_0_r in Hn. rewrite Hn in *. auto. }
  pose proof (zlen_nonneg k). destruct (user_readable (path +64 zlen k) 1 m) eqn:Er; cbn [negb].
  2:{ eexists. split; [reflexivity|]. exists (zlen k). split; [lia|]. auto. }
  assert (Hid : path +64 zlen k = path + zlen k).
  { destruct (Z.eq_dec (zlen k) 0) as [->|]; [apply u64_id; lia|]. destruct (Ht 0 ltac:(lia)) as [H0' _]. rewrite Z.add_0_r in H0'.
    pose proof (um_low path 1 m Hm Hp ltac:(lia) H0'). apply u64_id. lia. }
  rewrite Hid in *. assert (Hr : 0 <= path + zlen k < 2 ^ 64) by (rewrite <- Hid; apply u64_range).
  destruct (um_load _ m Hm Hr Er) as (c & Ec & Hc). rewrite Ec. cbn [obind].
  assert (Hlen : zlen (k ++ [c]) = zlen k + 1) by (rewrite zlen_app; reflexivity). destruct (Z.eqb_spec c 0) as [->|Hc0].
  - eexists. split; [reflexivity|]. left. exists k. split; [reflexivity|]. split; [reflexivity|]. split; [|lia].
    constructor; [exact Ht|now apply bytes_at_snoc|exact Hf|exact Er].
  - rewrite <- Hlen. apply IH; [exact Hm|exact Hp|lia| |now apply bytes_at_snoc|apply Forall_app; split; [exact Hf|constructor; [lia|constructor]]].
    intros i Hi. rewrite Hlen in Hi. destruct (Z.eq_dec i (zlen k)) as [->|]; [split; [exact Er|eauto]|apply Ht; lia].
Qed.

Lemma copy_path_ok m path : um_ok m -> 0 <= path < 2 ^ 64 -> exists r, copy_path path m = Ok r /\ path_copied m path r.
Proof.
  intros Hm Hp. unfold copy_path. destruct (user_readable path 1 m) eqn:Er; cbn [negb].
  2:{ eexists. split; [reflexivity|]. left. split; [reflexivity|]. exists 0. split; [lia|]. rewrite (u64_id (path + 0)), Z.add_0_r by lia. split; [intros i Hi; lia|exact Er]. }
  destruct (copy_path_loop_ok m path 255 [] Hm Hp) as (r & E & Hr); [reflexivity|intros i Hi; change (zlen (@nil Z)) with 0 in Hi; lia|intros i c Hi; now destruct i|constructor|].
  change (zlen []) with 0 in E. rewrite E. cbn [obind]. destruct r as [[i k]|]; cbn [loop_copied] in Hr; [|eexists; split; [reflexivity|left; auto]].
  destruct Hr as [(t & -> & -> & Hs & Hl)|(-> & Hk & Hf & Ht)].
  - destruct (Z.eqb_spec (zlen t) 255); [lia|]. cbn [obind]. eexists. split; [reflexivity|]. exists t. split; [|auto].
    unfold str, zlen. now rewrite Nat2Z.id, take_app_length.
  - rewrite Z.eqb_refl. unfold load. destruct (znth_is_Some k 254 ltac:(lia)) as [c Hc]. rewrite Hc. cbn [of_opt obind].
    pose proof (Forall_znth _ _ _ _ Hf Hc) as Hc1. cbn in Hc1. destruct (Z.eqb_spec c 0); [lia|]. cbn [negb]. eexists. split; [reflexivity|]. right. auto.
Qed.

(** The byte after a string is zero, so no text goes on over it. *)
Lemma string_end m path t : user_string m path t -> user_load (path + zlen t) m = Ok 0.
Proof. intros [_ Hb _ _]. apply Hb. unfold str. rewrite znth_app by apply zlen_nonneg. rewrite Z.ltb_irrefl, Z.sub_diag. reflexivity. Qed.

Lemma text_string m path t n : user_string m path t -> text m path n -> n <= zlen t.
Proof.
  intros Hs Ht. pose proof (string_end _ _ _ Hs) as He. pose proof (zlen_nonneg t). destruct (Z.le_gt_cases n (zlen t)); [assumption|].
  destruct (Ht (zlen t) ltac:(lia)) as [_ (c & Hc & Hc0)]. congruence.
Qed.

Lemma user_string_unique m path t t' : user_string m path t -> user_string m path t' -> t = t'.
Proof.
  intros H1 H2. pose proof (text_string _ _ _ _ H1 (us_text _ _ _ H2)). pose proof (text_string _ _ _ _ H2 (us_text _ _ _ H1)).
  apply znth_ext; [lia|]. intros i Hi. destruct (znth_is_Some t i Hi) as [c Hc]. destruct (znth_is_Some t' i ltac:(lia)) as [c' Hc']. rewrite Hc, Hc'.
  assert (Hat : forall u x, user_string m path u -> znth u i = Some x -> user_load (path + i) m = Ok x).
  { intros u x Hu Hx. apply (us_bytes _ _ _ Hu). pose proof (znth_Some _ _ _ Hx). unfold str. rewrite znth_app by lia. destruct (Z.ltb_spec i (zlen u)); [exact Hx|lia]. }
  pose proof (Hat t c H1 Hc). pose proof (Hat t' c' H2 Hc'). congruence.
Qed.

(** The copy of a string. *)
Lemma copy_path_string m path t : um_ok m -> 0 <= path < 2 ^ 64 -> user_string m path t -> zlen t < 255 -> copy_path path m = Ok (inr (str t)).
Proof.
  intros Hm Hp Hs Hl. destruct (copy_path_ok m path Hm Hp) as (r & -> & Hr). f_equal. pose proof (zlen_nonneg t).
  destruct r as [e|k]; cbn [path_copied] in Hr.
  - destruct Hr as [(_ & i & Hi & Ht & Hf)|[_ Ht]]; pose proof (text_string _ _ _ _ Hs Ht); [|lia]. exfalso.
    assert (Hr : user_readable (path + i) 1 m = true) by (destruct (Z.eq_dec i (zlen t)) as [->|]; [apply (us_end _ _ _ Hs)|apply (us_text _ _ _ Hs); lia]).
    assert (Hlow : i = 0 \/ path + 1 <= 2 ^ 47).
    { destruct (Z.eq_dec i 0); [now left|right]. destruct (Ht 0 ltac:(lia)) as [H0' _]. rewrite Z.add_0_r in H0'. exact (um_low path 1 m Hm Hp ltac:(lia) H0'). }
    rewrite u64_id in Hf by lia. congruence.
  - destruct Hr as (t' & -> & Hs' & _). now rewrite (user_string_unique _ _ _ _ Hs Hs').
Qed.

End UserCopy.

(** ** Descriptors *)
Lemma free_fd_spec fds : forall j,
  match free_fd fds j with
  | Some k => j <= k < j + zlen fds /\ znth fds (k - j) = Some 0 /\ forall i p, 0 <= i < k - j -> znth fds i = Some p -> p <> 0
  | None => Forall (fun p => p <> 0) fds
  end.
Proof.
  induction fds as [|p r IH]; intros j; cbn [free_fd]; [constructor|]. pose proof (zlen_nonneg r). destruct (Z.eqb_spec p 0) as [->|Hp].
  { rewrite zlen_cons, Z.sub_diag. repeat split; lia. }
  specialize (IH (j + 1)). destruct (free_fd r (j + 1)) as [k|]; [|now constructor]. destruct IH as (Hk & H0 & Hb). rewrite zlen_cons. repeat split; [lia|lia| |].
  - rewrite znth_cons by lia. rewrite <- H0. f_equal. lia.
  - intros i q Hi Hq. destruct (Z.eq_dec i 0) as [->|]; [now injection Hq as <-|]. rewrite znth_cons in Hq by lia. apply (Hb (i - 1) q); [lia|exact Hq].
Qed.

Lemma znth_drop {X} (l : list X) n i : 0 <= i -> znth (drop n l) i = znth l (Z.of_nat n + i).
Proof. intros Hi. replace i with (Z.of_nat (Z.to_nat i)) by lia. rewrite <- Nat2Z.inj_add, !znth_nat. apply lookup_drop. Qed.

(** The descriptor that [open] takes: the least free one from 3 on. *)
Lemma open_fd fds : zlen fds = MAX_FDS ->
  match free_fd (drop 3 fds) 3 with
  | Some fd => 3 <= fd < MAX_FDS /\ znth fds fd = Some 0 /\ forall i p, 3 <= i < fd -> znth fds i = Some p -> p <> 0
  | None => forall i p, 3 <= i -> znth fds i = Some p -> p <> 0
  end.
Proof.
  intros Hl. pose proof (free_fd_spec (drop 3 fds) 3) as Hf. assert (Hd : zlen (drop 3 fds) = zlen fds - 3) by (unfold zlen, MAX_FDS in *; rewrite length_drop; lia).
  destruct (free_fd (drop 3 fds) 3) as [fd|].
  - destruct Hf as (H1 & H2 & H3). rewrite znth_drop in H2 by lia. replace (Z.of_nat 3 + (fd - 3)) with fd in H2 by lia. split; [lia|]. split; [exact H2|].
    intros i p Hi Hp. apply (H3 (i - 3) p); [lia|]. rewrite znth_drop by lia. rewrite <- Hp. f_equal. lia.
  - intros i p Hi Hp. apply (Forall_znth _ _ (i - 3) p Hf). rewrite znth_drop by lia. rewrite <- Hp. f_equal. lia.
Qed.

Section Table.
Context {V W M : Type} `{VnodeSystem V W} `{KernelAlloc W} `{UserMemory M}.
Implicit Types s : fstate V W M.

(** Every descriptor in use has a file object of its own. *)
Record table_ok s : Prop := {
  to_size : zlen (fd_table s) = MAX_FDS;
  to_live fd p : znth (fd_table s) fd = Some p -> p <> 0 -> is_Some (objects s !! p);
  to_own fd fd' p : znth (fd_table s) fd = Some p -> znth (fd_table s) fd' = Some p -> p <> 0 -> fd = fd' }.

(** The allocator hands out no address at which there is a file object. *)
Definition fresh_file (c : file_call) s : Prop :=
  match c with
  | COpen _ flags => forall path p f w, vfs_open (Some path) flags (world s) = Ok (inr (p, f), w) -> objects s !! p = None
  | _ => True
  end.

Lemma descriptor_ok fd s : table_ok s -> 0 <= fd ->
  exists d, descriptor fd s = Ok d /\
    match d with
    | Some p => fd < MAX_FDS /\ znth (fd_table s) fd = Some p /\ p <> 0 /\ is_Some (objects s !! p)
    | None => MAX_FDS <= fd \/ znth (fd_table s) fd = Some 0
    end.
Proof.
  intros T Hfd. unfold descriptor. destruct (Z.leb_spec MAX_FDS fd); [exists None; split; [reflexivity|now left]|].
  destruct (znth_is_Some (fd_table s) fd) as [p Hp]; [rewrite (to_size _ T); lia|]. rewrite Hp. cbn [of_opt obind]. eexists. split; [reflexivity|].
  destruct (Z.eqb_spec p 0) as [->|Hp0]; [now right|]. repeat split; auto. exact (to_live _ T fd p Hp Hp0).
Qed.

(** Replacing the content of an object, or the world and the user memory. *)
Lemma table_same s fds objs w m : table_ok s -> fds = fd_table s -> (forall p, is_Some (objects s !! p) -> is_Some (objs !! p)) -> table_ok (mkFs fds objs w m).
Proof. intros [T1 T2 T3] -> Ho. constructor; cbn; [exact T1| |exact T3]. intros fd p Hfd Hp. apply Ho. exact (T2 fd p Hfd Hp). Qed.

Lemma table_update s p f w m : table_ok s -> table_ok (mkFs (fd_table s) (<[p := f]> (objects s)) w m).
Proof. intros T. apply (table_same s); auto. intros q Hq. destruct (decide (q = p)) as [->|]; [rewrite lookup_insert_eq|rewrite lookup_insert_ne by congruence]; eauto. Qed.

Lemma table_open s fd p f w m : table_ok s -> objects s !! p = None -> 0 <= fd < MAX_FDS -> table_ok (mkFs (zset (fd_table s) fd p) (<[p := f]> (objects s)) w m).
Proof.
  intros [T1 T2 T3] Hp Hfd. constructor; cbn.
  - now rewrite zlen_zset.
  - intros fd' q Hq Hq0. destruct (decide (q = p)) as [->|Hne]; [rewrite lookup_insert_eq; eauto|]. rewrite lookup_insert_ne by congruence.
    destruct (Z.eq_dec fd fd') as [->|]; [rewrite znth_zset_eq in Hq by lia; congruence|]. rewrite znth_zset_ne in Hq by lia. eauto.
  - assert (Hno : forall fd', znth (fd_table s) fd' = Some p -> p <> 0 -> False).
    { intros fd' Hq Hq0. destruct (T2 fd' p Hq Hq0) as [? ?]. congruence. }
    intros a b q Ha Hb Hq0. destruct (Z.eq_dec fd a) as [->|]; destruct (Z.eq_dec a b) as [->|]; try reflexivity.
    + rewrite znth_zset_eq in Ha by lia. rewrite znth_zset_ne in Hb by lia. injection Ha as ->. now destruct (Hno b).
    + exfalso. rewrite (znth_zset_ne _ fd a) in Ha by lia. destruct (Z.eq_dec fd b) as [->|].
      * rewrite znth_zset_eq in Hb by lia. injection Hb as ->. now apply (Hno a).
      * rewrite znth_zset_ne in Hb by lia. assert (a = b) by eauto. congruence.
Qed.

Lemma table_close s fd p w m : table_ok s -> 0 <= fd < MAX_FDS -> znth (fd_table s) fd = Some p -> p <> 0 ->
  table_ok (mkFs (zset (fd_table s) fd 0) (delete p (objects s)) w m).
Proof.
  intros [T1 T2 T3] Hfd Hp Hp0.
  assert (Hz : forall a q, znth (zset (fd_table s) fd 0) a = Some q -> q <> 0 -> a <> fd /\ znth (fd_table s) a = Some q).
  { intros a q Ha Hq. destruct (Z.eq_dec fd a) as [->|]; [rewrite znth_zset_eq in Ha by lia; congruence|]. rewrite znth_zset_ne in Ha by lia. auto. }
  constructor; cbn.
  - now rewrite zlen_zset.
  - intros a q Ha Hq. destruct (Hz a q Ha Hq) as [Hne Hq']. rewrite lookup_delete_ne; [eauto|]. intros <-. apply Hne. exact (T3 a fd p Hq' Hp Hp0).
  - intros a b q Ha Hb Hq. destruct (Hz a q Ha Hq), (Hz b q Hb Hq). eauto.
Qed.

End Table.
