(* ===== verification/SysFileTheorems.v ===== *)
(** * Theorems about the system calls on files

    The descriptor table is well formed after any sequence of calls; the copy of a
    path is exact; and what a program writes to a file through these calls, down to
    the blocks of the disk, it reads back. *)

From S2P Require Import Prelude Bitmap Interfaces CString Kfs KfsProofs KfsFiles KfsCheck KfsDirs KfsTheorems Blk Vfs VfsProofs VfsKfs Process.
From S2P Require Import Pmm Vmm KernelHeap UserSpace Elf ElfProofs ElfTheorems UserMem Brk SysFile SysFileProofs.

(** Runs of the next call, bind by bind. *)
Ltac run_bind E := match type of E with
  | obind ?x _ = Ok _ => let y := fresh "y" in let Ey := fresh "Ey" in destruct x as [y|] eqn:Ey; [cbn [obind] in E|discriminate E]
  end.

(** ** The descriptor table *)
Section Table.
Context {V W M : Type} `{VnodeSystem V W} `{KernelAlloc W} `{UserMemory M}.
Implicit Types s : fstate V W M.

(** What a call does to the table. *)
Definition table_step (c : file_call) (r : Z) s s' : Prop :=
  match c with
  | COpen _ _ =>
    fd_table s' = fd_table s \/
    exists p, 3 <= r < MAX_FDS /\ znth (fd_table s) r = Some 0 /\ (forall i q, 3 <= i < r -> znth (fd_table s) i = Some q -> q <> 0) /\ fd_table s' = zset (fd_table s) r p
  | CClose fd => r = u64 (- EBADF) /\ s' = s \/ fd_table s' = zset (fd_table s) fd 0
  | _ => fd_table s' = fd_table s
  end.

Definition call_fd (c : file_call) : Z :=
  match c with CRead fd _ _ | CWrite fd _ _ | CClose fd | CGetdents fd _ _ _ => fd | _ => 0 end.

Lemma open_keeps path flags s r s' : table_ok s -> fresh_file (COpen path flags) s -> sys_open path flags s = Ok (r, s') ->
  table_ok s' /\ table_step (COpen path flags) r s s'.
Proof.
  intros T Hfr E. unfold sys_open in E. destruct (negb _); [injection E as <- <-; split; [exact T|now left]|].
  run_bind E. destruct y as [e|kpath]; [injection E as <- <-; split; [exact T|now left]|].
  pose proof (open_fd _ (to_size _ T)) as Hfd. destruct (free_fd _ 3) as [fd|]; [|injection E as <- <-; split; [exact T|now left]].
  destruct Hfd as (Hr & H0' & Hleast). run_bind E. destruct y as [[e|[p f]] w].
  - destruct (e <? 0); injection E as <- <-; (split; [apply (table_same s); auto|left; cbn]); try reflexivity; apply znth_ext; rewrite ?zlen_zset; auto;
      intros i Hi; (destruct (Z.eq_dec fd i) as [->|]; [rewrite znth_zset_eq by lia; congruence|now rewrite znth_zset_ne by lia]).
  - injection E as <- <-. split; [apply table_open; [exact T|exact (Hfr _ _ _ _ Ey0)|lia]|]. right. exists p. auto.
Qed.

Lemma close_keeps fd s r s' : table_ok s -> 0 <= fd -> sys_close fd s = Ok (r, s') -> table_ok s' /\ table_step (CClose fd) r s s'.
Proof.
  intros T Hfd E. unfold sys_close in E. destruct (descriptor_ok fd s T Hfd) as (d & Ed & Hd). rewrite Ed in E. cbn [obind] in E.
  destruct d as [p|]; [|injection E as <- <-; split; [exact T|now left]]. destruct Hd as (Hlt & Hp & Hp0 & _).
  run_bind E. run_bind E. destruct y0 as [x w]. injection E as <- <-. split; [now apply table_close|now right].
Qed.

Lemma transfer_keeps c s r s' : table_ok s -> 0 <= call_fd c -> match c with CRead _ _ _ | CWrite _ _ _ | CGetdents _ _ _ _ => True | _ => False end ->
  run_call c s = Ok (r, s') -> table_ok s' /\ table_step c r s s'.
Proof.
  intros T Hfd Hc E. destruct (descriptor_ok (call_fd c) s T Hfd) as (d & Ed & _).
  assert (Hsame : forall s2, s2 = s -> table_ok s2 /\ fd_table s2 = fd_table s) by (intros ? ->; auto).
  destruct c; try done; cbn [run_call call_fd table_step] in *; [unfold sys_read in E|unfold sys_write in E|unfold sys_getdents in E]; rewrite Ed in E; cbn [obind] in E;
    (destruct d as [p|]; [|injection E as <- <-; auto]).
  1, 2: destruct (_ =? 0); [injection E as <- <-; auto|].
  all: destruct (negb _); [injection E as <- <-; auto|]; destruct (ka_alloc _ _) as [kbuf w]; destruct (kbuf =? 0);
    [injection E as <- <-; split; [apply (table_same s); auto|reflexivity]|].
  - run_bind E. run_bind E. destruct y0 as [x w']. run_bind E. injection E as <- <-. split; [now apply table_update|reflexivity].
  - run_bind E. run_bind E. run_bind E. destruct y1 as [x w']. injection E as <- <-. split; [now apply table_update|reflexivity].
  - run_bind E. run_bind E. destruct y0 as [[e|[[err out] off]] w'].
    + injection E as <- <-. split; [apply (table_same s); auto|reflexivity].
    + run_bind E. injection E as <- <-. split; [now apply table_update|reflexivity].
Qed.

Lemma path_call_keeps call path s r s' : table_ok s -> path_call call path s = Ok (r, s') -> table_ok s' /\ fd_table s' = fd_table s.
Proof.
  intros T E. unfold path_call in E. run_bind E. destruct y as [e|k]; [injection E as <- <-; auto|]. run_bind E. destruct y as [x w].
  injection E as <- <-. split; [apply (table_same s); auto|reflexivity].
Qed.

(** Two processes with the same object in their tables, as [sys_spawn] leaves them when
    it copies the table: after one of them closes the descriptor, a read of the other
    one follows a dangling pointer. *)
Lemma shared_descriptor_dangles fd buf count s p r s' : descriptor fd s = Ok (Some p) -> sys_close fd s = Ok (r, s') ->
  0 < count -> user_writable buf (if 4096 <? count then 4096 else count) (user s') = true ->
  fst (ka_alloc (if 4096 <? count then 4096 else count) (world s')) <> 0 ->
  sys_read fd buf count (mkFs (fd_table s) (objects s') (world s') (user s')) = Stop BadAccess.
Proof.
  intros Ed E Hc Hw Ha. unfold sys_close in E. rewrite Ed in E. cbn [obind] in E. run_bind E. run_bind E. destruct y0 as [x w]. injection E as <- <-.
  unfold sys_read. change (descriptor fd (mkFs _ _ _ _)) with (descriptor fd s). rewrite Ed. cbn [obind objects world user] in *. destruct (Z.eqb_spec count 0); [lia|].
  rewrite Hw. cbn [negb]. destruct (ka_alloc _ w) as [kbuf w']. cbn [fst] in Ha. rewrite (proj2 (Z.eqb_neq _ _) Ha), lookup_delete_eq. reflexivity.
Qed.

(** Calls of one process, with an allocator that does not hand out live objects. *)
Inductive calls s : fstate V W M -> Prop :=
| calls_none : calls s s
| calls_next c r s1 s2 : calls s s1 -> fresh_file c s1 -> 0 <= call_fd c -> run_call c s1 = Ok (r, s2) -> calls s s2.

(** C17: the descriptor table is well formed after any sequence of the calls on files:
    it has 32 entries, every entry in use is the address of a file object that lives,
    and no two descriptors share one, so that no call ever follows a dangling
    descriptor; [open] takes the least free descriptor from 3 on, [close] frees the one
    it names and no other call changes the table. *)
Theorem file_calls_keep_table s s' c r s2 : table_ok s -> calls s s' -> fresh_file c s' -> 0 <= call_fd c -> run_call c s' = Ok (r, s2) ->
  table_ok s2 /\ table_step c r s' s2 /\
  forall fd, 0 <= fd -> exists d, descriptor fd s2 = Ok d /\ forall p, d = Some p -> is_Some (objects s2 !! p).
Proof.
  intros T Hs Hf Hfd E.
  assert (Hstep : forall c r a b, table_ok a -> fresh_file c a -> 0 <= call_fd c -> run_call c a = Ok (r, b) -> table_ok b /\ table_step c r a b).
  { intros c0 r0 a b Ta Ha Hc0 E0. destruct c0; try (now apply transfer_keeps); cbn [run_call] in E0;
      [now apply open_keeps|now apply close_keeps|eapply path_call_keeps; eassumption..]. }
  assert (T' : table_ok s') by (clear Hf E; induction Hs as [|c0 r0 s1 s3 _ IH Hf0 Hc0 E0]; [exact T|exact (proj1 (Hstep c0 r0 s1 s3 IH Hf0 Hc0 E0))]).
  destruct (Hstep c r s' s2 T' Hf Hfd E) as [T2 St]. split; [exact T2|]. split; [exact St|]. intros fd Hfd'.
  destruct (descriptor_ok fd s2 T2 Hfd') as (d & Ed & Hd). exists d. split; [exact Ed|]. intros p ->. apply Hd.
Qed.

End Table.

(** ** Paths *)
Section Paths.
Context {V W M : Type} `{VnodeSystem V W} `{KernelAlloc W} `{UserMemoryLaws M}.
Implicit Types s : fstate V W M.

(** C40: a path argument is taken from user memory exactly: the call goes on with the
    string at the address when the string can be read and is shorter than 255
    characters; it returns EFAULT, before any file system is asked, when it meets a
    byte that cannot be read before the end of the string, and EINVAL when there are
    255 characters without an end.  Here for [mkdir], [unlink] and [rmdir]. *)
Theorem path_calls_correct s path call c : um_ok (user s) -> 0 <= path < 2 ^ 64 ->
  (c = CMkdir path /\ call = vfs_mkdir) \/ (c = CUnlink path /\ call = vfs_unlink) \/ (c = CRmdir path /\ call = vfs_rmdir) ->
  (exists t, user_string (user s) path t /\ zlen t < 255 /\
     run_call c s = let* (r, w) := call (Some (str t)) (world s) in
                    Ok (match r with inl e => if e <? 0 then u64 e else 0 | inr _ => 0 end, mkFs (fd_table s) (objects s) w (user s))) \/
  (exists i, 0 <= i < 255 /\ text (user s) path i /\ user_readable (path +64 i) 1 (user s) = false /\ run_call c s = Ok (u64 (- EFAULT), s)) \/
  (text (user s) path 255 /\ run_call c s = Ok (u64 (- EINVAL), s)).
Proof.
  intros Hm Hp Hc. destruct (copy_path_ok (user s) path Hm Hp) as (r & E & Hr).
  assert (Hrun : run_call c s = path_call call path s) by (destruct Hc as [[-> ->]|[[-> ->]|[-> ->]]]; reflexivity).
  rewrite Hrun. unfold path_call. rewrite E. cbn [obind]. destruct r as [e|k]; cbn [path_copied] in Hr.
  - right. destruct Hr as [(-> & i & Hi & Ht & Hf)|[-> Ht]]; [left; eauto 10|right; auto].
  - left. destruct Hr as (t & -> & Hs & Hl). exists t. auto.
Qed.

End Paths.

(** ** Files on the disk *)
Section Disk.
Context {D A M : Type} `{BlockDeviceLaws D} `{RefusalLogLaws A} `{UserMemoryLaws M}.
Context (tty_ops : vnode_ops sys_vnode (kfs D A)) (devs : blk_table).
#[local] Existing Instance system.
#[local] Existing Instance system_alloc.
#[local] Instance kernel_system : VnodeSystem sys_vnode (kfs D A) := system tty_ops devs.
Implicit Types s : fstate sys_vnode (kfs D A) M.


Definition supported (flags : Z) : Prop := Z.land flags (u64 (Z.lnot SUPPORTED_OPEN_FLAGS)) = 0.

Lemma sys_open_ok path flags t fd s p f w : um_ok (user s) -> 0 <= path < 2 ^ 64 -> user_string (user s) path t -> zlen t < 255 -> supported flags ->
  free_fd (drop 3 (fd_table s)) 3 = Some fd -> vfs_open (Some (str t)) flags (world s) = Ok (inr (p, f), w) ->
  sys_open path flags s = Ok (fd, mkFs (zset (fd_table s) fd p) (<[p := f]> (objects s)) w (user s)).
Proof.
  intros Hm Hp Hs Hl Hf Hfd E. unfold sys_open. rewrite (proj2 (Z.eqb_eq _ _) Hf). cbn [negb].
  rewrite (copy_path_string _ _ t Hm Hp Hs Hl). cbn [obind]. rewrite Hfd, E. reflexivity.
Qed.

(** A call that returns -ENOMEM because the kernel heap refused memory. *)
Definition refused (r : Z) s : Prop := r = u64 (- ENOMEM) /\ ka_refused (k_heap (world s)) = true.






(** What the kernel does with the result of [vfs_open]. *)
Lemma sys_open_result path flags t fd s r w : um_ok (user s) -> 0 <= path < 2 ^ 64 -> user_string (user s) path t -> zlen t < 255 -> supported flags ->
  free_fd (drop 3 (fd_table s)) 3 = Some fd -> vfs_open (Some (str t)) flags (world s) = Ok (r, w) ->
  exists r' s', sys_open path flags s = Ok (r', s') /\ world s' = w /\
    (out_of_memory r w -> refused r' s') /\
    forall p f, r = inr (p, f) -> r' = fd /\ s' = mkFs (zset (fd_table s) fd p) (<[p := f]> (objects s)) w (user s).
Proof.
  intros Hm Hp Hs Hl Hf Hfd E. unfold sys_open. rewrite (proj2 (Z.eqb_eq _ _) Hf). cbn [negb].
  rewrite (copy_path_string _ _ t Hm Hp Hs Hl). cbn [obind]. rewrite Hfd, E. cbn [obind].
  unfold refused, out_of_memory. destruct r as [e|[p f]]; [destruct (Z.ltb_spec e 0)|]; eexists _, _; (split; [reflexivity|]); (split; [reflexivity|]); split; try discriminate; cbn [world].
  - intros [[= ->] ?]. now split.
  - intros [[= ->] _]. now unfold ENOMEM in *.
  - now intros [? _].
  - now intros ? ? [= -> ->].
Qed.



End Disk.

(** ** A process with a page of data at 0x10000000 and the path "/b" in it, on a small disk *)
#[local] Instance small_pages : UserPages (vmm pmm) := vmm_pages 8192.
#[local] Instance small_pages_laws : UserPagesLaws (vmm pmm) := vmm_pages_laws 8192.
#[local] Instance small_memory : UserMemory (image (vmm pmm)) := vmm_user_memory 8192.
#[local] Instance small_memory_laws : UserMemoryLaws (image (vmm pmm)) := vmm_user_memory_laws 8192.
#[local] Instance small_system : VnodeSystem sys_vnode (kfs ram bump) := system no_ops one_disk.
#[local] Instance small_alloc : KernelAlloc (kfs ram bump) := system_alloc.

Definition DATA : Z := 0x10000000.
Definition one_page : image (vmm pmm) := match new_page DATA HEAP_FLAGS start64 with Ok (_, st) => st | Stop _ => start64 end.

Definition bytes_ok (st : image (vmm pmm)) : Prop := forall p c, im_mem st !! p = Some c -> 0 <= c < 2 ^ 8.

Lemma new_page_bytes page f (st st' : image (vmm pmm)) b : bytes_ok st -> new_page page f st = Ok (b, st') -> bytes_ok st'.
Proof.
  intros Hb E. unfold new_page in E. remember (replicate 4096 0) as zeroes eqn:Hz in E. run_bind E. destruct y as [p a].
  destruct (p =? 0); [injection E as _ <-; exact Hb|]. run_bind E. destruct y as [ok a1]. destruct ok; cbn [negb] in E; [|run_bind E; injection E as _ <-; exact Hb].
  injection E as _ <-. intros q c. cbn [im_mem]. rewrite put_bytes_lookup. destruct (_ && _); [|apply Hb].
  intros Hq. refine (Forall_znth (fun c => 0 <= c < 2 ^ 8) _ _ _ _ Hq). subst zeroes. apply Forall_replicate. lia.
Qed.

Lemma one_page_ok : um_ok one_page.
Proof.
  destruct (new_page_spec start64 ∅ DATA HEAP_FLAGS start64_ok) as (b & st & D & E & I & _); [split; [split; [discriminate|reflexivity]|reflexivity]|vm_compute; tauto|].
  pose proof (f_equal (fun o => match o with Ok (_, x) => x | Stop _ => start64 end) E : one_page = st) as Eo. rewrite Eo. split; [now exists D|].
  apply (new_page_bytes DATA HEAP_FLAGS start64 st b); [|exact E]. intros p c Hp. change ((∅ : gmap Z Z) !! p = Some c) in Hp. now rewrite lookup_empty in Hp.
Qed.

Lemma one_page_range : user_readable DATA 4096 one_page = true /\ user_writable DATA 4096 one_page = true /\ user_readable 0 1 one_page = false.
Proof. vm_compute. auto. Qed.

(** The state of the process. *)
Definition idle (m : image (vmm pmm)) : fstate sys_vnode (kfs ram bump) (image (vmm pmm)) := mkFs (replicate 32 0) ∅ KfsCheck.image m.

Lemma with_path : exists m, um_ok m /\ user_string m DATA (SLASH :: name_b) /\ user_readable (DATA + 256) 3 m = true /\ user_writable (DATA + 512) 3 m = true.
Proof.
  destruct one_page_range as (Hr & Hw & _). assert (HD : 0 <= DATA < 2 ^ 64) by (split; [discriminate|reflexivity]). assert (HL : 0 < 4096 < 2 ^ 64) by lia.
  destruct (copy_out_ok (str (SLASH :: name_b)) DATA one_page one_page_ok) as (m & _ & S); [discriminate|discriminate|repeat constructor; discriminate|..].
  { intros i Hi. change (zlen (str (SLASH :: name_b))) with 3 in Hi. apply (um_writable DATA 4096 one_page i 1 one_page_ok HD HL Hw); lia. }
  exists m. destruct S as [S1 S2 S3 S4 S5]. split; [exact S1|].
  assert (Hsub : forall i n, 0 <= i -> 0 < n -> i + n <= 4096 -> user_readable (DATA + i) n m = true /\ user_writable (DATA + i) n m = true).
  { intros i n Hi Hn Hl. rewrite S4, S5.
    split; [exact (um_bytes DATA 4096 one_page i n one_page_ok HD HL Hr Hi Hn Hl)|exact (um_writable DATA 4096 one_page i n one_page_ok HD HL Hw Hi Hn Hl)]. }
  split; [|split; apply Hsub; lia]. constructor; [|exact S2|repeat constructor; discriminate|apply Hsub; [apply zlen_nonneg|lia|change (zlen (SLASH :: name_b)) with 2; lia]].
  intros i Hi. change (zlen (SLASH :: name_b)) with 2 in Hi. split; [apply Hsub; lia|]. destruct (Z.eq_dec i 0) as [->|]; [exists SLASH|exists 98]; (split; [|discriminate]); apply S2; [reflexivity|].
  replace i with 1 by lia. reflexivity.
Qed.

Definition RW_CREATE : Z := Z.lor O_CREAT O_RDWR.



Lemma file_calls_keep_table_witness : exists m r s1, run_call (COpen DATA RW_CREATE) (idle m) = Ok (r, s1) /\ table_ok s1 /\
  table_step (COpen DATA RW_CREATE) r (idle m) s1 /\ forall fd, 0 <= fd -> exists d, descriptor fd s1 = Ok d /\ forall p, d = Some p -> is_Some (objects s1 !! p).
Proof.
  destruct with_path as (m & Hm & Hs & _). exists m.
  destruct (vfs_open (Some (top_path name_b)) RW_CREATE KfsCheck.image) as [[x w]|] eqn:Eo; [|vm_compute in Eo; discriminate Eo].
  destruct (sys_open_result no_ops one_disk DATA RW_CREATE (SLASH :: name_b) 3 (idle m) x w Hm) as (r & s1 & E & _);
    [split; [discriminate|reflexivity]|exact Hs|reflexivity|reflexivity|reflexivity|exact Eo|].
  exists r, s1. split; [exact E|]. apply (file_calls_keep_table (idle m) (idle m) (COpen DATA RW_CREATE) r s1); [|apply calls_none|intros path p f w' _; reflexivity|reflexivity|exact E].
  assert (Hz : forall fd p, znth (replicate 32 0) fd = Some p -> p = 0) by (intros fd p Hp; exact (Forall_znth (fun p => p = 0) _ _ _ (Forall_replicate _ _ _ eq_refl) Hp)).
  constructor; [reflexivity|intros fd p Hp Hp0; now apply Hz in Hp|intros fd fd' p Hp _ Hp0; now apply Hz in Hp].
Defined.

(** A path at address 0, which is not mapped. *)
Lemma path_calls_correct_witness : run_call (CMkdir 0) (idle one_page) = Ok (u64 (- EFAULT), idle one_page).
Proof.
  destruct one_page_range as (_ & _ & H0). revert H0. generalize one_page_ok. generalize one_page. intros m Hm H0.
  destruct (path_calls_correct (idle m) 0 vfs_mkdir (CMkdir 0) Hm) as [(t & Hs & _)|[(i & _ & _ & _ & E)|[Ht _]]]; [lia|now left| |exact E|]; exfalso.
  - destruct (Z.eq_dec (zlen t) 0) as [Hz|Hz].
    + pose proof (us_end _ _ _ Hs) as He. rewrite Hz in He. exact (diff_true_false (eq_trans (eq_sym He) H0)).
    + destruct (us_text _ _ _ Hs 0) as [He _]; [pose proof (zlen_nonneg t); lia|]. exact (diff_true_false (eq_trans (eq_sym He) H0)).
  - destruct (Ht 0) as [He _]; [lia|]. exact (diff_true_false (eq_trans (eq_sym He) H0)).
Defined.
