(* ===== verification/Tarfs.v ===== *)
(** * The tar file system (src/kernel/fs/tarfs.c, src/include/tarfs.h)

    A read-only file system over an archive in memory.  The archive is the list of the
    bytes of the region from [start_phys] to [end_phys]; an access outside of it stops.
    The first [tarfs_file_count] entries of the array [tarfs_files] are a list. *)

From S2P Require Import Prelude Bitmap Interfaces CString Kfs Vmm Elf ElfProofs.

Definition MAX_TARFS_FILES : Z := 128.
Definition TAR_TYPE_NORMAL : Z := 48.
Definition TAR_TYPE_DIR : Z := 53.

Record tarfs_file : Type := mkTarFile { tf_name : list Z; tf_data_offset : Z; tf_size : Z; tf_type : Z }.

(** ** Headers: [str] and [hdr] are the bytes from a pointer on *)
Fixpoint octal_to_uint64 (str : list Z) (max_len : nat) (val : Z) {struct max_len} : outcome Z :=
  match max_len with
  | O => Ok val
  | S k =>
    match str with
    | [] => Stop BadAccess
    | c :: r =>
      if (48 <=? c) && (c <=? 55) then octal_to_uint64 r k (u64 (val * 8 + (c - 48)))
      else if (c =? 32) || (c =? 0) then Ok val
      else octal_to_uint64 r k val
    end
  end.

(** The sum of [n] bytes from index [i] on, the checksum field taken as spaces. *)
Fixpoint checksum (n : nat) (i : Z) (ptr : list Z) (sum : Z) : outcome Z :=
  match n with
  | O => Ok sum
  | S k =>
    match ptr with
    | [] => Stop BadAccess
    | c :: r => checksum k (i + 1) r (u32 (sum + if (148 <=? i) && (i <? 148 + 8) then 32 else c))
    end
  end.

Definition verify_checksum (hdr : list Z) : outcome bool :=
  let* expected := octal_to_uint64 (drop 148 hdr) 8 0 in
  let expected := u32 expected in
  let* sum := checksum 512 0 hdr 0 in
  Ok ((sum =? expected) || (sum =? u32 (expected + 256))).

Definition USTAR : list Z := [117; 115; 116; 97; 114; 0].

Section Mount.
Context (start_phys end_phys : Z) (archive : list Z).

(** The bytes at a physical address. *)
Definition at_phys (p : Z) : list Z := drop (Z.to_nat (p - start_phys)) archive.

(** The loop over the headers: the error code, or 0 when it ends, and the files. *)
Fixpoint mount_loop (fuel : nat) (current_phys : Z) (files : list tarfs_file) : outcome (Z * list tarfs_file) :=
  if current_phys +64 512 <=? end_phys then
    match fuel with
    | O => Stop NoFuel
    | S k =>
      let hdr := at_phys current_phys in
      let* c := load hdr 0 in
      if c =? 0 then Ok (0, files)
      else
      let* d := memcmp (drop 257 hdr) USTAR 5 in
      if negb (d =? 0) then Ok (- EINVAL, files)
      else
      let* ok := verify_checksum hdr in
      if negb ok then Ok (- EINVAL, files)
      else
      let* file_size := octal_to_uint64 (drop 124 hdr) 12 0 in
      let data_phys := current_phys +64 512 in
      let padded_size := Z.land (file_size +64 511) (u64 (Z.lnot 511)) in
      if (end_phys <? data_phys +64 padded_size) || (data_phys +64 padded_size <? data_phys) then Ok (- EINVAL, files)
      else
      let* typeflag := load hdr 156 in
      let typeflag := if typeflag =? 0 then TAR_TYPE_NORMAL else typeflag in
      if (typeflag =? TAR_TYPE_NORMAL) || (typeflag =? 0) then
        if MAX_TARFS_FILES <=? zlen files then Ok (0, files)
        else
          let* name := strncpy (replicate 256 0) 0 hdr 255 in
          let* name := store name 255 0 in
          mount_loop k (data_phys +64 padded_size) (files ++ [mkTarFile name (phys_to_virt data_phys) file_size VNODE_TYPE_FILE])
      else if typeflag =? TAR_TYPE_DIR then mount_loop k (data_phys +64 padded_size) files
      else Ok (- EINVAL, files)
    end
  else Ok (0, files).

(** [root] tells whether a file system is mounted already ([vfs_mount_root]). *)
Definition tarfs_mount (root : bool) (files : list tarfs_file) : outcome (Z * list tarfs_file) :=
  if end_phys <=? start_phys then Ok (- EINVAL, files)
  else
    let* (err, files) := mount_loop (Z.to_nat (zlen archive / 512)) start_phys [] in
    if err =? 0 then Ok (if root then - EINVAL else 0, files) else Ok (err, files).

(** ** Operations on mounted files *)
Definition tarfs_read (tfile : tarfs_file) (offset count : Z) : outcome read_result :=
  if tf_size tfile <=? offset then Ok (mkRead 0 [] offset)
  else
    let remaining := tf_size tfile -64 offset in
    let to_read := if count <? remaining then count else remaining in
    let* data := take_bytes archive (tf_data_offset tfile - phys_to_virt start_phys + offset) to_read in
    Ok (mkRead 0 data (offset +64 to_read)).

(** The index of the file; the vnode for it is allocated by [kmalloc]. *)
Fixpoint find_file (files : list tarfs_file) (i : Z) (name : list Z) : outcome (option Z) :=
  match files with
  | [] => Ok None
  | f :: r => let* d := strcmp (tf_name f) name in if d =? 0 then Ok (Some i) else find_file r (i + 1) name
  end.

Definition tarfs_lookup {A} `{KernelAlloc A} (files : list tarfs_file) (name : list Z) (a : A) : outcome ((Z + Z) * A) :=
  let* r := find_file files 0 name in
  match r with
  | None => Ok (inl (- ENOENT), a)
  | Some i => let '(child, a) := ka_alloc sizeof_vnode a in Ok (if child =? 0 then inl (- ENOMEM) else inr i, a)
  end.

(** The loop that copies a name. *)
Fixpoint copy_name (n : nat) (i : Z) (src dst : list Z) : outcome (list Z) :=
  match n with
  | O => store dst i 0
  | S k =>
    let* c := load src i in
    if c =? 0 then store dst i 0 else let* dst := store dst i c in copy_name k (i + 1) src dst
  end.

(** [name] is what the field of [dirp] holds before. *)
Definition tarfs_getdents (files : list tarfs_file) (offset count : Z) (name : list Z) : outcome ((Z + (Z * option dirent)) * Z) :=
  if count <? sizeof_dirent then Ok (inl (- EINVAL), offset)
  else if zlen files <=? offset then Ok (inr (0, None), offset)
  else
    let* tfile := of_opt (znth files offset) in
    let* name := copy_name 255 0 (tf_name tfile) name in
    Ok (inr (sizeof_dirent, Some (mkDirentOut (offset +64 1) (if tf_type tfile =? VNODE_TYPE_DIR then DT_DIR else DT_REG) sizeof_dirent name)), offset +64 1).

End Mount.
