(* ===== verification/TarfsProofs.v ===== *)
(** * Proofs about the tar file system

    Mounting any bytes is safe, and mounting the archive of a list of files gives
    these files. *)

From S2P Require Import Prelude Bitmap Interfaces CString Kfs VfsProofs Vmm Elf ElfProofs Tarfs.

(** ** Strings *)
Lemma strncpy_ok src : forall dest n i, 0 <= i -> i + Z.of_nat n <= zlen dest -> (n <= length src)%nat ->
  exists dest', strncpy dest i src n = Ok dest' /\ zlen dest' = zlen dest /\
    (forall k, ~ (i <= k < i + Z.of_nat n) -> znth dest' k = znth dest k) /\
    (forall t, cstr src = Some t -> zlen t < Z.of_nat n ->
       (forall k, 0 <= k < zlen t -> znth dest' (i + k) = znth t k) /\ znth dest' (i + zlen t) = Some 0).
Proof.
  induction src as [|c r IH]; intros dest n i Hi Hd Hn; destruct n as [|n]; cbn [strncpy]; try (cbn in Hn; lia).
  1, 2: exists dest; split; [reflexivity|]; split; [reflexivity|]; split; [auto|]; intros t _ Ht; pose proof (zlen_nonneg t); lia.
  cbn [cstr]. destruct (Z.eqb_spec c 0) as [->|Hc].
  - rewrite memset_spec by lia. eexists. split; [reflexivity|]. assert (Hz : zlen (replicate (S n) (u8 0)) = Z.of_nat (S n)) by apply zlen_replicate.
    split; [apply zlen_blit; lia|]. split.
    + intros k Hk. destruct (Z.leb_spec 0 k) as [Hk0|Hk0]; [|rewrite !znth_None by lia; reflexivity]. rewrite znth_blit by lia. rewrite Hz.
      destruct (Z.leb_spec i k), (Z.ltb_spec k (i + Z.of_nat (S n))); try reflexivity; lia.
    + intros t [= <-] _. change (zlen (@nil Z)) with 0. split; [lia|]. rewrite Z.add_0_r, znth_blit by lia. rewrite Hz.
      destruct (Z.leb_spec i i), (Z.ltb_spec i (i + Z.of_nat (S n))); try lia. cbn [andb]. rewrite Z.sub_diag. reflexivity.
  - rewrite store_ok by lia. cbn [obind].
    destruct (IH (zset dest i c) n (i + 1)) as (dest' & -> & Hl & Ho & Ht); [lia|rewrite zlen_zset; lia|cbn in Hn; lia|].
    exists dest'. split; [reflexivity|]. rewrite zlen_zset in Hl. split; [exact Hl|]. split.
    + intros k Hk. rewrite Ho by lia. apply znth_zset_ne. lia.
    + intros t Et Hlt. destruct (cstr r) as [u|]; [|discriminate]. injection Et as <-.
      assert (Hz : zlen (c :: u) = zlen u + 1) by (unfold zlen; cbn [length]; lia). destruct (Ht u eq_refl ltac:(lia)) as [H1 H2]. rewrite Hz. split.
      * intros k Hk. change (c :: u) with ([c] ++ u). rewrite znth_app by lia. change (zlen [c]) with 1. destruct (Z.ltb_spec k 1).
        -- replace k with 0 by lia. rewrite Z.add_0_r, Ho by lia. apply znth_zset_eq. lia.
        -- rewrite <- H1 by lia. f_equal. lia.
      * rewrite <- H2. f_equal. lia.
Qed.

Lemma cstr_znth t : forall m, Forall (fun c => c <> 0) t -> (forall k, 0 <= k < zlen t -> znth m k = znth t k) -> znth m (zlen t) = Some 0 -> cstr m = Some t.
Proof.
  induction t as [|c t IH]; intros m Hf Hk H0.
  - destruct m as [|x m]; [discriminate|]. change (zlen []) with 0 in H0. injection H0 as ->. reflexivity.
  - assert (Hz : zlen (c :: t) = zlen t + 1) by (unfold zlen; cbn [length]; lia). pose proof (zlen_nonneg t).
    pose proof (Hk 0 ltac:(lia)) as Hc. destruct m as [|x m]; [discriminate|]. injection Hc as ->. apply Forall_cons_iff in Hf as [Hc Hf]. cbn [cstr].
    destruct (Z.eqb_spec c 0); [done|].
    assert (Hcons : forall (y : Z) l k, 0 <= k -> znth (y :: l) (k + 1) = znth l k).
    { intros y l k Hk0. change (y :: l) with ([y] ++ l). rewrite znth_app by lia. change (zlen [y]) with 1. destruct (Z.ltb_spec (k + 1) 1); [lia|]. f_equal. lia. }
    rewrite (IH m); [reflexivity|exact Hf| |].
    + intros k Hk1. specialize (Hk (k + 1) ltac:(lia)). rewrite !Hcons in Hk by lia. exact Hk.
    + rewrite Hz in H0. now rewrite Hcons in H0 by lia.
Qed.

(** The name of a registered file: 256 bytes with a string in them. *)
Lemma name_copied src : (255 <= length src)%nat ->
  exists name, (let* n := strncpy (replicate 256 0) 0 src 255 in store n 255 0) = Ok name /\ zlen name = 256 /\ (exists t, cstr name = Some t) /\
    forall t, cstr src = Some t -> zlen t < 255 -> cstr name = Some t.
Proof.
  intros Hs. destruct (strncpy_ok src (replicate 256 0) 255 0) as (d & -> & Hl & Ho & Ht); [lia|rewrite zlen_replicate; lia|exact Hs|]. cbn [obind].
  assert (Hl' : zlen d = 256) by (rewrite Hl; reflexivity). rewrite store_ok by lia. eexists. split; [reflexivity|]. split; [now rewrite zlen_zset|]. split.
  - assert (Hex : forall n (l : list Z), znth l (Z.of_nat n) = Some 0 -> exists t, cstr l = Some t).
    { induction n as [|n IH]; intros [|x l] Hx; try discriminate; cbn [cstr].
      - injection Hx as ->. eauto.
      - destruct (x =? 0); [eauto|]. destruct (IH l) as [t ->]; [|eauto]. rewrite znth_nat in *. exact Hx. }
    apply (Hex 255%nat). apply znth_zset_eq. lia.
  - intros t Et Hlt. destruct (Ht t Et ltac:(lia)) as [H1 H2]. apply cstr_znth; [exact (cstr_nonzero _ _ Et)|..].
    + intros k Hk. rewrite znth_zset_ne by lia. exact (H1 k Hk).
    + rewrite znth_zset_ne by lia. exact H2.
Qed.

(** ** Numbers and checksums *)
Lemma octal_ok n : forall str val j, (n <= length str)%nat -> 0 <= j -> 0 <= val < 8 ^ j -> j + Z.of_nat n <= 21 ->
  exists v, octal_to_uint64 str n val = Ok v /\ 0 <= v < 8 ^ (j + Z.of_nat n).
Proof.
  induction n as [|n IH]; intros str val j Hl Hj Hv Hb; cbn [octal_to_uint64].
  { exists val. split; [reflexivity|]. now rewrite Z.add_0_r. }
  destruct str as [|c r]; [cbn in Hl; lia|]. assert (Hp : 8 ^ (j + 1) = 8 * 8 ^ j) by (rewrite Z.pow_add_r by lia; lia).
  assert (Hmono : 8 ^ j <= 8 ^ (j + Z.of_nat (S n))) by (apply Z.pow_le_mono_r; lia).
  destruct (Z.leb_spec 48 c), (Z.leb_spec c 55); cbn [andb].
  - assert (8 ^ (j + 1) <= 8 ^ 21) by (apply Z.pow_le_mono_r; lia). rewrite u64_id by lia.
    destruct (IH r (val * 8 + (c - 48)) (j + 1)) as (v & -> & Hv'); [cbn in Hl; lia|lia|lia|lia|]. exists v. split; [reflexivity|].
    replace (j + Z.of_nat (S n)) with (j + 1 + Z.of_nat n) by lia. exact Hv'.
  - destruct ((c =? 32) || (c =? 0)); [exists val; split; [reflexivity|lia]|].
    destruct (IH r val j) as (v & -> & Hv'); [cbn in Hl; lia|lia|lia|lia|]. exists v. split; [reflexivity|].
    assert (8 ^ (j + Z.of_nat n) <= 8 ^ (j + Z.of_nat (S n))) by (apply Z.pow_le_mono_r; lia). lia.
  - destruct ((c =? 32) || (c =? 0)); [exists val; split; [reflexivity|lia]|].
    destruct (IH r val j) as (v & -> & Hv'); [cbn in Hl; lia|lia|lia|lia|]. exists v. split; [reflexivity|].
    assert (8 ^ (j + Z.of_nat n) <= 8 ^ (j + Z.of_nat (S n))) by (apply Z.pow_le_mono_r; lia). lia.
  - lia.
Qed.

Lemma checksum_ok n : forall i ptr sum, (n <= length ptr)%nat -> exists v, checksum n i ptr sum = Ok v.
Proof.
  induction n as [|n IH]; intros i ptr sum Hl; cbn [checksum]; [eauto|]. destruct ptr as [|c r]; [cbn in Hl; lia|]. apply IH. cbn in Hl. lia.
Qed.

Lemma verify_checksum_ok hdr : (512 <= length hdr)%nat -> exists b, verify_checksum hdr = Ok b.
Proof.
  intros Hl. unfold verify_checksum. destruct (octal_ok 8 (drop 148 hdr) 0 0) as (v & -> & _); [rewrite length_drop; lia|lia|lia|lia|]. cbn [obind].
  destruct (checksum_ok 512 0 hdr 0 Hl) as (x & ->). cbn [obind]. eauto.
Qed.

Lemma memcmp_ok n : forall s1 s2, (n <= length s1)%nat -> (n <= length s2)%nat -> exists d, memcmp s1 s2 n = Ok d.
Proof.
  induction n as [|n IH]; intros [|a r1] [|b r2] H1 H2; cbn in H1, H2; cbn [memcmp]; eauto; try lia.
  destruct (negb (a =? b)); [eauto|]. apply IH; lia.
Qed.

(** ** The specification of an archive *)
Definition sum_of (l : list Z) : Z := foldr Z.add 0 l.

(** The checksum of a header: its field counts as eight spaces. *)
Definition header_sum (hdr : list Z) : Z := sum_of (take 148 hdr) + 32 * 8 + sum_of (drop 156 hdr).

(** [n] octal digits. *)
Fixpoint octal (n : nat) (v : Z) : list Z :=
  match n with
  | O => []
  | S k => octal k (v / 8) ++ [48 + v mod 8]
  end.

Record tar_entry : Type := mkEntry { te_hdr : list Z; te_name : list Z; te_dir : bool; te_data : list Z; te_pad : list Z }.

Definition padded (v : Z) : Z := 512 * ((v + 511) / 512).

(** A ustar header of the entry, and the padding of its data to a block. *)
Record entry_ok (e : tar_entry) : Prop := {
  eo_len : length (te_hdr e) = 512%nat;
  eo_bytes : Forall (fun c => 0 <= c < 2 ^ 8) (te_hdr e);
  eo_name : cstr (te_hdr e) = Some (te_name e) /\ 0 < zlen (te_name e) < 100;
  eo_magic : take 5 (drop 257 (te_hdr e)) = take 5 USTAR;
  eo_chksum : take 8 (drop 148 (te_hdr e)) = octal 6 (header_sum (te_hdr e)) ++ [0; 32];
  eo_size : take 12 (drop 124 (te_hdr e)) = octal 11 (zlen (te_data e)) ++ [0] /\ zlen (te_data e) < 8 ^ 11;
  eo_type : znth (te_hdr e) 156 = Some (if te_dir e then TAR_TYPE_DIR else TAR_TYPE_NORMAL);
  eo_pad : zlen (te_data e) + zlen (te_pad e) = padded (zlen (te_data e)) }.

Definition entry_bytes (e : tar_entry) : list Z := te_hdr e ++ te_data e ++ te_pad e.

Lemma hdr_zlen e : entry_ok e -> zlen (te_hdr e) = 512.
Proof. intros He. unfold zlen. now rewrite (eo_len _ He). Qed.

Lemma length_octal n : forall v, length (octal n v) = n.
Proof. induction n as [|n IH]; intros v; cbn [octal]; [reflexivity|]. rewrite length_app, IH. cbn. lia. Qed.

Lemma octal_digits n : forall v m rest acc, 0 <= v < 8 ^ Z.of_nat n -> 0 <= acc -> acc * 8 ^ Z.of_nat n + v < 2 ^ 64 ->
  octal_to_uint64 (octal n v ++ rest) (n + m) acc = octal_to_uint64 rest m (acc * 8 ^ Z.of_nat n + v).
Proof.
  induction n as [|n IH]; intros v m rest acc Hv Ha Hb; cbn [octal].
  { change (8 ^ Z.of_nat 0) with 1 in *. cbn [app]. f_equal. lia. }
  replace (Z.of_nat (S n)) with (Z.of_nat n + 1) in * by lia. rewrite Z.pow_add_r in * by lia. change (8 ^ 1) with 8 in *.
  pose proof (Z.div_mod v 8 ltac:(lia)) as Hd. pose proof (Z.mod_pos_bound v 8 ltac:(lia)) as Hm.
  assert (Hq : 0 <= v / 8 < 8 ^ Z.of_nat n) by (split; [apply Z.div_pos; lia|apply Z.div_lt_upper_bound; lia]).
  rewrite <- app_assoc. replace (S n + m)%nat with (n + S m)%nat by lia. rewrite IH by lia. cbn [app octal_to_uint64].
  destruct (Z.leb_spec 48 (48 + v mod 8)), (Z.leb_spec (48 + v mod 8) 55); try lia. cbn [andb]. f_equal. rewrite u64_id; lia.
Qed.

(** ** The checksum of the code *)
Fixpoint field_sum (i : Z) (l : list Z) : Z :=
  match l with
  | [] => 0
  | c :: r => (if (148 <=? i) && (i <? 156) then 32 else c) + field_sum (i + 1) r
  end.

Lemma checksum_field rest l : forall i sum, Forall (fun c => 0 <= c < 2 ^ 8) l -> 0 <= sum -> sum + 256 * zlen l < 2 ^ 32 ->
  checksum (length l) i (l ++ rest) sum = Ok (sum + field_sum i l).
Proof.
  induction l as [|c r IH]; intros i sum Hf Hs Hb; cbn [length app checksum field_sum]; [f_equal; lia|].
  apply Forall_cons_iff in Hf as [Hc Hf]. assert (Hz : zlen (c :: r) = zlen r + 1) by (unfold zlen; cbn [length]; lia). pose proof (zlen_nonneg r).
  change (148 + 8) with 156. destruct (_ && _); rewrite u32_id by lia; rewrite IH by (auto; lia); f_equal; lia.
Qed.

Lemma field_sum_app a : forall b i, field_sum i (a ++ b) = field_sum i a + field_sum (i + zlen a) b.
Proof.
  induction a as [|c r IH]; intros b i; cbn [app field_sum]; [change (zlen []) with 0; now rewrite Z.add_0_r|].
  rewrite IH. replace (i + zlen (c :: r)) with (i + 1 + zlen r) by (unfold zlen; cbn [length]; lia). lia.
Qed.

Lemma field_sum_out l : forall i, i + zlen l <= 148 \/ 156 <= i -> field_sum i l = sum_of l.
Proof.
  induction l as [|c r IH]; intros i Hi; [reflexivity|]. assert (Hz : zlen (c :: r) = zlen r + 1) by (unfold zlen; cbn [length]; lia). pose proof (zlen_nonneg r).
  cbn [field_sum sum_of foldr]. rewrite IH by lia. destruct (Z.leb_spec 148 i), (Z.ltb_spec i 156); try reflexivity; lia.
Qed.

Lemma field_sum_in l : forall i, 148 <= i -> i + zlen l <= 156 -> field_sum i l = 32 * zlen l.
Proof.
  induction l as [|c r IH]; intros i Hi Hl; [reflexivity|]. assert (Hz : zlen (c :: r) = zlen r + 1) by (unfold zlen; cbn [length]; lia). pose proof (zlen_nonneg r).
  cbn [field_sum]. rewrite IH by lia. destruct (Z.leb_spec 148 i), (Z.ltb_spec i 156); cbn [andb]; lia.
Qed.

Lemma sum_of_bound l : Forall (fun c => 0 <= c < 2 ^ 8) l -> 0 <= sum_of l <= 255 * zlen l.
Proof.
  induction 1 as [|c r Hc Hr IH]; [change (zlen []) with 0; cbn; lia|]. assert (Hz : zlen (c :: r) = zlen r + 1) by (unfold zlen; cbn [length]; lia).
  cbn [sum_of foldr]. fold (sum_of r). lia.
Qed.

Lemma field_at (hdr rest : list Z) off n (f : list Z) : (off + n <= length hdr)%nat -> take n (drop off hdr) = f -> drop off (hdr ++ rest) = f ++ drop (off + n) hdr ++ rest.
Proof.
  intros Hl <-. rewrite drop_app_le by lia. rewrite <- (take_drop n (drop off hdr)) at 1. now rewrite drop_drop, <- app_assoc.
Qed.

Lemma header_sum_code hdr rest : length hdr = 512%nat -> Forall (fun c => 0 <= c < 2 ^ 8) hdr -> checksum 512 0 (hdr ++ rest) 0 = Ok (header_sum hdr).
Proof.
  intros Hl Hb. rewrite <- Hl, checksum_field by (auto; unfold zlen; lia). f_equal. rewrite Z.add_0_l. unfold header_sum.
  rewrite <- (take_drop 148 hdr) at 1. rewrite <- (take_drop 8 (drop 148 hdr)) at 1. rewrite drop_drop, !field_sum_app.
  assert (H1 : zlen (take 148 hdr) = 148) by (unfold zlen; rewrite length_take; lia).
  assert (H2 : zlen (take 8 (drop 148 hdr)) = 8) by (unfold zlen; rewrite length_take, length_drop; lia).
  rewrite H1, H2. rewrite field_sum_out, field_sum_in, field_sum_out by lia. rewrite H2. change (148 + 8)%nat with 156%nat. lia.
Qed.

(** The code accepts the header of an entry. *)
Lemma memcmp_same n : forall s1 s2, take n s1 = take n s2 -> (n <= length s1)%nat -> (n <= length s2)%nat -> memcmp s1 s2 n = Ok 0.
Proof.
  induction n as [|n IH]; intros [|a r1] [|b r2] He H1 H2; cbn in H1, H2; try lia; try reflexivity. cbn in He. injection He as -> He.
  cbn [memcmp]. rewrite Z.eqb_refl. cbn [negb]. apply IH; [exact He|lia..].
Qed.

Lemma entry_header e rest : entry_ok e -> let hdr := te_hdr e ++ rest in
  (exists c, load hdr 0 = Ok c /\ c <> 0) /\ memcmp (drop 257 hdr) USTAR 5 = Ok 0 /\ verify_checksum hdr = Ok true /\
  octal_to_uint64 (drop 124 hdr) 12 0 = Ok (zlen (te_data e)) /\ load hdr 156 = Ok (if te_dir e then TAR_TYPE_DIR else TAR_TYPE_NORMAL).
Proof.
  intros [Hl Hb [Hn Hn'] Hm Hc [Hs Hs'] Ht _] hdr. subst hdr. repeat split.
  - destruct (te_hdr e) as [|c r]; [discriminate|]. exists c. split; [reflexivity|]. cbn [cstr] in Hn. intros ->. cbn in Hn. injection Hn as Hn. rewrite <- Hn in Hn'. change (zlen []) with 0 in Hn'. lia.
  - apply memcmp_same; [|rewrite length_drop, length_app; lia|cbn; lia]. now rewrite (field_at _ rest 257 5 (take 5 USTAR)) by (exact Hm || lia).
  - unfold verify_checksum. rewrite (field_at (te_hdr e) rest 148 8 _ ltac:(lia) Hc), <- app_assoc. rewrite header_sum_code by assumption.
    assert (Hsum : 0 <= header_sum (te_hdr e) < 8 ^ 6).
    { unfold header_sum. pose proof (sum_of_bound _ (Forall_take _ 148 _ Hb)) as H1. pose proof (sum_of_bound _ (Forall_drop _ 156 _ Hb)) as H2.
      unfold zlen in H1, H2. rewrite length_take in H1. rewrite length_drop in H2. lia. }
    pose proof (fun r => octal_digits 6 (header_sum (te_hdr e)) 2 r 0 ltac:(lia) ltac:(lia) ltac:(lia)) as Ho. change (6 + 2)%nat with 8%nat in Ho. rewrite Ho. cbn [app octal_to_uint64 andb orb obind].
    change (Z.of_nat 6) with 6. rewrite Z.mul_0_l, Z.add_0_l. cbn. rewrite u32_id, Z.eqb_refl by lia. reflexivity.
  - rewrite (field_at (te_hdr e) rest 124 12 _ ltac:(lia) Hs), <- app_assoc. pose proof (zlen_nonneg (te_data e)). 
    pose proof (fun r => octal_digits 11 (zlen (te_data e)) 1 r 0 ltac:(lia) ltac:(lia) ltac:(lia)) as Ho. change (11 + 1)%nat with 12%nat in Ho. rewrite Ho. reflexivity.
  - unfold load. rewrite znth_app by lia. destruct (Z.ltb_spec 156 (zlen (te_hdr e))); [now rewrite Ht|unfold zlen in *; lia].
Qed.

(** ** Mounting *)
Section Archive.
Context (start_phys : Z) (archive : list Z).
Hypothesis Hstart : 0 <= start_phys.
Hypothesis Hend : start_phys + zlen archive < 2 ^ 64 - HIGHER_HALF_BASE.

Abbreviation end_phys := (start_phys + zlen archive).
Abbreviation at_phys := (at_phys start_phys archive).
Abbreviation mount_loop := (mount_loop start_phys end_phys archive).

(** A registered file: a string for its name, and data inside of the archive. *)
Record file_in (f : tarfs_file) : Prop := {
  fi_name : zlen (tf_name f) = 256 /\ exists t, cstr (tf_name f) = Some t;
  fi_type : tf_type f = VNODE_TYPE_FILE;
  fi_size : 0 <= tf_size f;
  fi_data : exists off, tf_data_offset f = phys_to_virt (start_phys + off) /\ 0 <= off /\ off + tf_size f <= zlen archive }.

Lemma virt_offset off : 0 <= off <= zlen archive -> phys_to_virt (start_phys + off) - phys_to_virt start_phys = off.
Proof.
  intros H1. unfold phys_to_virt. unfold HIGHER_HALF_BASE in *. rewrite !u64_id by lia. lia.
Qed.

Lemma file_read f off offset count : 0 <= tf_size f -> tf_data_offset f = phys_to_virt (start_phys + off) -> 0 <= off -> off + tf_size f <= zlen archive ->
  0 <= offset < 2 ^ 64 -> 0 <= count ->
  tarfs_read start_phys archive f offset count =
  Ok (if tf_size f <=? offset then mkRead 0 [] offset
      else mkRead 0 (slice archive (off + offset) (Z.min count (tf_size f - offset))) (offset + Z.min count (tf_size f - offset))).
Proof.
  intros Hs Ho H1 H2 Hoff Hc. unfold tarfs_read, HIGHER_HALF_BASE in *.
  destruct (Z.leb_spec (tf_size f) offset); [reflexivity|]. rewrite (u64_id (tf_size f - offset)) by lia.
  assert (Hmin : (if count <? tf_size f - offset then count else tf_size f - offset) = Z.min count (tf_size f - offset))
    by (destruct (Z.ltb_spec count (tf_size f - offset)); lia).
  rewrite Hmin, Ho, virt_offset by lia. rewrite take_bytes_ok by lia. cbn [obind]. rewrite u64_id by lia. reflexivity.
Qed.

Lemma header_here cur : start_phys <= cur -> cur + 512 <= end_phys ->
  (512 <= length (at_phys cur))%nat.
Proof. intros H1 H2. unfold Tarfs.at_phys. rewrite length_drop. unfold zlen in *. lia. Qed.

Lemma padded_bounds v : v <= padded v < v + 512.
Proof. unfold padded. pose proof (Z.div_mod (v + 511) 512 ltac:(lia)). pose proof (Z.mod_pos_bound (v + 511) 512). lia. Qed.

Lemma padded_code v : 0 <= v < 2 ^ 63 -> Z.land (v +64 511) (u64 (Z.lnot 511)) = padded v.
Proof.
  intros Hv. rewrite u64_id by lia. change (Z.lnot 511) with (Z.lnot (2 ^ 9 - 1)). rewrite land_not_low by lia. change (2 ^ 9) with 512.
  unfold padded. pose proof (Z.div_mod (v + 511) 512 ltac:(lia)). lia.
Qed.

Lemma load_here m i : 0 <= i < zlen m -> exists c, load m i = Ok c /\ znth m i = Some c.
Proof. intros Hi. unfold load. destruct (znth_is_Some m i Hi) as [c ->]. eauto. Qed.

(** What the code reads of a header: the test of its fields, and its size. *)
Lemma header_read hdr : (512 <= length hdr)%nat ->
  (exists c, load hdr 0 = Ok c) /\ (exists d, memcmp (drop 257 hdr) USTAR 5 = Ok d) /\ (exists b, verify_checksum hdr = Ok b) /\
  (exists v, octal_to_uint64 (drop 124 hdr) 12 0 = Ok v /\ 0 <= v < 2 ^ 36) /\ (exists c, load hdr 156 = Ok c).
Proof.
  intros Hl. assert (Hz : 512 <= zlen hdr) by (unfold zlen; lia). repeat split.
  - destruct (load_here hdr 0) as (c & ? & _); [lia|eauto].
  - apply memcmp_ok; [rewrite length_drop; lia|cbn; lia].
  - now apply verify_checksum_ok.
  - destruct (octal_ok 12 (drop 124 hdr) 0 0) as (v & -> & Hv); [rewrite length_drop; lia|lia..|eauto].
  - destruct (load_here hdr 156) as (c & ? & _); [lia|eauto].
Qed.

(** The loop ends, registers at most 128 files, and only files inside of the archive. *)
Lemma mount_loop_safe fuel : forall cur files,
  start_phys <= cur <= end_phys -> end_phys - cur < 512 * (Z.of_nat fuel + 1) -> zlen files <= MAX_TARFS_FILES -> Forall file_in files ->
  exists err files', mount_loop fuel cur files = Ok (err, files') /\ (err = 0 \/ err = - EINVAL) /\ zlen files' <= MAX_TARFS_FILES /\ Forall file_in files'.
Proof.
  assert (Hz := zlen_nonneg archive). unfold HIGHER_HALF_BASE in Hend.
  induction fuel as [|fuel IH]; intros cur files Hcur Hfuel Hn Hf; cbn [Tarfs.mount_loop]; rewrite (u64_id (cur + 512)) by lia;
    (destruct (Z.leb_spec (cur + 512) end_phys) as [Hle|]; [|eauto 10]); [lia|].
  pose proof (header_here cur ltac:(lia) Hle) as Hh. destruct (header_read _ Hh) as ((c & ->) & (d & ->) & (b & ->) & (v & -> & Hv) & (ty & ->)). cbn [obind].
  destruct (c =? 0); [eauto 10|]. destruct (negb (d =? 0)); [eauto 10|]. destruct (negb b); [eauto 10|].
  pose proof (padded_bounds v) as Hpad. rewrite padded_code, (u64_id (cur + 512 + padded v)) by lia.
  destruct (Z.ltb_spec end_phys (cur + 512 + padded v)); [cbn [orb]; eauto 10|]. destruct (cur + 512 + padded v <? cur + 512); [cbn [orb]; eauto 10|]. cbn [orb].
  destruct (_ || _); [|destruct (_ =? TAR_TYPE_DIR); [apply IH; [lia..|exact Hf]|eauto 10]].
  destruct (Z.leb_spec MAX_TARFS_FILES (zlen files)); [eauto 10|].
  destruct (name_copied (at_phys cur)) as (name & En & Hl & Ht & _); [lia|].
  destruct (strncpy (replicate 256 0) 0 (at_phys cur) 255) as [nm|]; [|discriminate]. cbn [obind] in En |- *. rewrite En. cbn [obind].
  apply IH; [lia|lia|rewrite zlen_app; unfold MAX_TARFS_FILES in *; change (zlen [_]) with 1; lia|].
  apply Forall_app. split; [exact Hf|]. constructor; [|constructor]. constructor; cbn; [now split|reflexivity|lia|].
  exists (cur + 512 - start_phys). split; [f_equal; lia|lia].
Qed.

Lemma find_file_ok files name t : Forall file_in files -> cstr name = Some t -> forall i,
  exists r, find_file files i name = Ok r /\
    match r with
    | None => Forall (fun f => cstr (tf_name f) <> Some t) files
    | Some j => exists f, 0 <= j - i /\ znth files (j - i) = Some f /\ cstr (tf_name f) = Some t /\
                  forall k g, 0 <= k < j - i -> znth files k = Some g -> cstr (tf_name g) <> Some t
    end.
Proof.
  intros Hf Hn. induction Hf as [|f r Hf Hr IH]; intros i; cbn [find_file]; [exists None; split; [reflexivity|constructor]|].
  destruct (fi_name _ Hf) as [_ [u Hu]]. destruct (strcmp_spec _ _ _ _ Hu Hn) as (d & -> & Hd). cbn [obind].
  assert (Hcons : forall (l : list tarfs_file) k, 0 < k -> znth (f :: l) k = znth l (k - 1)).
  { intros l k Hk. replace k with (Z.of_nat (S (Z.to_nat (k - 1)))) by lia. rewrite znth_nat. transitivity (l !! Z.to_nat (k - 1)); [reflexivity|].
    rewrite <- znth_nat. f_equal. lia. }
  destruct (Z.eqb_spec d 0) as [E|E].
  - exists (Some i). split; [reflexivity|]. exists f. rewrite Z.sub_diag. apply Hd in E as ->. repeat split; [lia|exact Hu|lia].
  - assert (Hne : cstr (tf_name f) <> Some t) by (rewrite Hu; intros [= ->]; now apply E, Hd).
    destruct (IH (i + 1)) as (x & -> & Hx). exists x. split; [reflexivity|]. destruct x as [j|]; [|now constructor].
    destruct Hx as (g & Hj & Hg & Hgn & Hfirst). exists g. repeat split; [lia| |exact Hgn|].
    + rewrite Hcons by lia. rewrite <- Hg. f_equal. lia.
    + intros k h Hk Hh. destruct (Z.eq_dec k 0) as [->|].
      * change (znth (f :: r) 0) with (Some f) in Hh. now injection Hh as <-.
      * rewrite Hcons in Hh by lia. apply (Hfirst (k - 1) h); [lia|exact Hh].
Qed.

(** The registered file of an entry. *)
Record holds (e : tar_entry) (f : tarfs_file) : Prop := {
  ho_in : file_in f;
  ho_name : cstr (tf_name f) = Some (te_name e);
  ho_size : tf_size f = zlen (te_data e);
  ho_data : exists off, tf_data_offset f = phys_to_virt (start_phys + off) /\ 0 <= off /\ off + zlen (te_data e) <= zlen archive /\
    slice archive off (zlen (te_data e)) = te_data e }.

Definition regular (e : tar_entry) : bool := negb (te_dir e).

Lemma cstr_ext p q t : cstr p = Some t -> cstr (p ++ q) = Some t.
Proof.
  revert t. induction p as [|c p IH]; intros t; cbn [cstr app]; [discriminate|]. destruct (c =? 0); [auto|].
  destruct (cstr p) as [u|]; [|discriminate]. intros [= <-]. now rewrite (IH u).
Qed.

Lemma slice_mid (a b c : list Z) : slice (a ++ b ++ c) (zlen a) (zlen b) = b.
Proof. unfold slice, zlen. rewrite !Nat2Z.id, drop_app_length, take_app_length. reflexivity. Qed.

(** The end of an archive: less than a header, or a header that starts with a zero. *)
Definition trailer (t : list Z) : Prop := zlen t < 512 \/ exists r, t = 0 :: r.

Lemma mount_entry e rest fuel pre files : entry_ok e -> archive = pre ++ entry_bytes e ++ rest -> te_dir e = true \/ zlen files < MAX_TARFS_FILES ->
  exists fs, mount_loop (S fuel) (start_phys + zlen pre) files = mount_loop fuel (start_phys + zlen (pre ++ entry_bytes e)) (files ++ fs) /\
    (if te_dir e then fs = [] else exists f, fs = [f] /\ holds e f).
Proof.
  intros He Ha Hn. unfold HIGHER_HALF_BASE in Hend. set (body := te_data e ++ te_pad e).
  pose proof (hdr_zlen _ He) as Hhd.
  assert (Hb : zlen body = padded (zlen (te_data e))) by (unfold body; rewrite zlen_app; apply (eo_pad _ He)).
  assert (Hz : zlen archive = zlen pre + 512 + zlen body + zlen rest) by (rewrite Ha; unfold entry_bytes; fold body; rewrite !zlen_app; lia).
  pose proof (zlen_nonneg pre). pose proof (zlen_nonneg body). pose proof (zlen_nonneg rest). pose proof (zlen_nonneg (te_data e)).
  assert (Hat : at_phys (start_phys + zlen pre) = te_hdr e ++ body ++ rest).
  { unfold Tarfs.at_phys. replace (Z.to_nat (start_phys + zlen pre - start_phys)) with (length pre) by (unfold zlen; lia).
    rewrite Ha, drop_app_length. unfold entry_bytes. fold body. now rewrite <- app_assoc. }
  destruct (entry_header e (body ++ rest) He) as ((c & Hc & Hc0) & Hm & Hv & Ho & Hty).
  destruct (name_copied (te_hdr e ++ body ++ rest)) as (name & En & Hl & Hs & Hname); [rewrite length_app, (eo_len _ He); lia|].
  cbn [Tarfs.mount_loop]. rewrite (u64_id (_ + 512)) by lia. destruct (Z.leb_spec (start_phys + zlen pre + 512) end_phys); [|lia].
  rewrite Hat, Hc, Hm, Hv, Ho, Hty. cbn [obind]. destruct (Z.eqb_spec c 0); [lia|]. cbn [negb Z.eqb].
  pose proof (proj2 (eo_size _ He)). rewrite padded_code by lia. rewrite <- Hb, (u64_id (_ + zlen body)) by lia.
  destruct (Z.ltb_spec end_phys (start_phys + zlen pre + 512 + zlen body)); [lia|].
  destruct (Z.ltb_spec (start_phys + zlen pre + 512 + zlen body) (start_phys + zlen pre + 512)); [lia|]. cbn [orb].
  replace (start_phys + zlen (pre ++ entry_bytes e)) with (start_phys + zlen pre + 512 + zlen body) by (unfold entry_bytes; fold body; rewrite !zlen_app; lia).
  destruct (te_dir e); [exists []; rewrite app_nil_r; split; reflexivity|]. destruct Hn as [|Hn]; [discriminate|]. cbn [Z.eqb TAR_TYPE_NORMAL orb].
  destruct (Z.leb_spec MAX_TARFS_FILES (zlen files)); [lia|]. destruct (strncpy _ 0 _ 255) as [nm|]; [|discriminate]. cbn [obind] in En |- *. rewrite En. cbn [obind].
  eexists. split; [reflexivity|]. eexists. split; [reflexivity|]. pose proof (padded_bounds (zlen (te_data e))).
  assert (Hdata : phys_to_virt (start_phys + zlen pre + 512) = phys_to_virt (start_phys + (zlen pre + 512))) by (f_equal; lia).
  constructor; cbn; [constructor; cbn; [now split|reflexivity|lia|]| |reflexivity|]; [exists (zlen pre + 512); split; [exact Hdata|lia]| |].
  - destruct (eo_name _ He). apply Hname; [|lia]. now apply cstr_ext.
  - exists (zlen pre + 512). split; [exact Hdata|]. split; [lia|]. split; [lia|]. rewrite Ha. unfold entry_bytes. rewrite <- Hhd, <- zlen_app, <- !app_assoc, (app_assoc pre). apply slice_mid.
Qed.

Lemma mount_loop_entries t es : Forall entry_ok es -> trailer t -> forall fuel pre files,
  archive = pre ++ concat (map entry_bytes es) ++ t -> zlen archive - zlen pre < 512 * (Z.of_nat fuel + 1) ->
  zlen files + zlen (List.filter regular es) <= MAX_TARFS_FILES ->
  exists fs, mount_loop fuel (start_phys + zlen pre) files = Ok (0, files ++ fs) /\ Forall2 holds (List.filter regular es) fs.
Proof.
  intros Hes Ht. unfold HIGHER_HALF_BASE in Hend. induction Hes as [|e es He Hes IH]; intros fuel pre files Ha Hfuel Hn.
  - cbn [map concat app] in Ha. exists []. rewrite app_nil_r. split; [|constructor]. assert (Hz : zlen archive = zlen pre + zlen t) by (rewrite Ha; apply zlen_app).
    pose proof (zlen_nonneg pre). pose proof (zlen_nonneg t). destruct fuel as [|fuel]; cbn [Tarfs.mount_loop]; rewrite (u64_id (_ + 512)) by lia;
      (destruct (Z.leb_spec (start_phys + zlen pre + 512) end_phys); [|reflexivity]); [lia|].
    destruct Ht as [Ht|[r ->]]; [lia|]. unfold Tarfs.at_phys. replace (Z.to_nat (start_phys + zlen pre - start_phys)) with (length pre) by (unfold zlen; lia).
    rewrite Ha, drop_app_length. reflexivity.
  - cbn [map concat] in Ha. rewrite <- app_assoc in Ha.
    assert (Hlen : 512 <= zlen (entry_bytes e)).
    { unfold entry_bytes. rewrite !zlen_app. pose proof (zlen_nonneg (te_data e)). pose proof (zlen_nonneg (te_pad e)). rewrite hdr_zlen by exact He. lia. }
    assert (Hz : zlen pre + zlen (entry_bytes e) <= zlen archive) by (rewrite Ha, !zlen_app; pose proof (zlen_nonneg (concat (map entry_bytes es))); pose proof (zlen_nonneg t); lia).
    destruct fuel as [|fuel]; [lia|]. cbn [List.filter] in *. pose proof (zlen_nonneg (List.filter regular es)).
    assert (Hcons : forall (x : tar_entry) l, zlen (x :: l) = zlen l + 1) by (intros; unfold zlen; cbn [length]; lia).
    destruct (mount_entry e _ fuel pre files He Ha) as (fs & -> & Hfs). { unfold regular in Hn at 1. destruct (te_dir e); [now left|right]. cbn [negb] in Hn. rewrite Hcons in Hn. lia. }
    rewrite app_assoc in Ha. destruct (IH fuel _ (files ++ fs) Ha) as (gs & -> & Hgs); [rewrite zlen_app; lia| |].
    + unfold regular in Hn at 1. destruct (te_dir e); cbn [negb] in Hn; [subst fs; now rewrite app_nil_r|]. destruct Hfs as (f & -> & _). rewrite Hcons in Hn. rewrite zlen_app. change (zlen [f]) with 1. lia.
    + exists (fs ++ gs). split; [now rewrite app_assoc|]. unfold regular at 1. destruct (te_dir e); cbn [negb]; [now subst fs|]. destruct Hfs as (f & -> & Hf). now constructor.
Qed.

End Archive.
