(* ===== verification/TarfsTheorems.v ===== *)
(** * Theorems about the tar file system

    The properties of [tarfs_mount] and of the operations on what it mounted, with
    their witnesses. *)

From S2P Require Import Prelude Bitmap Interfaces CString Kfs KfsCheck VfsProofs Vmm Elf ElfProofs Tarfs TarfsProofs.

(** ** Directory entries *)
Lemma copy_name_ok src t : cstr src = Some t -> zlen t <= 255 -> forall n i dst,
  0 <= i -> i + Z.of_nat n = 255 -> i <= zlen t -> zlen dst = 256 -> (forall k, 0 <= k < i -> znth dst k = znth t k) ->
  exists dst', copy_name n i src dst = Ok dst' /\ zlen dst' = 256 /\ cstr dst' = Some t.
Proof.
  intros Hs Hl. pose proof (cstr_nonzero _ _ Hs) as Hnz. destruct (cstr_split _ _ Hs) as [q ->].
  assert (Hfin : forall dst, zlen dst = 256 -> (forall k, 0 <= k < zlen t -> znth dst k = znth t k) ->
            exists dst', store dst (zlen t) 0 = Ok dst' /\ zlen dst' = 256 /\ cstr dst' = Some t).
  { intros dst Hd Hk. pose proof (zlen_nonneg t). rewrite store_ok by lia. eexists. split; [reflexivity|]. split; [now rewrite zlen_zset|].
    apply cstr_znth; [exact Hnz| |apply znth_zset_eq; lia]. intros k Hk'. rewrite znth_zset_ne by lia. now apply Hk. }
  induction n as [|n IH]; intros i dst Hi Hn Hit Hd Hk; cbn [copy_name].
  { replace i with (zlen t) in * by lia. now apply Hfin. }
  unfold load. rewrite znth_app by lia. destruct (Z.ltb_spec i (zlen t)).
  - destruct (znth_is_Some t i ltac:(lia)) as [c Hc]. rewrite Hc. cbn [of_opt obind].
    assert (c <> 0) by exact (Forall_znth _ _ _ _ Hnz Hc). destruct (Z.eqb_spec c 0); [done|]. rewrite store_ok by lia. cbn [obind].
    apply IH; [lia..|now rewrite zlen_zset|]. intros k Hk'. destruct (Z.eq_dec k i) as [->|]; [rewrite znth_zset_eq by lia; now rewrite Hc|].
    rewrite znth_zset_ne by lia. apply Hk. lia.
  - replace i with (zlen t) in * by lia. rewrite Z.sub_diag. cbn. now apply Hfin.
Qed.

Lemma getdents_ok start archive files offset count name f : Forall (file_in start archive) files -> zlen files <= MAX_TARFS_FILES ->
  znth files offset = Some f -> sizeof_dirent <= count -> zlen name = 256 ->
  exists name', tarfs_getdents files offset count name = Ok (inr (sizeof_dirent, Some (mkDirentOut (offset + 1) DT_REG sizeof_dirent name')), offset + 1) /\
    zlen name' = 256 /\ cstr name' = cstr (tf_name f).
Proof.
  intros Hf Hn Hi Hc Hname. pose proof (znth_Some _ _ _ Hi). unfold MAX_TARFS_FILES in Hn.
  pose proof (Forall_znth _ _ _ _ Hf Hi) as Hff.
  destruct (fi_name _ _ _ Hff) as [Hl [t Ht]]. pose proof (cstr_length _ _ Ht). unfold tarfs_getdents.
  destruct (Z.ltb_spec count sizeof_dirent); [lia|]. destruct (Z.leb_spec (zlen files) offset); [lia|]. rewrite Hi. cbn [of_opt obind].
  destruct (copy_name_ok _ _ Ht ltac:(unfold zlen in *; lia) 255 0 name) as (n' & -> & Hl' & Hn'); [lia|lia|apply zlen_nonneg|exact Hname|lia|].
  cbn [obind]. rewrite (fi_type _ _ _ Hff), (u64_id (offset + 1)) by lia. exists n'. split; [reflexivity|]. split; [exact Hl'|]. now rewrite Hn', Ht.
Qed.

(** ** Any archive *)

(** A file of a mounted archive: it can be read at any offset, which gives at most what
    is left of it, and its name is a string. *)
Definition readable (start : Z) (archive : list Z) (f : tarfs_file) : Prop :=
  (exists t, cstr (tf_name f) = Some t) /\
  forall offset count, 0 <= offset < 2 ^ 64 -> 0 <= count ->
    exists data offset', tarfs_read start archive f offset count = Ok (mkRead 0 data offset') /\
      zlen data = Z.max 0 (Z.min count (tf_size f - offset)) /\ offset' = offset + zlen data.

Lemma file_readable start archive f : 0 <= start -> start + zlen archive < 2 ^ 64 - HIGHER_HALF_BASE -> file_in start archive f -> readable start archive f.
Proof.
  intros H0 He Hf. split; [apply (fi_name _ _ _ Hf)|]. intros offset count Ho Hc. destruct (fi_data _ _ _ Hf) as (off & Hoff & Hb1 & Hb2).
  pose proof (fi_size _ _ _ Hf). rewrite (file_read _ _ H0 He f off) by assumption.
  destruct (Z.leb_spec (tf_size f) offset); (eexists _, _; split; [reflexivity|]); [change (zlen []) with 0; lia|].
  rewrite zlen_slice by lia. lia.
Qed.

(** The lookup of a name: the first file with it, where there is memory for its vnode. *)
Definition looked_up {A} `{KernelAlloc A} (files : list tarfs_file) (t : list Z) (a : A) (r : (Z + Z) * A) : Prop :=
  (Forall (fun f => cstr (tf_name f) <> Some t) files /\ r = (inl (- ENOENT), a)) \/
  exists i f, znth files i = Some f /\ cstr (tf_name f) = Some t /\ (forall k g, 0 <= k < i -> znth files k = Some g -> cstr (tf_name g) <> Some t) /\
    r = (if fst (ka_alloc sizeof_vnode a) =? 0 then inl (- ENOMEM) else inr i, snd (ka_alloc sizeof_vnode a)).

Lemma lookup_ok {A} `{KernelAlloc A} start archive files name t (a : A) : Forall (file_in start archive) files -> cstr name = Some t ->
  exists r, tarfs_lookup files name a = Ok r /\ looked_up files t a r.
Proof.
  intros Hf Hn. unfold tarfs_lookup. destruct (find_file_ok _ _ files name t Hf Hn 0) as (r & -> & Hr). cbn [obind]. destruct r as [i|].
  - destruct Hr as (f & Hi & Hif & Hfn & Hfirst). rewrite Z.sub_0_r in *. destruct (ka_alloc sizeof_vnode a) as [child a'] eqn:E.
    eexists. split; [reflexivity|]. right. exists i, f. rewrite E. auto.
  - eexists. split; [reflexivity|]. left. auto.
Qed.

Lemma enough_fuel (l : list Z) : zlen l < 512 * (Z.of_nat (Z.to_nat (zlen l / 512)) + 1).
Proof.
  pose proof (zlen_nonneg l). pose proof (Z.div_mod (zlen l) 512 ltac:(lia)). pose proof (Z.mod_pos_bound (zlen l) 512 ltac:(lia)).
  assert (0 <= zlen l / 512) by (apply Z.div_pos; lia). lia.
Qed.

(** What the operations on mounted files do. *)
Record mounted {A} `{KernelAlloc A} (start : Z) (archive : list Z) (files : list tarfs_file) (a : A) : Prop := {
  mt_count : zlen files <= MAX_TARFS_FILES;
  mt_read : Forall (readable start archive) files;
  mt_lookup name t : cstr name = Some t -> exists r, tarfs_lookup files name a = Ok r /\ looked_up files t a r;
  mt_getdents offset count name f : znth files offset = Some f -> sizeof_dirent <= count -> zlen name = 256 ->
    exists name', tarfs_getdents files offset count name = Ok (inr (sizeof_dirent, Some (mkDirentOut (offset + 1) DT_REG sizeof_dirent name')), offset + 1) /\
      cstr name' = cstr (tf_name f) }.

Lemma files_mounted {A} `{KernelAlloc A} start archive files (a : A) : 0 <= start -> start + zlen archive < 2 ^ 64 - HIGHER_HALF_BASE ->
  zlen files <= MAX_TARFS_FILES -> Forall (file_in start archive) files -> mounted start archive files a.
Proof.
  intros Hs He Hn Hf. constructor; [exact Hn|eapply Forall_impl; [|exact Hf]; intros f; now apply file_readable|..].
  - intros name t Ht. eapply lookup_ok; eassumption.
  - intros offset count name f Hi Hc Hl. destruct (getdents_ok _ _ _ _ _ _ _ Hf Hn Hi Hc Hl) as (n' & ? & _ & ?). eauto.
Qed.

(** C21: mounting is safe whatever the bytes are: for every archive in memory that the
    kernel can address, [tarfs_mount] returns without an access outside of the archive,
    with 0 or -EINVAL (always -EINVAL when a root is mounted already); at most 128 files
    are registered; every one of them can be read at every offset without an access
    outside of the archive, up to its size; every name can be looked up, which gives
    the first file with it; and every directory entry carries the name of its file. *)
Theorem tarfs_mount_safe {A} `{KernelAlloc A} start archive root files0 (a : A)
  (Hs : 0 <= start) (Hz : 0 < zlen archive) (He : start + zlen archive < 2 ^ 64 - HIGHER_HALF_BASE) :
  exists err files, tarfs_mount start (start + zlen archive) archive root files0 = Ok (err, files) /\
    (err = 0 /\ root = false \/ err = - EINVAL) /\ mounted start archive files a.
Proof.
  destruct (mount_loop_safe start archive Hs He (Z.to_nat (zlen archive / 512)) start []) as (err & files & E & Herr & Hn & Hf);
    [lia|pose proof (enough_fuel archive); lia|change (zlen []) with 0; unfold MAX_TARFS_FILES; lia|constructor|].
  unfold tarfs_mount. destruct (Z.leb_spec (start + zlen archive) start); [lia|]. rewrite E. cbn [obind].
  pose proof (files_mounted start archive files a Hs He Hn Hf).
  destruct (Z.eqb_spec err 0) as [->|]; eexists _, _; (split; [reflexivity|]); split; auto; [destruct root; auto|tauto].
Qed.

(** ** Archives of files *)
Lemma slice_slice (m : list Z) p n q k : 0 <= p -> 0 <= q -> 0 <= k -> q + k <= n -> p + n <= zlen m -> slice (slice m p n) q k = slice m (p + q) k.
Proof.
  intros. apply znth_ext; [rewrite !zlen_slice; rewrite ?zlen_slice; lia|]. intros i Hi. rewrite !zlen_slice in Hi by (rewrite ?zlen_slice; lia).
  rewrite !znth_slice by lia. f_equal. lia.
Qed.

(** A registered file with the name and the content of an entry, at every offset. *)
Definition has_content (start : Z) (archive : list Z) (e : tar_entry) (f : tarfs_file) : Prop :=
  cstr (tf_name f) = Some (te_name e) /\
  forall offset count, 0 <= offset < 2 ^ 64 -> 0 <= count ->
    tarfs_read start archive f offset count =
    Ok (let n := Z.max 0 (Z.min count (zlen (te_data e) - offset)) in mkRead 0 (slice (te_data e) offset n) (offset + n)).

Lemma holds_content start archive e f : 0 <= start -> start + zlen archive < 2 ^ 64 - HIGHER_HALF_BASE -> holds start archive e f -> has_content start archive e f.
Proof.
  intros Hs He [Hin Hname Hsize (off & Hoff & H1 & H2 & Hdata)]. split; [exact Hname|]. intros offset count Ho Hc. pose proof (zlen_nonneg (te_data e)).
  rewrite (file_read _ _ Hs He f off) by (assumption || lia). rewrite Hsize. destruct (Z.leb_spec (zlen (te_data e)) offset); cbn zeta.
  - replace (Z.max 0 (Z.min count (zlen (te_data e) - offset))) with 0 by lia. now rewrite Z.add_0_r.
  - rewrite Z.max_r by lia. do 2 f_equal. rewrite <- Hdata at 2. rewrite slice_slice by lia. reflexivity.
Qed.

(** C22: mounting gives back the files that were archived: for every list of ustar
    entries (each with its name, its content and the checksum of its header, files and
    directories in any order, at most 128 files), [tarfs_mount] succeeds on their
    archive and registers exactly the files, in order; each has its name, and
    [tarfs_read] at any offset returns the bytes of its content there. *)
Theorem tarfs_roundtrip start es t files0
  (Hs : 0 <= start) (Hz : 0 < zlen (concat (map entry_bytes es) ++ t)) (He : start + zlen (concat (map entry_bytes es) ++ t) < 2 ^ 64 - HIGHER_HALF_BASE)
  (Hes : Forall entry_ok es) (Ht : trailer t) (Hn : zlen (List.filter regular es) <= MAX_TARFS_FILES) :
  let archive := concat (map entry_bytes es) ++ t in
  exists files, tarfs_mount start (start + zlen archive) archive false files0 = Ok (0, files) /\
    Forall2 (has_content start archive) (List.filter regular es) files.
Proof.
  intros archive. fold archive in Hz. destruct (mount_loop_entries start archive Hs He t es Hes Ht (Z.to_nat (zlen archive / 512)) [] []) as (fs & E & Hfs);
    [reflexivity|pose proof (enough_fuel archive); change (zlen (@nil Z)) with 0; lia|exact Hn|].
  change (zlen []) with 0 in E. rewrite Z.add_0_r in E. exists fs. split.
  - unfold tarfs_mount. destruct (Z.leb_spec (start + zlen archive) start); [lia|]. rewrite E. reflexivity.
  - eapply Forall2_impl; [|exact Hfs]. intros e f. now apply holds_content.
Qed.

(** ** A small archive: a directory "d/" and a file "d/a" with the content "hi" *)
Definition header (name : list Z) (size type chk : Z) : list Z :=
  name ++ replicate (124 - length name) 0 ++ octal 11 size ++ [0] ++ replicate 12 0 ++ octal 6 chk ++ [0; 32] ++ [type] ++ replicate 100 0 ++ USTAR ++ replicate 249 0.

Definition entries : list tar_entry :=
  [mkEntry (header [100; 47] 0 TAR_TYPE_DIR 1543) [100; 47] true [] [];
   mkEntry (header [100; 47; 97] 2 TAR_TYPE_NORMAL 1637) [100; 47; 97] false [104; 105] (replicate 510 0)].

Lemma entries_ok : Forall entry_ok entries.
Proof.
  assert (Hb : forall l, forallb (fun c => (0 <=? c) && (c <? 2 ^ 8)) l = true -> Forall (fun c => 0 <= c < 2 ^ 8) l).
  { intros l Hl. rewrite forallb_forall in Hl. apply List.Forall_forall. intros c Hc. specialize (Hl c Hc). lia. }
  constructor; [|constructor; [|constructor]];
    (constructor; [reflexivity|apply Hb; reflexivity|repeat split; reflexivity|reflexivity|reflexivity|split; reflexivity|reflexivity|reflexivity]).
Qed.

Lemma tarfs_mount_safe_witness :
  exists err files, tarfs_mount 4096 (4096 + zlen [7; 0; 255]) [7; 0; 255] false [] = Ok (err, files) /\
    (err = 0 /\ false = false \/ err = - EINVAL) /\ mounted 4096 [7; 0; 255] files free_memory.
Proof. apply (tarfs_mount_safe 4096 [7; 0; 255] false [] free_memory); [lia|reflexivity|reflexivity]. Defined.

Lemma tarfs_roundtrip_witness :
  let archive := concat (map entry_bytes entries) ++ replicate 1024 0 in
  exists f, tarfs_mount 0x100000 (0x100000 + zlen archive) archive false [] = Ok (0, [f]) /\
    cstr (tf_name f) = Some [100; 47; 97] /\ tarfs_read 0x100000 archive f 1 100 = Ok (mkRead 0 [105] 2).
Proof.
  intros archive. destruct (tarfs_roundtrip 0x100000 entries (replicate 1024 0) []) as (files & E & Hf);
    [lia|reflexivity|reflexivity|exact entries_ok|right; eexists; reflexivity|discriminate|].
  change (List.filter regular entries) with [mkEntry (header [100; 47; 97] 2 TAR_TYPE_NORMAL 1637) [100; 47; 97] false [104; 105] (replicate 510 0)] in Hf.
  inversion Hf as [|e f es fs [Hn Hr] Hrest]; subst. inversion Hrest; subst. exists f. split; [exact E|]. split; [exact Hn|]. rewrite Hr by lia. reflexivity.
Defined.

(** A name that fills its field of 100 bytes has no zero after it: the registered name
    goes on with the field after it, the mode. *)
Definition full_name : list Z := replicate 100 97.
Definition mode : list Z := [48; 48; 48; 48; 54; 52; 52].

Lemma full_names_run_on :
  match tarfs_mount 0 512 (header (full_name ++ mode) 0 TAR_TYPE_NORMAL 11441) false [] with
  | Ok (0, [f]) => cstr (tf_name f) = Some (full_name ++ mode)
  | _ => False
  end.
Proof. vm_compute. reflexivity. Qed.
