(* ===== verification/Multiboot.v ===== *)
(** * Boot information (src/kernel/init/multiboot.c, src/kernel/init/multiboot2.h)

    The tags that the boot loader leaves in memory, from which the kernel sets up its
    physical memory manager.  [info] is the list of the bytes of the structure; pointers
    into it are offsets.  The end of the kernel image, a symbol of the linker, is a
    parameter. *)

From S2P Require Import Prelude Bitmap Interfaces CString Pmm.

Definition MULTIBOOT2_BOOTLOADER_MAGIC : Z := 0x36d76289.
Definition MULTIBOOT_TAG_TYPE_END : Z := 0.
Definition MULTIBOOT_TAG_TYPE_MODULE : Z := 3.
Definition MULTIBOOT_TAG_TYPE_MMAP : Z := 6.
Definition MULTIBOOT_MEMORY_AVAILABLE : Z := 1.
Definition MAX_MODULES : Z := 8.
(** the end of the memory that the boot page tables map *)
Definition DIRECT_MAP : Z := 0x40000000.

(** [struct multiboot_mmap_entry] *)
Record mmap_entry : Type := mkMmap { me_addr : Z; me_len : Z; me_type : Z }.
(** [struct module_info], of the valid entries of the array *)
Record module_info : Type := mkModule { start_phys : Z; end_phys : Z }.

Definition get64 (m : list Z) (p : Z) : outcome Z :=
  let* l := get32 m p in let* h := get32 m (p + 4) in Ok (l + 2 ^ 32 * h).

Definition get_entry (info : list Z) (p : Z) : outcome mmap_entry :=
  let* a := get64 info p in let* l := get64 info (p + 8) in let* t := get32 info (p + 16) in Ok (mkMmap a l t).

Definition align_up_8 (val : Z) : Z := Z.land (u32 (val + 7)) (u32 (Z.lnot 7)).

(** The number of entries of a memory map. *)
Definition entry_count (size entry_size : Z) : nat := Z.to_nat (u32 ((size -64 16) / entry_size)).

Definition multiboot_get_module (modules : list module_info) (index : Z) : option (Z * Z) :=
  match znth modules index with Some m => Some (start_phys m, end_phys m) | None => None end.

Section Parse.
Context (info : list Z) (total_size : Z).

(** ** Pass 1: the highest address, and the modules *)
Fixpoint max_entries (n : nat) (p max_phys_addr : Z) : outcome Z :=
  match n with
  | O => Ok max_phys_addr
  | S k =>
    let* entry := get_entry info p in
    let end_addr := me_addr entry +64 me_len entry in
    let end_addr := if DIRECT_MAP <? end_addr then DIRECT_MAP else end_addr in
    max_entries k (p + 24) (if max_phys_addr <? end_addr then end_addr else max_phys_addr)
  end.

Definition read_module (iter : Z) (modules : list module_info) : outcome (list module_info) :=
  if zlen modules <? MAX_MODULES then
    let* mod_start := get32 info (iter + 8) in
    let* mod_end := get32 info (iter + 12) in
    if DIRECT_MAP <? mod_end then Stop (Panic 78) else Ok (modules ++ [mkModule mod_start mod_end])
  else Ok modules.

Fixpoint pass1 (fuel : nat) (iter max_phys_addr : Z) (modules : list module_info) : outcome (Z * list module_info) :=
  if iter <? total_size then
    match fuel with
    | O => Stop NoFuel
    | S k =>
      let* type := get32 info iter in
      if type =? MULTIBOOT_TAG_TYPE_END then Ok (max_phys_addr, modules)
      else
      let* size := get32 info (iter + 4) in
      let* max_phys_addr :=
        (if type =? MULTIBOOT_TAG_TYPE_MMAP then
           let* entry_size := get32 info (iter + 8) in
           if entry_size =? 0 then Stop DivideError
           else max_entries (entry_count size entry_size) (iter + 16) max_phys_addr
         else Ok max_phys_addr) in
      let* modules := (if type =? MULTIBOOT_TAG_TYPE_MODULE then read_module iter modules else Ok modules) in
      if size =? 0 then Stop (Panic 85) else pass1 k (iter + align_up_8 size) max_phys_addr modules
    end
  else Ok (max_phys_addr, modules).

(** ** Pass 2: the available regions *)
Fixpoint mark_entries (n : nat) (p : Z) (st : pmm) : outcome pmm :=
  match n with
  | O => Ok st
  | S k =>
    let* entry := get_entry info p in
    let* st := (if me_type entry =? MULTIBOOT_MEMORY_AVAILABLE then pmm_mark_region (me_addr entry) (me_len entry) true st else Ok st) in
    mark_entries k (p + 24) st
  end.

Fixpoint pass2 (fuel : nat) (iter : Z) (st : pmm) : outcome pmm :=
  if iter <? total_size then
    match fuel with
    | O => Stop NoFuel
    | S k =>
      let* type := get32 info iter in
      if type =? MULTIBOOT_TAG_TYPE_END then Ok st
      else
      let* size := get32 info (iter + 4) in
      let* st :=
        (if type =? MULTIBOOT_TAG_TYPE_MMAP then
           let* entry_size := get32 info (iter + 8) in
           if entry_size =? 0 then Stop (Panic 127)
           else mark_entries (entry_count size entry_size) (iter + 16) st
         else Ok st) in
      pass2 k (iter + align_up_8 size) st
    end
  else Ok st.

End Parse.

Definition highest_used (kernel_end_phys boot_structures_end : Z) (modules : list module_info) : Z :=
  fold_left (fun h m => if h <? end_phys m then end_phys m else h) modules
    (if kernel_end_phys <? boot_structures_end then boot_structures_end else kernel_end_phys).

Fixpoint reserve_modules (modules : list module_info) (st : pmm) : outcome pmm :=
  match modules with
  | [] => Ok st
  | m :: r => let* st := pmm_mark_region (start_phys m) (end_phys m -64 start_phys m) false st in reserve_modules r st
  end.

Definition multiboot_parse (kernel_end_phys magic info_addr_phys : Z) (info : list Z) : outcome (list module_info * pmm) :=
  if negb (magic =? MULTIBOOT2_BOOTLOADER_MAGIC) then Stop (Panic 32)
  else
  let* total_size := get32 info 0 in
  let fuel := Z.to_nat (total_size / 8) in
  let* (max_phys_addr, modules) := pass1 info total_size fuel 8 0 [] in
  let boot_structures_end := u32 (info_addr_phys + total_size) in
  let st := pmm_init (highest_used kernel_end_phys boot_structures_end modules) max_phys_addr in
  let* st := pass2 info total_size fuel 8 st in
  let* st := pmm_reserve_boot_regions st in
  let* st := pmm_mark_region info_addr_phys total_size false st in
  let* st := reserve_modules modules st in
  Ok (modules, st).

(** ** Specification *)
Inductive tag : Type :=
| TMmap (entries : list mmap_entry)
| TModule (m : module_info)
| TOther.

Definition entry_ok (e : mmap_entry) : Prop := 0 <= me_addr e /\ 0 <= me_len e /\ me_addr e + me_len e <= 2 ^ 64 - 4096.
Definition module_ok (m : module_info) : Prop := 0 <= start_phys m <= end_phys m /\ end_phys m <= DIRECT_MAP.

(** The entries of a memory map at [p]. *)
Fixpoint entries_at (info : list Z) (p : Z) (es : list mmap_entry) : Prop :=
  match es with
  | [] => True
  | e :: r => get_entry info p = Ok e /\ entry_ok e /\ entries_at info (p + 24) r
  end.

(** The tags from offset [p] on, up to the end tag or the end of the structure. *)
Inductive tags_at (info : list Z) (total : Z) : Z -> list tag -> Prop :=
| tags_over p : total <= p -> tags_at info total p []
| tags_end p : p < total -> get32 info p = Ok MULTIBOOT_TAG_TYPE_END -> tags_at info total p []
| tags_mmap p es l : p < total -> get32 info p = Ok MULTIBOOT_TAG_TYPE_MMAP -> get32 info (p + 4) = Ok (16 + 24 * zlen es) -> get32 info (p + 8) = Ok 24 ->
    16 + 24 * zlen es < 2 ^ 31 -> entries_at info (p + 16) es -> tags_at info total (p + align_up_8 (16 + 24 * zlen es)) l -> tags_at info total p (TMmap es :: l)
| tags_module p size m l : p < total -> get32 info p = Ok MULTIBOOT_TAG_TYPE_MODULE -> get32 info (p + 4) = Ok size -> 8 <= size < 2 ^ 31 ->
    get32 info (p + 8) = Ok (start_phys m) -> get32 info (p + 12) = Ok (end_phys m) -> module_ok m ->
    tags_at info total (p + align_up_8 size) l -> tags_at info total p (TModule m :: l)
| tags_other p type size l : p < total -> get32 info p = Ok type -> ~ In type [MULTIBOOT_TAG_TYPE_END; MULTIBOOT_TAG_TYPE_MODULE; MULTIBOOT_TAG_TYPE_MMAP] ->
    get32 info (p + 4) = Ok size -> 8 <= size < 2 ^ 31 -> tags_at info total (p + align_up_8 size) l -> tags_at info total p (TOther :: l).

Definition tag_entries (t : tag) : list mmap_entry := match t with TMmap es => es | _ => [] end.
Definition tag_modules (t : tag) : list module_info := match t with TModule m => [m] | _ => [] end.
Definition all_entries (l : list tag) : list mmap_entry := concat (map tag_entries l).
Definition all_modules (l : list tag) : list module_info := concat (map tag_modules l).

(** The end of memory: the highest end of a region, within the direct map. *)
Definition memory_end (es : list mmap_entry) : Z := fold_right (fun e x => Z.max (Z.min (me_addr e + me_len e) DIRECT_MAP) x) 0 es.

(** Frame [f] meets the region. *)
Definition meets (addr len f : Z) : bool := (addr / 4096 <=? f) && (f <? (addr + len + 4095) / 4096).

(** ** Proofs *)
Lemma align_up_8_spec v : 0 <= v < 2 ^ 31 -> align_up_8 v = 8 * ((v + 7) / 8).
Proof.
  intros Hv. unfold align_up_8. rewrite u32_id by lia. assert (Hm : Z.land (v + 7) (u32 (Z.lnot 7)) = Z.land (v + 7) (u64 (Z.lnot (2 ^ 3 - 1)))).
  { apply Z.bits_inj'. intros k Hk. rewrite !Z.land_spec. destruct (Z.testbit (v + 7) k) eqn:E; [|now rewrite !andb_false_l]. rewrite !andb_true_l.
    assert (Hk32 : k < 32). { destruct (Z.lt_ge_cases k 32); [assumption|]. rewrite Z.bits_above_log2 in E; [discriminate|lia|]. pose proof (Z.log2_lt_pow2 (v + 7) 32 ltac:(lia)). lia. }
    unfold u32, u64. now rewrite !Z.mod_pow2_bits_low by lia. }
  rewrite Hm, land_not_low by lia. change (2 ^ 3) with 8. pose proof (Z.div_mod (v + 7) 8 ltac:(lia)). lia.
Qed.

Lemma entry_count_spec n : 0 <= n -> 16 + 24 * n < 2 ^ 31 -> entry_count (16 + 24 * n) 24 = Z.to_nat n.
Proof.
  intros Hn Hl. unfold entry_count. rewrite u64_id by lia. replace (16 + 24 * n - 16) with (n * 24) by lia. rewrite Z.div_mul, u32_id by lia. reflexivity.
Qed.

Lemma max_entries_spec info es : forall p mx, entries_at info p es -> 0 <= mx ->
  max_entries info (length es) p mx = Ok (Z.max mx (memory_end es)).
Proof.
  induction es as [|e r IH]; intros p mx Hat Hmx; cbn [length max_entries memory_end fold_right]; [f_equal; lia|].
  destruct Hat as (-> & (H1 & H2 & H3) & Hr). cbn [obind]. rewrite u64_id by lia. fold (memory_end r).
  set (x := if DIRECT_MAP <? me_addr e + me_len e then DIRECT_MAP else me_addr e + me_len e).
  assert (Hx : x = Z.min (me_addr e + me_len e) DIRECT_MAP) by (subst x; split_if; reflect_bools; lia).
  assert (Hm : (if mx <? x then x else mx) = Z.max mx x) by (split_if; reflect_bools; lia).
  rewrite Hm, IH by (assumption || lia). f_equal. lia.
Qed.

Lemma memory_end_cons e l : memory_end (e :: l) = Z.max (Z.min (me_addr e + me_len e) DIRECT_MAP) (memory_end l).
Proof. reflexivity. Qed.

Lemma memory_end_app a b : memory_end (a ++ b) = Z.max (memory_end a) (memory_end b).
Proof.
  assert (Hpos : forall l, 0 <= memory_end l) by (induction l as [|e l IH]; [reflexivity|rewrite memory_end_cons; lia]).
  induction a as [|e a IH]; [change (memory_end []) with 0; specialize (Hpos b); cbn [app]; lia|]. cbn [app]. rewrite !memory_end_cons, IH. lia.
Qed.

Lemma pass1_spec info total p l : tags_at info total p l -> forall fuel mx mods, total - p <= 8 * Z.of_nat fuel -> 0 <= mx -> (length mods <= 8)%nat ->
  pass1 info total fuel p mx mods = Ok (Z.max mx (memory_end (all_entries l)), take 8 (mods ++ all_modules l)).
Proof.
  assert (Hdone : forall mx (mods : list module_info), 0 <= mx -> (length mods <= 8)%nat -> Ok (mx, mods) = Ok (Z.max mx (memory_end (all_entries [])), take 8 (mods ++ all_modules []))).
  { intros mx mods Hmx Hl. cbn. rewrite app_nil_r, take_ge by lia. do 2 f_equal. lia. }
  induction 1 as [p Hp|p Hp Ht|p es l Hp Ht Hs He Hlen Hat Hl IH|p size m l Hp Ht Hs Hsize H1 H2 [Hm1 Hm2] Hl IH|p type size l Hp Ht Hn Hs Hsize Hl IH];
    intros fuel mx mods Hf Hmx Hmods; destruct fuel as [|fuel]; cbn [pass1]; try (destruct (Z.ltb_spec p total); [lia|]; now apply Hdone);
    destruct (Z.ltb_spec p total); try lia; rewrite Ht; cbn [obind].
  - now apply Hdone.
  - pose proof (zlen_nonneg es). rewrite Hs, He. cbn [obind Z.eqb Pos.eqb MULTIBOOT_TAG_TYPE_MMAP MULTIBOOT_TAG_TYPE_END MULTIBOOT_TAG_TYPE_MODULE].
    rewrite entry_count_spec by lia. unfold zlen at 1. rewrite Nat2Z.id, (max_entries_spec info es) by assumption. cbn [obind].
    destruct (Z.eqb_spec (16 + 24 * zlen es) 0); [lia|]. rewrite IH; [|rewrite align_up_8_spec by lia; dlia|lia|exact Hmods].
    unfold all_entries, all_modules. cbn [map concat tag_entries tag_modules app]. rewrite memory_end_app. do 2 f_equal. lia.
  - rewrite Hs. cbn [obind Z.eqb Pos.eqb MULTIBOOT_TAG_TYPE_MMAP MULTIBOOT_TAG_TYPE_END MULTIBOOT_TAG_TYPE_MODULE]. unfold read_module.
    destruct (Z.eqb_spec size 0); [lia|]. assert (Hstep : total - (p + align_up_8 size) <= 8 * Z.of_nat fuel) by (rewrite align_up_8_spec by lia; dlia).
    unfold all_entries, all_modules. cbn [map concat tag_entries tag_modules app]. destruct (Z.ltb_spec (zlen mods) MAX_MODULES) as [Hlt|Hge]; unfold MAX_MODULES, zlen in *.
    + rewrite H1, H2. cbn [obind]. destruct (Z.ltb_spec DIRECT_MAP (end_phys m)); [lia|]. cbn [obind]. rewrite IH; [|exact Hstep|exact Hmx|rewrite length_app; cbn; lia].
      rewrite <- app_assoc. destruct m. reflexivity.
    + cbn [obind]. rewrite IH by assumption. rewrite !take_app_ge by lia. now replace (8 - length mods)%nat with 0%nat by lia.
  - assert (Htype : type <> MULTIBOOT_TAG_TYPE_END /\ type <> MULTIBOOT_TAG_TYPE_MODULE /\ type <> MULTIBOOT_TAG_TYPE_MMAP) by (cbn [In] in Hn; repeat split; intros ->; tauto).
    destruct Htype as (Hn1 & Hn2 & Hn3). rewrite (proj2 (Z.eqb_neq _ _) Hn1), (proj2 (Z.eqb_neq _ _) Hn2), (proj2 (Z.eqb_neq _ _) Hn3), Hs. cbn [obind].
    destruct (Z.eqb_spec size 0); [lia|]. apply IH; [rewrite align_up_8_spec by lia; dlia|assumption..].
Qed.

(** The frames that a list of regions makes free. *)
Definition available (es : list mmap_entry) (f : Z) : bool :=
  existsb (fun e => (me_type e =? MULTIBOOT_MEMORY_AVAILABLE) && meets (me_addr e) (me_len e) f) es.

(** [st'] is [st] with the frames of [new] free as well. *)
Definition freed (st st' : pmm) (new : Z -> bool) : Prop :=
  pmm_wf st' /\ same_layout st st' /\ forall f, free_frame st' f = free_frame st f || ((f <? total_frames st) && new f).

Lemma frames_freed_trans a b c p q : freed a b p -> freed b c q -> freed a c (fun f => p f || q f).
Proof.
  intros (_ & L1 & F1) (W2 & L2 & F2). split; [exact W2|]. split; [eapply same_layout_trans; eassumption|]. intros f. rewrite F2, F1.
  rewrite (proj1 L1). destruct (f <? total_frames a), (free_frame a f), (p f), (q f); reflexivity.
Qed.

Lemma mark_available st e : pmm_wf st -> entry_ok e ->
  exists st', (if me_type e =? MULTIBOOT_MEMORY_AVAILABLE then pmm_mark_region (me_addr e) (me_len e) true st else Ok st) = Ok st' /\ freed st st' (available [e]).
Proof.
  intros W (H1 & H2 & H3). unfold available. cbn [existsb]. destruct (me_type e =? MULTIBOOT_MEMORY_AVAILABLE); cbn [andb orb].
  - destruct (mark_region_spec st (me_addr e) (me_len e) true W H1 H2 H3) as (st' & -> & W' & L & F). exists st'. split; [reflexivity|]. split; [exact W'|]. split; [exact L|].
    intros f. rewrite F, orb_false_r. unfold meets. destruct (me_addr e / 4096 <=? f), (f <? (me_addr e + me_len e + 4095) / 4096), (f <? total_frames st), (free_frame st f); reflexivity.
  - exists st. split; [reflexivity|]. split; [exact W|]. split; [now repeat split|]. intros f. now rewrite andb_false_r, orb_false_r.
Qed.

Lemma frames_freed_nothing st p : pmm_wf st -> (forall f, p f = false) -> freed st st p.
Proof. intros W Hp. split; [exact W|]. split; [now repeat split|]. intros f. now rewrite Hp, andb_false_r, orb_false_r. Qed.

Lemma frames_freed_ext st st' p q : (forall f, p f = q f) -> freed st st' p -> freed st st' q.
Proof. intros Hpq (W & L & F). split; [exact W|]. split; [exact L|]. intros f. now rewrite F, Hpq. Qed.

Lemma mark_entries_spec info es : forall p st, entries_at info p es -> pmm_wf st ->
  exists st', mark_entries info (length es) p st = Ok st' /\ freed st st' (available es).
Proof.
  induction es as [|e r IH]; intros p st Hat W; cbn [length mark_entries]; [exists st; split; [reflexivity|now apply frames_freed_nothing]|].
  destruct Hat as (-> & He & Hr). cbn [obind]. destruct (mark_available st e W He) as (st1 & -> & F1). cbn [obind].
  destruct (IH (p + 24) st1 Hr (proj1 F1)) as (st2 & -> & F2). exists st2. split; [reflexivity|].
  eapply frames_freed_ext; [|exact (frames_freed_trans _ _ _ _ _ F1 F2)]. intros f. unfold available. cbn [existsb]. now rewrite orb_false_r.
Qed.

Lemma pass2_spec info total p l : tags_at info total p l -> forall fuel st, total - p <= 8 * Z.of_nat fuel -> pmm_wf st ->
  exists st', pass2 info total fuel p st = Ok st' /\ freed st st' (available (all_entries l)).
Proof.
  induction 1 as [p Hp|p Hp Ht|p es l Hp Ht Hs He Hlen Hat Hl IH|p size m l Hp Ht Hs Hsize H1 H2 [Hm1 Hm2] Hl IH|p type size l Hp Ht Hn Hs Hsize Hl IH];
    intros fuel st Hf W; destruct fuel as [|fuel]; cbn [pass2];
    try (destruct (Z.ltb_spec p total); [lia|]; exists st; split; [reflexivity|now apply frames_freed_nothing]);
    destruct (Z.ltb_spec p total); try lia; rewrite Ht; cbn [obind].
  - exists st. split; [reflexivity|now apply frames_freed_nothing].
  - pose proof (zlen_nonneg es). rewrite Hs, He. cbn [obind Z.eqb Pos.eqb MULTIBOOT_TAG_TYPE_MMAP MULTIBOOT_TAG_TYPE_END].
    rewrite entry_count_spec by lia. unfold zlen at 1. rewrite Nat2Z.id. destruct (mark_entries_spec info es _ st Hat W) as (st1 & -> & F1). cbn [obind].
    destruct (IH fuel st1) as (st2 & -> & F2); [rewrite align_up_8_spec by lia; dlia|apply F1|]. exists st2. split; [reflexivity|].
    eapply frames_freed_ext; [|exact (frames_freed_trans _ _ _ _ _ F1 F2)]. intros f. unfold all_entries, available. cbn [map concat tag_entries]. now rewrite existsb_app.
  - rewrite Hs. cbn [obind Z.eqb Pos.eqb MULTIBOOT_TAG_TYPE_MMAP MULTIBOOT_TAG_TYPE_END MULTIBOOT_TAG_TYPE_MODULE]. apply IH; [rewrite align_up_8_spec by lia; dlia|exact W].
  - assert (Htype : type <> MULTIBOOT_TAG_TYPE_END /\ type <> MULTIBOOT_TAG_TYPE_MMAP) by (cbn [In] in Hn; repeat split; intros ->; tauto).
    destruct Htype as (Hn1 & Hn3). rewrite (proj2 (Z.eqb_neq _ _) Hn1), (proj2 (Z.eqb_neq _ _) Hn3), Hs. cbn [obind].
    apply IH; [rewrite align_up_8_spec by lia; dlia|exact W].
Qed.

(** [st'] is [st] with the frames of [gone] in use. *)
Definition reserved (st st' : pmm) (gone : Z -> bool) : Prop :=
  pmm_wf st' /\ same_layout st st' /\ forall f, free_frame st' f = free_frame st f && negb (gone f).

Lemma reserve_spec st addr len : pmm_wf st -> 0 <= addr -> 0 <= len -> addr + len <= 2 ^ 64 - 4096 ->
  exists st', pmm_mark_region addr len false st = Ok st' /\ reserved st st' (meets addr len).
Proof.
  intros W H1 H2 H3. destruct (mark_region_spec st addr len false W H1 H2 H3) as (st' & -> & W' & L & F). exists st'. split; [reflexivity|]. split; [exact W'|]. split; [exact L|].
  intros f. rewrite F. unfold meets. destruct (addr / 4096 <=? f), (f <? (addr + len + 4095) / 4096); cbn [andb negb]; rewrite ?andb_true_r, ?andb_false_r; try reflexivity.
  destruct (Z.ltb_spec f (total_frames st)); [reflexivity|]. destruct (free_frame st f) eqn:E; [apply free_frame_range in E; lia|reflexivity].
Qed.

Lemma reserved_trans a b c p q : reserved a b p -> reserved b c q -> reserved a c (fun f => p f || q f).
Proof.
  intros (_ & L1 & F1) (W2 & L2 & F2). split; [exact W2|]. split; [eapply same_layout_trans; eassumption|]. intros f. rewrite F2, F1.
  destruct (free_frame a f), (p f), (q f); reflexivity.
Qed.

Definition in_module (mods : list module_info) (f : Z) : bool := existsb (fun m => meets (start_phys m) (end_phys m - start_phys m) f) mods.

Lemma reserve_modules_spec mods : Forall module_ok mods -> forall st, pmm_wf st -> exists st', reserve_modules mods st = Ok st' /\ reserved st st' (in_module mods).
Proof.
  induction 1 as [|m r [Hm1 Hm2] Hr IH]; intros st W; cbn [reserve_modules].
  { exists st. split; [reflexivity|]. split; [exact W|]. split; [now repeat split|]. intros f. now rewrite andb_true_r. }
  unfold DIRECT_MAP in Hm2. rewrite (u64_id (end_phys m - start_phys m)) by lia. destruct (reserve_spec st (start_phys m) (end_phys m - start_phys m) W) as (st1 & -> & R1); [lia..|]. cbn [obind].
  destruct (IH st1 (proj1 R1)) as (st2 & -> & R2). exists st2. split; [reflexivity|]. exact (reserved_trans _ _ _ _ _ R1 R2).
Qed.

Lemma highest_used_spec k b mods : let h := highest_used k b mods in
  k <= h /\ b <= h /\ Forall (fun m => end_phys m <= h) mods /\ forall x, k <= x -> b <= x -> Forall (fun m => end_phys m <= x) mods -> h <= x.
Proof.
  cbn zeta. unfold highest_used. set (a := if k <? b then b else k). assert (Ha : a = Z.max k b) by (subst a; split_if; reflect_bools; lia).
  assert (Hall : forall a, let h := fold_left (fun h m => if h <? end_phys m then end_phys m else h) mods a in
    a <= h /\ Forall (fun m => end_phys m <= h) mods /\ forall x, a <= x -> Forall (fun m => end_phys m <= x) mods -> h <= x).
  { clear a Ha. induction mods as [|m r IH]; intros a; cbn [fold_left]; [split; [lia|]; split; [constructor|auto]|].
    set (a' := if a <? end_phys m then end_phys m else a). assert (Ha' : a' = Z.max a (end_phys m)) by (subst a'; split_if; reflect_bools; lia).
    destruct (IH a') as (H1 & H2 & H3). split; [lia|]. split; [constructor; [lia|exact H2]|]. intros x Hx Hm. apply Forall_cons_iff in Hm as [Hm Hr]. apply H3; [lia|exact Hr]. }
  destruct (Hall a) as (H1 & H2 & H3). split; [lia|]. split; [lia|]. split; [exact H2|]. intros x Hk Hb Hm. apply H3; [lia|exact Hm].
Qed.

Lemma tags_modules_ok info total p l : tags_at info total p l -> Forall module_ok (all_modules l).
Proof. induction 1; unfold all_modules in *; cbn [map concat tag_modules app]; try constructor; auto. Qed.

Lemma memory_end_range es : 0 <= memory_end es <= DIRECT_MAP.
Proof. induction es as [|e r IH]; [unfold DIRECT_MAP; cbn; lia|]. rewrite memory_end_cons. lia. Qed.

(** The end of the bitmap: below it are the low memory, the kernel, the boot
    structures, the modules and the bitmap itself. *)
Definition bitmap_end (st : pmm) : Z := bitmap_phys_addr st + bitmap_size st.

(** C15: the boot information becomes the state of the physical memory manager: for
    every well-formed structure of tags, [multiboot_parse] returns the first eight
    modules and a memory manager that keeps its invariant, whose bitmap lies above the
    kernel, the structure and these modules, and in which a frame is free exactly when
    it lies below the end of memory, meets an available region, and meets neither what
    is below the end of the bitmap nor the structure nor a module. *)
Theorem multiboot_parse_correct kernel_end addr info total l
  (Ht : get32 info 0 = Ok total) (Hl : tags_at info total 8 l) (Ha : 0 <= addr) (Hs : 8 <= total) (He : addr + total < 2 ^ 32)
  (Hk : 0 <= kernel_end < 2 ^ 50) (Hm : memory_end (all_entries l) mod 4096 = 0) :
  let mods := take 8 (all_modules l) in
  exists st, multiboot_parse kernel_end MULTIBOOT2_BOOTLOADER_MAGIC addr info = Ok (mods, st) /\ fs_ok st /\
    max_physical_address st = memory_end (all_entries l) /\
    kernel_end <= bitmap_phys_addr st /\ addr + total <= bitmap_phys_addr st /\ Forall (fun m => end_phys m <= bitmap_phys_addr st) mods /\
    forall f, free_frame st f = true <->
      0 <= f < memory_end (all_entries l) / 4096 /\ available (all_entries l) f = true /\
      meets 0 (bitmap_end st) f = false /\ meets addr total f = false /\ in_module mods f = false.
Proof.
  intros mods. assert (Hmods : Forall module_ok mods) by (apply Forall_take, (tags_modules_ok info total 8 l Hl)).
  unfold multiboot_parse. rewrite Z.eqb_refl. cbn [negb]. rewrite Ht. cbn [obind].
  assert (Hfuel : total - 8 <= 8 * Z.of_nat (Z.to_nat (total / 8))) by (rewrite Z2Nat.id by dlia; dlia).
  rewrite (pass1_spec _ _ _ _ Hl) by (lia || cbn; lia). cbn [obind app]. fold mods. rewrite (u32_id (addr + total)) by lia.
  pose proof (memory_end_range (all_entries l)) as Hend. unfold DIRECT_MAP in Hend. rewrite Z.max_r by lia.
  destruct (highest_used_spec kernel_end (addr + total) mods) as (U1 & U2 & U3 & U4). set (h := highest_used kernel_end (addr + total) mods) in *.
  assert (Hh : h <= 2 ^ 50) by (apply U4; [lia|lia|eapply Forall_impl; [|exact Hmods]; intros m [_ Hm2]; unfold DIRECT_MAP in Hm2; lia]).
  destruct (init_wf h (memory_end (all_entries l))) as [W0 F0]; [lia|lia|exact Hm|]. set (st0 := pmm_init h (memory_end (all_entries l))) in *.
  destruct (pass2_spec _ _ _ _ Hl _ st0 Hfuel W0) as (st1 & -> & W1 & L1 & F1). cbn [obind]. unfold pmm_reserve_boot_regions.
  assert (Hb : bitmap_phys_addr st1 = 4096 * ((h + 4095) / 4096) /\ 0 <= bitmap_size st1 <= 2 ^ 20 /\ total_frames st1 = memory_end (all_entries l) / 4096).
  { destruct L1 as (L1 & _ & L2 & L3). rewrite L1, L2, L3. split; [|split; [|reflexivity]].
    - unfold st0. cbn [bitmap_phys_addr pmm_init]. unfold PMM_PAGE_SIZE. rewrite align_up_spec by lia. lia.
    - rewrite (wf_size _ W0). change (total_frames st0) with (memory_end (all_entries l) / 4096). dlia. }
  destruct Hb as (Hb1 & Hb2 & Hb3). rewrite (u64_id (bitmap_phys_addr st1 + bitmap_size st1)) by dlia.
  destruct (reserve_spec st1 0 (bitmap_phys_addr st1 + bitmap_size st1) W1) as (st2 & -> & R2); [dlia..|]. cbn [obind].
  destruct (reserve_spec st2 addr total (proj1 R2)) as (st3 & -> & R3); [lia..|]. cbn [obind].
  destruct (reserve_modules_spec mods Hmods st3 (proj1 R3)) as (st & -> & R4). cbn [obind]. exists st. split; [reflexivity|].
  pose proof (reserved_trans _ _ _ _ _ (reserved_trans _ _ _ _ _ R2 R3) R4) as (W & L & F). destruct L as (L0 & Lm & Lb & Ls). destruct L1 as (_ & Lm1 & _).
  assert (Hfree : forall f, free_frame st f = true <-> 0 <= f < memory_end (all_entries l) / 4096 /\ available (all_entries l) f = true /\
      meets 0 (bitmap_end st) f = false /\ meets addr total f = false /\ in_module mods f = false).
  { intros f. assert (Ef : free_frame st f = (f <? memory_end (all_entries l) / 4096) && available (all_entries l) f &&
        negb (meets 0 (bitmap_end st) f || meets addr total f || in_module mods f)).
    { unfold bitmap_end. rewrite Lb, Ls, F, F1, F0. reflexivity. }
    split.
    - intros Hf. pose proof (free_frame_range _ _ Hf) as Hr. rewrite L0, Hb3 in Hr. rewrite Ef, !andb_true_iff, negb_true_iff, !orb_false_iff in Hf. tauto.
    - intros (Hr & H1 & H2 & H3 & H4). rewrite Ef, H1, H2, H3, H4. destruct (Z.ltb_spec f (memory_end (all_entries l) / 4096)); [reflexivity|lia]. }
  split; [split; [exact W|split]|].
  - rewrite Lb, Ls. dlia.
  - intros f Hf. destruct (free_frame st f) eqn:Ef; [|reflexivity]. apply Hfree in Ef as (Hr & _ & Hno & _). unfold meets, bitmap_end, PMM_PAGE_SIZE in *.
    destruct (Z.leb_spec (0 / 4096) f), (Z.ltb_spec f ((0 + (bitmap_phys_addr st + bitmap_size st) + 4095) / 4096)); try discriminate; dlia.
  - split; [rewrite Lm, Lm1; reflexivity|]. rewrite Lb, Hb1. split; [dlia|]. split; [dlia|]. split; [|exact Hfree].
    eapply Forall_impl; [|exact U3]. cbn. intros m Hmm. dlia.
Qed.

(** A memory map with entries of size 0 divides by zero in the first pass, before the
    check in the second one. *)
Lemma zero_entry_size_divides kernel_end addr info total size :
  get32 info 0 = Ok total -> 16 <= total -> get32 info 8 = Ok MULTIBOOT_TAG_TYPE_MMAP -> get32 info 12 = Ok size -> get32 info 16 = Ok 0 ->
  multiboot_parse kernel_end MULTIBOOT2_BOOTLOADER_MAGIC addr info = Stop DivideError.
Proof.
  intros Ht Hs H8 H12 H16. unfold multiboot_parse. rewrite Z.eqb_refl, Ht. cbn [negb obind]. destruct (Z.to_nat (total / 8)) as [|k] eqn:E; [dlia|].
  cbn [pass1]. destruct (Z.ltb_spec 8 total); [|lia]. rewrite H8. cbn [obind]. change (8 + 4) with 12. change (8 + 8) with 16. rewrite H12, H16. reflexivity.
Qed.

(** ** A machine with 4 MiB, a module and a hole below 1 MiB *)
Definition word64 (v : Z) : list Z := le32 v ++ le32 0.
Definition region (addr len type : Z) : list Z := word64 addr ++ word64 len ++ le32 type ++ le32 0.
Definition boot_info (low high rest : list Z) : list Z :=
  le32 120 ++ le32 0 ++ le32 6 ++ le32 88 ++ le32 24 ++ le32 0 ++ low ++ high ++ rest ++
  le32 3 ++ le32 16 ++ le32 0x180000 ++ le32 0x181000 ++ le32 0 ++ le32 8.

Definition info4 : list Z := boot_info (region 0 0x9f000 1) (region 0x100000 0x2ff000 1) (region 0x3ff000 0x1000 2).
Definition tags4 : list tag := [TMmap [mkMmap 0 0x9f000 1; mkMmap 0x100000 0x2ff000 1; mkMmap 0x3ff000 0x1000 2]; TModule (mkModule 0x180000 0x181000)].

Lemma info4_tags : tags_at info4 120 8 tags4.
Proof.
  apply tags_mmap; try reflexivity.
  { repeat split; discriminate. }
  apply (tags_module info4 120 _ 16 (mkModule 0x180000 0x181000)); try reflexivity; try (split; [discriminate|reflexivity]); [split; [split|]; discriminate|].
  apply tags_end; reflexivity.
Qed.

Definition frees (o : outcome (list module_info * pmm)) (f : Z) : bool := match o with Ok (_, st) => free_frame st f | Stop _ => false end.

Lemma multiboot_parse_correct_witness :
  exists st, multiboot_parse 0x150000 MULTIBOOT2_BOOTLOADER_MAGIC 0x160000 info4 = Ok ([mkModule 0x180000 0x181000], st) /\ fs_ok st /\
    max_physical_address st = 0x400000 /\ free_frame st 0x9f = false /\ free_frame st 0x180 = false /\ free_frame st 0x3ff = false /\ free_frame st 0x182 = true.
Proof.
  destruct (multiboot_parse_correct 0x150000 0x160000 info4 120 tags4) as (st & E & Hok & Hmax & _ & _ & _ & Hf);
    [reflexivity|exact info4_tags|discriminate|discriminate|reflexivity|split; [discriminate|reflexivity]|reflexivity|].
  exists st. split; [exact E|]. split; [exact Hok|]. split; [exact Hmax|].
  assert (Hno : forall f, (available (all_entries tags4) f = false \/ in_module (take 8 (all_modules tags4)) f = true) -> free_frame st f = false).
  { intros f Hf'. destruct (free_frame st f) eqn:Ef; [|reflexivity]. apply Hf in Ef as (_ & H1 & _ & _ & H2). destruct Hf'; congruence. }
  split; [apply Hno; left; reflexivity|]. split; [apply Hno; right; reflexivity|]. split; [apply Hno; left; reflexivity|].
  assert (Hc : frees (multiboot_parse 0x150000 MULTIBOOT2_BOOTLOADER_MAGIC 0x160000 info4) 0x182 = true) by (vm_compute; reflexivity).
  exact (eq_trans (eq_sym (f_equal (fun o => frees o 0x182) E)) Hc).
Defined.

(** A frame that is available only in its first half becomes free. *)
Definition info_odd : list Z := boot_info (region 0 0x9f000 1) (region 0x100000 0x100800 1) (region 0x200800 0x1ff800 2).

Lemma partial_frames_freed : frees (multiboot_parse 0x150000 MULTIBOOT2_BOOTLOADER_MAGIC 0x160000 info_odd) 0x200 = true.
Proof. vm_compute. reflexivity. Qed.
